(** * Smart resume generator: text pipeline, templates and exporters

    A shallow embedding of the deterministic core of the resume generator
    ([text_enhancer.py], [resume_templates.py], [resume_export.py]) together
    with the properties its specification states about it, and of the
    functions around that core: the suggestions of [ai_suggestions.py],
    the dispatch and the fallbacks of [enhanced_resume_generator.py] and
    the years of experience of [linkedin_import.py], with the properties
    their code shows.

    Python [str] values are sequences of Unicode code points; they are
    modelled as lists of code points ([N]).  What [str.lower],
    [str.isupper], [str.isdigit], [str.capitalize] and the [\w], [\b] and
    [re.IGNORECASE] of the [re] module do to a code point is read from
    the Unicode database of the interpreter: the tables below are those
    of CPython 3.11 (Unicode 14.0.0), for every code point up to
    U+10FFFF. *)

From Stdlib Require Import String Ascii DecimalString.
From Stdlib Require Import List Bool Arith NArith ZArith Lia.
From Stdlib Require Import Sorting.Sorted Sorting.Permutation.
Import ListNotations.

Set Implicit Arguments.

(** * The program *)

(** ** Python strings *)

Definition char := N.

Definition text := list char.

Definition T (s : string) : text :=
  map N_of_ascii (list_ascii_of_string s).

Definition text_eqb (a b : text) : bool :=
  if list_eq_dec N.eq_dec a b then true else false.

Definition in_range (lo hi c : N) : bool := ((lo <=? c) && (c <=? hi))%N.

(** ** Character tables

    A class of code points is a list of runs [(first, last, step)], in
    the order of [first]: the points [first], [first + step], ... up to
    [last]. *)
Definition runs := list (N * N * N).

Fixpoint in_runs (table : runs) (c : char) : bool :=
  match table with
  | [] => false
  | (first, last, step) :: table' =>
      if (c <? first)%N then false
      else if ((c <=? last) && ((c - first) mod step =? 0))%N then true
      else in_runs table' c
  end.

(** A case mapping is a list of runs with the image of [first]: every
    point of a run is as far from its image as [first] is; a point of no
    run is its own image. *)
Definition mapping := list (N * N * N * N).

Fixpoint map_char (table : mapping) (c : char) : char :=
  match table with
  | [] => c
  | (first, last, step, image) :: table' =>
      if (c <? first)%N then c
      else if ((c <=? last) && ((c - first) mod step =? 0))%N
      then (image + (c - first))%N
      else map_char table' c
  end.

(** [str.isalnum] on one code point. *)
Definition ALNUM : runs :=
  [ (48, 57, 1); (65, 90, 1); (97, 122, 1); (170, 170, 1); (178, 179, 1);
    (181, 181, 1); (185, 186, 1); (188, 190, 1); (192, 214, 1);
    (216, 246, 1); (248, 705, 1); (710, 721, 1); (736, 740, 1);
    (748, 748, 1); (750, 750, 1); (880, 884, 1); (886, 887, 1);
    (890, 893, 1); (895, 895, 1); (902, 902, 1); (904, 906, 1);
    (908, 908, 1); (910, 929, 1); (931, 1013, 1); (1015, 1153, 1);
    (1162, 1327, 1); (1329, 1366, 1); (1369, 1369, 1); (1376, 1416, 1);
    (1488, 1514, 1); (1519, 1522, 1); (1568, 1610, 1); (1632, 1641, 1);
    (1646, 1647, 1); (1649, 1747, 1); (1749, 1749, 1); (1765, 1766, 1);
    (1774, 1788, 1); (1791, 1791, 1); (1808, 1808, 1); (1810, 1839, 1);
    (1869, 1957, 1); (1969, 1969, 1); (1984, 2026, 1); (2036, 2037, 1);
    (2042, 2042, 1); (2048, 2069, 1); (2074, 2074, 1); (2084, 2084, 1);
    (2088, 2088, 1); (2112, 2136, 1); (2144, 2154, 1); (2160, 2183, 1);
    (2185, 2190, 1); (2208, 2249, 1); (2308, 2361, 1); (2365, 2365, 1);
    (2384, 2384, 1); (2392, 2401, 1); (2406, 2415, 1); (2417, 2432, 1);
    (2437, 2444, 1); (2447, 2448, 1); (2451, 2472, 1); (2474, 2480, 1);
    (2482, 2482, 1); (2486, 2489, 1); (2493, 2493, 1); (2510, 2510, 1);
    (2524, 2525, 1); (2527, 2529, 1); (2534, 2545, 1); (2548, 2553, 1);
    (2556, 2556, 1); (2565, 2570, 1); (2575, 2576, 1); (2579, 2600, 1);
    (2602, 2608, 1); (2610, 2611, 1); (2613, 2614, 1); (2616, 2617, 1);
    (2649, 2652, 1); (2654, 2654, 1); (2662, 2671, 1); (2674, 2676, 1);
    (2693, 2701, 1); (2703, 2705, 1); (2707, 2728, 1); (2730, 2736, 1);
    (2738, 2739, 1); (2741, 2745, 1); (2749, 2749, 1); (2768, 2768, 1);
    (2784, 2785, 1); (2790, 2799, 1); (2809, 2809, 1); (2821, 2828, 1);
    (2831, 2832, 1); (2835, 2856, 1); (2858, 2864, 1); (2866, 2867, 1);
    (2869, 2873, 1); (2877, 2877, 1); (2908, 2909, 1); (2911, 2913, 1);
    (2918, 2927, 1); (2929, 2935, 1); (2947, 2947, 1); (2949, 2954, 1);
    (2958, 2960, 1); (2962, 2965, 1); (2969, 2970, 1); (2972, 2972, 1);
    (2974, 2975, 1); (2979, 2980, 1); (2984, 2986, 1); (2990, 3001, 1);
    (3024, 3024, 1); (3046, 3058, 1); (3077, 3084, 1); (3086, 3088, 1);
    (3090, 3112, 1); (3114, 3129, 1); (3133, 3133, 1); (3160, 3162, 1);
    (3165, 3165, 1); (3168, 3169, 1); (3174, 3183, 1); (3192, 3198, 1);
    (3200, 3200, 1); (3205, 3212, 1); (3214, 3216, 1); (3218, 3240, 1);
    (3242, 3251, 1); (3253, 3257, 1); (3261, 3261, 1); (3293, 3294, 1);
    (3296, 3297, 1); (3302, 3311, 1); (3313, 3314, 1); (3332, 3340, 1);
    (3342, 3344, 1); (3346, 3386, 1); (3389, 3389, 1); (3406, 3406, 1);
    (3412, 3414, 1); (3416, 3425, 1); (3430, 3448, 1); (3450, 3455, 1);
    (3461, 3478, 1); (3482, 3505, 1); (3507, 3515, 1); (3517, 3517, 1);
    (3520, 3526, 1); (3558, 3567, 1); (3585, 3632, 1); (3634, 3635, 1);
    (3648, 3654, 1); (3664, 3673, 1); (3713, 3714, 1); (3716, 3716, 1);
    (3718, 3722, 1); (3724, 3747, 1); (3749, 3749, 1); (3751, 3760, 1);
    (3762, 3763, 1); (3773, 3773, 1); (3776, 3780, 1); (3782, 3782, 1);
    (3792, 3801, 1); (3804, 3807, 1); (3840, 3840, 1); (3872, 3891, 1);
    (3904, 3911, 1); (3913, 3948, 1); (3976, 3980, 1); (4096, 4138, 1);
    (4159, 4169, 1); (4176, 4181, 1); (4186, 4189, 1); (4193, 4193, 1);
    (4197, 4198, 1); (4206, 4208, 1); (4213, 4225, 1); (4238, 4238, 1);
    (4240, 4249, 1); (4256, 4293, 1); (4295, 4295, 1); (4301, 4301, 1);
    (4304, 4346, 1); (4348, 4680, 1); (4682, 4685, 1); (4688, 4694, 1);
    (4696, 4696, 1); (4698, 4701, 1); (4704, 4744, 1); (4746, 4749, 1);
    (4752, 4784, 1); (4786, 4789, 1); (4792, 4798, 1); (4800, 4800, 1);
    (4802, 4805, 1); (4808, 4822, 1); (4824, 4880, 1); (4882, 4885, 1);
    (4888, 4954, 1); (4969, 4988, 1); (4992, 5007, 1); (5024, 5109, 1);
    (5112, 5117, 1); (5121, 5740, 1); (5743, 5759, 1); (5761, 5786, 1);
    (5792, 5866, 1); (5870, 5880, 1); (5888, 5905, 1); (5919, 5937, 1);
    (5952, 5969, 1); (5984, 5996, 1); (5998, 6000, 1); (6016, 6067, 1);
    (6103, 6103, 1); (6108, 6108, 1); (6112, 6121, 1); (6128, 6137, 1);
    (6160, 6169, 1); (6176, 6264, 1); (6272, 6276, 1); (6279, 6312, 1);
    (6314, 6314, 1); (6320, 6389, 1); (6400, 6430, 1); (6470, 6509, 1);
    (6512, 6516, 1); (6528, 6571, 1); (6576, 6601, 1); (6608, 6618, 1);
    (6656, 6678, 1); (6688, 6740, 1); (6784, 6793, 1); (6800, 6809, 1);
    (6823, 6823, 1); (6917, 6963, 1); (6981, 6988, 1); (6992, 7001, 1);
    (7043, 7072, 1); (7086, 7141, 1); (7168, 7203, 1); (7232, 7241, 1);
    (7245, 7293, 1); (7296, 7304, 1); (7312, 7354, 1); (7357, 7359, 1);
    (7401, 7404, 1); (7406, 7411, 1); (7413, 7414, 1); (7418, 7418, 1);
    (7424, 7615, 1); (7680, 7957, 1); (7960, 7965, 1); (7968, 8005, 1);
    (8008, 8013, 1); (8016, 8023, 1); (8025, 8031, 2); (8032, 8061, 1);
    (8064, 8116, 1); (8118, 8124, 1); (8126, 8126, 1); (8130, 8132, 1);
    (8134, 8140, 1); (8144, 8147, 1); (8150, 8155, 1); (8160, 8172, 1);
    (8178, 8180, 1); (8182, 8188, 1); (8304, 8305, 1); (8308, 8313, 1);
    (8319, 8329, 1); (8336, 8348, 1); (8450, 8450, 1); (8455, 8455, 1);
    (8458, 8467, 1); (8469, 8469, 1); (8473, 8477, 1); (8484, 8490, 2);
    (8491, 8493, 1); (8495, 8505, 1); (8508, 8511, 1); (8517, 8521, 1);
    (8526, 8526, 1); (8528, 8585, 1); (9312, 9371, 1); (9450, 9471, 1);
    (10102, 10131, 1); (11264, 11492, 1); (11499, 11502, 1);
    (11506, 11507, 1); (11517, 11517, 1); (11520, 11557, 1);
    (11559, 11559, 1); (11565, 11565, 1); (11568, 11623, 1);
    (11631, 11631, 1); (11648, 11670, 1); (11680, 11686, 1);
    (11688, 11694, 1); (11696, 11702, 1); (11704, 11710, 1);
    (11712, 11718, 1); (11720, 11726, 1); (11728, 11734, 1);
    (11736, 11742, 1); (11823, 11823, 1); (12293, 12295, 1);
    (12321, 12329, 1); (12337, 12341, 1); (12344, 12348, 1);
    (12353, 12438, 1); (12445, 12447, 1); (12449, 12538, 1);
    (12540, 12543, 1); (12549, 12591, 1); (12593, 12686, 1);
    (12690, 12693, 1); (12704, 12735, 1); (12784, 12799, 1);
    (12832, 12841, 1); (12872, 12879, 1); (12881, 12895, 1);
    (12928, 12937, 1); (12977, 12991, 1); (13312, 19903, 1);
    (19968, 42124, 1); (42192, 42237, 1); (42240, 42508, 1);
    (42512, 42539, 1); (42560, 42606, 1); (42623, 42653, 1);
    (42656, 42735, 1); (42775, 42783, 1); (42786, 42888, 1);
    (42891, 42954, 1); (42960, 42961, 1); (42963, 42963, 1);
    (42965, 42969, 1); (42994, 43009, 1); (43011, 43013, 1);
    (43015, 43018, 1); (43020, 43042, 1); (43056, 43061, 1);
    (43072, 43123, 1); (43138, 43187, 1); (43216, 43225, 1);
    (43250, 43255, 1); (43259, 43259, 1); (43261, 43262, 1);
    (43264, 43301, 1); (43312, 43334, 1); (43360, 43388, 1);
    (43396, 43442, 1); (43471, 43481, 1); (43488, 43492, 1);
    (43494, 43518, 1); (43520, 43560, 1); (43584, 43586, 1);
    (43588, 43595, 1); (43600, 43609, 1); (43616, 43638, 1);
    (43642, 43642, 1); (43646, 43695, 1); (43697, 43697, 1);
    (43701, 43702, 1); (43705, 43709, 1); (43712, 43712, 1);
    (43714, 43714, 1); (43739, 43741, 1); (43744, 43754, 1);
    (43762, 43764, 1); (43777, 43782, 1); (43785, 43790, 1);
    (43793, 43798, 1); (43808, 43814, 1); (43816, 43822, 1);
    (43824, 43866, 1); (43868, 43881, 1); (43888, 44002, 1);
    (44016, 44025, 1); (44032, 55203, 1); (55216, 55238, 1);
    (55243, 55291, 1); (63744, 64109, 1); (64112, 64217, 1);
    (64256, 64262, 1); (64275, 64279, 1); (64285, 64285, 1);
    (64287, 64296, 1); (64298, 64310, 1); (64312, 64316, 1);
    (64318, 64318, 1); (64320, 64321, 1); (64323, 64324, 1);
    (64326, 64433, 1); (64467, 64829, 1); (64848, 64911, 1);
    (64914, 64967, 1); (65008, 65019, 1); (65136, 65140, 1);
    (65142, 65276, 1); (65296, 65305, 1); (65313, 65338, 1);
    (65345, 65370, 1); (65382, 65470, 1); (65474, 65479, 1);
    (65482, 65487, 1); (65490, 65495, 1); (65498, 65500, 1);
    (65536, 65547, 1); (65549, 65574, 1); (65576, 65594, 1);
    (65596, 65597, 1); (65599, 65613, 1); (65616, 65629, 1);
    (65664, 65786, 1); (65799, 65843, 1); (65856, 65912, 1);
    (65930, 65931, 1); (66176, 66204, 1); (66208, 66256, 1);
    (66273, 66299, 1); (66304, 66339, 1); (66349, 66378, 1);
    (66384, 66421, 1); (66432, 66461, 1); (66464, 66499, 1);
    (66504, 66511, 1); (66513, 66517, 1); (66560, 66717, 1);
    (66720, 66729, 1); (66736, 66771, 1); (66776, 66811, 1);
    (66816, 66855, 1); (66864, 66915, 1); (66928, 66938, 1);
    (66940, 66954, 1); (66956, 66962, 1); (66964, 66965, 1);
    (66967, 66977, 1); (66979, 66993, 1); (66995, 67001, 1);
    (67003, 67004, 1); (67072, 67382, 1); (67392, 67413, 1);
    (67424, 67431, 1); (67456, 67461, 1); (67463, 67504, 1);
    (67506, 67514, 1); (67584, 67589, 1); (67592, 67592, 1);
    (67594, 67637, 1); (67639, 67640, 1); (67644, 67644, 1);
    (67647, 67669, 1); (67672, 67702, 1); (67705, 67742, 1);
    (67751, 67759, 1); (67808, 67826, 1); (67828, 67829, 1);
    (67835, 67867, 1); (67872, 67897, 1); (67968, 68023, 1);
    (68028, 68047, 1); (68050, 68096, 1); (68112, 68115, 1);
    (68117, 68119, 1); (68121, 68149, 1); (68160, 68168, 1);
    (68192, 68222, 1); (68224, 68255, 1); (68288, 68295, 1);
    (68297, 68324, 1); (68331, 68335, 1); (68352, 68405, 1);
    (68416, 68437, 1); (68440, 68466, 1); (68472, 68497, 1);
    (68521, 68527, 1); (68608, 68680, 1); (68736, 68786, 1);
    (68800, 68850, 1); (68858, 68899, 1); (68912, 68921, 1);
    (69216, 69246, 1); (69248, 69289, 1); (69296, 69297, 1);
    (69376, 69415, 1); (69424, 69445, 1); (69457, 69460, 1);
    (69488, 69505, 1); (69552, 69579, 1); (69600, 69622, 1);
    (69635, 69687, 1); (69714, 69743, 1); (69745, 69746, 1);
    (69749, 69749, 1); (69763, 69807, 1); (69840, 69864, 1);
    (69872, 69881, 1); (69891, 69926, 1); (69942, 69951, 1);
    (69956, 69956, 1); (69959, 69959, 1); (69968, 70002, 1);
    (70006, 70006, 1); (70019, 70066, 1); (70081, 70084, 1);
    (70096, 70106, 1); (70108, 70108, 1); (70113, 70132, 1);
    (70144, 70161, 1); (70163, 70187, 1); (70272, 70278, 1);
    (70280, 70280, 1); (70282, 70285, 1); (70287, 70301, 1);
    (70303, 70312, 1); (70320, 70366, 1); (70384, 70393, 1);
    (70405, 70412, 1); (70415, 70416, 1); (70419, 70440, 1);
    (70442, 70448, 1); (70450, 70451, 1); (70453, 70457, 1);
    (70461, 70461, 1); (70480, 70480, 1); (70493, 70497, 1);
    (70656, 70708, 1); (70727, 70730, 1); (70736, 70745, 1);
    (70751, 70753, 1); (70784, 70831, 1); (70852, 70853, 1);
    (70855, 70855, 1); (70864, 70873, 1); (71040, 71086, 1);
    (71128, 71131, 1); (71168, 71215, 1); (71236, 71236, 1);
    (71248, 71257, 1); (71296, 71338, 1); (71352, 71352, 1);
    (71360, 71369, 1); (71424, 71450, 1); (71472, 71483, 1);
    (71488, 71494, 1); (71680, 71723, 1); (71840, 71922, 1);
    (71935, 71942, 1); (71945, 71945, 1); (71948, 71955, 1);
    (71957, 71958, 1); (71960, 71983, 1); (71999, 71999, 1);
    (72001, 72001, 1); (72016, 72025, 1); (72096, 72103, 1);
    (72106, 72144, 1); (72161, 72161, 1); (72163, 72163, 1);
    (72192, 72192, 1); (72203, 72242, 1); (72250, 72250, 1);
    (72272, 72272, 1); (72284, 72329, 1); (72349, 72349, 1);
    (72368, 72440, 1); (72704, 72712, 1); (72714, 72750, 1);
    (72768, 72768, 1); (72784, 72812, 1); (72818, 72847, 1);
    (72960, 72966, 1); (72968, 72969, 1); (72971, 73008, 1);
    (73030, 73030, 1); (73040, 73049, 1); (73056, 73061, 1);
    (73063, 73064, 1); (73066, 73097, 1); (73112, 73112, 1);
    (73120, 73129, 1); (73440, 73458, 1); (73648, 73648, 1);
    (73664, 73684, 1); (73728, 74649, 1); (74752, 74862, 1);
    (74880, 75075, 1); (77712, 77808, 1); (77824, 78894, 1);
    (82944, 83526, 1); (92160, 92728, 1); (92736, 92766, 1);
    (92768, 92777, 1); (92784, 92862, 1); (92864, 92873, 1);
    (92880, 92909, 1); (92928, 92975, 1); (92992, 92995, 1);
    (93008, 93017, 1); (93019, 93025, 1); (93027, 93047, 1);
    (93053, 93071, 1); (93760, 93846, 1); (93952, 94026, 1);
    (94032, 94032, 1); (94099, 94111, 1); (94176, 94177, 1);
    (94179, 94179, 1); (94208, 100343, 1); (100352, 101589, 1);
    (101632, 101640, 1); (110576, 110579, 1); (110581, 110587, 1);
    (110589, 110590, 1); (110592, 110882, 1); (110928, 110930, 1);
    (110948, 110951, 1); (110960, 111355, 1); (113664, 113770, 1);
    (113776, 113788, 1); (113792, 113800, 1); (113808, 113817, 1);
    (119520, 119539, 1); (119648, 119672, 1); (119808, 119892, 1);
    (119894, 119964, 1); (119966, 119967, 1); (119970, 119970, 1);
    (119973, 119974, 1); (119977, 119980, 1); (119982, 119993, 1);
    (119995, 119995, 1); (119997, 120003, 1); (120005, 120069, 1);
    (120071, 120074, 1); (120077, 120084, 1); (120086, 120092, 1);
    (120094, 120121, 1); (120123, 120126, 1); (120128, 120132, 1);
    (120134, 120134, 1); (120138, 120144, 1); (120146, 120485, 1);
    (120488, 120512, 1); (120514, 120538, 1); (120540, 120570, 1);
    (120572, 120596, 1); (120598, 120628, 1); (120630, 120654, 1);
    (120656, 120686, 1); (120688, 120712, 1); (120714, 120744, 1);
    (120746, 120770, 1); (120772, 120779, 1); (120782, 120831, 1);
    (122624, 122654, 1); (123136, 123180, 1); (123191, 123197, 1);
    (123200, 123209, 1); (123214, 123214, 1); (123536, 123565, 1);
    (123584, 123627, 1); (123632, 123641, 1); (124896, 124902, 1);
    (124904, 124907, 1); (124909, 124910, 1); (124912, 124926, 1);
    (124928, 125124, 1); (125127, 125135, 1); (125184, 125251, 1);
    (125259, 125259, 1); (125264, 125273, 1); (126065, 126123, 1);
    (126125, 126127, 1); (126129, 126132, 1); (126209, 126253, 1);
    (126255, 126269, 1); (126464, 126467, 1); (126469, 126495, 1);
    (126497, 126498, 1); (126500, 126500, 1); (126503, 126503, 1);
    (126505, 126514, 1); (126516, 126519, 1); (126521, 126521, 1);
    (126523, 126523, 1); (126530, 126530, 1); (126535, 126541, 2);
    (126542, 126543, 1); (126545, 126546, 1); (126548, 126548, 1);
    (126551, 126561, 2); (126562, 126562, 1); (126564, 126564, 1);
    (126567, 126570, 1); (126572, 126578, 1); (126580, 126583, 1);
    (126585, 126588, 1); (126590, 126590, 1); (126592, 126601, 1);
    (126603, 126619, 1); (126625, 126627, 1); (126629, 126633, 1);
    (126635, 126651, 1); (127232, 127244, 1); (130032, 130041, 1);
    (131072, 173791, 1); (173824, 177976, 1); (177984, 178205, 1);
    (178208, 183969, 1); (183984, 191456, 1); (194560, 195101, 1);
    (196608, 201546, 1) ]%N.

(** [str.isupper] on one code point. *)
Definition UPPERCASE : runs :=
  [ (65, 90, 1); (192, 214, 1); (216, 222, 1); (256, 310, 2); (313, 327, 2);
    (330, 376, 2); (377, 381, 2); (385, 386, 1); (388, 388, 1);
    (390, 391, 1); (393, 395, 1); (398, 401, 1); (403, 404, 1);
    (406, 408, 1); (412, 413, 1); (415, 416, 1); (418, 422, 2);
    (423, 423, 1); (425, 425, 1); (428, 428, 1); (430, 431, 1);
    (433, 435, 1); (437, 437, 1); (439, 440, 1); (444, 444, 1);
    (452, 452, 1); (455, 455, 1); (458, 458, 1); (461, 475, 2);
    (478, 494, 2); (497, 497, 1); (500, 500, 1); (502, 504, 1);
    (506, 562, 2); (570, 571, 1); (573, 574, 1); (577, 577, 1);
    (579, 582, 1); (584, 590, 2); (880, 880, 1); (882, 882, 1);
    (886, 886, 1); (895, 895, 1); (902, 902, 1); (904, 906, 1);
    (908, 908, 1); (910, 911, 1); (913, 929, 1); (931, 939, 1);
    (975, 975, 1); (978, 980, 1); (984, 1006, 2); (1012, 1012, 1);
    (1015, 1015, 1); (1017, 1018, 1); (1021, 1071, 1); (1120, 1152, 2);
    (1162, 1216, 2); (1217, 1229, 2); (1232, 1326, 2); (1329, 1366, 1);
    (4256, 4293, 1); (4295, 4295, 1); (4301, 4301, 1); (5024, 5109, 1);
    (7312, 7354, 1); (7357, 7359, 1); (7680, 7828, 2); (7838, 7934, 2);
    (7944, 7951, 1); (7960, 7965, 1); (7976, 7983, 1); (7992, 7999, 1);
    (8008, 8013, 1); (8025, 8031, 2); (8040, 8047, 1); (8120, 8123, 1);
    (8136, 8139, 1); (8152, 8155, 1); (8168, 8172, 1); (8184, 8187, 1);
    (8450, 8450, 1); (8455, 8455, 1); (8459, 8461, 1); (8464, 8466, 1);
    (8469, 8469, 1); (8473, 8477, 1); (8484, 8490, 2); (8491, 8493, 1);
    (8496, 8499, 1); (8510, 8511, 1); (8517, 8517, 1); (8544, 8559, 1);
    (8579, 8579, 1); (9398, 9423, 1); (11264, 11311, 1); (11360, 11360, 1);
    (11362, 11364, 1); (11367, 11373, 2); (11374, 11376, 1);
    (11378, 11378, 1); (11381, 11381, 1); (11390, 11392, 1);
    (11394, 11490, 2); (11499, 11499, 1); (11501, 11501, 1);
    (11506, 11506, 1); (42560, 42604, 2); (42624, 42650, 2);
    (42786, 42798, 2); (42802, 42862, 2); (42873, 42877, 2);
    (42878, 42886, 2); (42891, 42891, 1); (42893, 42893, 1);
    (42896, 42896, 1); (42898, 42898, 1); (42902, 42922, 2);
    (42923, 42926, 1); (42928, 42932, 1); (42934, 42948, 2);
    (42949, 42951, 1); (42953, 42953, 1); (42960, 42960, 1);
    (42966, 42966, 1); (42968, 42968, 1); (42997, 42997, 1);
    (65313, 65338, 1); (66560, 66599, 1); (66736, 66771, 1);
    (66928, 66938, 1); (66940, 66954, 1); (66956, 66962, 1);
    (66964, 66965, 1); (68736, 68786, 1); (71840, 71871, 1);
    (93760, 93791, 1); (119808, 119833, 1); (119860, 119885, 1);
    (119912, 119937, 1); (119964, 119964, 1); (119966, 119967, 1);
    (119970, 119970, 1); (119973, 119974, 1); (119977, 119980, 1);
    (119982, 119989, 1); (120016, 120041, 1); (120068, 120069, 1);
    (120071, 120074, 1); (120077, 120084, 1); (120086, 120092, 1);
    (120120, 120121, 1); (120123, 120126, 1); (120128, 120132, 1);
    (120134, 120134, 1); (120138, 120144, 1); (120172, 120197, 1);
    (120224, 120249, 1); (120276, 120301, 1); (120328, 120353, 1);
    (120380, 120405, 1); (120432, 120457, 1); (120488, 120512, 1);
    (120546, 120570, 1); (120604, 120628, 1); (120662, 120686, 1);
    (120720, 120744, 1); (120778, 120778, 1); (125184, 125217, 1);
    (127280, 127305, 1); (127312, 127337, 1); (127344, 127369, 1) ]%N.

(** [str.isdigit] on one code point. *)
Definition DIGIT : runs :=
  [ (48, 57, 1); (178, 179, 1); (185, 185, 1); (1632, 1641, 1);
    (1776, 1785, 1); (1984, 1993, 1); (2406, 2415, 1); (2534, 2543, 1);
    (2662, 2671, 1); (2790, 2799, 1); (2918, 2927, 1); (3046, 3055, 1);
    (3174, 3183, 1); (3302, 3311, 1); (3430, 3439, 1); (3558, 3567, 1);
    (3664, 3673, 1); (3792, 3801, 1); (3872, 3881, 1); (4160, 4169, 1);
    (4240, 4249, 1); (4969, 4977, 1); (6112, 6121, 1); (6160, 6169, 1);
    (6470, 6479, 1); (6608, 6618, 1); (6784, 6793, 1); (6800, 6809, 1);
    (6992, 7001, 1); (7088, 7097, 1); (7232, 7241, 1); (7248, 7257, 1);
    (8304, 8304, 1); (8308, 8313, 1); (8320, 8329, 1); (9312, 9320, 1);
    (9332, 9340, 1); (9352, 9360, 1); (9450, 9450, 1); (9461, 9469, 1);
    (9471, 9471, 1); (10102, 10110, 1); (10112, 10120, 1); (10122, 10130, 1);
    (42528, 42537, 1); (43216, 43225, 1); (43264, 43273, 1);
    (43472, 43481, 1); (43504, 43513, 1); (43600, 43609, 1);
    (44016, 44025, 1); (65296, 65305, 1); (66720, 66729, 1);
    (68160, 68163, 1); (68912, 68921, 1); (69216, 69224, 1);
    (69714, 69722, 1); (69734, 69743, 1); (69872, 69881, 1);
    (69942, 69951, 1); (70096, 70105, 1); (70384, 70393, 1);
    (70736, 70745, 1); (70864, 70873, 1); (71248, 71257, 1);
    (71360, 71369, 1); (71472, 71481, 1); (71904, 71913, 1);
    (72016, 72025, 1); (72784, 72793, 1); (73040, 73049, 1);
    (73120, 73129, 1); (92768, 92777, 1); (92864, 92873, 1);
    (93008, 93017, 1); (120782, 120831, 1); (123200, 123209, 1);
    (123632, 123641, 1); (125264, 125273, 1); (127232, 127242, 1);
    (130032, 130041, 1) ]%N.

(** The code points with an upper, lower or title case. *)
Definition CASED : runs :=
  [ (65, 90, 1); (97, 122, 1); (170, 170, 1); (181, 181, 1); (186, 186, 1);
    (192, 214, 1); (216, 246, 1); (248, 442, 1); (444, 447, 1);
    (452, 659, 1); (661, 696, 1); (704, 705, 1); (736, 740, 1);
    (837, 837, 1); (880, 883, 1); (886, 887, 1); (890, 893, 1);
    (895, 895, 1); (902, 902, 1); (904, 906, 1); (908, 908, 1);
    (910, 929, 1); (931, 1013, 1); (1015, 1153, 1); (1162, 1327, 1);
    (1329, 1366, 1); (1376, 1416, 1); (4256, 4293, 1); (4295, 4295, 1);
    (4301, 4301, 1); (4304, 4346, 1); (4349, 4351, 1); (5024, 5109, 1);
    (5112, 5117, 1); (7296, 7304, 1); (7312, 7354, 1); (7357, 7359, 1);
    (7424, 7615, 1); (7680, 7957, 1); (7960, 7965, 1); (7968, 8005, 1);
    (8008, 8013, 1); (8016, 8023, 1); (8025, 8031, 2); (8032, 8061, 1);
    (8064, 8116, 1); (8118, 8124, 1); (8126, 8126, 1); (8130, 8132, 1);
    (8134, 8140, 1); (8144, 8147, 1); (8150, 8155, 1); (8160, 8172, 1);
    (8178, 8180, 1); (8182, 8188, 1); (8305, 8305, 1); (8319, 8319, 1);
    (8336, 8348, 1); (8450, 8450, 1); (8455, 8455, 1); (8458, 8467, 1);
    (8469, 8469, 1); (8473, 8477, 1); (8484, 8490, 2); (8491, 8493, 1);
    (8495, 8500, 1); (8505, 8505, 1); (8508, 8511, 1); (8517, 8521, 1);
    (8526, 8526, 1); (8544, 8575, 1); (8579, 8580, 1); (9398, 9449, 1);
    (11264, 11492, 1); (11499, 11502, 1); (11506, 11507, 1);
    (11520, 11557, 1); (11559, 11559, 1); (11565, 11565, 1);
    (42560, 42605, 1); (42624, 42653, 1); (42786, 42887, 1);
    (42891, 42894, 1); (42896, 42954, 1); (42960, 42961, 1);
    (42963, 42963, 1); (42965, 42969, 1); (42997, 42998, 1);
    (43000, 43002, 1); (43824, 43866, 1); (43868, 43880, 1);
    (43888, 43967, 1); (64256, 64262, 1); (64275, 64279, 1);
    (65313, 65338, 1); (65345, 65370, 1); (66560, 66639, 1);
    (66736, 66771, 1); (66776, 66811, 1); (66928, 66938, 1);
    (66940, 66954, 1); (66956, 66962, 1); (66964, 66965, 1);
    (66967, 66977, 1); (66979, 66993, 1); (66995, 67001, 1);
    (67003, 67004, 1); (67456, 67456, 1); (67459, 67461, 1);
    (67463, 67504, 1); (67506, 67514, 1); (68736, 68786, 1);
    (68800, 68850, 1); (71840, 71903, 1); (93760, 93823, 1);
    (119808, 119892, 1); (119894, 119964, 1); (119966, 119967, 1);
    (119970, 119970, 1); (119973, 119974, 1); (119977, 119980, 1);
    (119982, 119993, 1); (119995, 119995, 1); (119997, 120003, 1);
    (120005, 120069, 1); (120071, 120074, 1); (120077, 120084, 1);
    (120086, 120092, 1); (120094, 120121, 1); (120123, 120126, 1);
    (120128, 120132, 1); (120134, 120134, 1); (120138, 120144, 1);
    (120146, 120485, 1); (120488, 120512, 1); (120514, 120538, 1);
    (120540, 120570, 1); (120572, 120596, 1); (120598, 120628, 1);
    (120630, 120654, 1); (120656, 120686, 1); (120688, 120712, 1);
    (120714, 120744, 1); (120746, 120770, 1); (120772, 120779, 1);
    (122624, 122633, 1); (122635, 122654, 1); (125184, 125251, 1);
    (127280, 127305, 1); (127312, 127337, 1); (127344, 127369, 1) ]%N.

(** The code points the final-sigma rule looks through. *)
Definition CASE_IGNORABLE : runs :=
  [ (39, 39, 1); (46, 46, 1); (58, 58, 1); (94, 94, 1); (96, 96, 1);
    (168, 168, 1); (173, 173, 1); (175, 175, 1); (180, 180, 1);
    (183, 184, 1); (688, 879, 1); (884, 885, 1); (890, 890, 1);
    (900, 901, 1); (903, 903, 1); (1155, 1161, 1); (1369, 1369, 1);
    (1375, 1375, 1); (1425, 1469, 1); (1471, 1471, 1); (1473, 1474, 1);
    (1476, 1477, 1); (1479, 1479, 1); (1524, 1524, 1); (1536, 1541, 1);
    (1552, 1562, 1); (1564, 1564, 1); (1600, 1600, 1); (1611, 1631, 1);
    (1648, 1648, 1); (1750, 1757, 1); (1759, 1768, 1); (1770, 1773, 1);
    (1807, 1807, 1); (1809, 1809, 1); (1840, 1866, 1); (1958, 1968, 1);
    (2027, 2037, 1); (2042, 2042, 1); (2045, 2045, 1); (2070, 2093, 1);
    (2137, 2139, 1); (2184, 2184, 1); (2192, 2193, 1); (2200, 2207, 1);
    (2249, 2306, 1); (2362, 2362, 1); (2364, 2364, 1); (2369, 2376, 1);
    (2381, 2381, 1); (2385, 2391, 1); (2402, 2403, 1); (2417, 2417, 1);
    (2433, 2433, 1); (2492, 2492, 1); (2497, 2500, 1); (2509, 2509, 1);
    (2530, 2531, 1); (2558, 2558, 1); (2561, 2562, 1); (2620, 2620, 1);
    (2625, 2626, 1); (2631, 2632, 1); (2635, 2637, 1); (2641, 2641, 1);
    (2672, 2673, 1); (2677, 2677, 1); (2689, 2690, 1); (2748, 2748, 1);
    (2753, 2757, 1); (2759, 2760, 1); (2765, 2765, 1); (2786, 2787, 1);
    (2810, 2815, 1); (2817, 2817, 1); (2876, 2876, 1); (2879, 2879, 1);
    (2881, 2884, 1); (2893, 2893, 1); (2901, 2902, 1); (2914, 2915, 1);
    (2946, 2946, 1); (3008, 3008, 1); (3021, 3021, 1); (3072, 3072, 1);
    (3076, 3076, 1); (3132, 3132, 1); (3134, 3136, 1); (3142, 3144, 1);
    (3146, 3149, 1); (3157, 3158, 1); (3170, 3171, 1); (3201, 3201, 1);
    (3260, 3260, 1); (3263, 3263, 1); (3270, 3270, 1); (3276, 3277, 1);
    (3298, 3299, 1); (3328, 3329, 1); (3387, 3388, 1); (3393, 3396, 1);
    (3405, 3405, 1); (3426, 3427, 1); (3457, 3457, 1); (3530, 3530, 1);
    (3538, 3540, 1); (3542, 3542, 1); (3633, 3633, 1); (3636, 3642, 1);
    (3654, 3662, 1); (3761, 3761, 1); (3764, 3772, 1); (3782, 3782, 1);
    (3784, 3789, 1); (3864, 3865, 1); (3893, 3897, 2); (3953, 3966, 1);
    (3968, 3972, 1); (3974, 3975, 1); (3981, 3991, 1); (3993, 4028, 1);
    (4038, 4038, 1); (4141, 4144, 1); (4146, 4151, 1); (4153, 4154, 1);
    (4157, 4158, 1); (4184, 4185, 1); (4190, 4192, 1); (4209, 4212, 1);
    (4226, 4226, 1); (4229, 4230, 1); (4237, 4237, 1); (4253, 4253, 1);
    (4348, 4348, 1); (4957, 4959, 1); (5906, 5908, 1); (5938, 5939, 1);
    (5970, 5971, 1); (6002, 6003, 1); (6068, 6069, 1); (6071, 6077, 1);
    (6086, 6086, 1); (6089, 6099, 1); (6103, 6103, 1); (6109, 6109, 1);
    (6155, 6159, 1); (6211, 6211, 1); (6277, 6278, 1); (6313, 6313, 1);
    (6432, 6434, 1); (6439, 6440, 1); (6450, 6450, 1); (6457, 6459, 1);
    (6679, 6680, 1); (6683, 6683, 1); (6742, 6742, 1); (6744, 6750, 1);
    (6752, 6752, 1); (6754, 6754, 1); (6757, 6764, 1); (6771, 6780, 1);
    (6783, 6783, 1); (6823, 6823, 1); (6832, 6862, 1); (6912, 6915, 1);
    (6964, 6964, 1); (6966, 6970, 1); (6972, 6972, 1); (6978, 6978, 1);
    (7019, 7027, 1); (7040, 7041, 1); (7074, 7077, 1); (7080, 7081, 1);
    (7083, 7085, 1); (7142, 7142, 1); (7144, 7145, 1); (7149, 7149, 1);
    (7151, 7153, 1); (7212, 7219, 1); (7222, 7223, 1); (7288, 7293, 1);
    (7376, 7378, 1); (7380, 7392, 1); (7394, 7400, 1); (7405, 7405, 1);
    (7412, 7412, 1); (7416, 7417, 1); (7468, 7530, 1); (7544, 7544, 1);
    (7579, 7679, 1); (8125, 8125, 1); (8127, 8129, 1); (8141, 8143, 1);
    (8157, 8159, 1); (8173, 8175, 1); (8189, 8190, 1); (8203, 8207, 1);
    (8216, 8217, 1); (8228, 8228, 1); (8231, 8231, 1); (8234, 8238, 1);
    (8288, 8292, 1); (8294, 8303, 1); (8305, 8305, 1); (8319, 8319, 1);
    (8336, 8348, 1); (8400, 8432, 1); (11388, 11389, 1); (11503, 11505, 1);
    (11631, 11631, 1); (11647, 11647, 1); (11744, 11775, 1);
    (11823, 11823, 1); (12293, 12293, 1); (12330, 12333, 1);
    (12337, 12341, 1); (12347, 12347, 1); (12441, 12446, 1);
    (12540, 12542, 1); (40981, 40981, 1); (42232, 42237, 1);
    (42508, 42508, 1); (42607, 42610, 1); (42612, 42621, 1);
    (42623, 42623, 1); (42652, 42655, 1); (42736, 42737, 1);
    (42752, 42785, 1); (42864, 42864, 1); (42888, 42890, 1);
    (42994, 42996, 1); (43000, 43001, 1); (43010, 43010, 1);
    (43014, 43014, 1); (43019, 43019, 1); (43045, 43046, 1);
    (43052, 43052, 1); (43204, 43205, 1); (43232, 43249, 1);
    (43263, 43263, 1); (43302, 43309, 1); (43335, 43345, 1);
    (43392, 43394, 1); (43443, 43443, 1); (43446, 43449, 1);
    (43452, 43453, 1); (43471, 43471, 1); (43493, 43494, 1);
    (43561, 43566, 1); (43569, 43570, 1); (43573, 43574, 1);
    (43587, 43587, 1); (43596, 43596, 1); (43632, 43632, 1);
    (43644, 43644, 1); (43696, 43696, 1); (43698, 43700, 1);
    (43703, 43704, 1); (43710, 43711, 1); (43713, 43713, 1);
    (43741, 43741, 1); (43756, 43757, 1); (43763, 43764, 1);
    (43766, 43766, 1); (43867, 43871, 1); (43881, 43883, 1);
    (44005, 44005, 1); (44008, 44008, 1); (44013, 44013, 1);
    (64286, 64286, 1); (64434, 64450, 1); (65024, 65039, 1);
    (65043, 65043, 1); (65056, 65071, 1); (65106, 65106, 1);
    (65109, 65109, 1); (65279, 65279, 1); (65287, 65287, 1);
    (65294, 65294, 1); (65306, 65306, 1); (65342, 65342, 1);
    (65344, 65344, 1); (65392, 65392, 1); (65438, 65439, 1);
    (65507, 65507, 1); (65529, 65531, 1); (66045, 66045, 1);
    (66272, 66272, 1); (66422, 66426, 1); (67456, 67461, 1);
    (67463, 67504, 1); (67506, 67514, 1); (68097, 68099, 1);
    (68101, 68102, 1); (68108, 68111, 1); (68152, 68154, 1);
    (68159, 68159, 1); (68325, 68326, 1); (68900, 68903, 1);
    (69291, 69292, 1); (69446, 69456, 1); (69506, 69509, 1);
    (69633, 69633, 1); (69688, 69702, 1); (69744, 69744, 1);
    (69747, 69748, 1); (69759, 69761, 1); (69811, 69814, 1);
    (69817, 69818, 1); (69821, 69821, 1); (69826, 69826, 1);
    (69837, 69837, 1); (69888, 69890, 1); (69927, 69931, 1);
    (69933, 69940, 1); (70003, 70003, 1); (70016, 70017, 1);
    (70070, 70078, 1); (70089, 70092, 1); (70095, 70095, 1);
    (70191, 70193, 1); (70196, 70196, 1); (70198, 70199, 1);
    (70206, 70206, 1); (70367, 70367, 1); (70371, 70378, 1);
    (70400, 70401, 1); (70459, 70460, 1); (70464, 70464, 1);
    (70502, 70508, 1); (70512, 70516, 1); (70712, 70719, 1);
    (70722, 70724, 1); (70726, 70726, 1); (70750, 70750, 1);
    (70835, 70840, 1); (70842, 70842, 1); (70847, 70848, 1);
    (70850, 70851, 1); (71090, 71093, 1); (71100, 71101, 1);
    (71103, 71104, 1); (71132, 71133, 1); (71219, 71226, 1);
    (71229, 71229, 1); (71231, 71232, 1); (71339, 71339, 1);
    (71341, 71341, 1); (71344, 71349, 1); (71351, 71351, 1);
    (71453, 71455, 1); (71458, 71461, 1); (71463, 71467, 1);
    (71727, 71735, 1); (71737, 71738, 1); (71995, 71996, 1);
    (71998, 71998, 1); (72003, 72003, 1); (72148, 72151, 1);
    (72154, 72155, 1); (72160, 72160, 1); (72193, 72202, 1);
    (72243, 72248, 1); (72251, 72254, 1); (72263, 72263, 1);
    (72273, 72278, 1); (72281, 72283, 1); (72330, 72342, 1);
    (72344, 72345, 1); (72752, 72758, 1); (72760, 72765, 1);
    (72767, 72767, 1); (72850, 72871, 1); (72874, 72880, 1);
    (72882, 72883, 1); (72885, 72886, 1); (73009, 73014, 1);
    (73018, 73018, 1); (73020, 73021, 1); (73023, 73029, 1);
    (73031, 73031, 1); (73104, 73105, 1); (73109, 73109, 1);
    (73111, 73111, 1); (73459, 73460, 1); (78896, 78904, 1);
    (92912, 92916, 1); (92976, 92982, 1); (92992, 92995, 1);
    (94031, 94031, 1); (94095, 94111, 1); (94176, 94177, 1);
    (94179, 94180, 1); (110576, 110579, 1); (110581, 110587, 1);
    (110589, 110590, 1); (113821, 113822, 1); (113824, 113827, 1);
    (118528, 118573, 1); (118576, 118598, 1); (119143, 119145, 1);
    (119155, 119170, 1); (119173, 119179, 1); (119210, 119213, 1);
    (119362, 119364, 1); (121344, 121398, 1); (121403, 121452, 1);
    (121461, 121461, 1); (121476, 121476, 1); (121499, 121503, 1);
    (121505, 121519, 1); (122880, 122886, 1); (122888, 122904, 1);
    (122907, 122913, 1); (122915, 122916, 1); (122918, 122922, 1);
    (123184, 123197, 1); (123566, 123566, 1); (123628, 123631, 1);
    (125136, 125142, 1); (125252, 125259, 1); (127995, 127999, 1);
    (917505, 917505, 1); (917536, 917631, 1); (917760, 917999, 1) ]%N.

(** The lower case of one code point ([_PyUnicode_ToLowercase]). *)
Definition LOWER : mapping :=
  [ (65, 90, 1, 97); (192, 214, 1, 224); (216, 222, 1, 248);
    (256, 302, 2, 257); (304, 304, 1, 105); (306, 310, 2, 307);
    (313, 327, 2, 314); (330, 374, 2, 331); (376, 376, 1, 255);
    (377, 381, 2, 378); (385, 385, 1, 595); (386, 388, 2, 387);
    (390, 390, 1, 596); (391, 391, 1, 392); (393, 394, 1, 598);
    (395, 395, 1, 396); (398, 398, 1, 477); (399, 399, 1, 601);
    (400, 400, 1, 603); (401, 401, 1, 402); (403, 403, 1, 608);
    (404, 404, 1, 611); (406, 406, 1, 617); (407, 407, 1, 616);
    (408, 408, 1, 409); (412, 412, 1, 623); (413, 413, 1, 626);
    (415, 415, 1, 629); (416, 420, 2, 417); (422, 422, 1, 640);
    (423, 423, 1, 424); (425, 425, 1, 643); (428, 428, 1, 429);
    (430, 430, 1, 648); (431, 431, 1, 432); (433, 434, 1, 650);
    (435, 437, 2, 436); (439, 439, 1, 658); (440, 440, 1, 441);
    (444, 444, 1, 445); (452, 452, 1, 454); (453, 453, 1, 454);
    (455, 455, 1, 457); (456, 456, 1, 457); (458, 458, 1, 460);
    (459, 475, 2, 460); (478, 494, 2, 479); (497, 497, 1, 499);
    (498, 500, 2, 499); (502, 502, 1, 405); (503, 503, 1, 447);
    (504, 542, 2, 505); (544, 544, 1, 414); (546, 562, 2, 547);
    (570, 570, 1, 11365); (571, 571, 1, 572); (573, 573, 1, 410);
    (574, 574, 1, 11366); (577, 577, 1, 578); (579, 579, 1, 384);
    (580, 580, 1, 649); (581, 581, 1, 652); (582, 590, 2, 583);
    (880, 882, 2, 881); (886, 886, 1, 887); (895, 895, 1, 1011);
    (902, 902, 1, 940); (904, 906, 1, 941); (908, 908, 1, 972);
    (910, 911, 1, 973); (913, 929, 1, 945); (931, 939, 1, 963);
    (975, 975, 1, 983); (984, 1006, 2, 985); (1012, 1012, 1, 952);
    (1015, 1015, 1, 1016); (1017, 1017, 1, 1010); (1018, 1018, 1, 1019);
    (1021, 1023, 1, 891); (1024, 1039, 1, 1104); (1040, 1071, 1, 1072);
    (1120, 1152, 2, 1121); (1162, 1214, 2, 1163); (1216, 1216, 1, 1231);
    (1217, 1229, 2, 1218); (1232, 1326, 2, 1233); (1329, 1366, 1, 1377);
    (4256, 4293, 1, 11520); (4295, 4295, 1, 11559); (4301, 4301, 1, 11565);
    (5024, 5103, 1, 43888); (5104, 5109, 1, 5112); (7312, 7354, 1, 4304);
    (7357, 7359, 1, 4349); (7680, 7828, 2, 7681); (7838, 7838, 1, 223);
    (7840, 7934, 2, 7841); (7944, 7951, 1, 7936); (7960, 7965, 1, 7952);
    (7976, 7983, 1, 7968); (7992, 7999, 1, 7984); (8008, 8013, 1, 8000);
    (8025, 8031, 2, 8017); (8040, 8047, 1, 8032); (8072, 8079, 1, 8064);
    (8088, 8095, 1, 8080); (8104, 8111, 1, 8096); (8120, 8121, 1, 8112);
    (8122, 8123, 1, 8048); (8124, 8124, 1, 8115); (8136, 8139, 1, 8050);
    (8140, 8140, 1, 8131); (8152, 8153, 1, 8144); (8154, 8155, 1, 8054);
    (8168, 8169, 1, 8160); (8170, 8171, 1, 8058); (8172, 8172, 1, 8165);
    (8184, 8185, 1, 8056); (8186, 8187, 1, 8060); (8188, 8188, 1, 8179);
    (8486, 8486, 1, 969); (8490, 8490, 1, 107); (8491, 8491, 1, 229);
    (8498, 8498, 1, 8526); (8544, 8559, 1, 8560); (8579, 8579, 1, 8580);
    (9398, 9423, 1, 9424); (11264, 11311, 1, 11312);
    (11360, 11360, 1, 11361); (11362, 11362, 1, 619);
    (11363, 11363, 1, 7549); (11364, 11364, 1, 637);
    (11367, 11371, 2, 11368); (11373, 11373, 1, 593); (11374, 11374, 1, 625);
    (11375, 11375, 1, 592); (11376, 11376, 1, 594); (11378, 11378, 1, 11379);
    (11381, 11381, 1, 11382); (11390, 11391, 1, 575);
    (11392, 11490, 2, 11393); (11499, 11501, 2, 11500);
    (11506, 11506, 1, 11507); (42560, 42604, 2, 42561);
    (42624, 42650, 2, 42625); (42786, 42798, 2, 42787);
    (42802, 42862, 2, 42803); (42873, 42875, 2, 42874);
    (42877, 42877, 1, 7545); (42878, 42886, 2, 42879);
    (42891, 42891, 1, 42892); (42893, 42893, 1, 613);
    (42896, 42898, 2, 42897); (42902, 42920, 2, 42903);
    (42922, 42922, 1, 614); (42923, 42923, 1, 604); (42924, 42924, 1, 609);
    (42925, 42925, 1, 620); (42926, 42926, 1, 618); (42928, 42928, 1, 670);
    (42929, 42929, 1, 647); (42930, 42930, 1, 669); (42931, 42931, 1, 43859);
    (42932, 42946, 2, 42933); (42948, 42948, 1, 42900);
    (42949, 42949, 1, 642); (42950, 42950, 1, 7566);
    (42951, 42953, 2, 42952); (42960, 42960, 1, 42961);
    (42966, 42968, 2, 42967); (42997, 42997, 1, 42998);
    (65313, 65338, 1, 65345); (66560, 66599, 1, 66600);
    (66736, 66771, 1, 66776); (66928, 66938, 1, 66967);
    (66940, 66954, 1, 66979); (66956, 66962, 1, 66995);
    (66964, 66965, 1, 67003); (68736, 68786, 1, 68800);
    (71840, 71871, 1, 71872); (93760, 93791, 1, 93792);
    (125184, 125217, 1, 125218) ]%N.

(** The upper case of one code point ([_PyUnicode_ToUppercase]). *)
Definition UPPER : mapping :=
  [ (97, 122, 1, 65); (181, 181, 1, 924); (223, 223, 1, 83);
    (224, 246, 1, 192); (248, 254, 1, 216); (255, 255, 1, 376);
    (257, 303, 2, 256); (305, 305, 1, 73); (307, 311, 2, 306);
    (314, 328, 2, 313); (329, 329, 1, 700); (331, 375, 2, 330);
    (378, 382, 2, 377); (383, 383, 1, 83); (384, 384, 1, 579);
    (387, 389, 2, 386); (392, 392, 1, 391); (396, 396, 1, 395);
    (402, 402, 1, 401); (405, 405, 1, 502); (409, 409, 1, 408);
    (410, 410, 1, 573); (414, 414, 1, 544); (417, 421, 2, 416);
    (424, 424, 1, 423); (429, 429, 1, 428); (432, 432, 1, 431);
    (436, 438, 2, 435); (441, 441, 1, 440); (445, 445, 1, 444);
    (447, 447, 1, 503); (453, 453, 1, 452); (454, 454, 1, 452);
    (456, 456, 1, 455); (457, 457, 1, 455); (459, 459, 1, 458);
    (460, 460, 1, 458); (462, 476, 2, 461); (477, 477, 1, 398);
    (479, 495, 2, 478); (496, 496, 1, 74); (498, 498, 1, 497);
    (499, 499, 1, 497); (501, 501, 1, 500); (505, 543, 2, 504);
    (547, 563, 2, 546); (572, 572, 1, 571); (575, 576, 1, 11390);
    (578, 578, 1, 577); (583, 591, 2, 582); (592, 592, 1, 11375);
    (593, 593, 1, 11373); (594, 594, 1, 11376); (595, 595, 1, 385);
    (596, 596, 1, 390); (598, 599, 1, 393); (601, 601, 1, 399);
    (603, 603, 1, 400); (604, 604, 1, 42923); (608, 608, 1, 403);
    (609, 609, 1, 42924); (611, 611, 1, 404); (613, 613, 1, 42893);
    (614, 614, 1, 42922); (616, 616, 1, 407); (617, 617, 1, 406);
    (618, 618, 1, 42926); (619, 619, 1, 11362); (620, 620, 1, 42925);
    (623, 623, 1, 412); (625, 625, 1, 11374); (626, 626, 1, 413);
    (629, 629, 1, 415); (637, 637, 1, 11364); (640, 640, 1, 422);
    (642, 642, 1, 42949); (643, 643, 1, 425); (647, 647, 1, 42929);
    (648, 648, 1, 430); (649, 649, 1, 580); (650, 651, 1, 433);
    (652, 652, 1, 581); (658, 658, 1, 439); (669, 669, 1, 42930);
    (670, 670, 1, 42928); (837, 837, 1, 921); (881, 883, 2, 880);
    (887, 887, 1, 886); (891, 893, 1, 1021); (912, 912, 1, 921);
    (940, 940, 1, 902); (941, 943, 1, 904); (944, 944, 1, 933);
    (945, 961, 1, 913); (962, 962, 1, 931); (963, 971, 1, 931);
    (972, 972, 1, 908); (973, 974, 1, 910); (976, 976, 1, 914);
    (977, 977, 1, 920); (981, 981, 1, 934); (982, 982, 1, 928);
    (983, 983, 1, 975); (985, 1007, 2, 984); (1008, 1008, 1, 922);
    (1009, 1009, 1, 929); (1010, 1010, 1, 1017); (1011, 1011, 1, 895);
    (1013, 1013, 1, 917); (1016, 1016, 1, 1015); (1019, 1019, 1, 1018);
    (1072, 1103, 1, 1040); (1104, 1119, 1, 1024); (1121, 1153, 2, 1120);
    (1163, 1215, 2, 1162); (1218, 1230, 2, 1217); (1231, 1231, 1, 1216);
    (1233, 1327, 2, 1232); (1377, 1414, 1, 1329); (1415, 1415, 1, 1333);
    (4304, 4346, 1, 7312); (4349, 4351, 1, 7357); (5112, 5117, 1, 5104);
    (7296, 7296, 1, 1042); (7297, 7297, 1, 1044); (7298, 7298, 1, 1054);
    (7299, 7300, 1, 1057); (7301, 7301, 1, 1058); (7302, 7302, 1, 1066);
    (7303, 7303, 1, 1122); (7304, 7304, 1, 42570); (7545, 7545, 1, 42877);
    (7549, 7549, 1, 11363); (7566, 7566, 1, 42950); (7681, 7829, 2, 7680);
    (7830, 7830, 1, 72); (7831, 7831, 1, 84); (7832, 7832, 1, 87);
    (7833, 7833, 1, 89); (7834, 7834, 1, 65); (7835, 7835, 1, 7776);
    (7841, 7935, 2, 7840); (7936, 7943, 1, 7944); (7952, 7957, 1, 7960);
    (7968, 7975, 1, 7976); (7984, 7991, 1, 7992); (8000, 8005, 1, 8008);
    (8016, 8016, 1, 933); (8017, 8017, 1, 8025); (8018, 8018, 1, 933);
    (8019, 8019, 1, 8027); (8020, 8020, 1, 933); (8021, 8021, 1, 8029);
    (8022, 8022, 1, 933); (8023, 8023, 1, 8031); (8032, 8039, 1, 8040);
    (8048, 8049, 1, 8122); (8050, 8053, 1, 8136); (8054, 8055, 1, 8154);
    (8056, 8057, 1, 8184); (8058, 8059, 1, 8170); (8060, 8061, 1, 8186);
    (8064, 8071, 1, 7944); (8072, 8079, 1, 7944); (8080, 8087, 1, 7976);
    (8088, 8095, 1, 7976); (8096, 8103, 1, 8040); (8104, 8111, 1, 8040);
    (8112, 8114, 1, 8120); (8115, 8115, 1, 913); (8116, 8116, 1, 902);
    (8118, 8118, 1, 913); (8119, 8119, 1, 913); (8124, 8124, 1, 913);
    (8126, 8126, 1, 921); (8130, 8130, 1, 8138); (8131, 8131, 1, 919);
    (8132, 8132, 1, 905); (8134, 8134, 1, 919); (8135, 8135, 1, 919);
    (8140, 8140, 1, 919); (8144, 8145, 1, 8152); (8146, 8146, 1, 921);
    (8147, 8147, 1, 921); (8150, 8150, 1, 921); (8151, 8151, 1, 921);
    (8160, 8161, 1, 8168); (8162, 8162, 1, 933); (8163, 8163, 1, 933);
    (8164, 8164, 1, 929); (8165, 8165, 1, 8172); (8166, 8166, 1, 933);
    (8167, 8167, 1, 933); (8178, 8178, 1, 8186); (8179, 8179, 1, 937);
    (8180, 8180, 1, 911); (8182, 8182, 1, 937); (8183, 8183, 1, 937);
    (8188, 8188, 1, 937); (8526, 8526, 1, 8498); (8560, 8575, 1, 8544);
    (8580, 8580, 1, 8579); (9424, 9449, 1, 9398); (11312, 11359, 1, 11264);
    (11361, 11361, 1, 11360); (11365, 11365, 1, 570); (11366, 11366, 1, 574);
    (11368, 11372, 2, 11367); (11379, 11379, 1, 11378);
    (11382, 11382, 1, 11381); (11393, 11491, 2, 11392);
    (11500, 11502, 2, 11499); (11507, 11507, 1, 11506);
    (11520, 11557, 1, 4256); (11559, 11559, 1, 4295);
    (11565, 11565, 1, 4301); (42561, 42605, 2, 42560);
    (42625, 42651, 2, 42624); (42787, 42799, 2, 42786);
    (42803, 42863, 2, 42802); (42874, 42876, 2, 42873);
    (42879, 42887, 2, 42878); (42892, 42892, 1, 42891);
    (42897, 42899, 2, 42896); (42900, 42900, 1, 42948);
    (42903, 42921, 2, 42902); (42933, 42947, 2, 42932);
    (42952, 42954, 2, 42951); (42961, 42961, 1, 42960);
    (42967, 42969, 2, 42966); (42998, 42998, 1, 42997);
    (43859, 43859, 1, 42931); (43888, 43967, 1, 5024); (64256, 64256, 1, 70);
    (64257, 64257, 1, 70); (64258, 64258, 1, 70); (64259, 64259, 1, 70);
    (64260, 64260, 1, 70); (64261, 64261, 1, 83); (64262, 64262, 1, 83);
    (64275, 64275, 1, 1348); (64276, 64276, 1, 1348);
    (64277, 64277, 1, 1348); (64278, 64278, 1, 1358);
    (64279, 64279, 1, 1348); (65345, 65370, 1, 65313);
    (66600, 66639, 1, 66560); (66776, 66811, 1, 66736);
    (66967, 66977, 1, 66928); (66979, 66993, 1, 66940);
    (66995, 67001, 1, 66956); (67003, 67004, 1, 66964);
    (68800, 68850, 1, 68736); (71872, 71903, 1, 71840);
    (93792, 93823, 1, 93760); (125218, 125251, 1, 125184) ]%N.

(** The title case of one code point, where it is one code point. *)
Definition TITLE : mapping :=
  [ (97, 122, 1, 65); (181, 181, 1, 924); (224, 246, 1, 192);
    (248, 254, 1, 216); (255, 255, 1, 376); (257, 303, 2, 256);
    (305, 305, 1, 73); (307, 311, 2, 306); (314, 328, 2, 313);
    (331, 375, 2, 330); (378, 382, 2, 377); (383, 383, 1, 83);
    (384, 384, 1, 579); (387, 389, 2, 386); (392, 392, 1, 391);
    (396, 396, 1, 395); (402, 402, 1, 401); (405, 405, 1, 502);
    (409, 409, 1, 408); (410, 410, 1, 573); (414, 414, 1, 544);
    (417, 421, 2, 416); (424, 424, 1, 423); (429, 429, 1, 428);
    (432, 432, 1, 431); (436, 438, 2, 435); (441, 441, 1, 440);
    (445, 445, 1, 444); (447, 447, 1, 503); (452, 452, 1, 453);
    (454, 454, 1, 453); (455, 455, 1, 456); (457, 457, 1, 456);
    (458, 458, 1, 459); (460, 476, 2, 459); (477, 477, 1, 398);
    (479, 495, 2, 478); (497, 497, 1, 498); (499, 501, 2, 498);
    (505, 543, 2, 504); (547, 563, 2, 546); (572, 572, 1, 571);
    (575, 576, 1, 11390); (578, 578, 1, 577); (583, 591, 2, 582);
    (592, 592, 1, 11375); (593, 593, 1, 11373); (594, 594, 1, 11376);
    (595, 595, 1, 385); (596, 596, 1, 390); (598, 599, 1, 393);
    (601, 601, 1, 399); (603, 603, 1, 400); (604, 604, 1, 42923);
    (608, 608, 1, 403); (609, 609, 1, 42924); (611, 611, 1, 404);
    (613, 613, 1, 42893); (614, 614, 1, 42922); (616, 616, 1, 407);
    (617, 617, 1, 406); (618, 618, 1, 42926); (619, 619, 1, 11362);
    (620, 620, 1, 42925); (623, 623, 1, 412); (625, 625, 1, 11374);
    (626, 626, 1, 413); (629, 629, 1, 415); (637, 637, 1, 11364);
    (640, 640, 1, 422); (642, 642, 1, 42949); (643, 643, 1, 425);
    (647, 647, 1, 42929); (648, 648, 1, 430); (649, 649, 1, 580);
    (650, 651, 1, 433); (652, 652, 1, 581); (658, 658, 1, 439);
    (669, 669, 1, 42930); (670, 670, 1, 42928); (837, 837, 1, 921);
    (881, 883, 2, 880); (887, 887, 1, 886); (891, 893, 1, 1021);
    (940, 940, 1, 902); (941, 943, 1, 904); (945, 961, 1, 913);
    (962, 962, 1, 931); (963, 971, 1, 931); (972, 972, 1, 908);
    (973, 974, 1, 910); (976, 976, 1, 914); (977, 977, 1, 920);
    (981, 981, 1, 934); (982, 982, 1, 928); (983, 983, 1, 975);
    (985, 1007, 2, 984); (1008, 1008, 1, 922); (1009, 1009, 1, 929);
    (1010, 1010, 1, 1017); (1011, 1011, 1, 895); (1013, 1013, 1, 917);
    (1016, 1016, 1, 1015); (1019, 1019, 1, 1018); (1072, 1103, 1, 1040);
    (1104, 1119, 1, 1024); (1121, 1153, 2, 1120); (1163, 1215, 2, 1162);
    (1218, 1230, 2, 1217); (1231, 1231, 1, 1216); (1233, 1327, 2, 1232);
    (1377, 1414, 1, 1329); (5112, 5117, 1, 5104); (7296, 7296, 1, 1042);
    (7297, 7297, 1, 1044); (7298, 7298, 1, 1054); (7299, 7300, 1, 1057);
    (7301, 7301, 1, 1058); (7302, 7302, 1, 1066); (7303, 7303, 1, 1122);
    (7304, 7304, 1, 42570); (7545, 7545, 1, 42877); (7549, 7549, 1, 11363);
    (7566, 7566, 1, 42950); (7681, 7829, 2, 7680); (7835, 7835, 1, 7776);
    (7841, 7935, 2, 7840); (7936, 7943, 1, 7944); (7952, 7957, 1, 7960);
    (7968, 7975, 1, 7976); (7984, 7991, 1, 7992); (8000, 8005, 1, 8008);
    (8017, 8023, 2, 8025); (8032, 8039, 1, 8040); (8048, 8049, 1, 8122);
    (8050, 8053, 1, 8136); (8054, 8055, 1, 8154); (8056, 8057, 1, 8184);
    (8058, 8059, 1, 8170); (8060, 8061, 1, 8186); (8064, 8071, 1, 8072);
    (8080, 8087, 1, 8088); (8096, 8103, 1, 8104); (8112, 8113, 1, 8120);
    (8115, 8115, 1, 8124); (8126, 8126, 1, 921); (8131, 8131, 1, 8140);
    (8144, 8145, 1, 8152); (8160, 8161, 1, 8168); (8165, 8165, 1, 8172);
    (8179, 8179, 1, 8188); (8526, 8526, 1, 8498); (8560, 8575, 1, 8544);
    (8580, 8580, 1, 8579); (9424, 9449, 1, 9398); (11312, 11359, 1, 11264);
    (11361, 11361, 1, 11360); (11365, 11365, 1, 570); (11366, 11366, 1, 574);
    (11368, 11372, 2, 11367); (11379, 11379, 1, 11378);
    (11382, 11382, 1, 11381); (11393, 11491, 2, 11392);
    (11500, 11502, 2, 11499); (11507, 11507, 1, 11506);
    (11520, 11557, 1, 4256); (11559, 11559, 1, 4295);
    (11565, 11565, 1, 4301); (42561, 42605, 2, 42560);
    (42625, 42651, 2, 42624); (42787, 42799, 2, 42786);
    (42803, 42863, 2, 42802); (42874, 42876, 2, 42873);
    (42879, 42887, 2, 42878); (42892, 42892, 1, 42891);
    (42897, 42899, 2, 42896); (42900, 42900, 1, 42948);
    (42903, 42921, 2, 42902); (42933, 42947, 2, 42932);
    (42952, 42954, 2, 42951); (42961, 42961, 1, 42960);
    (42967, 42969, 2, 42966); (42998, 42998, 1, 42997);
    (43859, 43859, 1, 42931); (43888, 43967, 1, 5024);
    (65345, 65370, 1, 65313); (66600, 66639, 1, 66560);
    (66776, 66811, 1, 66736); (66967, 66977, 1, 66928);
    (66979, 66993, 1, 66940); (66995, 67001, 1, 66956);
    (67003, 67004, 1, 66964); (68800, 68850, 1, 68736);
    (71872, 71903, 1, 71840); (93792, 93823, 1, 93760);
    (125218, 125251, 1, 125184) ]%N.

(** The title case of the code points for which it is longer. *)
Definition TITLE_SPECIAL : list (char * text) :=
  [ (223, [83; 115]); (329, [700; 78]); (496, [74; 780]);
    (912, [921; 776; 769]); (944, [933; 776; 769]); (1415, [1333; 1410]);
    (7830, [72; 817]); (7831, [84; 776]); (7832, [87; 778]);
    (7833, [89; 778]); (7834, [65; 702]); (8016, [933; 787]);
    (8018, [933; 787; 768]); (8020, [933; 787; 769]);
    (8022, [933; 787; 834]); (8114, [8122; 837]); (8116, [902; 837]);
    (8118, [913; 834]); (8119, [913; 834; 837]); (8130, [8138; 837]);
    (8132, [905; 837]); (8134, [919; 834]); (8135, [919; 834; 837]);
    (8146, [921; 776; 768]); (8147, [921; 776; 769]); (8150, [921; 834]);
    (8151, [921; 776; 834]); (8162, [933; 776; 768]);
    (8163, [933; 776; 769]); (8164, [929; 787]); (8166, [933; 834]);
    (8167, [933; 776; 834]); (8178, [8186; 837]); (8180, [911; 837]);
    (8182, [937; 834]); (8183, [937; 834; 837]); (64256, [70; 102]);
    (64257, [70; 105]); (64258, [70; 108]); (64259, [70; 102; 105]);
    (64260, [70; 102; 108]); (64261, [83; 116]); (64262, [83; 116]);
    (64275, [1348; 1398]); (64276, [1348; 1381]); (64277, [1348; 1387]);
    (64278, [1358; 1398]); (64279, [1348; 1389]) ]%N.

(** [_EXTRA_CASES] of [re._casefix]: for a lower-case code point, the other
    lower-case code points with the same upper case. *)
Definition EXTRA_CASES : list (char * text) :=
  [ (105, [305]); (115, [383]); (181, [956]); (305, [105]); (383, [115]);
    (837, [953; 8126]); (912, [8147]); (944, [8163]); (946, [976]);
    (949, [1013]); (952, [977]); (953, [837; 8126]); (954, [1008]);
    (956, [181]); (960, [982]); (961, [1009]); (962, [963]); (963, [962]);
    (966, [981]); (976, [946]); (977, [952]); (981, [966]); (982, [960]);
    (1008, [954]); (1009, [961]); (1013, [949]); (1074, [7296]);
    (1076, [7297]); (1086, [7298]); (1089, [7299]); (1090, [7300; 7301]);
    (1098, [7302]); (1123, [7303]); (7296, [1074]); (7297, [1076]);
    (7298, [1086]); (7299, [1089]); (7300, [1090; 7301]);
    (7301, [1090; 7300]); (7302, [1098]); (7303, [1123]); (7304, [42571]);
    (7777, [7835]); (7835, [7777]); (8126, [837; 953]); (8147, [912]);
    (8163, [944]); (42571, [7304]); (64261, [64262]); (64262, [64261]) ]%N.

(** [str.isspace] on one code point. *)
Definition is_space (c : char) : bool :=
  in_range 9 13 c || in_range 28 32 c || (c =? 133)%N || (c =? 160)%N
  || (c =? 5760)%N || in_range 8192 8202 c || (c =? 8232)%N
  || (c =? 8233)%N || (c =? 8239)%N || (c =? 8287)%N || (c =? 12288)%N.

(** [\w] of the [re] module on [str] patterns: alphanumeric or underscore. *)
Definition is_word (c : char) : bool := in_runs ALNUM c || (c =? 95)%N.

(** [str.isupper] and [str.isdigit] on one code point. *)
Definition is_upper (c : char) : bool := in_runs UPPERCASE c.

Definition is_digit (c : char) : bool := in_runs DIGIT c.

(** The two properties the final-sigma rule of [str.lower] reads. *)
Definition is_cased (c : char) : bool := in_runs CASED c.

Definition is_case_ignorable (c : char) : bool := in_runs CASE_IGNORABLE c.

(** The lower case and the upper case of one code point, as one code
    point: what [_sre.unicode_tolower] returns, and the upper case
    [_sre.unicode_iscased] compares with. *)
Definition lower (c : char) : char := map_char LOWER c.

Definition upper (c : char) : char := map_char UPPER c.

(** The title case of one code point, which can be up to three. *)
Definition title_full (c : char) : text :=
  match find (fun e => (fst e =? c)%N) TITLE_SPECIAL with
  | Some e => snd e
  | None => [map_char TITLE c]
  end.

(** [s.startswith(p)]. *)
Fixpoint startswith (p s : text) : bool :=
  match p, s with
  | [], _ => true
  | a :: p', c :: s' => (a =? c)%N && startswith p' s'
  | _ :: _, [] => false
  end.

(** [s.endswith(p)]. *)
Definition endswith (p s : text) : bool := startswith (rev p) (rev s).

(** [p in s]. *)
Fixpoint contains (p s : text) : bool :=
  startswith p s ||
  match s with
  | [] => false
  | _ :: s' => contains p s'
  end.

(** [s.count(c)] for a one-character [c]. *)
Definition count_char (c : char) (s : text) : nat :=
  length (filter (N.eqb c) s).

Fixpoint lstrip_by (f : char -> bool) (s : text) : text :=
  match s with
  | [] => []
  | c :: s' => if f c then lstrip_by f s' else s
  end.

Definition rstrip_by (f : char -> bool) (s : text) : text :=
  rev (lstrip_by f (rev s)).

Definition strip_by (f : char -> bool) (s : text) : text :=
  rstrip_by f (lstrip_by f s).

(** [str.lower].  Every code point has one code point as its lower case
    but two: the capital I with a dot (U+0130) becomes an [i] and a
    combining dot, and the capital sigma (U+03A3) becomes a final sigma
    when a cased character comes before it and none after it,
    case-ignorable characters being looked through.  [before] holds the
    characters before the current one, the nearest first. *)
Definition next_is_cased (s : text) : bool :=
  match lstrip_by is_case_ignorable s with
  | c :: _ => is_cased c
  | [] => false
  end.

Definition final_sigma (before after : text) : bool :=
  next_is_cased before && negb (next_is_cased after).

Definition lower_at (before : text) (c : char) (after : text) : text :=
  if (c =? 931)%N then [if final_sigma before after then 962 else 963]%N
  else if (c =? 304)%N then [105; 775]%N
  else [lower c].

Fixpoint lower_from (before s : text) : text :=
  match s with
  | [] => []
  | c :: s' => lower_at before c s' ++ lower_from (c :: before) s'
  end.

Definition lower_text (s : text) : text := lower_from [] s.

(** [str.capitalize]: the first character in title case, the rest in
    lower case. *)
Definition capitalize (s : text) : text :=
  match s with
  | [] => []
  | c :: r => title_full c ++ lower_from [c] r
  end.

(** [s.strip()]. *)
Definition strip (s : text) : text := strip_by is_space s.

Definition mem_char (cs : text) (c : char) : bool := existsb (N.eqb c) cs.

(** [s.strip(cs)] and [s.rstrip(cs)]. *)
Definition strip_chars (cs s : text) : text := strip_by (mem_char cs) s.

Definition rstrip_chars (cs s : text) : text := rstrip_by (mem_char cs) s.

(** [s.split(sep)] for a one-character separator. *)
Fixpoint split_char (sep : char) (s : text) : list text :=
  match s with
  | [] => [[]]
  | c :: s' =>
      if (c =? sep)%N then [] :: split_char sep s'
      else match split_char sep s' with
           | w :: ws => (c :: w) :: ws
           | [] => [[c]]
           end
  end.

(** [s.split()]: the maximal runs of non-whitespace characters.  [cur] is
    the run being read, reversed. *)
Fixpoint split_ws_go (cur : text) (s : text) : list text :=
  match s with
  | [] => match cur with [] => [] | _ => [rev cur] end
  | c :: s' =>
      if is_space c
      then match cur with
           | [] => split_ws_go [] s'
           | _ => rev cur :: split_ws_go [] s'
           end
      else split_ws_go (c :: cur) s'
  end.

Definition split_ws (s : text) : list text := split_ws_go [] s.

(** [sep.join(parts)]. *)
Fixpoint join (sep : text) (parts : list text) : text :=
  match parts with
  | [] => []
  | [p] => p
  | p :: ps => p ++ sep ++ join sep ps
  end.

(** ** The regular expressions the program uses

    Every pattern of [text_enhancer.py] but two has the shape
    [\b literal \b], searched with [re.IGNORECASE].  A position of the
    scan is a pair of the character before it ([None] at the start of the
    text) and the remaining text. *)


(** How [re.IGNORECASE] compares the character [a] of a pattern with the
    character [c] of the text.  The compiler keeps a character without
    case as it is; of a cased one it keeps the lower case, together with
    the other lower-case characters of the same upper case, and the
    matcher looks for the lower case of [c] among them. *)
Definition re_iscased (c : char) : bool :=
  negb (c =? lower c)%N || negb (c =? upper c)%N.

Definition extra_cases (lo : char) : text :=
  match find (fun e => (fst e =? lo)%N) EXTRA_CASES with
  | Some e => snd e
  | None => []
  end.

Definition ci_eq (a c : char) : bool :=
  if re_iscased a
  then mem_char (lower a :: extra_cases (lower a)) (lower c)
  else (a =? c)%N.

Definition wordo (o : option char) : bool :=
  match o with Some c => is_word c | None => false end.

(** [\b] between two neighbours. *)
Definition bnd (prev next : option char) : bool :=
  xorb (wordo prev) (wordo next).

(** The literal [p] matched case-insensitively at the head of [s]; returns
    the last character consumed (or [prev]) and the rest. *)
Fixpoint lit_ci (p : text) (prev : option char) (s : text)
  : option (option char * text) :=
  match p with
  | [] => Some (prev, s)
  | a :: p' =>
      match s with
      | c :: s' => if ci_eq a c then lit_ci p' (Some c) s' else None
      | [] => None
      end
  end.

(** [\b p \b] anchored at the current position. *)
Definition word_at (p : text) (prev : option char) (s : text) : bool :=
  bnd prev (hd_error s) &&
  match lit_ci p prev s with
  | Some (l, r) => bnd l (hd_error r)
  | None => false
  end.

Fixpoint search_from (p : text) (prev : option char) (s : text) : bool :=
  word_at p prev s ||
  match s with
  | [] => false
  | c :: s' => search_from p (Some c) s'
  end.

(** [re.search(r'\b' + p + r'\b', s, re.IGNORECASE)] as a truth value. *)
Definition re_search_word (p s : text) : bool := search_from p None s.

(** The left-to-right scan of [re.sub] and [re.finditer] for a non-empty
    literal: after a match the scan resumes behind it, which [skip] counts
    down. *)
Fixpoint sub_go (p repl : text) (skip : nat) (prev : option char) (s : text)
  : text :=
  match s with
  | [] => []
  | c :: s' =>
      match skip with
      | S k => sub_go p repl k (Some c) s'
      | O =>
          if word_at p prev s
          then repl ++ sub_go p repl (length p - 1) (Some c) s'
          else c :: sub_go p repl 0 (Some c) s'
      end
  end.

(** [re.sub(r'\b' + p + r'\b', repl, s, flags=re.IGNORECASE)], [p] not
    empty, [repl] free of backslashes. *)
Definition re_sub_word (p repl s : text) : text := sub_go p repl 0 None s.

Fixpoint finditer_go (p : text) (skip : nat) (prev : option char) (s : text)
  : list text :=
  match s with
  | [] => []
  | c :: s' =>
      match skip with
      | S k => finditer_go p k (Some c) s'
      | O =>
          if word_at p prev s
          then firstn (length p) s :: finditer_go p (length p - 1) (Some c) s'
          else finditer_go p 0 (Some c) s'
      end
  end.

(** The [match.group(0)] of every match of
    [re.finditer(r'\b' + p + r'\b', s, re.IGNORECASE)], [p] not empty. *)
Definition re_finditer_word (p s : text) : list text :=
  finditer_go p 0 None s.

(** ** Lexicon tables ([text_enhancer.py]) *)

(** [COMMON_SPELLING_MISTAKES], in the insertion order of the dict. *)
Definition COMMON_SPELLING_MISTAKES : list (text * text) :=
  map (fun e => (T (fst e), T (snd e)))
  [ ("accomodate", "accommodate"); ("acheive", "achieve");
    ("accross", "across"); ("agressive", "aggressive"); ("alot", "a lot");
    ("arguement", "argument"); ("assesment", "assessment");
    ("basicly", "basically"); ("begining", "beginning");
    ("beleive", "believe"); ("calender", "calendar");
    ("catagory", "category"); ("commited", "committed");
    ("completly", "completely"); ("concious", "conscious");
    ("definately", "definitely"); ("dissapoint", "disappoint");
    ("embarass", "embarrass"); ("enviroment", "environment");
    ("excelent", "excellent"); ("explaination", "explanation");
    ("familar", "familiar"); ("finaly", "finally"); ("foriegn", "foreign");
    ("gaurd", "guard"); ("goverment", "government"); ("grammer", "grammar");
    ("happend", "happened"); ("harrassment", "harassment");
    ("immediatly", "immediately"); ("independant", "independent");
    ("liason", "liaison"); ("maintainance", "maintenance");
    ("millenium", "millennium"); ("neccessary", "necessary");
    ("noticable", "noticeable"); ("occassion", "occasion");
    ("occured", "occurred"); ("persistant", "persistent");
    ("personel", "personnel"); ("plannning", "planning");
    ("posession", "possession"); ("prefered", "preferred");
    ("recieve", "receive"); ("reccomend", "recommend");
    ("refered", "referred"); ("referance", "reference");
    ("relevent", "relevant"); ("seperate", "separate");
    ("succesful", "successful"); ("supercede", "supersede");
    ("tommorrow", "tomorrow"); ("untill", "until") ]%string.

(** [WEAK_WORDS]. *)
Definition WEAK_WORDS : list text :=
  map T
  [ "very"; "really"; "just"; "quite"; "basically"; "actually"; "simply";
    "nice"; "good"; "bad"; "great"; "like"; "thing"; "stuff"; "etc";
    "a lot"; "got"; "kind of"; "sort of"; "type of"; "feel"; "think";
    "believe"; "hope"; "pretty"; "guess"; "maybe"; "perhaps"; "seems";
    "appeared to"; "tried to" ]%string.

(** [RESUME_CLICHES]; the list names one phrase twice. *)
Definition RESUME_CLICHES : list text :=
  map T
  [ "team player"; "detail-oriented"; "self-starter"; "hard worker";
    "results-driven"; "go-getter"; "think outside the box"; "synergy";
    "proactive"; "go-to person"; "dynamic"; "solution-driven";
    "multitasker"; "excellent communication skills";
    "track record of success"; "bottom line"; "value-added"; "win-win";
    "cutting edge"; "best of breed"; "results-oriented";
    "fast-paced environment"; "think outside the box"; "synergize";
    "hit the ground running" ]%string.

(** [ACTION_VERBS], in the insertion order of the dict. *)
Definition ACTION_VERBS : list (text * list text) :=
  map (fun e => (T (fst e), map T (snd e)))
  [ ("management",
     [ "Administered"; "Analyzed"; "Assigned"; "Attained"; "Chaired";
       "Consolidated"; "Contracted"; "Coordinated"; "Delegated";
       "Developed"; "Directed"; "Evaluated"; "Executed"; "Improved";
       "Increased"; "Organized"; "Oversaw"; "Planned"; "Prioritized";
       "Produced"; "Recommended"; "Reviewed"; "Scheduled"; "Strengthened";
       "Supervised" ]);
    ("communication",
     [ "Addressed"; "Arbitrated"; "Arranged"; "Authored"; "Collaborated";
       "Convinced"; "Corresponded"; "Developed"; "Directed"; "Drafted";
       "Edited"; "Enlisted"; "Formulated"; "Influenced"; "Interpreted";
       "Lectured"; "Mediated"; "Moderated"; "Negotiated"; "Persuaded";
       "Promoted"; "Publicized"; "Reconciled"; "Recruited"; "Translated" ]);
    ("research",
     [ "Analyzed"; "Clarified"; "Collected"; "Compared"; "Conducted";
       "Critiqued"; "Detected"; "Determined"; "Diagnosed"; "Evaluated";
       "Examined"; "Extracted"; "Identified"; "Inspected"; "Interpreted";
       "Interviewed"; "Investigated"; "Organized"; "Reviewed"; "Summarized";
       "Surveyed"; "Systematized"; "Tested"; "Validated"; "Verified" ]);
    ("technical",
     [ "Assembled"; "Built"; "Calculated"; "Computed"; "Designed";
       "Devised"; "Engineered"; "Fabricated"; "Maintained"; "Operated";
       "Optimized"; "Overhauled"; "Programmed"; "Redesigned"; "Reduced";
       "Remodeled"; "Repaired"; "Solved"; "Standardized"; "Upgraded" ]);
    ("teaching",
     [ "Adapted"; "Advised"; "Clarified"; "Coached"; "Communicated";
       "Coordinated"; "Developed"; "Enabled"; "Encouraged"; "Evaluated";
       "Explained"; "Facilitated"; "Guided"; "Informed"; "Instructed";
       "Persuaded"; "Set goals"; "Stimulated"; "Taught"; "Trained" ]);
    ("creative",
     [ "Acted"; "Composed"; "Conceived"; "Conceptualized"; "Created";
       "Customized"; "Designed"; "Developed"; "Directed"; "Established";
       "Fashioned"; "Founded"; "Illustrated"; "Initiated"; "Instituted";
       "Integrated"; "Introduced"; "Invented"; "Originated"; "Performed";
       "Planned"; "Revitalized"; "Shaped"; "Visualized" ]);
    ("financial",
     [ "Administered"; "Allocated"; "Analyzed"; "Appraised"; "Audited";
       "Balanced"; "Budgeted"; "Calculated"; "Computed"; "Developed";
       "Forecasted"; "Managed"; "Marketed"; "Planned"; "Projected";
       "Researched"; "Reduced"; "Tracked"; "Quantified"; "Verified" ]) ]%string.

(** ** Spelling corrector ([check_spelling]) *)

(** A correction is the pair [(matched_text, replacement)]. *)
Definition Correction := (text * text)%type.

(** [matched_text[0].isupper()]; a match of a lexicon entry is never
    empty. *)
Definition first_is_upper (m : text) : bool :=
  match m with
  | c :: _ => is_upper c
  | [] => false
  end.

(** The loop body of [check_spelling] for one lexicon entry: the state is
    [(corrected_text, corrections)]. *)
Definition spelling_step (st : text * list Correction) (entry : text * text)
  : text * list Correction :=
  let '(corrected_text, corrections) := st in
  let '(mistake, correction) := entry in
  if re_search_word mistake corrected_text
  then
    let recorded :=
      map (fun matched_text =>
             (matched_text,
              if first_is_upper matched_text
              then capitalize correction else correction))
          (re_finditer_word mistake corrected_text) in
    (re_sub_word mistake correction corrected_text, corrections ++ recorded)
  else st.

Definition check_spelling (t : text) : text * list Correction :=
  fold_left spelling_step COMMON_SPELLING_MISTAKES (t, []).

(** ** The process-wide random generator

    [random.choice] reads and advances the shared generator of the
    [random] module.  Its state is modelled by the raw draws still to
    come; [randbelow] consumes one of them. *)

Definition rng := nat -> nat.

Definition randbelow (n : nat) (g : rng) : nat * rng :=
  (g 0 mod n, fun i => g (S i)).

(** [random.choice(l)] for a non-empty [l]. *)
Definition random_choice (l : list text) (g : rng) : text * rng :=
  let '(i, g') := randbelow (length l) g in (nth i l [], g').

(** ** Text enhancer ([enhance_text]) *)

(** An enhancement is the pair [(target, note)]. *)
Definition Enhancement := (text * text)%type.

Definition removed_note : text := T "(removed)".

Definition cliche_note : text :=
  T "Consider replacing with more specific achievements".

(** The weak-word loop body; the state is [(enhanced_text, enhancements)]. *)
Definition weak_step (st : text * list Enhancement) (weak_word : text)
  : text * list Enhancement :=
  let '(enhanced_text, enhancements) := st in
  if re_search_word weak_word enhanced_text
  then (re_sub_word weak_word [] enhanced_text,
        enhancements ++ [(weak_word, removed_note)])
  else st.

Definition weak_pass (t : text) : text * list Enhancement :=
  fold_left weak_step WEAK_WORDS (t, []).

Definition cliche_pass (enhanced_text : text) : list Enhancement :=
  map (fun cliche => (cliche, cliche_note))
      (filter (fun cliche => contains cliche (lower_text enhanced_text))
              RESUME_CLICHES).

Definition bullet_dot : char := 8226%N.

Definition dash : char := 45%N.

Definition star : char := 42%N.

(** [line.strip().startswith('•') or ... '-' or ... '*']. *)
Definition is_bullet_line (line : text) : bool :=
  match strip line with
  | c :: _ => (c =? bullet_dot)%N || (c =? dash)%N || (c =? star)%N
  | [] => false
  end.

(** [any(verb.lower() == w for category in ACTION_VERBS.values()
         for verb in category)]. *)
Definition is_action_verb (w : text) : bool :=
  existsb (fun cat => existsb (fun verb => text_eqb (lower_text verb) w)
                              (snd cat))
          ACTION_VERBS.

(** The score of one category: how many of its verbs occur in [content]. *)
Definition category_score (content : text) (verbs : list text) : nat :=
  length (filter (fun verb => contains (lower_text verb) (lower_text content))
                 verbs).

(** [max(items, key=lambda x: x[1])]: the first item of maximal score. *)
Fixpoint max_item (best : text * nat) (items : list (text * nat))
  : text * nat :=
  match items with
  | [] => best
  | it :: rest =>
      if snd best <? snd it then max_item it rest else max_item best rest
  end.

Definition suggested_category (content : text) : text :=
  let category_scores :=
    map (fun cat => (fst cat, category_score content (snd cat)))
        ACTION_VERBS in
  match category_scores with
  | [] => T "management"
  | it :: rest => fst (max_item it rest)
  end.

(** [ACTION_VERBS[category]]. *)
Definition verbs_of (category : text) : list text :=
  match find (fun cat => text_eqb (fst cat) category) ACTION_VERBS with
  | Some cat => snd cat
  | None => []
  end.

Definition verb_note (suggested_verb : text) : text :=
  T "Consider starting with an action verb like '" ++ suggested_verb
    ++ T "'".

(** The body of the loop over the lines; the state is the enhancement list
    and the generator. *)
Definition bullet_step (st : list Enhancement * rng) (line : text)
  : list Enhancement * rng :=
  let '(enhancements, g) := st in
  if is_bullet_line line then
    let content := strip (tl (strip line)) in
    match split_ws content with
    | [] => st
    | w0 :: _ =>
        if is_action_verb (rstrip_chars (T ",.:;") (lower_text w0))
        then st
        else
          let '(suggested_verb, g') :=
            random_choice (verbs_of (suggested_category content)) g in
          (enhancements
             ++ [(T "Bullet point: " ++ content, verb_note suggested_verb)],
           g')
    end
  else st.

Definition newline : char := 10%N.

(** [enhance_text(text)], run from the generator state [g]; returns the
    result and the generator state it leaves. *)
Definition enhance_text (t : text) (g : rng)
  : (text * list Enhancement) * rng :=
  let '(enhanced_text, weak) := weak_pass t in
  let enhancements := weak ++ cliche_pass enhanced_text in
  let '(enhancements', g') :=
    fold_left bullet_step (split_char newline enhanced_text)
              (enhancements, g) in
  ((enhanced_text, enhancements'), g').

(** ** Binary64 arithmetic of the scorer

    [calculate_ats_score] computes its percentages with Python's true
    division and [int()], that is, in IEEE 754 binary64 with rounding to
    nearest, ties to even.  A non-negative finite double is represented by
    a pair [(m, e)] standing for [m * 2^e]. *)

Module Float64.

Local Open Scope Z_scope.

Definition float := (Z * Z)%type.

(** [floor (log2 (num / den))] for positive [num] and [den]. *)
Definition ilog2_ratio (num den : Z) : Z :=
let d := Z.log2 num - Z.log2 den in
if 0 <=? d
then (if den * 2 ^ d <=? num then d else d - 1)
else (if den <=? num * 2 ^ (- d) then d else d - 1).

(** Round half to even of [n / d], [d] positive. *)
Definition round_half_even (n d : Z) : Z :=
let q := n / d in
let r := n mod d in
if 2 * r <? d then q
else if d <? 2 * r then q + 1
else if Z.even q then q else q + 1.

(** The double nearest to the non-negative rational [num / den] (below the
  overflow threshold): 53 significant bits, exponent at least -1074. *)
Definition round_ratio (num den : Z) : float :=
if num =? 0 then (0, 0)
else
  let e := Z.max (ilog2_ratio num den - 52) (-1074) in
  if 0 <=? e
  then (round_half_even num (den * 2 ^ e), e)
  else (round_half_even (num * 2 ^ (- e)) den, e).

(** [a / b] on two ints ([b] positive, [a] non-negative): the correctly
  rounded quotient. *)
Definition true_div (a b : Z) : float := round_ratio a b.

(** [x * k] for a double [x] and a non-negative int [k] below [2^53]. *)
Definition mul_int (x : float) (k : Z) : float :=
let '(m, e) := x in
if 0 <=? e then round_ratio (m * k * 2 ^ e) 1
else round_ratio (m * k) (2 ^ (- e)).

(** [int(x)]: truncation. *)
Definition to_int (x : float) : Z :=
let '(m, e) := x in
if 0 <=? e then m * 2 ^ e else m / 2 ^ (- e).

End Float64.

(** [int((a / b) * 100)]. *)
Definition percent (a b : Z) : Z :=
  Float64.to_int (Float64.mul_int (Float64.true_div a b) 100).

(** [int(a / b)]. *)
Definition int_div (a b : Z) : Z := Float64.to_int (Float64.true_div a b).

(** ** ATS scorer ([calculate_ats_score]) *)

(** [str(n)] for a non-negative int. *)
Definition str_of_Z (n : Z) : text :=
  T (NilEmpty.string_of_uint (N.to_uint (Z.to_N n))).

(** The value stored under ["keyword_match"]: an int, or the string
    ["N/A"]. *)
Inductive KeywordMatch : Type :=
| Percent (n : Z)
| NotApplicable.

Module Score.
(** The dict [calculate_ats_score] returns. *)
Record t : Type := Build {
  overall : Z;
  keyword_match : KeywordMatch;
  format : Z;
  length : Z;
  suggestions : list text
}.
End Score.

Definition at_sign : char := 64%N.

Definition sections : list text :=
  map T [ "experience"; "education"; "skills"; "summary"; "objective";
          "work"; "contact" ]%string.

(** [len(re.findall(r'•|-|\*', text))]. *)
Definition count_bullets (t : text) : nat :=
  length (filter (fun c => (c =? bullet_dot)%N || (c =? dash)%N
                           || (c =? star)%N) t).

Definition found_sections (t : text) : nat :=
  length (filter (fun section => re_search_word section t) sections).

Definition matched_keywords (t : text) (job_keywords : list text) : nat :=
  length (filter (fun keyword => re_search_word keyword t) job_keywords).

(** The length band: the score and the suggestions it adds. *)
Definition length_part (t : text) : Z * list text :=
  let word_count := length (split_ws t) in
  if word_count <? 300
  then (60%Z, [T "Resume is too short. Aim for 400-800 words."])
  else if 1000 <? word_count
  then (70%Z, [T "Resume is too long. Aim for 400-800 words."])
  else (100%Z, []).

(** [format_score] before the clamp, and the suggestions of the format
    checks. *)
Definition format_part (t : text) : Z * list text :=
  let s0 := (100%Z, @nil text) in
  let s1 :=
    if count_char at_sign t =? 0
    then ((fst s0 - 10)%Z, snd s0 ++ [T "No email address detected."])
    else s0 in
  let s2 :=
    if found_sections t <? 3
    then ((fst s1 - 20)%Z,
          snd s1 ++ [T "Not enough clear section headers detected. Include clear sections for Experience, Education, Skills, etc."])
    else s1 in
  if count_bullets t <? 5
  then ((fst s2 - 10)%Z,
        snd s2 ++ [T "Not enough bullet points. Use bullets to highlight achievements and responsibilities."])
  else s2.

(** The keyword check; [job_keywords] is [None] for Python's [None]. *)
Definition keyword_part (t : text) (job_keywords : option (list text))
  : KeywordMatch * list text :=
  match job_keywords with
  | Some ((_ :: _) as kws) =>
      let keyword_score :=
        percent (Z.of_nat (matched_keywords t kws)) (Z.of_nat (length kws)) in
      (Percent keyword_score,
       if (keyword_score <? 70)%Z
       then [T "Low keyword match with job description ("
               ++ str_of_Z keyword_score
               ++ T "%). Try including more relevant keywords."]
       else [])
  | _ => (NotApplicable, [])
  end.

Definition overall_suggestion (overall : Z) : text :=
  if (overall <? 70)%Z
  then T "Overall ATS compatibility is low. Follow the suggestions to improve."
  else if (overall <? 85)%Z
  then T "Resume has moderate ATS compatibility. Make suggested improvements for better results."
  else T "Resume has good ATS compatibility.".

Definition calculate_ats_score (t : text) (job_keywords : option (list text))
  : Score.t :=
  let '(length_score, s_len) := length_part t in
  let '(format_score, s_fmt) := format_part t in
  let format := Z.max 0 format_score in
  let '(keyword_match, s_kw) := keyword_part t job_keywords in
  let overall :=
    match keyword_match with
    | Percent k => int_div (format + length_score + k) 3
    | NotApplicable => int_div (format + length_score) 2
    end in
  Score.Build overall keyword_match format length_score
              (s_len ++ s_fmt ++ s_kw ++ [overall_suggestion overall]).

(** ** Keyword extractor ([extract_keywords_from_job_description]) *)

(** What [requests.post] and the decoding of its body come to: an
    exception (connection failure, timeout, body that is not JSON), or a
    status code with the ["response"] field of the body. *)
Inductive reply : Type :=
| Raised
| Answered (status_code : Z) (response : text).

(** The generative text service as the extractor sees it: the outside
    world maps a prompt to a reply. *)
Definition service := text -> reply.

Definition keywords_prompt (job_description : text) : text :=
  T "Extract the most important skills, qualifications, and requirements from this job description. 
Format the result as a simple comma-separated list of keywords with no explanations or commentary.

JOB DESCRIPTION:
" ++ job_description ++ T "

KEYWORDS:".

Definition common_words : list text :=
  map T
  [ "a"; "an"; "the"; "and"; "or"; "but"; "is"; "are"; "was"; "were"; "be";
    "been"; "being"; "in"; "on"; "at"; "by"; "for"; "with"; "about";
    "against"; "between"; "into"; "through"; "during"; "before"; "after";
    "above"; "below"; "to"; "from"; "up"; "down"; "of"; "off"; "over";
    "under"; "again"; "further"; "then"; "once"; "here"; "there"; "when";
    "where"; "why"; "how"; "all"; "any"; "both"; "each"; "few"; "more";
    "most"; "other"; "some"; "such"; "no"; "nor"; "not"; "only"; "own";
    "same"; "so"; "than"; "too"; "very"; "s"; "t"; "can"; "will"; "just";
    "don"; "should"; "now"; "you"; "we"; "our"; "company"; "position";
    "job"; "role"; "candidate"; "applicant"; "ideal"; "looking"; "must";
    "required"; "preferred"; "responsibilities"; "qualifications";
    "requirements"; "ability"; "experience"; "work"; "working"; "team";
    "strong"; "excellent"; "include"; "including" ]%string.

Definition is_common (w : text) : bool := existsb (text_eqb w) common_words.

(** The classes [[a-zA-Z]] and [[a-zA-Z+#.]]. *)
Definition tok_first (c : char) : bool :=
  in_range 65 90 c || in_range 97 122 c.

Definition tok_more (c : char) : bool :=
  tok_first c || (c =? 43)%N || (c =? 35)%N || (c =? 46)%N.

(** [[a-zA-Z+#.]*\b] after the character [last]: the star is greedy, and
    gives characters back until [\b] holds. *)
Fixpoint token_rest (last : char) (s : text) : option text :=
  match s with
  | [] => if bnd (Some last) None then Some [] else None
  | c :: s' =>
      let stop := if bnd (Some last) (Some c) then Some [] else None in
      if tok_more c
      then match token_rest c s' with
           | Some m => Some (c :: m)
           | None => stop
           end
      else stop
  end.

(** [\b[a-zA-Z][a-zA-Z+#.]*\b] anchored at the current position. *)
Definition token_at (prev : option char) (s : text) : option text :=
  match s with
  | c :: s' =>
      if bnd prev (Some c) && tok_first c
      then option_map (cons c) (token_rest c s')
      else None
  | [] => None
  end.

Fixpoint findall_go (skip : nat) (prev : option char) (s : text)
  : list text :=
  match s with
  | [] => []
  | c :: s' =>
      match skip with
      | S k => findall_go k (Some c) s'
      | O =>
          match token_at prev s with
          | Some m => m :: findall_go (length m - 1) (Some c) s'
          | None => findall_go 0 (Some c) s'
          end
      end
  end.

(** [re.findall(r'\b[a-zA-Z][a-zA-Z+#.]*\b', s)]. *)
Definition findall_tokens (s : text) : list text := findall_go 0 None s.

(** A dict from terms to counts, as the list of its items in insertion
    order. *)
Definition counts := list (text * nat).

(** [d[k] += w if k in d else d[k] = w]: an existing key keeps its place, a
    new one goes last. *)
Fixpoint bump (w : nat) (k : text) (d : counts) : counts :=
  match d with
  | [] => [(k, w)]
  | (k', n) :: d' =>
      if text_eqb k' k then (k', n + w) :: d' else (k', n) :: bump w k d'
  end.

(** The pairs of neighbours of [words] of which neither is a common
    word. *)
Fixpoint word_pairs (words : list text) : list text :=
  match words with
  | w1 :: ((w2 :: _) as rest) =>
      if negb (is_common w1) && negb (is_common w2)
      then (w1 ++ T " " ++ w2) :: word_pairs rest
      else word_pairs rest
  | _ => []
  end.

Definition word_counts (job_description : text) : counts :=
  let low := lower_text job_description in
  let potential_keywords :=
    filter (fun word => negb (is_common word) && (2 <? length word))
           (findall_tokens low) in
  let singles := fold_left (fun d word => bump 1 word d)
                           potential_keywords [] in
  fold_left (fun d pair => bump 3 pair d) (word_pairs (split_ws low)) singles.

(** [sorted(items, key=lambda x: x[1], reverse=True)]: the sort is stable,
    so items of equal count keep their order. *)
Fixpoint insert_desc (x : text * nat) (l : counts) : counts :=
  match l with
  | [] => [x]
  | y :: l' => if snd y <=? snd x then x :: l else y :: insert_desc x l'
  end.

Definition sorted_desc (items : counts) : counts :=
  fold_right insert_desc [] items.

(** The fallback of the extractor. *)
Definition fallback_keywords (job_description : text) : list text :=
  map fst (firstn 20 (sorted_desc (word_counts job_description))).

Definition comma : char := 44%N.

Definition extract_keywords_from_job_description
    (world : service) (job_description : text) : list text :=
  match world (keywords_prompt job_description) with
  | Answered 200 keywords_text =>
      firstn 20
        (filter (fun k => negb (text_eqb k []))
                (map strip (split_char comma keywords_text)))
  | _ => fallback_keywords job_description
  end.

(** ** Templates ([resume_templates.py]) *)

Definition dquote : char := 34%N.

Definition MODERN_TEMPLATE : text :=
  T "
# {name}
**{job_role}** | {email} | {phone} | {location}

## SUMMARY
{summary}

## SKILLS
{skills}

## EXPERIENCE
{experience}

## EDUCATION
{education}

## CONTACT
Email: {email}
Phone: {phone}
Location: {location}
{links}
".

Definition CLASSIC_TEMPLATE : text :=
  T "
{name}
====================
{job_role}
Contact: {email} | {phone} | {location}

SUMMARY
--------------------
{summary}

SKILLS
--------------------
{skills}

EXPERIENCE
--------------------
{experience}

EDUCATION
--------------------
{education}

CONTACT INFORMATION
--------------------
Email: {email}
Phone: {phone}
Address: {location}
{links}
".

Definition MINIMALIST_TEMPLATE : text :=
  T "
# {name}
{job_role} | {location}

**About Me**
{summary}

**Skills**
{skills}

**Experience**
{experience}

**Education**
{education}

**Contact**
{email} | {phone}
{links}
".

Definition DARK_TEMPLATE : text :=
  T "
# {name}
## {job_role}
*{location}*

### PROFESSIONAL SUMMARY
{summary}

### TECHNICAL SKILLS
{skills}

### PROFESSIONAL EXPERIENCE
{experience}

### EDUCATION
{education}

### CONTACT INFORMATION
- Email: {email}
- Phone: {phone}
- Location: {location}
{links}
".

(** [templates.get(name, MODERN_TEMPLATE)] on the dict of the four
    templates. *)
Definition templates : list (text * text) :=
  [ (T "modern", MODERN_TEMPLATE); (T "classic", CLASSIC_TEMPLATE);
    (T "minimalist", MINIMALIST_TEMPLATE); (T "dark", DARK_TEMPLATE) ].

Definition dict_get (d : list (text * text)) (k : text) (default : text)
  : text :=
  match find (fun e => text_eqb (fst e) k) d with
  | Some e => snd e
  | None => default
  end.

Definition get_template (template_name : text) (dark_mode : bool) : text :=
  if dark_mode && negb (text_eqb (lower_text template_name) (T "dark"))
  then DARK_TEMPLATE
  else dict_get templates (lower_text template_name) MODERN_TEMPLATE.

(** ** Exporters ([resume_export.py]) *)

(** *** HTML *)

Definition css_dark : text :=
  T "
        body {
            font-family: 'Segoe UI', Arial, sans-serif;
            line-height: 1.6;
            padding: 40px;
            max-width: 800px;
            margin: 0 auto;
            background-color: #121212;
            color: #e0e0e0;
        }
        h1, h2, h3 {
            color: #bb86fc;
        }
        a {
            color: #03dac6;
            text-decoration: none;
        }
        a:hover {
            text-decoration: underline;
        }
        hr {
            border: none;
            border-top: 1px solid #333;
            margin: 20px 0;
        }
        ul {
            list-style-type: square;
            color: #e0e0e0;
        }
        ".

Definition css_light : text :=
  T "
        body {
            font-family: 'Segoe UI', Arial, sans-serif;
            line-height: 1.6;
            padding: 40px;
            max-width: 800px;
            margin: 0 auto;
            color: #333;
        }
        h1, h2, h3 {
            color: #2c3e50;
        }
        h1 {
            border-bottom: 2px solid #3498db;
            padding-bottom: 10px;
        }
        h2 {
            border-bottom: 1px solid #ddd;
            padding-bottom: 5px;
        }
        a {
            color: #3498db;
            text-decoration: none;
        }
        a:hover {
            text-decoration: underline;
        }
        ul {
            list-style-type: square;
        }
        ".

Definition html_document (css html_content : text) : text :=
  T "<!DOCTYPE html>
<html>
<head>
    <title>Resume</title>
    <meta charset=" ++ dquote :: T "UTF-8" ++ dquote :: T ">
    <style>
"
  ++ css ++
  T "
    </style>
</head>
<body>
    "
  ++ html_content ++
  T "
</body>
</html>".

Definition plain_document (plain_html : text) : text :=
  T "<!DOCTYPE html>
<html>
<head>
    <title>Resume</title>
    <meta charset=" ++ dquote :: T "UTF-8" ++ dquote :: T ">
    <style>
        body { font-family: Arial, sans-serif; line-height: 1.6; padding: 20px; }
        pre { white-space: pre-wrap; }
    </style>
</head>
<body>
    "
  ++ plain_html ++
  T "
</body>
</html>".

(** The file system as [open(filename, "w", encoding="utf-8")] and
    [f.write] see it: the files written so far; for every path whether
    opening it for writing fails, with the message of the [OSError]; and
    for every path and text whether the device fails while it takes the
    text, with the message and what the file holds then. *)
Record filesystem : Type := {
  files : list (text * text);
  open_error : text -> option text;
  device_error : text -> text -> option (text * text)
}.

(** A [str] can hold surrogate code points, which UTF-8 cannot encode:
    [f.write] raises [UnicodeEncodeError] for the first run of them.
    [encode_error] is the [str(e)] of that exception. *)
Definition is_surrogate (c : char) : bool := in_range 55296 57343 c.

Definition hex_digit (n : N) : char :=
  if (n <? 10)%N then (48 + n)%N else (87 + n)%N.

Definition hex4 (c : char) : text :=
  [ hex_digit (c / 4096); hex_digit ((c / 256) mod 16);
    hex_digit ((c / 16) mod 16); hex_digit (c mod 16) ]%N.

Fixpoint encode_error_from (position : nat) (s : text) : option text :=
  match s with
  | [] => None
  | c :: s' =>
      if is_surrogate c
      then
        let run := length s' - length (lstrip_by is_surrogate s') in
        Some (T "'utf-8' codec can't encode character"
              ++ match run with
                 | O => T " '\u" ++ hex4 c ++ T "' in position "
                        ++ str_of_Z (Z.of_nat position)
                 | _ => T "s in position "
                        ++ str_of_Z (Z.of_nat position) ++ T "-"
                        ++ str_of_Z (Z.of_nat (position + run))
                 end
              ++ T ": surrogates not allowed")
      else encode_error_from (S position) s'
  end.

Definition encode_error (s : text) : option text := encode_error_from 0 s.

(** What a call comes to: a returned string, or an exception that
    escapes. *)
Inductive outcome : Type :=
| Returns (s : text)
| Escapes (message : text).

(** The file system in which [filename] holds [content]. *)
Definition holding (filename content : text) (w : filesystem) : filesystem :=
  {| files := (filename, content) :: files w;
     open_error := open_error w;
     device_error := device_error w |}.

(** [with open(filename, "w", encoding="utf-8") as f: f.write(content)]:
    the message of the exception raised, if any, and the file system
    left.  A failing [open] leaves the file as it was; once the file is
    open it is empty, the text is encoded as a whole before any of it is
    written, and the device can fail while it takes the bytes. *)
Definition write_file (filename content : text) (w : filesystem)
  : option text * filesystem :=
  match open_error w filename with
  | Some message => (Some message, w)
  | None =>
      match encode_error content with
      | Some message => (Some message, holding filename [] w)
      | None =>
          match device_error w filename content with
          | Some (message, held) => (Some message, holding filename held w)
          | None => (None, holding filename content w)
          end
      end
  end.

(** The content of [filename] after the writes recorded in [w]. *)
Definition read_file (filename : text) (w : filesystem) : option text :=
  option_map snd (find (fun e => text_eqb (fst e) filename) (files w)).

Section Html.

(** The optional [markdown] package: absent ([None], so that
    [MARKDOWN_AVAILABLE] is false), or its function [markdown.markdown],
    which returns the HTML or raises with a message. *)
Variable markdown : option (text -> text + text).

(** [os.path.abspath]. *)
Variable abspath : text -> text.

Definition save_as_html (resume_text filename : text) (dark_mode : bool)
    (w : filesystem) : outcome * filesystem :=
  match markdown with
  | None =>
      let plain_html := T "<pre>" ++ resume_text ++ T "</pre>" in
      match write_file filename (plain_document plain_html) w with
      | (None, w') => (Returns (abspath filename), w')
      | (Some message, w') => (Escapes message, w')
      end
  | Some markdown_markdown =>
      match markdown_markdown resume_text with
      | inr message => (Returns (T "Error saving HTML file: " ++ message), w)
      | inl html_content =>
          let css := if dark_mode then css_dark else css_light in
          match write_file filename (html_document css html_content) w with
          | (None, w') => (Returns (abspath filename), w')
          | (Some message, w') =>
              (Returns (T "Error saving HTML file: " ++ message), w')
          end
      end
  end.

End Html.

(** *** DOCX and PDF: what each writer makes of a line *)

Inductive run : Type :=
| Plain (s : text)
| Bold (s : text).

(** The structural element a writer emits for a line. *)
Inductive element : Type :=
| Heading (level : nat) (s : text)
| BoldLine (s : text)
| BulletItem (s : text)
| Blank
| Separator
| InlineRuns (runs : list run)
| Paragraph (s : text).

Definition equals_sign : char := 61%N.

(** ['=' in line and len(line.strip()) > 10
     and all(c == '=' for c in line.strip())]. *)
Definition is_separator (line : text) : bool :=
  mem_char line equals_sign && (10 <? length (strip line))
  && forallb (fun c => (c =? equals_sign)%N) (strip line).

(** The loop body of [save_as_pdf]. *)
Definition pdf_element (line : text) : element :=
  if startswith (T "# ") line then Heading 1 (skipn 2 line)
  else if startswith (T "## ") line then Heading 2 (skipn 3 line)
  else if startswith (T "### ") line then Heading 3 (skipn 4 line)
  else if startswith (T "**") line && endswith (T "**") line
  then BoldLine (strip_chars (T "*") line)
  else if startswith (T "-") line || startswith (T "*") line
  then BulletItem (strip (skipn 1 line))
  else if text_eqb (strip line) [] then Blank
  else if is_separator line then Separator
  else Paragraph line.

(** [\*\*.*?\*\*] anchored at the head of [s]: the matched text.  The dot
    does not match a newline, and the lazy star stops at the first closing
    pair of stars. *)
Fixpoint lazy_to_stars (s : text) : option text :=
  match s with
  | [] => None
  | c :: s' =>
      if startswith (T "**") s then Some (T "**")
      else if (c =? newline)%N then None
      else option_map (cons c) (lazy_to_stars s')
  end.

Definition bold_at (s : text) : option text :=
  if startswith (T "**") s
  then option_map (app (T "**")) (lazy_to_stars (skipn 2 s))
  else None.

(** [re.split] of a line on the pattern of [bold_at], which the source
    puts in a capturing group, so that the matches are parts too; [cur] is
    the part being read, reversed. *)
Fixpoint split_bold_go (skip : nat) (cur : text) (s : text) : list text :=
  match s with
  | [] => [rev cur]
  | c :: s' =>
      match skip with
      | S k => split_bold_go k cur s'
      | O =>
          match bold_at s with
          | Some m => rev cur :: m :: split_bold_go (length m - 1) [] s'
          | None => split_bold_go 0 (c :: cur) s'
          end
      end
  end.

Definition split_bold (line : text) : list text := split_bold_go 0 [] line.

(** [part[2:-2]]. *)
Definition slice_2_m2 (part : text) : text :=
  firstn (length part - 4) (skipn 2 part).

Definition docx_run (part : text) : run :=
  if startswith (T "**") part && endswith (T "**") part
  then Bold (slice_2_m2 part)
  else Plain part.

(** The loop body of [save_as_docx]. *)
Definition docx_element (line : text) : element :=
  if startswith (T "# ") line then Heading 1 (skipn 2 line)
  else if startswith (T "## ") line then Heading 2 (skipn 3 line)
  else if startswith (T "### ") line then Heading 3 (skipn 4 line)
  else if startswith (T "-") line || startswith (T "*") line
  then BulletItem (strip (skipn 1 line))
  else if text_eqb (strip line) [] then Blank
  else if is_separator line then Separator
  else if contains (T "**") line
  then InlineRuns (map docx_run (split_bold line))
  else Paragraph line.

(** The elements of a whole document, line by line. *)
Definition pdf_elements (resume_text : text) : list element :=
  map pdf_element (split_char newline resume_text).

Definition docx_elements (resume_text : text) : list element :=
  map docx_element (split_char newline resume_text).

(** *** Plain text, and the two writers as a whole *)

(** What the optional packages [fpdf] and [docx] make of the elements
    they are given and of the file name: the message of the exception
    they raise, if any, and the file system they leave. *)
Definition renderer :=
  list element -> text -> filesystem -> option text * filesystem.

Section Writers.

(** [os.path.abspath]. *)
Variable abspath : text -> text.

Definition save_as_text (resume_text filename : text) (w : filesystem)
  : outcome * filesystem :=
  match write_file filename resume_text w with
  | (None, w') => (Returns (abspath filename), w')
  | (Some message, w') =>
      (Returns (T "Error saving text file: " ++ message), w')
  end.

(** [fpdf] is [None] when the package is missing ([PDF_AVAILABLE] is
    false). *)
Definition save_as_pdf (fpdf : option renderer)
    (resume_text filename : text) (w : filesystem) : outcome * filesystem :=
  match fpdf with
  | None =>
      (Returns (T "Error: PDF export requires the fpdf package. Install with 'pip install fpdf'."),
       w)
  | Some render =>
      match render (pdf_elements resume_text) filename w with
      | (None, w') => (Returns (abspath filename), w')
      | (Some message, w') =>
          (Returns (T "Error saving PDF file: " ++ message), w')
      end
  end.

Definition save_as_docx (docx : option renderer)
    (resume_text filename : text) (w : filesystem) : outcome * filesystem :=
  match docx with
  | None =>
      (Returns (T "Error: DOCX export requires python-docx package. Install with 'pip install python-docx'."),
       w)
  | Some render =>
      match render (docx_elements resume_text) filename w with
      | (None, w') => (Returns (abspath filename), w')
      | (Some message, w') =>
          (Returns (T "Error saving DOCX file: " ++ message), w')
      end
  end.

End Writers.

(** ** [str.format] on the templates

    The templates use replacement fields with a plain name and nothing
    else.  [format_go] reads a format string from left to right as
    [str.format] does with the keyword arguments [d]: [{{] and [}}] stand
    for a brace, [{name}] for the value of [name] in [d].  A field with a
    conversion, a format specification, an attribute or an index is
    outside what is modelled here and reported as [Unsupported];
    [FormatError] stands for the [KeyError], [IndexError] or [ValueError]
    that [str.format] raises. *)

Inductive formatted : Type :=
| Formatted (s : text)
| FormatError
| Unsupported.

Definition lbrace : char := 123%N.

Definition rbrace : char := 125%N.

(** The characters of the field names read here: ASCII letters, digits
    and the underscore. *)
Definition is_ascii_digit (c : char) : bool := in_range 48 57 c.

Definition is_name_char (c : char) : bool :=
  in_range 48 57 c || in_range 65 90 c || (c =? 95)%N || in_range 97 122 c.

(** [d[k]] on a dict given by its items: [None] for a [KeyError]. *)
Definition lookup (d : list (text * text)) (k : text) : option text :=
  option_map snd (find (fun e => text_eqb (fst e) k) d).

(** The value of the field [name]: an empty name or a number asks for a
    positional argument, of which there is none ([IndexError]); another
    name is looked up among the keyword arguments ([KeyError] when it is
    missing). *)
Definition field_value (d : list (text * text)) (name : text) : formatted :=
  if forallb is_ascii_digit name then FormatError
  else if forallb is_name_char name
  then match lookup d name with
       | Some v => Formatted v
       | None => FormatError
       end
  else Unsupported.

Definition prepend (s : text) (r : formatted) : formatted :=
  match r with
  | Formatted t => Formatted (s ++ t)
  | _ => r
  end.

(** [field] is [None] in literal text and holds the name read so far,
    reversed, inside a replacement field. *)
Fixpoint format_go (d : list (text * text)) (field : option text) (s : text)
  : formatted :=
  match s with
  | [] => match field with None => Formatted [] | Some _ => FormatError end
  | c :: s' =>
      match field with
      | Some name =>
          if (c =? rbrace)%N
          then match field_value d (rev name) with
               | Formatted v => prepend v (format_go d None s')
               | e => e
               end
          else if (c =? lbrace)%N then Unsupported
          else format_go d (Some (c :: name)) s'
      | None =>
          if (c =? lbrace)%N
          then match s' with
               | c2 :: s'' =>
                   if (c2 =? lbrace)%N
                   then prepend [lbrace] (format_go d None s'')
                   else format_go d (Some []) s'
               | [] => FormatError
               end
          else if (c =? rbrace)%N
          then match s' with
               | c2 :: s'' =>
                   if (c2 =? rbrace)%N
                   then prepend [rbrace] (format_go d None s'')
                   else FormatError
               | [] => FormatError
               end
          else prepend [c] (format_go d None s')
      end
  end.

(** [template.format] with the keyword arguments [d]. *)
Definition str_format (template : text) (d : list (text * text))
  : formatted :=
  format_go d None template.

(** ** Filling a template ([format_resume]) *)

(** The dict [defaults] of [format_resume]. *)
Definition defaults : list (text * text) :=
  map (fun k => (T k, []))
  [ "name"; "job_role"; "summary"; "skills"; "experience"; "education";
    "email"; "phone"; "location"; "links" ]%string.

(** [k in d]. *)
Definition has_key (d : list (text * text)) (k : text) : bool :=
  existsb (fun e => text_eqb (fst e) k) d.

(** [d[k] = v] for a key of [d]: the key keeps its place. *)
Definition set_key (k v : text) (d : list (text * text))
  : list (text * text) :=
  map (fun e => if text_eqb (fst e) k then (fst e, v) else e) d.

(** The loop over [kwargs.items()]. *)
Definition update_defaults (d : list (text * text)) (kv : text * text)
  : list (text * text) :=
  if has_key d (fst kv) then set_key (fst kv) (snd kv) d else d.

(** ['\n'.join([f"- {skill}" for skill in skills_list])] with
    [skills_list = [skill.strip() for skill in skills.split(',')]]. *)
Definition formatted_skills (skills : text) : text :=
  join [newline]
       (map (fun skill => T "- " ++ skill)
            (map strip (split_char comma skills))).

(** [format_resume]; [dark_mode] is the truth value of what
    [kwargs.pop('dark_mode', False)] gives, and [kwargs] the other keyword
    arguments, in the order of the call. *)
Definition format_resume (template_name : text) (dark_mode : bool)
    (kwargs : list (text * text)) : formatted :=
  let template := get_template template_name dark_mode in
  let d := fold_left update_defaults kwargs defaults in
  let skills := match lookup d (T "skills") with Some s => s | None => [] end in
  let d := if contains (T ",") skills
           then set_key (T "skills") (formatted_skills skills) d
           else d in
  str_format template d.

(** ** Suggestions ([ai_suggestions.py]) *)

(** [SKILL_SUGGESTIONS], in the insertion order of the dict. *)
Definition SKILL_SUGGESTIONS : list (text * list text) :=
  map (fun e => (T (fst e), map T (snd e)))
  [ ("software developer",
     [ "Python"; "JavaScript"; "Java"; "C#"; "C++"; "TypeScript"; "React";
       "Angular"; "Vue.js"; "Node.js"; "Django"; "Flask"; "SQL"; "MongoDB";
       "PostgreSQL"; "AWS"; "Docker"; "Kubernetes"; "CI/CD"; "Git";
       "Agile Methodologies"; "Problem Solving" ]);
    ("data scientist",
     [ "Python"; "R"; "SQL"; "Machine Learning"; "Deep Learning";
       "TensorFlow"; "PyTorch"; "Scikit-learn"; "Pandas"; "NumPy";
       "Data Visualization"; "Statistical Analysis"; "Big Data"; "Hadoop";
       "Spark"; "NLP"; "A/B Testing"; "Data Mining"; "Feature Engineering" ]);
    ("product manager",
     [ "Product Strategy"; "Market Research"; "User Stories"; "Agile";
       "Scrum"; "Roadmapping"; "Competitive Analysis"; "A/B Testing";
       "User Experience"; "Product Lifecycle Management"; "JIRA";
       "Confluence"; "SQL"; "Analytics"; "Stakeholder Management";
       "Presentation Skills"; "Prioritization" ]);
    ("designer",
     [ "UI/UX Design"; "Figma"; "Adobe Creative Suite"; "Sketch"; "InVision";
       "Wireframing"; "Prototyping"; "Typography"; "Color Theory";
       "Design Systems"; "User Research"; "Usability Testing";
       "Responsive Design"; "Accessibility" ]);
    ("marketing",
     [ "Digital Marketing"; "Content Marketing"; "SEO"; "SEM";
       "Social Media Marketing"; "Email Marketing"; "Google Analytics";
       "A/B Testing"; "Market Research"; "Campaign Management";
       "Brand Strategy"; "Adobe Analytics"; "HubSpot"; "CRM" ]) ]%string.

(** [SUMMARY_SUGGESTIONS]. *)
Definition SUMMARY_SUGGESTIONS : list (text * list text) :=
  map (fun e => (T (fst e), map T (snd e)))
  [ ("software developer",
     [ "Experienced software developer with a proven track record of building scalable, efficient applications.";
       "Results-driven software engineer with expertise in designing and implementing robust solutions to complex problems.";
       "Detail-oriented developer with strong analytical skills and a passion for clean, maintainable code." ]);
    ("data scientist",
     [ "Data scientist with expertise in applying statistical methods and machine learning to extract actionable insights.";
       "Analytical professional skilled in transforming complex datasets into clear business recommendations.";
       "Results-oriented data scientist with experience in building predictive models that drive business decisions." ]);
    ("product manager",
     [ "Strategic product manager with a proven ability to identify market opportunities and deliver successful products.";
       "User-focused product manager experienced in translating customer needs into product features and roadmaps.";
       "Results-driven product leader with expertise in managing the full product lifecycle from conception to launch." ]);
    ("designer",
     [ "Creative designer with a keen eye for aesthetics and a user-centered approach to design challenges.";
       "Innovative design professional with expertise in creating intuitive, engaging user experiences.";
       "Detail-oriented designer skilled in balancing creativity with functional requirements to deliver impactful designs." ]);
    ("marketing",
     [ "Strategic marketing professional with a track record of developing campaigns that increase brand awareness and drive conversion.";
       "Data-driven marketer experienced in leveraging analytics to optimize marketing strategies and ROI.";
       "Creative marketing specialist with expertise in crafting compelling narratives that resonate with target audiences." ]) ]%string.

(** [EXPERIENCE_SUGGESTIONS]. *)
Definition EXPERIENCE_SUGGESTIONS : list (text * list text) :=
  map (fun e => (T (fst e), map T (snd e)))
  [ ("software developer",
     [ "Developed and maintained {technology} applications serving {number} users";
       "Implemented CI/CD pipeline resulting in {percentage}% reduction in deployment time";
       "Refactored legacy code base improving performance by {percentage}%";
       "Collaborated with cross-functional teams to deliver features on time and within scope";
       "Designed and implemented RESTful APIs for third-party integrations";
       "Led code reviews and mentored junior developers in best practices" ]);
    ("data scientist",
     [ "Built predictive models that improved {metric} by {percentage}%";
       "Analyzed large datasets to identify patterns and trends that informed business strategy";
       "Developed automated reporting dashboards used by executive leadership";
       "Implemented A/B testing framework that optimized conversion rates";
       "Created machine learning algorithms that enhanced product recommendations";
       "Collaborated with stakeholders to translate business questions into data analysis projects" ]);
    ("product manager",
     [ "Led product strategy resulting in {percentage}% increase in user engagement";
       "Managed product roadmap and prioritized features based on user feedback and business goals";
       "Collaborated with engineering teams to deliver products on schedule and within budget";
       "Conducted market research to identify customer needs and competitive positioning";
       "Defined and tracked KPIs to measure product success and inform iterations";
       "Presented product vision and strategy to executive leadership" ]) ]%string.

(** [get_suggestions_from_ollama(prompt)]: the text the service
    generated, or [None]. *)
Definition get_suggestions_from_ollama (world : service) (prompt : text)
  : option text :=
  match world prompt with
  | Answered 200 response => Some response
  | _ => None
  end.

(** [d[k] = x] on a list, for an index of the list. *)
Fixpoint list_set (j : nat) (x : text) (l : list text) {struct l}
  : list text :=
  match l with
  | [] => []
  | y :: l' =>
      match j with
      | O => x :: l'
      | S j' => y :: list_set j' x l'
      end
  end.

(** [random.sample(population, k)] for [k <= len(population)], as
    CPython draws it from a population of at most 21 items (85 when more
    than 5 are drawn): item [j] of the [n] not yet drawn is taken and the
    last of them moved into its place. *)
Fixpoint sample_go (pool : list text) (n k : nat) (g : rng)
  : list text * rng :=
  match k with
  | O => ([], g)
  | S k' =>
      let '(j, g1) := randbelow n g in
      let '(rest, g2) :=
        sample_go (list_set j (nth (n - 1) pool []) pool) (n - 1) k' g1 in
      (nth j pool [] :: rest, g2)
  end.

Definition random_sample (population : list text) (k : nat) (g : rng)
  : list text * rng :=
  sample_go population (length population) k g.

(** [d.get(k, default)] on a table of lists. *)
Definition table_get (d : list (text * list text)) (k : text)
    (default : list text) : list text :=
  match find (fun e => text_eqb (fst e) k) d with
  | Some e => snd e
  | None => default
  end.

(** The first role of [SKILL_SUGGESTIONS] that is part of the job role or
    of which the job role is a part, ["software developer"] when there is
    none. *)
Definition closest_role (job_role : text) : text :=
  match find (fun role => contains role job_role || contains job_role role)
             (map fst SKILL_SUGGESTIONS) with
  | Some role => role
  | None => T "software developer"
  end.

Definition skills_prompt (job_role : text) : text :=
  T "List 10 important professional skills for a " ++ job_role
    ++ T " role. "
    ++ T "Provide a comma-separated list of technical and soft skills.".

(** [get_skill_suggestions(job_role)], from the generator state [g]. *)
Definition get_skill_suggestions (world : service) (job_role : text) (g : rng)
  : list text * rng :=
  let job_role := lower_text job_role in
  let closest_role := closest_role job_role in
  match get_suggestions_from_ollama world (skills_prompt job_role) with
  | Some ((_ :: _) as ai_suggestions) =>
      (firstn 15
         (filter (fun s => negb (text_eqb s []))
                 (map strip (split_char comma ai_suggestions))),
       g)
  | _ =>
      let population :=
        table_get SKILL_SUGGESTIONS closest_role
                  (table_get SKILL_SUGGESTIONS (T "software developer") []) in
      random_sample population (Nat.min 12 (length population)) g
  end.

(** [years_experience] is [None] for a value that counts as false, and
    the text of the value otherwise. *)
Definition summary_prompt (job_role : text) (years_experience : option text)
  : text :=
  T "Write a concise, powerful professional summary for a " ++ job_role
    ++ match years_experience with
       | Some years => T " with " ++ years ++ T " years of experience"
       | None => []
       end
    ++ T ". "
    ++ T "Keep it to 2-3 sentences highlighting key strengths.".

Definition get_summary_suggestion (world : service) (job_role : text)
    (years_experience : option text) (g : rng) : text * rng :=
  let job_role := lower_text job_role in
  match get_suggestions_from_ollama world
          (summary_prompt job_role years_experience) with
  | Some ((_ :: _) as ai_suggestion) => (ai_suggestion, g)
  | _ =>
      match find (fun e => contains (fst e) job_role) SUMMARY_SUGGESTIONS with
      | Some e => random_choice (snd e) g
      | None =>
          random_choice
            (table_get SUMMARY_SUGGESTIONS (T "software developer") []) g
      end
  end.

(** ** Suggestions: bullet points of experience *)

(** [s.replace(old, new)] for a non-empty [old]: the occurrences are
    found from left to right, and the scan resumes behind each. *)
Fixpoint replace_go (old new : text) (skip : nat) (s : text) : text :=
  match s with
  | [] => []
  | c :: s' =>
      match skip with
      | S k => replace_go old new k s'
      | O =>
          if startswith old s
          then new ++ replace_go old new (length old - 1) s'
          else c :: replace_go old new 0 s'
      end
  end.

Definition replace (old new s : text) : text := replace_go old new 0 s.

(** [random.randint(a, b)] for [a <= b]. *)
Definition randint (a b : Z) (g : rng) : Z * rng :=
  let '(i, g') := randbelow (Z.to_nat (b - a + 1)) g in
  ((a + Z.of_nat i)%Z, g').


(** The four [replace] calls that fill a template, with the draws in the
    order in which Python makes them. *)
Definition fill_placeholders (template : text) (g : rng) : text * rng :=
  let '(technology, g1) :=
    random_choice (map T [ "web"; "mobile"; "cloud"; "desktop" ]%string) g in
  let bullet := replace (T "{technology}") technology template in
  let '(number, g2) := randint 100 10000 g1 in
  let bullet := replace (T "{number}") (str_of_Z number) bullet in
  let '(percentage, g3) := randint 15 50 g2 in
  let bullet := replace (T "{percentage}") (str_of_Z percentage) bullet in
  let '(metric, g4) :=
    random_choice
      (map T [ "accuracy"; "efficiency"; "sales"; "retention" ]%string) g3 in
  (replace (T "{metric}") metric bullet, g4).

(** The loop over the sampled templates. *)
Fixpoint fill_all (sampled_templates : list text) (g : rng)
  : list text * rng :=
  match sampled_templates with
  | [] => ([], g)
  | template :: rest =>
      let '(bullet, g1) := fill_placeholders template g in
      let '(bullets, g2) := fill_all rest g1 in
      (bullet :: bullets, g2)
  end.

(** The loop [while len(bullet_points) < count], which runs [missing]
    times: each round draws a template of the software developer and
    fills it. *)
Fixpoint fill_up (missing : nat) (g : rng) : list text * rng :=
  match missing with
  | O => ([], g)
  | S missing' =>
      let '(template, g1) :=
        random_choice
          (table_get EXPERIENCE_SUGGESTIONS (T "software developer") []) g in
      let '(bullet, g2) := fill_placeholders template g1 in
      let '(bullets, g3) := fill_up missing' g2 in
      (bullet :: bullets, g3)
  end.

(** [company] is [None] for a value that counts as false. *)
Definition bullets_prompt (job_role : text) (company : option text)
    (count : nat) : text :=
  T "Generate " ++ str_of_Z (Z.of_nat count)
    ++ T " concise, achievement-oriented bullet points for a resume "
    ++ T "for a " ++ job_role
    ++ match company with
       | Some c => T " at " ++ c
       | None => []
       end
    ++ T " position. Include concrete metrics and achievements "
    ++ T "where possible. Format as a numbered list.".

(** The lines of a numbered or dashed list, without their marks. *)
Definition parse_bullet (line : text) : option text :=
  match strip line with
  | c :: rest =>
      if is_digit c then Some (strip (skipn 2 (c :: rest)))
      else if (c =? dash)%N then Some (strip rest)
      else None
  | [] => None
  end.

Fixpoint parse_bullets (lines : list text) : list text :=
  match lines with
  | [] => []
  | line :: rest =>
      match parse_bullet line with
      | Some b => b :: parse_bullets rest
      | None => parse_bullets rest
      end
  end.

(** [get_experience_bullet_points(job_role, company, count)] for a
    [count] that is not negative. *)
Definition get_experience_bullet_points (world : service) (job_role : text)
    (company : option text) (count : nat) (g : rng) : list text * rng :=
  let job_role := lower_text job_role in
  let answered :=
    match get_suggestions_from_ollama world
            (bullets_prompt job_role company count) with
    | Some ((_ :: _) as ai_suggestion) =>
        parse_bullets (split_char newline ai_suggestion)
    | _ => []
    end in
  match answered with
  | _ :: _ => (firstn count answered, g)
  | [] =>
      let templates :=
        match find (fun e => contains (fst e) job_role)
                   EXPERIENCE_SUGGESTIONS with
        | Some e => snd e
        | None => []
        end in
      let templates :=
        match templates with
        | [] => table_get EXPERIENCE_SUGGESTIONS (T "software developer") []
        | _ => templates
        end in
      let '(sampled_templates, g1) :=
        random_sample templates (Nat.min count (length templates)) g in
      let '(bullet_points, g2) := fill_all sampled_templates g1 in
      let '(more, g3) := fill_up (count - length bullet_points) g2 in
      (bullet_points ++ more, g3)
  end.

(** ** The generator ([enhanced_resume_generator.py]) *)

(** [BASIC_TEMPLATES], the templates the generator carries itself. *)
Definition BASIC_TEMPLATES : list (text * text) :=
  [ (T "modern", T "
# {name}
**{job_role}** | {email} | {phone} | {location}

## SUMMARY
{summary}

## SKILLS
{skills}

## EXPERIENCE
{experience}

## EDUCATION
{education}

## CONTACT
Email: {email}
Phone: {phone}
Location: {location}
{links}
");
    (T "classic", T "
{name}
====================
{job_role}
Contact: {email} | {phone} | {location}

SUMMARY
--------------------
{summary}

SKILLS
--------------------
{skills}

EXPERIENCE
--------------------
{experience}

EDUCATION
--------------------
{education}

CONTACT INFORMATION
--------------------
Email: {email}
Phone: {phone}
Address: {location}
{links}
") ].

(** What [generate_resume_with_ai] comes to: the resume the service
    wrote, the resume filled from a template, or the [ImportError] raised
    when [requests] is missing. *)
Inductive generated : Type :=
| Generated (resume : text)
| FromTemplate (resume : formatted)
| ImportError.

Definition resume_prompt
    (name job_role skills experience education email phone location links
       : text) : text :=
  T "Create a professional resume for the following individual:

Name: " ++ name ++ T "
Job Role: " ++ job_role ++ T "
Skills: " ++ skills ++ T "
Experience: " ++ experience ++ T "
Education: " ++ education ++ T "
Email: " ++ email ++ T "
Phone: " ++ phone ++ T "
Location: " ++ location ++ T "
Links: " ++ links ++ T "

Format the resume with markdown, using sections for Summary, Skills, Experience, Education, and Contact Information.
Be concise, professional, and highlight key achievements. Write in third person.
".

Section Generator.

(** The optional packages, [os.path.abspath], whether the modules of the
    repository and the [requests] package could be imported, and the time
    stamp [datetime.datetime.now().strftime("%Y%m%d_%H%M%S")]. *)
Variable markdown : option (text -> text + text).
Variables fpdf docx : option renderer.
Variable abspath : text -> text.
Variables EXPORT_AVAILABLE TEMPLATES_AVAILABLE AI_SUGGESTIONS_AVAILABLE : bool.
Variable REQUESTS_AVAILABLE : bool.
Variable timestamp : text.

Definition save_resume_as_text (resume_text filename : text) (w : filesystem)
  : outcome * filesystem :=
  if EXPORT_AVAILABLE
  then save_as_text abspath resume_text filename w
  else match write_file filename resume_text w with
       | (None, w') => (Returns (abspath filename), w')
       | (Some message, w') => (Escapes message, w')
       end.

(** [export_resume(resume_text, format_type, filename)]; [filename] is
    [None] for Python's [None].  The module [resume_export] defines both
    [save_as_docx] and [save_as_pdf], so the two [hasattr] tests hold. *)
Definition export_resume (resume_text format_type : text)
    (filename : option text) (w : filesystem) : outcome * filesystem :=
  if negb EXPORT_AVAILABLE
  then save_resume_as_text resume_text (T "resume.txt") w
  else
    let filename :=
      match filename with
      | Some f => f
      | None => T "resume_" ++ timestamp
      end in
    if text_eqb format_type (T "txt")
    then save_as_text abspath resume_text (filename ++ T ".txt") w
    else if text_eqb format_type (T "html")
    then save_as_html markdown abspath resume_text (filename ++ T ".html")
                      false w
    else if text_eqb format_type (T "docx")
    then save_as_docx abspath docx resume_text (filename ++ T ".docx") w
    else if text_eqb format_type (T "pdf")
    then save_as_pdf abspath fpdf resume_text (filename ++ T ".pdf") w
    else save_resume_as_text resume_text (filename ++ T ".txt") w.

(** [get_summary(job_role)]. *)
Definition get_summary (world : service) (job_role : text) (g : rng)
  : text * rng :=
  if AI_SUGGESTIONS_AVAILABLE
  then get_summary_suggestion world job_role None g
  else (T "Experienced " ++ job_role
          ++ T " with a proven track record of delivering high-quality results.",
        g).

Definition format_resume_from_template (world : service)
    (name job_role skills experience education email phone location links
       template_name : text) (g : rng) : formatted * rng :=
  let '(summary, g') := get_summary world job_role g in
  let fields :=
    [ (T "name", name); (T "job_role", job_role); (T "summary", summary);
      (T "skills", skills); (T "experience", experience);
      (T "education", education); (T "email", email); (T "phone", phone);
      (T "location", location); (T "links", links) ] in
  if TEMPLATES_AVAILABLE
  then (format_resume template_name false fields, g')
  else (str_format
          (dict_get BASIC_TEMPLATES (lower_text template_name)
                    (dict_get BASIC_TEMPLATES (T "modern") []))
          fields,
        g').

(** [generate_resume_with_ai]; [connected] is what
    [check_ollama_connection()] returns. *)
Definition generate_resume_with_ai (connected : bool) (world : service)
    (name job_role skills experience education email phone location links
       : text) (g : rng) : generated * rng :=
  if negb REQUESTS_AVAILABLE then (ImportError, g)
  else
    let fallback :=
      let '(resume, g') :=
        format_resume_from_template world name job_role skills experience
          education email phone location links (T "modern") g in
      (FromTemplate resume, g') in
    if negb connected then fallback
    else
      match world (resume_prompt name job_role skills experience education
                                 email phone location links) with
      | Answered 200 ((_ :: _) as generated_resume) =>
          (Generated generated_resume, g)
      | _ => fallback
      end.

End Generator.

(** ** Enhancing with the service ([enhance_with_ai]) *)

(** What a request comes to for [enhance_with_ai]: [requests.post]
    raises, or returns a status code with a body that [response.json()]
    decodes, raising or giving a dict in which ["response"] may be
    missing. *)
Inductive posted : Type :=
| PostRaised (message : text)
| Posted (status_code : Z) (json : text + option text).

(** The service, request by request: the reply to the [n]-th request of
    a call as a function of its prompt. *)
Definition ollama := nat -> text -> posted.

Definition improve_prompt (t job_role : text) : text :=
  T "Improve the following resume content for a " ++ job_role
    ++ T " position. 
Make it more impactful, professional, and results-oriented. 
Replace weak phrases with strong action verbs, add metrics where sensible, and ensure it's ATS-friendly.
Do not invent false information. Keep the same general content but improve the phrasing.

CONTENT TO IMPROVE:
" ++ t ++ T "

IMPROVED CONTENT:".

Definition explanation_prompt (t enhanced_text : text) : text :=
  T "Briefly explain the key improvements made to this resume content:
Original: " ++ t ++ T "
Improved: " ++ enhanced_text ++ T "

List 3-5 key improvements made:".

Definition default_explanation : text :=
  T "Text enhanced with stronger language and clarity.".

Definition ai_error (message : text) : text :=
  T "Error using AI enhancement: " ++ message.

Definition enhance_with_ai (world : ollama) (t job_role : text)
  : text * text :=
  match world 0 (improve_prompt t job_role) with
  | PostRaised message => (t, ai_error message)
  | Posted 200 (inl message) => (t, ai_error message)
  | Posted 200 (inr data) =>
      let enhanced_text := match data with Some r => r | None => [] end in
      match world 1 (explanation_prompt t enhanced_text) with
      | PostRaised message => (t, ai_error message)
      | Posted 200 (inl message) => (t, ai_error message)
      | Posted 200 (inr explanation_data) =>
          (enhanced_text,
           match explanation_data with
           | Some explanation => explanation
           | None => default_explanation
           end)
      | Posted _ _ => (enhanced_text, default_explanation)
      end
  | Posted _ _ => (t, T "Could not connect to Ollama API.")
  end.

(** ** Years of experience ([linkedin_import.py]) *)

(** An entry of the list of experiences: the two dates, empty when the
    key is missing. *)
Record experience : Type := {
  start_date : text;
  end_date : text
}.

Definition slash : char := 47%N.

Section Years.

(** [int(s)] on a string, [None] when it raises [ValueError]; and the year
    and month of [datetime.datetime.now()]. *)
Variable int_of_str : text -> option Z.
Variable now : Z * Z.

(** The year and month of a date of the form [MM/YYYY] or [YYYY];
    [month] is the month taken for a bare year. *)
Definition year_month (month : Z) (date : text) : option (Z * Z) :=
  if contains (T "/") date
  then match split_char slash date with
       | [m; y] =>
           match int_of_str y, int_of_str m with
           | Some year, Some month => Some (year, month)
           | _, _ => None
           end
       | _ => None
       end
  else option_map (fun year => (year, month)) (int_of_str date).

(** The months an entry adds to the total; an entry that is skipped adds
    none. *)
Definition duration_months (exp : experience) : Z :=
  match start_date exp with
  | [] => 0
  | _ :: _ =>
      match year_month 1 (start_date exp) with
      | None => 0
      | Some (start_year, start_month) =>
          let ending :=
            if text_eqb (end_date exp) (T "Present") then Some now
            else year_month 12 (end_date exp) in
          match ending with
          | None => 0
          | Some (end_year, end_month) =>
              Z.max 0 ((end_year - start_year) * 12
                       + (end_month - start_month + 1))
          end
      end
  end%Z.

Definition total_months (experiences : list experience) : Z :=
  fold_left (fun total exp => (total + duration_months exp)%Z) experiences 0%Z.

Definition extract_years_of_experience (experiences : list experience) : Z :=
  (total_months experiences / 12)%Z.

End Years.

(** * Vocabulary of the properties *)

(** ** Template names *)

(** Equality of two names up to case. *)
Definition eq_ci (a b : text) : bool :=
  text_eqb (lower_text a) (lower_text b).

(** ** HTML documents *)

(** The stylesheet of the document written when the markdown package is
    missing, read off [plain_document]. *)
Definition css_plain : text :=
  T "        body { font-family: Arial, sans-serif; line-height: 1.6; padding: 20px; }
        pre { white-space: pre-wrap; }".

(** What comes before the stylesheet in both documents. *)
Definition html_head : text :=
  T "<!DOCTYPE html>
<html>
<head>
    <title>Resume</title>
    <meta charset=" ++ dquote :: T "UTF-8" ++ dquote :: T ">
    <style>
".

(** A file system where every path can be written, and one where none
    can. *)
Definition empty_disk : filesystem :=
  {| files := []; open_error := fun _ => None;
     device_error := fun _ _ => None |}.

Definition locked_disk : filesystem :=
  {| files := []; open_error := fun _ => Some (T "Permission denied");
     device_error := fun _ _ => None |}.

(** A text without surrogates, which UTF-8 can encode. *)
Definition encodable (s : text) : bool := negb (existsb is_surrogate s).

(** The file can be opened, the text encoded and the device takes it. *)
Definition can_write (w : filesystem) (filename content : text) : Prop :=
  open_error w filename = None /\ encodable content = true /\
  device_error w filename content = None.

(** ** Enhancements *)

(** Two enhancements that differ at most in the verb suggested. *)
Definition same_up_to_verb (e1 e2 : Enhancement) : Prop :=
  fst e1 = fst e2 /\
  (snd e1 = snd e2 \/
   exists v1 v2, snd e1 = verb_note v1 /\ snd e2 = verb_note v2).

(** ** Ranking of keywords *)

(** The place of a term in the table (its first-seen rank) and its
    accumulated count. *)
Fixpoint index_of (k : text) (d : counts) : nat :=
  match d with
  | [] => 0
  | (k', _) :: d' => if text_eqb k' k then 0 else S (index_of k d')
  end.

Fixpoint count_of (k : text) (d : counts) : nat :=
  match d with
  | [] => 0
  | (k', n) :: d' => if text_eqb k' k then n else count_of k d'
  end.

(** [k1] is ranked before [k2]: a higher count, or the same count and seen
    first. *)
Definition ranks_before (d : counts) (k1 k2 : text) : Prop :=
  count_of k2 d < count_of k1 d \/
  (count_of k1 d = count_of k2 d /\ index_of k1 d < index_of k2 d).

(** The same order on the items of the table. *)
Definition item_before (d : counts) (x y : text * nat) : Prop :=
  snd y < snd x \/
  (snd x = snd y /\ index_of (fst x) d < index_of (fst y) d).

(** The service did not answer with status 200. *)
Definition unavailable (r : reply) : Prop :=
  forall keywords_text, r <> Answered 200 keywords_text.

(** ** Words and separators

    A whole-word pattern sees a text as its maximal runs of word characters
    and the separators between them.  The proofs about [re.search] and
    [re.sub] move to this reading of the text and of the pattern. *)

Inductive token : Type :=
| Word (w : text)
| Sep (c : char).

(** The characters of a token, and the text of a list of tokens. *)
Definition chars (t : token) : text :=
  match t with Word w => w | Sep c => [c] end.

Definition untok (ts : list token) : text := flat_map chars ts.

(** The tokens of a text: every maximal run of word characters is one
    [Word], every other character a [Sep]. *)
Fixpoint tokenize (s : text) : list token :=
  match s with
  | [] => []
  | c :: s' =>
      if is_word c
      then match tokenize s' with
           | Word w :: ts => Word (c :: w) :: ts
           | ts => Word [c] :: ts
           end
      else Sep c :: tokenize s'
  end.

(** The token is a word; the first token of a list is a word. *)
Definition is_W (t : token) : bool :=
  match t with Word _ => true | Sep _ => false end.

Definition hdW (ts : list token) : bool :=
  match ts with t :: _ => is_W t | [] => false end.

Definition all_word (w : text) : bool := forallb is_word w.

(** A word is a non-empty run of word characters, and a separator is not a
    word character. *)
Definition tok_ok (t : token) : bool :=
  match t with
  | Word w => all_word w && negb (text_eqb w [])
  | Sep c => negb (is_word c)
  end.

(** No two words side by side. *)
Fixpoint no_WW (ts : list token) : bool :=
  match ts with
  | [] => true
  | t :: ts' => negb (is_W t && hdW ts') && no_WW ts'
  end.

(** No two separators side by side. *)
Fixpoint no_SS (ts : list token) : bool :=
  match ts with
  | [] => true
  | t :: ts' => (is_W t || hdW ts' || match ts' with [] => true | _ => false end)
                && no_SS ts'
  end.

(** The token lists that are the tokens of a text. *)
Definition wf (ts : list token) : bool := forallb tok_ok ts && no_WW ts.

(** The literal [a] of a pattern matches the whole of [b] when case is
    ignored. *)
Fixpoint ci_text_eq (a b : text) : bool :=
  match a, b with
  | [], [] => true
  | x :: a', y :: b' => ci_eq x y && ci_text_eq a' b'
  | _, _ => false
  end.

(** The literals the compiler of [re] keeps for a cased character of a
    pattern, and two characters that make the same pattern: two
    characters without case that are the same one, or two cased
    characters with the same literals. *)
Definition literals (a : char) : text := lower a :: extra_cases (lower a).

Definition same_literal (a b : char) : bool :=
  if re_iscased a
  then re_iscased b
       && forallb (mem_char (literals b)) (literals a)
       && forallb (mem_char (literals a)) (literals b)
  else (a =? b)%N.

(** Two keywords that differ in the case of their characters only. *)
Fixpoint same_pattern (a b : text) : bool :=
  match a, b with
  | [], [] => true
  | x :: a', y :: b' => same_literal x y && same_pattern a' b'
  | _, _ => false
  end.

(** The patterns the program builds from its lexicons are made of ASCII
    characters. *)
Definition is_ascii (c : char) : bool := (c <? 128)%N.

Definition plain (p : text) : bool := forallb is_ascii p.

(** What an ASCII character of a pattern can tell of a character of the
    text when case is ignored: its lower case, with the dotless i
    (U+0131) taken for [i] and the long s (U+017F) for [s], as
    [_EXTRA_CASES] has them. *)
Definition refold (c : char) : char :=
  let l := lower c in
  if (l =? 305)%N then 105%N else if (l =? 383)%N then 115%N else l.

Definition same_fold (a c : char) : bool := (refold a =? refold c)%N.

(** The ASCII characters, and the other characters whose fold is one. *)
Definition ascii_chars : list char := map N.of_nat (seq 0 128).

Definition folds_to_ascii : list char := [304; 8490; 305; 383]%N.

(** The points a case mapping can send to [y], [y] itself apart. *)
Definition preimages (table : mapping) (y : char) : list char :=
  flat_map (fun e : N * N * N * N =>
              let '(first, last, step, image) := e in
              if ((image <=? y) && (y - image <=? last - first))%N
              then [(first + (y - image))%N] else [])
           table.

(** Equality up to case, of texts and of tokens. *)
Fixpoint fold_text_eq (a b : text) : bool :=
  match a, b with
  | [], [] => true
  | x :: a', y :: b' => same_fold x y && fold_text_eq a' b'
  | _, _ => false
  end.

Definition tok_ci (a b : token) : bool :=
  match a, b with
  | Word x, Word y => fold_text_eq x y
  | Sep x, Sep y => same_fold x y
  | _, _ => false
  end.

(** The token pattern [pt] matches at the head of [ts]; it matches
    somewhere in [ts]. *)
Fixpoint tmatch (pt ts : list token) : bool :=
  match pt with
  | [] => true
  | a :: pt' =>
      match ts with
      | b :: ts' => tok_ci a b && tmatch pt' ts'
      | [] => false
      end
  end.

Fixpoint toccurs (pt ts : list token) : bool :=
  tmatch pt ts ||
  match ts with
  | [] => false
  | _ :: ts' => toccurs pt ts'
  end.

(** The scan of [sub_go] on tokens: every match of [pt], from left to
    right, is replaced by [rt]. *)
Fixpoint tsub_go (pt rt : list token) (skip : nat) (ts : list token)
  : list token :=
  match ts with
  | [] => []
  | t :: ts' =>
      match skip with
      | S k => tsub_go pt rt k ts'
      | O =>
          if tmatch pt ts
          then rt ++ tsub_go pt rt (length pt - 1) ts'
          else t :: tsub_go pt rt 0 ts'
      end
  end.

Definition tsub (pt rt ts : list token) : list token := tsub_go pt rt 0 ts.

(** The last character is a word character. *)
Fixpoint ends_word (p : text) : bool :=
  match p with
  | [] => false
  | [c] => is_word c
  | _ :: p' => ends_word p'
  end.

(** A pattern of ASCII characters that starts and ends with a word
    character. *)
Definition good (p : text) : bool :=
  wordo (hd_error p) && ends_word p && plain p.

(** The last token is a word. *)
Fixpoint lastW (ts : list token) : bool :=
  match ts with
  | [] => false
  | [t] => is_W t
  | _ :: ts' => lastW ts'
  end.

(** The character before the position reached after [consumed]. *)
Definition prev_after (prev : option char) (consumed : text) : option char :=
  fold_left (fun _ c => Some c) consumed prev.

(** [word_at] without its opening boundary: the literal and the closing
    [\b]. *)
Definition lit_end (p : text) (prev : option char) (s : text) : bool :=
  match lit_ci p prev s with
  | Some (l, r) => bnd l (hd_error r)
  | None => false
  end.

(** The run of word characters at the head of a text, and what follows
    it. *)
Fixpoint take_word (s : text) : text :=
  match s with
  | c :: s' => if is_word c then c :: take_word s' else []
  | [] => []
  end.

Fixpoint drop_word (s : text) : text :=
  match s with
  | c :: s' => if is_word c then drop_word s' else s
  | [] => []
  end.

(** The position is not inside a run of word characters. *)
Definition aligned (prev : option char) (s : text) : Prop :=
  wordo prev = false \/ wordo (hd_error s) = false.

(** A pattern that is one word. *)
Definition single (p : text) : bool :=
  all_word p && negb (text_eqb p []) && plain p.

(** Two token patterns agree wherever both have a token. *)
Fixpoint tcompat (a b : list token) : bool :=
  match a, b with
  | x :: a', y :: b' => tok_ci x y && tcompat a' b'
  | _, _ => true
  end.

(** No match of [a] starts inside a match of [b]. *)
Definition clash_free (a b : list token) : bool :=
  forallb (fun j => negb (tcompat (skipn j b) a)) (seq 0 (length b)).

(** ** Side conditions on the lexicons *)

(** What the proof needs of the lexicon: every misspelling is one word,
    and no correction contains a misspelling as a whole word. *)
Definition lexicon_ok (lexicon : list (text * text)) : bool :=
  forallb (fun e =>
             single (fst e) &&
             forallb (fun e' => negb (re_search_word (fst e') (snd e)))
                     lexicon)
          lexicon.

(** What the proof needs of a weak word: it starts and ends with a word
    character and has no two separators in a row. *)
Definition weak_ok (p : text) : bool := good p && no_SS (tokenize p).

(** Two weak words of which no match can overlap a match of the other. *)
Definition independent (p q : text) : bool :=
  clash_free (tokenize p) (tokenize q) && clash_free (tokenize q) (tokenize p).

(** What the proof needs of the weak-word list: every entry is such a
    pattern, and any two different entries are independent. *)
Definition weak_words_ok (l : list text) : bool :=
  forallb weak_ok l &&
  forallb (fun p => forallb (fun q => text_eqb p q || independent p q) l) l.

(** No text twice in the list. *)
Fixpoint nodupb (l : list text) : bool :=
  match l with
  | [] => true
  | x :: l' => negb (existsb (text_eqb x) l') && nodupb l'
  end.

(** The enhancement that reports the removal of a weak word. *)
Definition removed (w : text) : Enhancement := (w, removed_note).

(** Enhancements can be compared, and so counted. *)
Definition Enhancement_eq_dec (x y : Enhancement) : {x = y} + {x <> y}.
Proof. decide equality; apply (list_eq_dec N.eq_dec). Defined.

(** ** Case of the recorded corrections *)

(** The corrections of a lexicon are in lower case: capitalizing one gives
    it a capital. *)
Definition corrections_lower (lexicon : list (text * text)) : bool :=
  forallb (fun e => first_is_upper (capitalize (snd e))
                    && negb (first_is_upper (snd e)))
          lexicon.

(** A recorded correction keeps the case of the first character. *)
Definition same_case (c : Correction) : Prop :=
  first_is_upper (snd c) = first_is_upper (fst c).

(** ** Line classification in the words of the specification *)

(** The line holds a [**bold**] span. *)
Fixpoint has_bold_span (s : text) : bool :=
  match bold_at s with
  | Some _ => true
  | None =>
      match s with
      | [] => false
      | _ :: s' => has_bold_span s'
      end
  end.

(** The element of a line by the rules of the specification, in their
    order of precedence: the three headings, the bold standalone line, the
    bullet item, the paragraph break, the separator, the inline bold runs,
    the plain paragraph. *)
Definition spec_element (line : text) : element :=
  if startswith (T "# ") line then Heading 1 (skipn 2 line)
  else if startswith (T "## ") line then Heading 2 (skipn 3 line)
  else if startswith (T "### ") line then Heading 3 (skipn 4 line)
  else if startswith (T "**") line && endswith (T "**") line
  then BoldLine (strip_chars (T "*") line)
  else if startswith (T "-") line || startswith (T "*") line
  then BulletItem (strip (skipn 1 line))
  else if text_eqb (strip line) [] then Blank
  else if (10 <? length (strip line))
          && forallb (fun c => (c =? equals_sign)%N) (strip line)
  then Separator
  else if has_bold_span line
  then InlineRuns (map docx_run (split_bold line))
  else Paragraph line.

(** ** Deletions *)

(** [a] is [b] with some characters deleted. *)
Fixpoint is_subsequence (a b : text) : bool :=
  match b with
  | [] => match a with [] => true | _ => false end
  | c :: b' =>
      match a with
      | [] => true
      | x :: a' =>
          if (x =? c)%N then is_subsequence a' b' else is_subsequence a b'
      end
  end.

(** ** Action verbs *)

(** Every verb of the table, whatever its category. *)
Definition all_action_verbs : list text := flat_map snd ACTION_VERBS.

Definition is_table_verb (v : text) : bool :=
  existsb (text_eqb v) all_action_verbs.

(** The three kinds of note an enhancement carries. *)
Definition note_ok (e : Enhancement) : Prop :=
  snd e = removed_note \/ snd e = cliche_note \/
  exists v, is_table_verb v = true /\ snd e = verb_note v.

(** ** Keywords *)

(** A keyword as the extractor cleans it: not empty, and with no white
    space at either end. *)
Definition clean_keyword (k : text) : Prop :=
  negb (text_eqb k []) = true /\ strip k = k.

(** The two kinds of term the fallback counts: a token of the lower-cased
    description that is not a common word and has more than two
    characters, and a pair of neighbouring words of which neither is a
    common word. *)
Definition is_single_term (job_description k : text) : bool :=
  negb (is_common k) && (2 <? length k)
  && existsb (text_eqb k) (findall_tokens (lower_text job_description)).

Definition is_pair_term (job_description k : text) : bool :=
  existsb (text_eqb k) (word_pairs (split_ws (lower_text job_description))).

(** A text without an ASCII capital letter. *)
Definition no_capital (k : text) : bool :=
  forallb (fun c => negb (in_range 65 90 c)) k.

(** ** Corrections *)

(** The characters an ASCII character of a pattern stands for when case
    is ignored: the character in lower and in upper case and, for [i],
    [s] and [k], the capital I with a dot (U+0130) and the dotless i
    (U+0131), the long s (U+017F), the Kelvin sign (U+212A). *)
Definition variants (a : char) : text :=
  a :: lower a :: upper a ::
  (if (lower a =? 105)%N then [304; 305]%N
   else if (lower a =? 115)%N then [383]%N
   else if (lower a =? 107)%N then [8490]%N
   else []).

(** The text [m] is the word [p], character by character, each in one of
    its variants. *)
Fixpoint spelled_like (p m : text) : bool :=
  match p, m with
  | [], [] => true
  | a :: p', c :: m' => mem_char (variants a) c && spelled_like p' m'
  | _, _ => false
  end.

(** A correction as the lexicon gives it: the matched text is a
    misspelling of the lexicon, letter by letter and up to case, and the
    replacement its correction, with a capital when the matched text has
    one. *)
Definition from_lexicon (lexicon : list (text * text)) (c : Correction)
  : Prop :=
  exists e,
    In e lexicon /\ spelled_like (fst e) (fst c) = true /\
    snd c = if first_is_upper (fst c) then capitalize (snd e) else snd e.

(** ** Format strings *)

(** The names of the replacement fields of a format string, in the order
    in which [format_go] meets them. *)
Fixpoint fields_go (field : option text) (s : text) : list text :=
  match s with
  | [] => []
  | c :: s' =>
      match field with
      | Some name =>
          if (c =? rbrace)%N then rev name :: fields_go None s'
          else fields_go (Some (c :: name)) s'
      | None =>
          if (c =? lbrace)%N
          then match s' with
               | c2 :: s'' =>
                   if (c2 =? lbrace)%N then fields_go None s''
                   else fields_go (Some []) s'
               | [] => []
               end
          else if (c =? rbrace)%N
          then match s' with
               | _ :: s'' => fields_go None s''
               | [] => []
               end
          else fields_go None s'
      end
  end.

Definition fields (template : text) : list text := fields_go None template.

(** The kind of a result: the text left out. *)
Definition kind (r : formatted) : formatted :=
  match r with
  | Formatted _ => Formatted []
  | _ => r
  end.

(** The keys of [defaults]. *)
Definition field_names : list text := map fst defaults.

(** The item of a list of skills as [format_resume] writes it. *)
Definition skill_item (skill : text) : text := T "- " ++ strip skill.

(** The text has no comma. *)
Definition comma_free (s : text) : bool := negb (mem_char s comma).

(** ** Suggestions *)

(** The service gave nothing to go by: no answer, or an empty one. *)
Definition no_answer (answer : option text) : bool :=
  match answer with
  | Some (_ :: _) => false
  | _ => true
  end.

(** [s] is one of the entries of the table under [role]. *)
Definition listed (table : list (text * list text)) (role s : text) : bool :=
  existsb (text_eqb s) (table_get table role []).

(** The role whose summaries the fallback of [get_summary_suggestion]
    draws from. *)
Definition summary_role (job_role : text) : text :=
  match find (fun e => contains (fst e) job_role) SUMMARY_SUGGESTIONS with
  | Some e => fst e
  | None => T "software developer"
  end.

(** ** Templates with placeholders

    A bullet template read as its literal parts and its placeholders
    [{name}]. *)

Inductive segment : Type :=
| Lit (s : text)
| Hole (name : text).

Definition segment_text (x : segment) : text :=
  match x with
  | Lit s => s
  | Hole name => lbrace :: name ++ [rbrace]
  end.

Definition render (segments : list segment) : text :=
  flat_map segment_text segments.

(** The segments of a text; [acc] is the literal or the name being read,
    reversed. *)
Fixpoint segments_go (in_hole : bool) (acc : text) (s : text)
  : list segment :=
  match s with
  | [] => [Lit (if in_hole then lbrace :: rev acc else rev acc)]
  | c :: s' =>
      if in_hole
      then if (c =? rbrace)%N
           then Hole (rev acc) :: segments_go false [] s'
           else segments_go true (c :: acc) s'
      else if (c =? lbrace)%N
           then Lit (rev acc) :: segments_go true [] s'
           else segments_go false (c :: acc) s'
  end.

Definition segments (s : text) : list segment := segments_go false [] s.

(** No opening brace in a text; no brace at all in a name. *)
Definition no_lbrace (s : text) : bool := negb (mem_char s lbrace).

Definition no_brace (s : text) : bool :=
  negb (mem_char s lbrace) && negb (mem_char s rbrace).

(** The placeholders [fill_placeholders] fills. *)
Definition placeholders : list text :=
  map T [ "technology"; "number"; "percentage"; "metric" ]%string.

(** Segments whose literals have no opening brace and whose holes are
    named by [names]. *)
Definition segment_ok (names : list text) (x : segment) : bool :=
  match x with
  | Lit s => no_lbrace s
  | Hole name => no_brace name && existsb (text_eqb name) names
  end.

(** Filling the holes named [name] with [v]. *)
Definition fill_hole (name v : text) (x : segment) : segment :=
  match x with
  | Hole m => if text_eqb m name then Lit v else x
  | Lit _ => x
  end.

(** Every template of the table. *)
Definition experience_templates : list text :=
  flat_map snd EXPERIENCE_SUGGESTIONS.

(** * Equality of texts *)

Lemma text_eqb_eq (a b : text) : text_eqb a b = true <-> a = b.
Proof.
  unfold text_eqb; destruct (list_eq_dec N.eq_dec a b); split; congruence.
Qed.

Lemma text_eqb_refl (a : text) : text_eqb a a = true.
Proof. now apply text_eqb_eq. Qed.

(** * The model on concrete inputs *)

Example check_spelling_recieve :
  check_spelling (T "Recieve this") =
  (T "receive this", [(T "Recieve", T "Receive")]).
Proof. vm_compute. reflexivity. Qed.

Example check_spelling_alot :
  check_spelling (T "ALOT of it, seperate, Seperate-untill.") =
  (T "a lot of it, separate, separate-until.",
   [(T "ALOT", T "A lot"); (T "seperate", T "separate");
    (T "Seperate", T "Separate"); (T "untill", T "until")]).
Proof. vm_compute. reflexivity. Qed.

Example enhance_text_weak :
  fst (enhance_text (T "I was really happy to just help") (fun _ => 0)) =
  (T "I was  happy to  help",
   [(T "really", removed_note); (T "just", removed_note)]).
Proof. vm_compute. reflexivity. Qed.

Example enhance_text_bullet :
  fst (enhance_text (T "- Team player, tested and built tools") (fun _ => 3)) =
  (T "- Team player, tested and built tools",
   [(T "team player", cliche_note);
    (T "Bullet point: Team player, tested and built tools",
     T "Consider starting with an action verb like 'Compared'")]).
Proof. vm_compute. reflexivity. Qed.

(** Beyond ASCII: a Cyrillic letter is a word character, so no word
    starts after it; the long s (U+017F) is an [s] when case is ignored;
    the Kelvin sign (U+212A) is a [k] in lower case; a capital sigma at
    the end of a word becomes a final sigma, and the capital I with a dot
    becomes two characters. *)
Example check_spelling_cyrillic :
  check_spelling (1078%N :: T "recieve") = (1078%N :: T "recieve", []).
Proof. vm_compute. reflexivity. Qed.

Example check_spelling_dotted_I :
  check_spelling (304%N :: T "mmediatly") =
  (T "immediately", [(304%N :: T "mmediatly", T "Immediately")]).
Proof. vm_compute. reflexivity. Qed.

Example enhance_text_long_s :
  fst (enhance_text (T "it " ++ 383%N :: T "eems fine") (fun _ => 0)) =
  (T "it  fine", [(T "seems", removed_note)]).
Proof. vm_compute. reflexivity. Qed.

Example lower_text_sigma :
  lower_text [927; 916; 933; 931; 931; 917; 933; 931]%N =
  [959; 948; 965; 963; 963; 949; 965; 962]%N.
Proof. vm_compute. reflexivity. Qed.

Example lower_text_dotted_I :
  lower_text (304%N :: T "stanbul") = 105%N :: 775%N :: T "stanbul".
Proof. vm_compute. reflexivity. Qed.

Example capitalize_sharp_s :
  capitalize (223%N :: T "tra" ++ 223%N :: T "e " ++ [931; 913; 931]%N) =
  T "Sstra" ++ 223%N :: T "e " ++ [963; 945; 962]%N.
Proof. vm_compute. reflexivity. Qed.

Example percent_two_thirds : percent 2 3 = 66%Z.
Proof. vm_compute. reflexivity. Qed.

(** Binary64 is visible here: [29 / 100 * 100] is [28.999999999999996]. *)
Example percent_29_100 : percent 29 100 = 28%Z.
Proof. vm_compute. reflexivity. Qed.

Example ats_keywords :
  let r := calculate_ats_score
             (T "Experience with Python and SQL - contact: a@b.c")
             (Some [T "python"; T "sql"; T "docker"]) in
  (Score.overall r, Score.keyword_match r, Score.format r, Score.length r)
  = (65, Percent 66, 70, 60)%Z.
Proof. vm_compute. reflexivity. Qed.

Example ats_no_keywords :
  let r := calculate_ats_score (T "plain words") None in
  (Score.overall r, Score.keyword_match r, Score.format r, Score.length r)
  = (60, NotApplicable, 60, 60)%Z.
Proof. vm_compute. reflexivity. Qed.

Example findall_tokens_ex :
  findall_tokens (T "c++ and node.js, c#; x1 a_b .net go.") =
  map T [ "c"; "and"; "node.js"; "c"; "net"; "go" ]%string.
Proof. vm_compute. reflexivity. Qed.

Example fallback_keywords_ex :
  fallback_keywords
    (T "Python developer. SQL and Python, machine learning; SQL tuning")
  = map T [ "python developer."; "developer. sql"; "python, machine";
            "machine learning;"; "learning; sql"; "sql tuning";
            "python"; "sql"; "developer"; "machine"; "learning";
            "tuning" ]%string.
Proof. vm_compute. reflexivity. Qed.

Example findall_tokens_cjk :
  findall_tokens (T "node.js" ++ [24320; 21457]%N) = [T "node."].
Proof. vm_compute. reflexivity. Qed.

Example fallback_keywords_cjk :
  fallback_keywords (T "Python" ++ [24320; 21457]%N ++ T " SQL") =
  [T "python" ++ [24320; 21457]%N ++ T " sql"; T "sql"].
Proof. vm_compute. reflexivity. Qed.

Example ats_keyword_cjk :
  Score.keyword_match
    (calculate_ats_score ([29087; 24713]%N ++ T "Python" ++ [24320; 21457]%N)
                         (Some [T "python"]))
  = Percent 0.
Proof. vm_compute. reflexivity. Qed.

Example get_template_kelvin :
  get_template (T "dar" ++ [8490]%N) false = DARK_TEMPLATE.
Proof. vm_compute. reflexivity. Qed.

Example save_as_text_surrogate :
  let r := save_as_text (fun p => p) (T "ab" ++ [56448]%N) (T "cv.txt")
                        empty_disk in
  fst r = Returns (T "Error saving text file: 'utf-8' codec can't encode character '\udc80' in position 2: surrogates not allowed") /\
  read_file (T "cv.txt") (snd r) = Some [].
Proof. vm_compute. split; reflexivity. Qed.

Example encode_error_run :
  encode_error (T "a" ++ [55296; 56320]%N ++ T "b") =
  Some (T "'utf-8' codec can't encode characters in position 1-2: surrogates not allowed").
Proof. vm_compute. reflexivity. Qed.

Example pdf_bold_line :
  pdf_element (T "**About Me**") = BoldLine (T "About Me").
Proof. vm_compute. reflexivity. Qed.

Example docx_bold_line :
  docx_element (T "**About Me**") = BulletItem (T "*About Me**").
Proof. vm_compute. reflexivity. Qed.

Example docx_inline :
  docx_element (T "Led **two** teams, **three**** sites") =
  InlineRuns [ Plain (T "Led "); Bold (T "two"); Plain (T " teams, ");
               Bold (T "three"); Plain (T "** sites") ].
Proof. vm_compute. reflexivity. Qed.

(** * Properties *)

(** ** Binary64: the bounds the scorer relies on *)

Module Float64Facts.

Import Float64.
Local Open Scope Z_scope.

Lemma round_half_even_le (n d K : Z) :
0 < d -> 0 <= n <= K * d -> 0 <= round_half_even n d <= K.
Proof.
intros Hd [Hn HK]. unfold round_half_even.
pose proof (Z.div_mod n d ltac:(lia)) as E.
pose proof (Z.mod_pos_bound n d Hd) as B.
assert (0 <= n / d) by (apply Z.div_pos; lia).
assert (n / d <= K) by (apply Z.div_le_upper_bound; lia).
destruct (Z.eq_dec (n / d) K) as [Eq | Ne].
- assert (n mod d = 0) by nia.
  replace (2 * (n mod d) <? d) with true by (symmetry; apply Z.ltb_lt; lia).
  lia.
- destruct (2 * (n mod d) <? d); [lia |].
  destruct (d <? 2 * (n mod d)); [lia |].
  destruct (Z.even (n / d)); lia.
Qed.

Lemma ilog2_ratio_le (num den : Z) :
ilog2_ratio num den <= Z.log2 num - Z.log2 den.
Proof.
unfold ilog2_ratio.
destruct (0 <=? Z.log2 num - Z.log2 den);
  [destruct (_ <=? num) | destruct (den <=? _)]; lia.
Qed.

(** A quotient that is at most the small integer [K] rounds to a double
  that is at most [K]. *)
Lemma round_ratio_le (K num den : Z) :
0 < den -> 0 <= num <= K * den -> 1 <= K <= 2 ^ 51 ->
snd (round_ratio num den) <= 0 /\
0 <= fst (round_ratio num den) <= K * 2 ^ (- snd (round_ratio num den)).
Proof.
intros Hden [Hn HK] [HK1 HK2]. unfold round_ratio.
destruct (num =? 0) eqn:E0; [simpl; lia |].
apply Z.eqb_neq in E0.
assert (Hfl : ilog2_ratio num den <= 52).
{ pose proof (ilog2_ratio_le num den).
  assert (Z.log2 num <= Z.log2 (K * den)) by (apply Z.log2_le_mono; lia).
  pose proof (Z.log2_mul_above K den ltac:(lia) ltac:(lia)).
  assert (Z.log2 K <= Z.log2 (2 ^ 51)) by (apply Z.log2_le_mono; lia).
  rewrite Z.log2_pow2 in * by lia. lia. }
set (e := Z.max (ilog2_ratio num den - 52) (-1074)).
assert (He : e <= 0) by (unfold e; lia).
destruct (0 <=? e) eqn:Ee; cbn [fst snd].
- apply Z.leb_le in Ee. assert (e = 0) by lia.
  replace e with 0 by lia. cbn [Z.opp Z.pow Z.pow_pos Pos.iter].
  split; [lia |].
  apply round_half_even_le; lia.
- split; [lia |].
  assert (0 < 2 ^ (- e)) by (apply Z.pow_pos_nonneg; lia).
  apply round_half_even_le; nia.
Qed.

Lemma to_int_le (K m e : Z) :
e <= 0 -> 0 <= m <= K * 2 ^ (- e) -> 0 <= to_int (m, e) <= K.
Proof.
intros He [Hm HK]. unfold to_int.
assert (0 < 2 ^ (- e)) by (apply Z.pow_pos_nonneg; lia).
destruct (0 <=? e) eqn:Ee.
- apply Z.leb_le in Ee. replace e with 0 in * by lia.
  change (2 ^ (- 0)) with 1 in *. change (2 ^ 0) with 1. lia.
- split; [apply Z.div_pos; lia |].
  apply Z.div_le_upper_bound; lia.
Qed.

End Float64Facts.

(** A percentage of a part of a whole lies between 0 and 100. *)
Lemma percent_range (a b : Z) :
  (0 <= a <= b -> 0 < b -> 0 <= percent a b <= 100)%Z.
Proof.
  intros Ha Hb. unfold percent, Float64.true_div.
  destruct (Float64Facts.round_ratio_le (K := 1) (num := a) (den := b))
    as [He Hm]; try lia.
  destruct (Float64.round_ratio a b) as [m e]; cbn [fst snd] in *.
  assert (0 < 2 ^ (- e))%Z by (apply Z.pow_pos_nonneg; lia).
  unfold Float64.mul_int.
  destruct (0 <=? e)%Z eqn:Ee.
  - apply Z.leb_le in Ee. replace e with 0%Z in * by lia.
    change (2 ^ (- 0))%Z with 1%Z in *. change (2 ^ 0)%Z with 1%Z.
    destruct (Float64Facts.round_ratio_le (K := 100) (num := m * 100 * 1)
                (den := 1)) as [He' Hm']; try lia.
    destruct (Float64.round_ratio (m * 100 * 1) 1) as [m' e'].
    apply Float64Facts.to_int_le; assumption.
  - destruct (Float64Facts.round_ratio_le (K := 100) (num := m * 100)
                (den := 2 ^ (- e))) as [He' Hm']; try lia.
    destruct (Float64.round_ratio (m * 100) (2 ^ (- e))) as [m' e'].
    apply Float64Facts.to_int_le; assumption.
Qed.

Lemma Z_range_in (n : nat) (s : Z) :
  (0 <= s < Z.of_nat n)%Z -> In s (map Z.of_nat (seq 0 n)).
Proof.
  intros H. apply in_map_iff. exists (Z.to_nat s). split; [lia |].
  apply in_seq. lia.
Qed.

(** On the sums the scorer forms, [int(s / 3)] and [int(s / 2)] are the
    integer quotients. *)
Lemma int_div_3 (s : Z) : (0 <= s <= 300 -> int_div s 3 = s / 3)%Z.
Proof.
  intros H.
  assert (C : forallb (fun s => (int_div s 3 =? s / 3)%Z)
                      (map Z.of_nat (seq 0 301)) = true)
    by (vm_compute; reflexivity).
  rewrite forallb_forall in C. apply Z.eqb_eq, C, Z_range_in. lia.
Qed.

Lemma int_div_2 (s : Z) : (0 <= s <= 200 -> int_div s 2 = s / 2)%Z.
Proof.
  intros H.
  assert (C : forallb (fun s => (int_div s 2 =? s / 2)%Z)
                      (map Z.of_nat (seq 0 201)) = true)
    by (vm_compute; reflexivity).
  rewrite forallb_forall in C. apply Z.eqb_eq, C, Z_range_in. lia.
Qed.

(** ** ATS scorer *)

Lemma format_part_range (t : text) : (60 <= fst (format_part t) <= 100)%Z.
Proof.
  unfold format_part.
  destruct (count_char at_sign t =? 0), (found_sections t <? 3),
    (count_bullets t <? 5); cbn [fst snd]; lia.
Qed.

Lemma length_part_range (t : text) : (60 <= fst (length_part t) <= 100)%Z.
Proof.
  unfold length_part.
  destruct (_ <? 300); [cbn; lia |]. destruct (1000 <? _); cbn; lia.
Qed.

Lemma matched_keywords_le (t : text) (kws : list text) :
  matched_keywords t kws <= length kws.
Proof. apply filter_length_le. Qed.

(** The fields of the report, spelled out. *)
Lemma calculate_ats_score_fields (t : text) (kws : option (list text)) :
  let r := calculate_ats_score t kws in
  Score.format r = Z.max 0 (fst (format_part t)) /\
  Score.length r = fst (length_part t) /\
  Score.keyword_match r = fst (keyword_part t kws) /\
  Score.overall r =
    match Score.keyword_match r with
    | Percent k => int_div (Score.format r + Score.length r + k) 3
    | NotApplicable => int_div (Score.format r + Score.length r) 2
    end.
Proof.
  unfold calculate_ats_score.
  destruct (length_part t), (format_part t), (keyword_part t kws) as [[k |] ?];
    cbn; auto.
Qed.

Lemma keyword_part_range (t : text) (kws : option (list text)) (k : Z) :
  fst (keyword_part t kws) = Percent k -> (0 <= k <= 100)%Z.
Proof.
  unfold keyword_part. destruct kws as [[| kw kws] |]; cbn [fst]; try discriminate.
  intros [= <-]. pose proof (matched_keywords_le t (kw :: kws)).
  apply percent_range; cbn [length] in *; lia.
Qed.

(** C10: the format sub-score lies between 60 and 100, whatever the text
    and the keyword list, and the clamp [max(0, format_score)] never
    changes the score it is applied to. *)
Theorem C10_format_between_60_and_100 (t : text) (kws : option (list text)) :
  (60 <= Score.format (calculate_ats_score t kws) <= 100)%Z /\
  Score.format (calculate_ats_score t kws) = fst (format_part t).
Proof.
  destruct (calculate_ats_score_fields t kws) as (F & _).
  pose proof (format_part_range t). lia.
Qed.

(** C1: the overall score is the integer mean of the numeric sub-scores:
    with a non-empty keyword list the keyword match is a number [k] and
    [overall = floor((format + length + k) / 3)]; without keywords the
    keyword match is ["N/A"] and [overall = floor((format + length) / 2)]. *)
Theorem C1_overall_is_integer_mean (t : text) (kws : option (list text)) :
  let r := calculate_ats_score t kws in
  match kws with
  | Some (_ :: _) =>
      exists k, Score.keyword_match r = Percent k /\
                Score.overall r = ((Score.format r + Score.length r + k) / 3)%Z
  | _ =>
      Score.keyword_match r = NotApplicable /\
      Score.overall r = ((Score.format r + Score.length r) / 2)%Z
  end.
Proof.
  intros r. destruct (calculate_ats_score_fields t kws) as (F & L & K & O).
  fold r in F, L, K, O.
  pose proof (format_part_range t). pose proof (length_part_range t).
  destruct kws as [[| kw kws] |].
  - cbn in K. rewrite K in O. split; [exact K |].
    rewrite O. apply int_div_2. lia.
  - pose proof (keyword_part_range t (Some (kw :: kws))) as R.
    destruct (fst (keyword_part t (Some (kw :: kws)))) as [k |] eqn:E;
      [| discriminate E].
    exists k. rewrite K in O. split; [exact K |].
    specialize (R k eq_refl). rewrite O. apply int_div_3. lia.
  - cbn in K. rewrite K in O. split; [exact K |].
    rewrite O. apply int_div_2. lia.
Qed.

(** ** Templates *)

Lemma text_eqb_sym (a b : text) : text_eqb a b = text_eqb b a.
Proof.
  destruct (text_eqb a b) eqn:E.
  - apply text_eqb_eq in E. subst. now rewrite text_eqb_refl.
  - destruct (text_eqb b a) eqn:E'; [| reflexivity].
    apply text_eqb_eq in E'. subst. now rewrite text_eqb_refl in E.
Qed.

Lemma dict_get_templates (k : text) :
  dict_get templates k MODERN_TEMPLATE =
  if text_eqb (T "modern") k then MODERN_TEMPLATE
  else if text_eqb (T "classic") k then CLASSIC_TEMPLATE
  else if text_eqb (T "minimalist") k then MINIMALIST_TEMPLATE
  else if text_eqb (T "dark") k then DARK_TEMPLATE
  else MODERN_TEMPLATE.
Proof.
  unfold dict_get, templates, find; cbn [fst snd].
  repeat (destruct (text_eqb _ k); [reflexivity |]). reflexivity.
Qed.

(** The four templates are four different strings. *)
Lemma templates_distinct :
  MODERN_TEMPLATE <> CLASSIC_TEMPLATE /\ MODERN_TEMPLATE <> MINIMALIST_TEMPLATE /\
  MODERN_TEMPLATE <> DARK_TEMPLATE /\ CLASSIC_TEMPLATE <> MINIMALIST_TEMPLATE /\
  CLASSIC_TEMPLATE <> DARK_TEMPLATE /\ MINIMALIST_TEMPLATE <> DARK_TEMPLATE.
Proof.
  repeat split; intros E; apply text_eqb_eq in E; vm_compute in E;
    discriminate E.
Qed.

(** C7: with the dark-mode flag set and a name other than ["dark"], the
    dark template is returned whatever the name; otherwise the name is
    looked up without regard to case among modern, classic, minimalist and
    dark, and a name that is none of them yields the modern template. *)
Theorem C7_template_resolution (template_name : text) (dark_mode : bool) :
  (dark_mode = true /\ template_name <> T "dark" ->
   get_template template_name dark_mode = DARK_TEMPLATE) /\
  (~ (dark_mode = true /\ template_name <> T "dark") ->
   (eq_ci template_name (T "modern") = true ->
    get_template template_name dark_mode = MODERN_TEMPLATE) /\
   (eq_ci template_name (T "classic") = true ->
    get_template template_name dark_mode = CLASSIC_TEMPLATE) /\
   (eq_ci template_name (T "minimalist") = true ->
    get_template template_name dark_mode = MINIMALIST_TEMPLATE) /\
   (eq_ci template_name (T "dark") = true ->
    get_template template_name dark_mode = DARK_TEMPLATE) /\
   (eq_ci template_name (T "modern") = false ->
    eq_ci template_name (T "classic") = false ->
    eq_ci template_name (T "minimalist") = false ->
    eq_ci template_name (T "dark") = false ->
    get_template template_name dark_mode = MODERN_TEMPLATE)).
Proof.
  assert (L : forall s, existsb (text_eqb s)
                [T "modern"; T "classic"; T "minimalist"; T "dark"] = true ->
              lower_text s = s).
  { intros s H. apply existsb_exists in H. destruct H as (x & Hx & E).
    apply text_eqb_eq in E. subst x.
    repeat (destruct Hx as [<- | Hx]; [reflexivity |]). destruct Hx. }
  split.
  - intros [-> Hn]. unfold get_template. cbn [andb].
    destruct (text_eqb (lower_text template_name) (T "dark")) eqn:E;
      [| reflexivity].
    apply text_eqb_eq in E. cbn [negb]. rewrite E. reflexivity.
  - intros Hn.
    assert (G : get_template template_name dark_mode =
                dict_get templates (lower_text template_name) MODERN_TEMPLATE).
    { unfold get_template.
      destruct (text_eqb (lower_text template_name) (T "dark")) eqn:E;
        [now rewrite andb_false_r |].
      destruct dark_mode; [| reflexivity].
      exfalso. apply Hn. split; [reflexivity |].
      intros ->. vm_compute in E. discriminate E. }
    rewrite G, dict_get_templates. unfold eq_ci.
    rewrite !(L (T _)) by reflexivity.
    rewrite !(text_eqb_sym (T _) (lower_text template_name)).
    repeat split; intros.
    + now rewrite H.
    + destruct (text_eqb _ (T "modern")) eqn:E1.
      * apply text_eqb_eq in E1, H. rewrite E1 in H. vm_compute in H.
        discriminate H.
      * now rewrite H.
    + destruct (text_eqb _ (T "modern")) eqn:E1.
      { apply text_eqb_eq in E1, H. rewrite E1 in H. vm_compute in H.
        discriminate H. }
      destruct (text_eqb _ (T "classic")) eqn:E2.
      { apply text_eqb_eq in E2, H. rewrite E2 in H. vm_compute in H.
        discriminate H. }
      now rewrite H.
    + destruct (text_eqb _ (T "modern")) eqn:E1.
      { apply text_eqb_eq in E1, H. rewrite E1 in H. vm_compute in H.
        discriminate H. }
      destruct (text_eqb _ (T "classic")) eqn:E2.
      { apply text_eqb_eq in E2, H. rewrite E2 in H. vm_compute in H.
        discriminate H. }
      destruct (text_eqb _ (T "minimalist")) eqn:E3.
      { apply text_eqb_eq in E3, H. rewrite E3 in H. vm_compute in H.
        discriminate H. }
      now rewrite H.
    + now rewrite H, H0, H1, H2.
Qed.

Lemma C7_template_resolution_witness :
  get_template (T "Classic") true = DARK_TEMPLATE /\
  get_template (T "CLASSIC") false = CLASSIC_TEMPLATE /\
  get_template (T "fancy") false = MODERN_TEMPLATE.
Proof.
  split; [| split].
  - apply (proj1 (C7_template_resolution (T "Classic") true)).
    split; [reflexivity |]. intros E. vm_compute in E. discriminate E.
  - apply (proj2 (C7_template_resolution (T "CLASSIC") false)).
    + intros [E _]. discriminate E.
    + vm_compute. reflexivity.
  - apply (proj2 (C7_template_resolution (T "fancy") false)).
    + intros [E _]. discriminate E.
    + vm_compute. reflexivity.
    + vm_compute. reflexivity.
    + vm_compute. reflexivity.
    + vm_compute. reflexivity.
Defined.

(** ** Exporters: line classification *)

Lemma contains_startswith (p s : text) :
  startswith p s = true -> contains p s = true.
Proof. intros H. destruct s; cbn; rewrite H; reflexivity. Qed.

(** On the lines without a pair of stars the two writers agree. *)
Lemma pdf_docx_agree_without_stars (line : text) :
  contains (T "**") line = false -> pdf_element line = docx_element line.
Proof.
  intros H. unfold pdf_element, docx_element. rewrite H.
  destruct (startswith (T "**") line) eqn:E.
  - apply contains_startswith in E. congruence.
  - reflexivity.
Qed.

(** C5, at the line ["**About Me**"] of the minimalist template: the PDF
    writer makes it a bold standalone line, as the specification has it;
    the DOCX writer makes it a bullet item whose text keeps the stars.  So
    the two writers do not classify lines by the same function. *)
Theorem C5_writers_disagree_on_bold_line :
  spec_element (T "**About Me**") = BoldLine (T "About Me") /\
  pdf_element (T "**About Me**") = BoldLine (T "About Me") /\
  docx_element (T "**About Me**") = BulletItem (T "*About Me**") /\
  pdf_element (T "**About Me**") <> docx_element (T "**About Me**") /\
  contains (T "**About Me**") MINIMALIST_TEMPLATE = true.
Proof.
  repeat split; try (vm_compute; reflexivity).
  intros E. vm_compute in E. discriminate E.
Qed.

(** The PDF writer in turn has no inline bold runs. *)
Example pdf_docx_inline_bold :
  pdf_element (T "Led **two** teams") = Paragraph (T "Led **two** teams") /\
  docx_element (T "Led **two** teams") =
  InlineRuns [Plain (T "Led "); Bold (T "two"); Plain (T " teams")] /\
  spec_element (T "Led **two** teams") =
  InlineRuns [Plain (T "Led "); Bold (T "two"); Plain (T " teams")].
Proof. repeat split; vm_compute; reflexivity. Qed.

(** *** The two writers against the specification *)

Lemma lstrip_by_incl (f : char -> bool) (s : text) : incl (lstrip_by f s) s.
Proof.
  induction s as [| c s IH]; [apply incl_refl |]. cbn.
  destruct (f c); [apply incl_tl, IH | apply incl_refl].
Qed.

Lemma strip_by_incl (f : char -> bool) (s : text) : incl (strip_by f s) s.
Proof.
  unfold strip_by, rstrip_by. intros c H.
  rewrite <- in_rev in H. apply lstrip_by_incl in H.
  rewrite <- in_rev in H. apply lstrip_by_incl in H. exact H.
Qed.

(** The test ['=' in line] of the writers adds nothing to the other two. *)
Lemma is_separator_spec (line : text) :
  is_separator line =
  (10 <? length (strip line))
  && forallb (fun c => (c =? equals_sign)%N) (strip line).
Proof.
  unfold is_separator.
  destruct (mem_char line equals_sign) eqn:M; [reflexivity |].
  cbn [andb]. symmetry. apply andb_false_iff.
  destruct (strip line) as [| c s] eqn:E; [now left | right].
  cbn [forallb]. destruct (c =? equals_sign)%N eqn:C; [| reflexivity].
  exfalso. apply N.eqb_eq in C. subst c.
  assert (I : In equals_sign line)
    by (apply (@strip_by_incl is_space); fold (strip line); rewrite E; now left).
  unfold mem_char in M.
  assert (X : existsb (N.eqb equals_sign) line = true)
    by (apply existsb_exists; exists equals_sign; split;
        [exact I | apply N.eqb_refl]).
  congruence.
Qed.

Lemma has_bold_span_contains (s : text) :
  has_bold_span s = true -> contains (T "**") s = true.
Proof.
  induction s as [| c s IH]; cbn [has_bold_span].
  - unfold bold_at. cbn. discriminate.
  - destruct (bold_at (c :: s)) eqn:B.
    + intros _. unfold bold_at in B.
      destruct (startswith (T "**") (c :: s)) eqn:S; [| discriminate B].
      now apply contains_startswith.
    + intros H. cbn [contains]. rewrite (IH H). apply orb_true_r.
Qed.

(** The PDF writer follows the specification on every line without a bold
    span. *)
Lemma pdf_follows_spec (line : text) :
  has_bold_span line = false -> pdf_element line = spec_element line.
Proof.
  intros H. unfold pdf_element, spec_element.
  rewrite H, is_separator_spec. reflexivity.
Qed.

(** The DOCX writer follows the specification on every line that is not a
    bold standalone line and whose pairs of stars, if any, form a span. *)
Lemma docx_follows_spec (line : text) :
  startswith (T "**") line && endswith (T "**") line = false ->
  has_bold_span line = contains (T "**") line ->
  docx_element line = spec_element line.
Proof.
  intros B H. unfold docx_element, spec_element.
  rewrite B, H, is_separator_spec. reflexivity.
Qed.

(** ** Spelling corrector: the capital of a corrected word *)

(** C3, at the input ["Recieve this"]: the corrections list holds the pair
    [("Recieve", "Receive")], but the text returned holds ["receive"], in
    lower case, and nowhere ["Receive"]. *)
Theorem C3_recieve_is_lowercased :
  check_spelling (T "Recieve this") =
    (T "receive this", [(T "Recieve", T "Receive")]) /\
  contains (T "Receive") (fst (check_spelling (T "Recieve this"))) = false.
Proof. split; vm_compute; reflexivity. Qed.

Lemma COMMON_SPELLING_MISTAKES_lower :
  corrections_lower COMMON_SPELLING_MISTAKES = true.
Proof. vm_compute. reflexivity. Qed.

Lemma spelling_step_case (st : text * list Correction) (e : text * text) :
  first_is_upper (capitalize (snd e)) && negb (first_is_upper (snd e)) = true ->
  Forall same_case (snd st) ->
  Forall same_case (snd (spelling_step st e)).
Proof.
  intros C F. destruct st as [txt cs], e as [k c]. unfold spelling_step.
  destruct (re_search_word k txt); [| exact F]. cbn [snd] in *.
  apply andb_true_iff in C. destruct C as [C1 C2].
  apply Forall_app. split; [exact F |].
  apply Forall_forall. intros x Hx. apply in_map_iff in Hx.
  destruct Hx as (m0 & <- & _). unfold same_case. cbn [fst snd].
  destruct (first_is_upper m0); [exact C1 |].
  now destruct (first_is_upper c).
Qed.

Lemma spelling_fold_case (lexicon : list (text * text)) :
  corrections_lower lexicon = true ->
  forall st, Forall same_case (snd st) ->
             Forall same_case (snd (fold_left spelling_step lexicon st)).
Proof.
  unfold corrections_lower.
  induction lexicon as [| e lexicon IH]; intros C st F; [exact F |].
  cbn [forallb] in C. apply andb_true_iff in C. destruct C as [C1 C2].
  cbn [fold_left]. apply IH; [exact C2 |].
  apply spelling_step_case; assumption.
Qed.

(** The replacement recorded for a match starts with a capital exactly when
    the matched text does. *)
Lemma recorded_replacement_case (t : text) :
  Forall same_case (snd (check_spelling t)).
Proof.
  unfold check_spelling.
  apply spelling_fold_case; [apply COMMON_SPELLING_MISTAKES_lower | constructor].
Qed.

(** ** Exporters: HTML *)

Lemma html_document_head (css html_content : text) :
  exists rest, html_document css html_content = html_head ++ css ++ rest.
Proof. eexists. unfold html_document, html_head. cbn. reflexivity. Qed.

(** The document of the fallback is the shell of the converter path around
    the third stylesheet. *)
Lemma plain_document_shell (plain_html : text) :
  plain_document plain_html = html_document css_plain plain_html.
Proof. reflexivity. Qed.

Lemma css_plain_is_third (content content' : text) :
  plain_document content <> html_document css_light content' /\
  plain_document content <> html_document css_dark content'.
Proof.
  rewrite plain_document_shell.
  destruct (html_document_head css_plain content) as (r & ->).
  split; intros E;
    [destruct (html_document_head css_light content') as (r' & E')
    | destruct (html_document_head css_dark content') as (r' & E')];
    rewrite E' in E; apply app_inv_head in E; cbn in E; discriminate E.
Qed.

Lemma css_dark_light_differ (content content' : text) :
  html_document css_dark content <> html_document css_light content'.
Proof.
  intros E.
  destruct (html_document_head css_dark content) as (r & Er).
  destruct (html_document_head css_light content') as (r' & Er').
  rewrite Er, Er' in E. apply app_inv_head in E.
  apply (f_equal (fun l => nth_error l 199)) in E.
  vm_compute in E. discriminate E.
Qed.

Lemma Some_eq_inv (A : Type) (x y : A) : Some x = Some y -> x = y.
Proof. intros E. injection E as E. exact E. Qed.

(** C8 fails as stated: with the markdown package missing, the document
    written carries a stylesheet that is neither the light nor the dark
    one, whatever the flag, and neither an [open] that fails nor a text
    that cannot be encoded is caught: the exception escapes, and in the
    second case the file is left empty. *)
Lemma C8_counterexample :
  (forall dark_mode content,
     read_file (T "resume.html")
       (snd (save_as_html None (fun p => p) (T "Jane") (T "resume.html")
                          dark_mode empty_disk))
     <> Some (html_document (if dark_mode then css_dark else css_light)
                            content)) /\
  fst (save_as_html None (fun p => p) (T "Jane") (T "resume.html") false
                    locked_disk)
  = Escapes (T "Permission denied") /\
  (let r := save_as_html None (fun p => p) [74; 56448]%N (T "resume.html")
                         false empty_disk in
   fst r = Escapes (T "'utf-8' codec can't encode character '\udc80' in position 254: surrogates not allowed") /\
   read_file (T "resume.html") (snd r) = Some []).
Proof.
  split; [| split; [reflexivity | vm_compute; split; reflexivity]].
  intros dark_mode content E.
  change (Some (plain_document (T "<pre>Jane</pre>")) =
          Some (html_document (if dark_mode then css_dark else css_light)
                              content)) in E.
  apply Some_eq_inv in E.
  destruct (css_plain_is_third (T "<pre>Jane</pre>") content) as [L D].
  destruct dark_mode; [exact (D E) | exact (L E)].
Qed.

Lemma encode_error_from_None (s : text) :
  forall position,
  encode_error_from position s = None <-> existsb is_surrogate s = false.
Proof.
  induction s as [| c s IH]; intros position; cbn [encode_error_from existsb].
  - tauto.
  - destruct (is_surrogate c); cbn [orb]; [split; discriminate | apply IH].
Qed.

Lemma encode_error_encodable (s : text) :
  encode_error s = None <-> encodable s = true.
Proof.
  unfold encode_error, encodable. rewrite encode_error_from_None.
  destruct (existsb is_surrogate s); cbn; split; congruence.
Qed.

Lemma encodable_app (a b : text) :
  encodable (a ++ b) = encodable a && encodable b.
Proof. unfold encodable. rewrite existsb_app. apply negb_orb. Qed.

(** What [write_file] comes to: the text is in the file, or an exception
    is raised before the file is opened, and nothing has changed, or
    after, and the file holds what the failure left. *)
Lemma write_file_ok (filename content : text) (w : filesystem) :
  can_write w filename content ->
  write_file filename content w = (None, holding filename content w).
Proof.
  intros (O & E & D). unfold write_file.
  apply encode_error_encodable in E. now rewrite O, E, D.
Qed.

Lemma write_file_fails (filename content : text) (w : filesystem)
    (message : text) :
  fst (write_file filename content w) = Some message ->
  ~ can_write w filename content /\
  ((open_error w filename = Some message /\
    snd (write_file filename content w) = w) \/
   (open_error w filename = None /\
    exists held,
      snd (write_file filename content w) = holding filename held w /\
      (encodable content = false -> held = []))).
Proof.
  unfold write_file. intros H. split.
  - intros (O & E & D). apply encode_error_encodable in E.
    rewrite O, E, D in H. discriminate H.
  - destruct (open_error w filename) as [m |] eqn:O.
    + left. cbn [fst snd] in *. split; congruence.
    + right. split; [reflexivity |].
      destruct (encode_error content) as [m |] eqn:E.
      * exists []. split; [reflexivity | reflexivity].
      * apply encode_error_encodable in E.
        destruct (device_error w filename content) as [[m held] |];
          [| discriminate H].
        exists held. split; [reflexivity | congruence].
Qed.

Lemma read_holding (filename content : text) (w : filesystem) :
  read_file filename (holding filename content w) = Some content.
Proof. unfold read_file, holding. cbn. now rewrite text_eqb_refl. Qed.

Lemma read_other_holding (filename content other : text) (w : filesystem) :
  text_eqb filename other = false ->
  read_file other (holding filename content w) = read_file other w.
Proof. intros H. unfold read_file, holding. cbn. now rewrite H. Qed.

Lemma read_other_after_write (filename content other : text)
    (w : filesystem) :
  text_eqb filename other = false ->
  read_file other (snd (write_file filename content w)) = read_file other w.
Proof.
  intros H. unfold write_file.
  destruct (open_error w filename); [reflexivity |].
  destruct (encode_error content);
    [now apply read_other_holding |].
  destruct (device_error w filename content) as [[m held] |];
    now apply read_other_holding.
Qed.

(** C8, amended: when the markdown package is missing and the document
    can be written (the file can be opened, the text holds no surrogate
    and the device takes the bytes), [save_as_html] returns the path and
    has written the shell of the converter path around the input text,
    verbatim between [<pre>] and [</pre>], with a stylesheet of its own
    that does not depend on the dark-mode flag; the converter path writes
    the same shell with the dark or the light stylesheet; the three
    stylesheets are three different ones. *)
Theorem C8_html_fallback_amended
    (abspath : text -> text) (resume_text filename : text)
    (dark_mode : bool) (w : filesystem) :
  can_write w filename
    (html_document css_plain (T "<pre>" ++ resume_text ++ T "</pre>")) ->
  (exists w',
     save_as_html None abspath resume_text filename dark_mode w
       = (Returns (abspath filename), w') /\
     read_file filename w' =
       Some (html_document css_plain
                           (T "<pre>" ++ resume_text ++ T "</pre>"))) /\
  (forall convert html_content,
     convert resume_text = inl html_content ->
     can_write w filename
       (html_document (if dark_mode then css_dark else css_light)
                      html_content) ->
     exists w',
       save_as_html (Some convert) abspath resume_text filename dark_mode w
         = (Returns (abspath filename), w') /\
       read_file filename w' =
         Some (html_document (if dark_mode then css_dark else css_light)
                             html_content)) /\
  (forall c c', html_document css_plain c <> html_document css_light c' /\
                html_document css_plain c <> html_document css_dark c' /\
                html_document css_dark c <> html_document css_light c').
Proof.
  intros W. split; [| split].
  - unfold save_as_html. rewrite plain_document_shell.
    rewrite (@write_file_ok _ _ _ W). eexists. split; [reflexivity |].
    apply read_holding.
  - intros convert html_content Hc W'. unfold save_as_html. rewrite Hc.
    rewrite (@write_file_ok _ _ _ W'). eexists. split; [reflexivity |].
    apply read_holding.
  - intros c c'. rewrite <- plain_document_shell.
    destruct (css_plain_is_third c c'). auto using css_dark_light_differ.
Qed.

Lemma C8_html_fallback_amended_witness :
  exists w',
    save_as_html None (fun p => p) (T "Jane") (T "resume.html") true
                 empty_disk = (Returns (T "resume.html"), w') /\
    read_file (T "resume.html") w' =
      Some (html_document css_plain (T "<pre>" ++ T "Jane" ++ T "</pre>")).
Proof.
  refine (proj1 (@C8_html_fallback_amended (fun p => p) (T "Jane")
                   (T "resume.html") true empty_disk _)).
  split; [reflexivity | split; [vm_compute; reflexivity | reflexivity]].
Defined.

(** ** Text enhancer and the random generator *)

Lemma same_up_to_verb_refl (e : Enhancement) : same_up_to_verb e e.
Proof. split; auto. Qed.

Lemma Forall2_same_refl (l : list Enhancement) : Forall2 same_up_to_verb l l.
Proof. induction l; constructor; auto using same_up_to_verb_refl. Qed.

Lemma bullet_step_same (line : text) (l1 l2 : list Enhancement) (g1 g2 : rng) :
  Forall2 same_up_to_verb l1 l2 ->
  Forall2 same_up_to_verb (fst (bullet_step (l1, g1) line))
                          (fst (bullet_step (l2, g2) line)).
Proof.
  intros H. unfold bullet_step.
  destruct (is_bullet_line line); [| exact H].
  destruct (split_ws _) as [| w0 ws]; [exact H |].
  destruct (is_action_verb _); [exact H |].
  unfold random_choice, randbelow. cbv beta iota zeta. cbn [fst].
  apply Forall2_app; [exact H |].
  constructor; [| constructor].
  split; [reflexivity |]. right. do 2 eexists. split; reflexivity.
Qed.

Lemma bullet_fold_same (lines : list text) :
  forall (l1 l2 : list Enhancement) (g1 g2 : rng),
  Forall2 same_up_to_verb l1 l2 ->
  Forall2 same_up_to_verb (fst (fold_left bullet_step lines (l1, g1)))
                          (fst (fold_left bullet_step lines (l2, g2))).
Proof.
  induction lines as [| line lines IH]; intros l1 l2 g1 g2 H; [exact H |].
  cbn [fold_left].
  pose proof (bullet_step_same line g1 g2 H) as S.
  destruct (bullet_step (l1, g1) line) as [l1' g1'].
  destruct (bullet_step (l2, g2) line) as [l2' g2'].
  apply IH. exact S.
Qed.

Lemma bullet_fold_prefix (lines : list text) :
  forall (l : list Enhancement) (g : rng),
  exists tail, fst (fold_left bullet_step lines (l, g)) = l ++ tail.
Proof.
  induction lines as [| line lines IH]; intros l g.
  - exists []. cbn. now rewrite app_nil_r.
  - cbn [fold_left].
    assert (S : exists t, fst (bullet_step (l, g) line) = l ++ t).
    { unfold bullet_step.
      destruct (is_bullet_line line); [| exists []; cbn; now rewrite app_nil_r].
      destruct (split_ws _); [exists []; cbn; now rewrite app_nil_r |].
      destruct (is_action_verb _); [exists []; cbn; now rewrite app_nil_r |].
      destruct (random_choice _ g). eexists. reflexivity. }
    destruct S as (t & S).
    destruct (bullet_step (l, g) line) as [l' g']. cbn [fst] in S. subst l'.
    destruct (IH (l ++ t) g') as (t' & E). exists (t ++ t').
    rewrite E. now rewrite app_assoc.
Qed.

(** C9 fails as stated: two calls of the enhancer on the same text return
    different enhancement lists when the shared generator is in different
    states. *)
Lemma C9_counterexample :
  fst (enhance_text (T "- foo") (fun _ => 0)) =
    (T "- foo",
     [(T "Bullet point: foo",
       T "Consider starting with an action verb like 'Administered'")]) /\
  fst (enhance_text (T "- foo") (fun _ => 1)) =
    (T "- foo",
     [(T "Bullet point: foo",
       T "Consider starting with an action verb like 'Analyzed'")]) /\
  fst (enhance_text (T "- foo") (fun _ => 0)) <>
  fst (enhance_text (T "- foo") (fun _ => 1)).
Proof.
  assert (E0 : fst (enhance_text (T "- foo") (fun _ => 0)) =
    (T "- foo",
     [(T "Bullet point: foo",
       T "Consider starting with an action verb like 'Administered'")]))
    by (vm_compute; reflexivity).
  assert (E1 : fst (enhance_text (T "- foo") (fun _ => 1)) =
    (T "- foo",
     [(T "Bullet point: foo",
       T "Consider starting with an action verb like 'Analyzed'")]))
    by (vm_compute; reflexivity).
  split; [exact E0 | split; [exact E1 |]].
  rewrite E0, E1. intros E. vm_compute in E. discriminate E.
Qed.

(** C9, amended: of the enhancer's result only the verbs suggested for
    bullets depend on the state of the shared random generator.  Whatever
    that state, the text returned and the weak-word and cliché enhancements
    are the same, and the two enhancement lists agree entry by entry on the
    target and differ at most in the verb of a suggestion.  (The spelling
    corrector, the scorer, the keyword fallback and the line classification
    take no state at all.) *)
Theorem C9_enhancer_depends_on_generator_only_in_verbs
    (t : text) (g1 g2 : rng) :
  let r1 := fst (enhance_text t g1) in
  let r2 := fst (enhance_text t g2) in
  fst r1 = fst (weak_pass t) /\
  fst r2 = fst (weak_pass t) /\
  (exists tail1 tail2,
     snd r1 = snd (weak_pass t) ++ cliche_pass (fst (weak_pass t)) ++ tail1 /\
     snd r2 = snd (weak_pass t) ++ cliche_pass (fst (weak_pass t)) ++ tail2) /\
  Forall2 same_up_to_verb (snd r1) (snd r2).
Proof.
  unfold enhance_text. destruct (weak_pass t) as [enhanced weak]. cbn [fst snd].
  set (lines := split_char newline enhanced).
  set (l0 := weak ++ cliche_pass enhanced).
  pose proof (bullet_fold_same lines g1 g2 (Forall2_same_refl l0)) as S.
  destruct (bullet_fold_prefix lines l0 g1) as (t1 & P1).
  destruct (bullet_fold_prefix lines l0 g2) as (t2 & P2).
  destruct (fold_left bullet_step lines (l0, g1)) as [e1 g1'].
  destruct (fold_left bullet_step lines (l0, g2)) as [e2 g2'].
  cbn [fst snd] in *. subst e1 e2.
  repeat split; auto.
  exists t1, t2. unfold l0. now rewrite <- !app_assoc.
Qed.

(** ** Keyword extractor: the ranking of the fallback *)

Section Ranking.

Lemma bump_keys (w : nat) (k : text) (d : counts) :
  map fst (bump w k d) =
  if existsb (text_eqb k) (map fst d) then map fst d
  else map fst d ++ [k].
Proof.
  induction d as [| [k' n] d IH]; [reflexivity |].
  cbn [bump map fst existsb]. rewrite (text_eqb_sym k k').
  destruct (text_eqb k' k); cbn [orb map fst]; [reflexivity |].
  rewrite IH. destruct (existsb _ _); reflexivity.
Qed.

Lemma existsb_text_In (k : text) (l : list text) :
  existsb (text_eqb k) l = true <-> In k l.
Proof.
  rewrite existsb_exists. split.
  - intros (x & Hx & E). apply text_eqb_eq in E. now subst.
  - intros H. exists k. split; [exact H | apply text_eqb_refl].
Qed.

Lemma bump_NoDup (w : nat) (k : text) (d : counts) :
  NoDup (map fst d) -> NoDup (map fst (bump w k d)).
Proof.
  intros H. rewrite bump_keys.
  destruct (existsb (text_eqb k) (map fst d)) eqn:E; [exact H |].
  apply NoDup_app; [exact H | repeat constructor; intros [] |].
  intros a Ha [<- | []].
  apply existsb_text_In in Ha. congruence.
Qed.

Lemma fold_bump_NoDup (w : nat) (ks : list text) :
  forall d, NoDup (map fst d) ->
            NoDup (map fst (fold_left (fun d k => bump w k d) ks d)).
Proof.
  induction ks as [| k ks IH]; intros d H; [exact H |].
  cbn [fold_left]. apply IH, bump_NoDup, H.
Qed.

(** The table is a dict: no key twice. *)
Lemma word_counts_NoDup (job_description : text) :
  NoDup (map fst (word_counts job_description)).
Proof.
  unfold word_counts. apply fold_bump_NoDup, fold_bump_NoDup. constructor.
Qed.

Lemma insert_desc_perm (x : text * nat) (l : counts) :
  Permutation (insert_desc x l) (x :: l).
Proof.
  induction l as [| y l IH]; cbn [insert_desc]; [reflexivity |].
  destruct (snd y <=? snd x); [reflexivity |].
  rewrite IH. apply perm_swap.
Qed.

Lemma sorted_desc_perm (d : counts) : Permutation (sorted_desc d) d.
Proof.
  induction d as [| x d IH]; [reflexivity |].
  cbn [sorted_desc fold_right]. fold (sorted_desc d).
  rewrite insert_desc_perm. now constructor.
Qed.

Lemma StronglySorted_weaken (A : Type) (R R' : A -> A -> Prop) (l : list A) :
  (forall a b, In a l -> In b l -> R a b -> R' a b) ->
  StronglySorted R l -> StronglySorted R' l.
Proof.
  induction l as [| a l IH]; intros I H; [constructor |].
  apply StronglySorted_inv in H. destruct H as [H F]. constructor.
  - apply IH; [| exact H]. intros; apply I; cbn; auto.
  - rewrite Forall_forall in *. intros b Hb. apply I; cbn; auto.
Qed.

End Ranking.

Lemma index_of_cons_other (k : text) (x : text * nat) (d : counts) :
  fst x <> k -> index_of k (x :: d) = S (index_of k d).
Proof.
  intros H. destruct x as [k' n]. cbn [index_of].
  destruct (text_eqb k' k) eqn:E; [| reflexivity].
  apply text_eqb_eq in E. cbn in H. congruence.
Qed.

Lemma index_of_cons_same (x : text * nat) (d : counts) :
  index_of (fst x) (x :: d) = 0.
Proof. destruct x as [k n]. cbn. now rewrite text_eqb_refl. Qed.

(** The stable descending sort puts the items in ranking order. *)
Lemma sorted_desc_sorted (d : counts) :
  NoDup (map fst d) -> StronglySorted (item_before d) (sorted_desc d).
Proof.
  induction d as [| x d IH]; intros H; [constructor |].
  cbn [map] in H. apply NoDup_cons_iff in H. destruct H as [Hx Hd].
  cbn [sorted_desc fold_right]. fold (sorted_desc d).
  assert (Hne : forall y, In y (sorted_desc d) -> fst x <> fst y).
  { intros y Hy E. apply Hx. rewrite E. apply in_map.
    apply (Permutation_in _ (sorted_desc_perm d)), Hy. }
  assert (S : StronglySorted (item_before (x :: d)) (sorted_desc d)).
  { apply (StronglySorted_weaken (R := item_before d)); [| apply IH, Hd].
    intros a b Ha Hb [L | [E L]]; [left; exact L | right; split; [exact E |]].
    rewrite !index_of_cons_other by (apply Hne; assumption). lia. }
  clear IH.
  induction (sorted_desc d) as [| y s IHs]; cbn [insert_desc].
  - repeat constructor.
  - pose proof (StronglySorted_inv S) as [Ss Sy].
    destruct (snd y <=? snd x) eqn:E.
    + apply Nat.leb_le in E. constructor; [exact S |].
      assert (forall z, In z (y :: s) -> item_before (x :: d) x z).
      { intros z Hz.
        assert (snd z <= snd x).
        { destruct Hz as [<- | Hz]; [exact E |].
          rewrite Forall_forall in Sy. specialize (Sy z Hz).
          destruct Sy as [L | [Eq _]]; lia. }
        destruct (Nat.eq_dec (snd x) (snd z)) as [Eq | Ne];
          [right | left; lia].
        split; [exact Eq |].
        rewrite index_of_cons_same, index_of_cons_other by (apply Hne, Hz).
        lia. }
      apply Forall_forall. exact H.
    + apply Nat.leb_gt in E. constructor.
      * apply IHs; [| exact Ss]. intros z Hz. apply Hne. now right.
      * apply Forall_forall. intros z Hz.
        apply (Permutation_in _ (insert_desc_perm x s)) in Hz.
        destruct Hz as [<- | Hz]; [left; exact E |].
        rewrite Forall_forall in Sy. apply Sy, Hz.
Qed.

Lemma count_of_In (k : text) (n : nat) (d : counts) :
  NoDup (map fst d) -> In (k, n) d -> count_of k d = n.
Proof.
  induction d as [| [k' n'] d IH]; intros H I; [destruct I |].
  cbn [map fst] in H. apply NoDup_cons_iff in H. destruct H as [Hk Hd].
  cbn [count_of]. destruct I as [[= -> ->] | I].
  - now rewrite text_eqb_refl.
  - destruct (text_eqb k' k) eqn:E; [| apply IH; assumption].
    apply text_eqb_eq in E. subst k'. exfalso. apply Hk.
    apply (in_map fst) in I. exact I.
Qed.

Lemma item_before_ranks (d : counts) (x y : text * nat) :
  NoDup (map fst d) -> In x d -> In y d ->
  item_before d x y -> ranks_before d (fst x) (fst y).
Proof.
  intros H Hx Hy. destruct x as [kx nx], y as [ky ny].
  unfold item_before, ranks_before. cbn [fst snd].
  rewrite (@count_of_In kx nx d H Hx), (@count_of_In ky ny d H Hy). auto.
Qed.

Lemma StronglySorted_map (A B : Type) (f : A -> B) (R : A -> A -> Prop)
    (R' : B -> B -> Prop) (l : list A) :
  (forall a b, In a l -> In b l -> R a b -> R' (f a) (f b)) ->
  StronglySorted R l -> StronglySorted R' (map f l).
Proof.
  induction l as [| a l IH]; intros I H; [constructor |].
  apply StronglySorted_inv in H. destruct H as [H F]. cbn [map]. constructor.
  - apply IH; [| exact H]. intros; apply I; cbn; auto.
  - apply Forall_forall. intros b Hb. apply in_map_iff in Hb.
    destruct Hb as (b0 & <- & Hb0). rewrite Forall_forall in F.
    apply I; cbn; auto.
Qed.

Lemma StronglySorted_app_inv (A : Type) (R : A -> A -> Prop) (l1 l2 : list A) :
  StronglySorted R (l1 ++ l2) ->
  StronglySorted R l1 /\
  (forall a b, In a l1 -> In b l2 -> R a b).
Proof.
  induction l1 as [| a l1 IH]; cbn [app]; intros H.
  - split; [constructor | intros a b []].
  - apply StronglySorted_inv in H. destruct H as [H F].
    destruct (IH H) as [S1 C]. split.
    + constructor; [exact S1 |]. rewrite Forall_forall in *.
      intros b Hb. apply F, in_or_app. now left.
    + intros a' b [<- | Ha] Hb; [| now apply C].
      rewrite Forall_forall in F. apply F, in_or_app. now right.
Qed.

(** The fallback, spelled out: at most 20 terms of the table, in ranking
    order, and every term left out is ranked after every term returned. *)
Lemma fallback_keywords_ranked (job_description : text) :
  let d := word_counts job_description in
  let r := fallback_keywords job_description in
  length r = Nat.min 20 (length d) /\
  incl r (map fst d) /\
  StronglySorted (ranks_before d) r /\
  (forall k, In k (map fst d) -> ~ In k r ->
             forall k', In k' r -> ranks_before d k' k).
Proof.
  intros d r. unfold r, fallback_keywords. fold d.
  pose proof (word_counts_NoDup job_description) as ND. fold d in ND.
  pose proof (@sorted_desc_sorted d ND) as S.
  pose proof (sorted_desc_perm d) as P.
  rewrite <- (firstn_skipn 20 (sorted_desc d)) in S.
  apply StronglySorted_app_inv in S. destruct S as [S1 C].
  assert (I1 : forall a, In a (firstn 20 (sorted_desc d)) -> In a d).
  { intros a Ha. apply (Permutation_in _ P).
    rewrite <- (firstn_skipn 20 (sorted_desc d)). apply in_or_app. now left. }
  split; [| split; [| split]].
  - rewrite length_map, length_firstn. now rewrite (Permutation_length P).
  - intros k Hk. apply in_map_iff in Hk. destruct Hk as (a & <- & Ha).
    apply in_map, I1, Ha.
  - apply StronglySorted_map with (R := item_before d); [| exact S1].
    intros a b Ha Hb. apply item_before_ranks; auto.
  - intros k Hk Hn k' Hk'.
    apply in_map_iff in Hk. destruct Hk as (b & <- & Hb).
    apply in_map_iff in Hk'. destruct Hk' as (a & <- & Ha).
    apply item_before_ranks; auto. apply C; [exact Ha |].
    apply (Permutation_in _ (Permutation_sym P)) in Hb.
    rewrite <- (firstn_skipn 20 (sorted_desc d)) in Hb.
    apply in_app_or in Hb. destruct Hb as [Hb | Hb]; [| exact Hb].
    exfalso. apply Hn. apply in_map, Hb.
Qed.

(** C6: with the generative service unavailable the extractor returns the
    result of the fallback, which is a function of the job description
    alone (so repeated calls, whatever the state of the outside world,
    return the identical list); the list holds terms of the table of
    counts, 20 of them or all when the table has fewer, ordered by
    descending accumulated count with ties broken by first-seen order, and
    they are the top-ranked terms of the table. *)
Theorem C6_fallback_top20_ranked_and_deterministic
    (world1 world2 : service) (job_description : text) :
  unavailable (world1 (keywords_prompt job_description)) ->
  unavailable (world2 (keywords_prompt job_description)) ->
  let d := word_counts job_description in
  let r := extract_keywords_from_job_description world1 job_description in
  r = extract_keywords_from_job_description world2 job_description /\
  length r = Nat.min 20 (length d) /\
  incl r (map fst d) /\
  StronglySorted (ranks_before d) r /\
  (forall k, In k (map fst d) -> ~ In k r ->
             forall k', In k' r -> ranks_before d k' k).
Proof.
  intros U1 U2 d r.
  assert (E : forall w, unavailable (w (keywords_prompt job_description)) ->
              extract_keywords_from_job_description w job_description =
              fallback_keywords job_description).
  { intros w U. unfold extract_keywords_from_job_description.
    destruct (w _) as [| code txt] eqn:Ew; [reflexivity |].
    destruct (Z.eq_dec code 200) as [-> | Ne].
    - exfalso. exact (U txt eq_refl).
    - destruct code as [| p | p]; try reflexivity.
      repeat (destruct p as [p | p |]; try reflexivity).
      contradiction. }
  unfold r. rewrite (E world1 U1), (E world2 U2).
  destruct (fallback_keywords_ranked job_description) as (L & I & S & C).
  auto.
Qed.

Lemma C6_fallback_top20_ranked_and_deterministic_witness :
  let jd := T "Python developer. SQL and Python, machine learning" in
  let d := word_counts jd in
  let r := extract_keywords_from_job_description (fun _ => Raised) jd in
  r = extract_keywords_from_job_description
        (fun _ => Answered 503 (T "busy")) jd /\
  length r = Nat.min 20 (length d) /\
  incl r (map fst d) /\
  StronglySorted (ranks_before d) r /\
  (forall k, In k (map fst d) -> ~ In k r ->
             forall k', In k' r -> ranks_before d k' k).
Proof.
  apply (C6_fallback_top20_ranked_and_deterministic
           (fun _ => Raised) (fun _ => Answered 503 (T "busy"))).
  - intros k E. discriminate E.
  - intros k E. discriminate E.
Defined.

(** ** Whole-word patterns on words and separators *)

(** *** Characters *)

Lemma map_char_preimage (table : mapping) (c : char) :
  map_char table c = c \/ In c (preimages table (map_char table c)).
Proof.
  induction table as [| [[[first last] step] image] table IH]; [now left |].
  cbn [map_char]. destruct (c <? first)%N eqn:F; [now left |].
  apply N.ltb_ge in F.
  destruct ((c <=? last) && ((c - first) mod step =? 0))%N eqn:E.
  - right. unfold preimages. cbn [flat_map]. apply in_or_app. left.
    apply andb_prop in E. destruct E as [E _]. apply N.leb_le in E.
    replace (image <=? image + (c - first))%N with true
      by (symmetry; apply N.leb_le; lia).
    replace (image + (c - first) - image)%N with (c - first)%N by lia.
    replace (c - first <=? last - first)%N with true
      by (symmetry; apply N.leb_le; lia).
    left. lia.
  - destruct IH as [IH | IH]; [now left | right].
    unfold preimages. cbn [flat_map]. apply in_or_app. now right.
Qed.

Lemma in_ascii_chars (c : char) : is_ascii c = true -> In c ascii_chars.
Proof.
  unfold is_ascii, ascii_chars. intros H. apply N.ltb_lt in H.
  apply in_map_iff. exists (N.to_nat c). split; [apply N2Nat.id |].
  apply in_seq. lia.
Qed.

(** The characters with an ASCII lower case are the ASCII characters, the
    capital I with a dot and the Kelvin sign. *)
Lemma lower_to_ascii (c : char) :
  is_ascii (lower c) = true ->
  is_ascii c = true \/ c = 304%N \/ c = 8490%N.
Proof.
  intros H. destruct (map_char_preimage LOWER c) as [E | I].
  - left. unfold lower in H. now rewrite E in H.
  - assert (A : forallb (fun x => is_ascii x || (x =? 304) || (x =? 8490))%N
                        (flat_map (preimages LOWER) ascii_chars) = true)
      by (vm_compute; reflexivity).
    rewrite forallb_forall in A.
    specialize (A c). rewrite !orb_true_iff, !N.eqb_eq in A.
    destruct A as [[A | A] | A]; auto.
    apply in_flat_map. exists (lower c). split; [| exact I].
    apply (@in_ascii_chars _ H).
Qed.

Lemma lower_to_special (c : char) (y : char) :
  In y [305; 383]%N -> lower c = y -> c = y.
Proof.
  intros Hy E. destruct (map_char_preimage LOWER c) as [X | I].
  - unfold lower in E. congruence.
  - fold (lower c) in I. rewrite E in I.
    assert (A : forallb (fun y => forallb (N.eqb y) (preimages LOWER y))
                        [305; 383]%N = true)
      by (vm_compute; reflexivity).
    rewrite forallb_forall in A. specialize (A y Hy).
    rewrite forallb_forall in A. specialize (A c I).
    apply N.eqb_eq in A. congruence.
Qed.

(** Every character is of one of three kinds for an ASCII pattern. *)
Lemma fold_cases (c : char) :
  In c (ascii_chars ++ folds_to_ascii) \/
  (is_ascii (lower c) = false /\ lower c <> 305%N /\ lower c <> 383%N).
Proof.
  destruct (is_ascii (lower c)) eqn:A.
  - left. apply in_or_app. destruct (@lower_to_ascii c A) as [H | [-> | ->]].
    + left. now apply in_ascii_chars.
    + right. now left.
    + right. right. now left.
  - destruct (N.eq_dec (lower c) 305) as [E | E].
    { left. apply in_or_app. right.
      rewrite (@lower_to_special c 305%N (or_introl eq_refl) E).
      right. right. now left. }
    destruct (N.eq_dec (lower c) 383) as [E' | E'].
    { left. apply in_or_app. right.
      rewrite (@lower_to_special c 383%N (or_intror (or_introl eq_refl)) E').
      right. right. right. now left. }
    right. auto.
Qed.

Lemma ci_eq_far (a c : char) :
  is_ascii a = true ->
  is_ascii (lower c) = false -> lower c <> 305%N -> lower c <> 383%N ->
  ci_eq a c = false.
Proof.
  intros Ha A N1 N2.
  assert (F : forallb (fun a => forallb (fun x => is_ascii x || (x =? 305)
                                                  || (x =? 383))%N
                                        (a :: lower a :: extra_cases (lower a)))
                      ascii_chars = true)
    by (vm_compute; reflexivity).
  rewrite forallb_forall in F. specialize (F a (@in_ascii_chars a Ha)).
  rewrite forallb_forall in F.
  assert (G : forall x, In x (a :: lower a :: extra_cases (lower a)) ->
                        x <> lower c).
  { intros x Hx E. specialize (F x Hx). subst x.
    rewrite A in F. rewrite !orb_true_iff, !N.eqb_eq in F.
    destruct F as [[F | F] | F]; [discriminate | |]; contradiction. }
  unfold ci_eq. destruct (re_iscased a).
  - unfold mem_char. destruct (existsb _ _) eqn:X; [| reflexivity].
    apply existsb_exists in X. destruct X as (x & Hx & E).
    apply N.eqb_eq in E. exfalso. apply (G x); [now right | congruence].
  - apply N.eqb_neq. intros <-.
    assert (is_ascii (lower a) = true).
    { specialize (F (lower a) ltac:(right; now left)).
      rewrite !orb_true_iff, !N.eqb_eq in F. destruct F as [[F | F] | F];
        [exact F | contradiction | contradiction]. }
    congruence.
Qed.

(** Against the character of an ASCII pattern, [re.IGNORECASE] compares
    the folds. *)
Lemma ci_eq_plain (a c : char) :
  is_ascii a = true -> ci_eq a c = same_fold a c.
Proof.
  intros Ha. destruct (fold_cases c) as [I | (A & N1 & N2)].
  - assert (R : forallb (fun a => forallb (fun c => Bool.eqb (ci_eq a c)
                                                            (same_fold a c))
                                          (ascii_chars ++ folds_to_ascii))
                        ascii_chars = true)
      by (vm_compute; reflexivity).
    rewrite forallb_forall in R. specialize (R a (@in_ascii_chars a Ha)).
    rewrite forallb_forall in R. specialize (R c I).
    now apply Bool.eqb_prop in R.
  - rewrite (@ci_eq_far a c Ha A N1 N2). symmetry. unfold same_fold, refold.
    apply N.eqb_neq in N1, N2. rewrite N1, N2.
    assert (F : forallb (fun a => is_ascii (refold a)) ascii_chars = true)
      by (vm_compute; reflexivity).
    rewrite forallb_forall in F. specialize (F a (@in_ascii_chars a Ha)).
    apply N.eqb_neq. unfold refold in F. intros E. 
    cbv zeta in F. rewrite E in F. congruence.
Qed.

(** What matches a word character of an ASCII pattern is a word
    character, and what matches another one is not. *)
Lemma ci_eq_word (a c : char) :
  is_ascii a = true -> ci_eq a c = true -> is_word a = is_word c.
Proof.
  intros Ha E. destruct (fold_cases c) as [I | (A & N1 & N2)].
  - assert (R : forallb (fun a => forallb (fun c => implb (ci_eq a c)
                                            (Bool.eqb (is_word a) (is_word c)))
                                          (ascii_chars ++ folds_to_ascii))
                        ascii_chars = true)
      by (vm_compute; reflexivity).
    rewrite forallb_forall in R. specialize (R a (@in_ascii_chars a Ha)).
    rewrite forallb_forall in R. specialize (R c I).
    rewrite E in R. now apply Bool.eqb_prop in R.
  - rewrite (@ci_eq_far a c Ha A N1 N2) in E. discriminate E.
Qed.

(** What an ASCII character of a pattern matches are its variants. *)
Lemma ci_eq_variants (a c : char) :
  is_ascii a = true -> ci_eq a c = mem_char (variants a) c.
Proof.
  intros Ha. destruct (fold_cases c) as [I | (A & N1 & N2)].
  - assert (R : forallb (fun a => forallb (fun c =>
                                    Bool.eqb (ci_eq a c)
                                             (mem_char (variants a) c))
                                          (ascii_chars ++ folds_to_ascii))
                        ascii_chars = true)
      by (vm_compute; reflexivity).
    rewrite forallb_forall in R. specialize (R a (@in_ascii_chars a Ha)).
    rewrite forallb_forall in R. specialize (R c I).
    now apply Bool.eqb_prop in R.
  - rewrite (@ci_eq_far a c Ha A N1 N2). symmetry.
    assert (F : forallb (fun a => forallb (fun x =>
                                    is_ascii (lower x) || (lower x =? 305)
                                    || (lower x =? 383))%N
                                          (variants a))
                        ascii_chars = true)
      by (vm_compute; reflexivity).
    rewrite forallb_forall in F. specialize (F a (@in_ascii_chars a Ha)).
    rewrite forallb_forall in F.
    unfold mem_char. destruct (existsb _ _) eqn:X; [| reflexivity].
    apply existsb_exists in X. destruct X as (x & Hx & E).
    apply N.eqb_eq in E. subst x. specialize (F c Hx).
    rewrite A in F. rewrite !orb_true_iff, !N.eqb_eq in F.
    destruct F as [[F | F] | F]; [discriminate | |]; contradiction.
Qed.

Lemma ci_text_eq_spelled (p m : text) :
  plain p = true -> ci_text_eq p m = spelled_like p m.
Proof.
  revert m. induction p as [| a p IH]; intros [| c m] H; try reflexivity.
  cbn in H. apply andb_prop in H. destruct H as [Ha Hp].
  cbn [ci_text_eq spelled_like]. now rewrite (@ci_eq_variants a c Ha), IH.
Qed.

Lemma same_fold_refl (a : char) : same_fold a a = true.
Proof. apply N.eqb_refl. Qed.

Lemma same_fold_sym (a b : char) : same_fold a b = same_fold b a.
Proof. apply N.eqb_sym. Qed.

Lemma same_fold_trans (a b c : char) :
  same_fold a b = true -> same_fold b c = true -> same_fold a c = true.
Proof. unfold same_fold. rewrite !N.eqb_eq. congruence. Qed.

Lemma fold_text_eq_refl (a : text) : fold_text_eq a a = true.
Proof. induction a; cbn; [reflexivity |]. now rewrite same_fold_refl. Qed.

Lemma fold_text_eq_sym (a b : text) : fold_text_eq a b = fold_text_eq b a.
Proof.
  revert b. induction a as [| x a IH]; intros [| y b]; cbn; try reflexivity.
  now rewrite same_fold_sym, IH.
Qed.

Lemma fold_text_eq_trans (a b c : text) :
  fold_text_eq a b = true -> fold_text_eq b c = true ->
  fold_text_eq a c = true.
Proof.
  revert b c. induction a as [| x a IH]; intros [| y b] [| z c]; cbn;
    try congruence.
  rewrite !andb_true_iff. intros [H1 H2] [H3 H4]. split.
  - eapply same_fold_trans; eassumption.
  - eapply IH; eassumption.
Qed.

Lemma fold_text_eq_length (a b : text) :
  fold_text_eq a b = true -> length a = length b.
Proof.
  revert b. induction a as [| x a IH]; intros [| y b]; cbn; try congruence.
  rewrite andb_true_iff. intros [_ H]. f_equal. now apply IH.
Qed.

(** A plain literal matches the texts that are equal to it up to case. *)
Lemma ci_text_eq_fold (a b : text) :
  plain a = true -> ci_text_eq a b = fold_text_eq a b.
Proof.
  revert b. induction a as [| x a IH]; intros [| y b] H; try reflexivity.
  cbn in H. apply andb_prop in H. destruct H as [Hx Ha].
  cbn [ci_text_eq fold_text_eq]. now rewrite (@ci_eq_plain x y Hx), IH.
Qed.

Lemma tok_ci_refl (a : token) : tok_ci a a = true.
Proof. destruct a; cbn; [apply fold_text_eq_refl | apply same_fold_refl]. Qed.

Lemma tok_ci_sym (a b : token) : tok_ci a b = tok_ci b a.
Proof.
  destruct a, b; cbn; try reflexivity;
    [apply fold_text_eq_sym | apply same_fold_sym].
Qed.

Lemma tok_ci_trans (a b c : token) :
  tok_ci a b = true -> tok_ci b c = true -> tok_ci a c = true.
Proof.
  destruct a, b, c; cbn; try congruence;
    [apply fold_text_eq_trans | apply same_fold_trans].
Qed.

Lemma tok_ci_is_W (a b : token) : tok_ci a b = true -> is_W a = is_W b.
Proof. destruct a, b; cbn; congruence. Qed.

Lemma tok_ci_length (a b : token) :
  tok_ci a b = true -> length (chars a) = length (chars b).
Proof.
  destruct a, b; cbn; try congruence. apply fold_text_eq_length.
Qed.

(** *** Tokenizing *)

Lemma untok_tokenize (s : text) : untok (tokenize s) = s.
Proof.
  induction s as [| c s IH]; [reflexivity |].
  cbn [tokenize]. destruct (is_word c).
  - destruct (tokenize s) as [| [w | d] ts]; cbn in *; congruence.
  - cbn. fold (untok (tokenize s)). now rewrite IH.
Qed.

Lemma tokenize_nonword (c : char) (s : text) :
  is_word c = false -> tokenize (c :: s) = Sep c :: tokenize s.
Proof. intros H. cbn. now rewrite H. Qed.

Lemma hdW_tokenize (s : text) : hdW (tokenize s) = wordo (hd_error s).
Proof.
  destruct s as [| c s]; [reflexivity |]. cbn [tokenize hd_error wordo].
  destruct (is_word c); [| reflexivity].
  destruct (tokenize s) as [| [w | d] ts]; reflexivity.
Qed.

(** A maximal run of word characters is one token. *)
Lemma tokenize_run (w rest : text) :
  all_word w = true -> w <> [] -> wordo (hd_error rest) = false ->
  tokenize (w ++ rest) = Word w :: tokenize rest.
Proof.
  intros A N R. induction w as [| c w IH]; [congruence |].
  cbn in A. apply andb_true_iff in A. destruct A as [Hc A].
  cbn [app tokenize]. rewrite Hc.
  destruct w as [| c' w].
  - cbn [app]. pose proof (hdW_tokenize rest) as H. rewrite R in H.
    destruct (tokenize rest) as [| [w' | d] ts]; cbn in H; congruence.
  - rewrite IH; [reflexivity | exact A | discriminate].
Qed.

Lemma tokenize_wf (s : text) : wf (tokenize s) = true.
Proof.
  unfold wf. induction s as [| c s IH]; [reflexivity |].
  apply andb_true_iff in IH. destruct IH as [IH1 IH2].
  cbn [tokenize]. destruct (is_word c) eqn:Hc.
  - destruct (tokenize s) as [| [w | d] ts].
    + cbn. rewrite Hc. reflexivity.
    + cbn [forallb tok_ok no_WW is_W hdW] in *.
      apply andb_true_iff in IH1. destruct IH1 as [I1 I1'].
      apply andb_true_iff in I1. destruct I1 as [A N].
      unfold all_word in *. cbn [forallb]. rewrite Hc, A, I1'.
      cbn [andb]. exact IH2.
    + cbn [forallb tok_ok no_WW is_W hdW] in *.
      unfold all_word. cbn [forallb]. rewrite Hc, IH1. cbn. exact IH2.
  - cbn [forallb tok_ok no_WW is_W hdW]. rewrite Hc, IH1. cbn. exact IH2.
Qed.

Lemma tokenize_untok (ts : list token) :
  wf ts = true -> tokenize (untok ts) = ts.
Proof.
  unfold wf. induction ts as [| t ts IH]; [reflexivity |].
  cbn [forallb no_WW]. rewrite !andb_true_iff. intros [[Ht Hts] [Hn Hnn]].
  specialize (IH ltac:(now rewrite Hts, Hnn)).
  destruct t as [w | c]; cbn [untok flat_map chars].
  - cbn in Ht. apply andb_true_iff in Ht. destruct Ht as [A N].
    fold (untok ts). rewrite tokenize_run; [now rewrite IH | exact A | |].
    + intros ->. cbn in N. discriminate.
    + rewrite <- hdW_tokenize, IH. cbn in Hn. now destruct (hdW ts).
  - cbn in Ht. fold (untok ts). cbn [app].
    rewrite tokenize_nonword, IH; [reflexivity |].
    now destruct (is_word c).
Qed.

Lemma take_drop_word (s : text) : take_word s ++ drop_word s = s.
Proof.
  induction s as [| c s IH]; [reflexivity |]. cbn.
  destruct (is_word c); cbn; [now rewrite IH | reflexivity].
Qed.

Lemma take_word_all (s : text) : all_word (take_word s) = true.
Proof.
  induction s as [| c s IH]; [reflexivity |]. cbn.
  destruct (is_word c) eqn:E; cbn; [now rewrite E | reflexivity].
Qed.

Lemma drop_word_hd (s : text) : wordo (hd_error (drop_word s)) = false.
Proof.
  induction s as [| c s IH]; [reflexivity |]. cbn.
  destruct (is_word c) eqn:E; [exact IH | cbn; exact E].
Qed.

Lemma take_word_nonempty (s : text) :
  wordo (hd_error s) = true -> take_word s <> [].
Proof. destruct s as [| c s]; cbn; [discriminate |]. now intros ->. Qed.

Lemma drop_word_length (s : text) :
  wordo (hd_error s) = true -> length (drop_word s) < length s.
Proof.
  destruct s as [| c s]; cbn; [discriminate |]. intros ->.
  induction s as [| d s IH]; cbn; [lia |].
  destruct (is_word d); cbn in *; lia.
Qed.

Lemma list_length_ind (A : Type) (P : list A -> Prop) :
  (forall l, (forall l', length l' < length l -> P l') -> P l) ->
  forall l, P l.
Proof.
  intros H l. remember (length l) as n eqn:E. revert l E.
  induction n as [n IH] using lt_wf_ind. intros l ->.
  apply H. intros l' Hl. eapply IH; [exact Hl | reflexivity].
Qed.

(** *** The literal of a pattern against the runs of the text *)

Lemma lit_end_nil (prev : option char) (s : text) :
  lit_end [] prev s = bnd prev (hd_error s).
Proof. reflexivity. Qed.

Lemma lit_end_cons (a : char) (p : text) (prev : option char)
    (c : char) (s : text) :
  lit_end (a :: p) prev (c :: s) = ci_eq a c && lit_end p (Some c) s.
Proof. unfold lit_end. cbn. destruct (ci_eq a c); reflexivity. Qed.

Lemma lit_end_cons_nil (a : char) (p : text) (prev : option char) :
  lit_end (a :: p) prev [] = false.
Proof. reflexivity. Qed.

Lemma word_at_lit_end (p : text) (prev : option char) (s : text) :
  word_at p prev s = bnd prev (hd_error s) && lit_end p prev s.
Proof. reflexivity. Qed.

Lemma lit_end_mismatch (p : text) (prev : option char) (s : text) :
  plain p = true ->
  p <> [] -> wordo (hd_error p) = negb (wordo (hd_error s)) ->
  lit_end p prev s = false.
Proof.
  destruct p as [| a p]; [congruence |]. intros P _ H.
  cbn in P. apply andb_prop in P. destruct P as [Pa _].
  destruct s as [| c s]; [reflexivity |].
  rewrite lit_end_cons. cbn [hd_error wordo] in H.
  destruct (ci_eq a c) eqn:E; [| reflexivity].
  apply (@ci_eq_word a c Pa) in E. rewrite E in H. now destruct (is_word c).
Qed.

Lemma prev_after_cons (prev : option char) (c : char) (w : text) :
  prev_after prev (c :: w) = prev_after (Some c) w.
Proof. reflexivity. Qed.

Lemma prev_after_word (prev : option char) (w : text) :
  all_word w = true -> w <> [] -> wordo (prev_after prev w) = true.
Proof.
  revert prev. induction w as [| c w IH]; intros prev A N; [congruence |].
  cbn in A. apply andb_true_iff in A. destruct A as [Hc A].
  rewrite prev_after_cons. destruct w as [| d w]; [exact Hc |].
  apply IH; [exact A | discriminate].
Qed.

Lemma plain_app (a b : text) : plain (a ++ b) = plain a && plain b.
Proof. apply forallb_app. Qed.

Lemma lit_end_run (w1 p' : text) :
  plain (w1 ++ p') = true ->
  all_word w1 = true -> w1 <> [] -> wordo (hd_error p') = false ->
  forall (w rest : text) (prev : option char),
  all_word w = true -> w <> [] -> wordo (hd_error rest) = false ->
  lit_end (w1 ++ p') prev (w ++ rest) =
  fold_text_eq w1 w &&
  match p' with
  | [] => true
  | _ => lit_end p' (prev_after prev w) rest
  end.
Proof.
  intros P A1 N1 Hp'. induction w1 as [| a w1 IH]; [congruence |].
  cbn in A1. apply andb_true_iff in A1. destruct A1 as [Ha A1].
  cbn [app plain forallb] in P. apply andb_prop in P. destruct P as [Pa P].
  fold (plain (w1 ++ p')) in P.
  assert (Pp' : plain p' = true).
  { rewrite plain_app in P. now apply andb_prop in P. }
  intros w rest prev A N R. destruct w as [| c w]; [congruence |].
  cbn in A. apply andb_true_iff in A. destruct A as [Hc A].
  cbn [app]. rewrite lit_end_cons. cbn [fold_text_eq]. rewrite prev_after_cons.
  rewrite (@ci_eq_plain a c Pa).
  destruct (same_fold a c) eqn:E; [cbn [andb] | reflexivity].
  destruct w1 as [| a' w1].
  - cbn [app]. destruct w as [| c' w].
    + cbn [app fold_text_eq andb prev_after fold_left].
      destruct p' as [| b p']; [| reflexivity].
      rewrite lit_end_nil. unfold bnd. cbn [wordo]. rewrite Hc, R. reflexivity.
    + cbn [fold_text_eq andb app]. cbn in A. apply andb_true_iff in A.
      destruct A as [Hc' A].
      destruct p' as [| b p'].
      * rewrite lit_end_nil. unfold bnd. cbn. now rewrite Hc, Hc'.
      * apply lit_end_mismatch; [exact Pp' | discriminate |].
        cbn [app hd_error wordo] in *. now rewrite Hp', Hc'.
  - destruct w as [| c' w].
    + cbn [app fold_text_eq andb].
      apply lit_end_mismatch; [exact P | discriminate |].
      cbn [app hd_error wordo].
      cbn in A1. apply andb_true_iff in A1. destruct A1 as [Ha' _].
      now rewrite Ha', R.
    + apply IH; [exact P | exact A1 | discriminate | exact A | discriminate
                 | exact R].
Qed.

Lemma ends_word_cons (a : char) (b : text) :
  b <> [] -> ends_word (a :: b) = ends_word b.
Proof. destruct b; [congruence | reflexivity]. Qed.

Lemma ends_word_app (a b : text) :
  b <> [] -> ends_word (a ++ b) = ends_word b.
Proof.
  intros N. induction a as [| x a IH]; [reflexivity |].
  cbn [app]. rewrite ends_word_cons; [exact IH |].
  destruct a; [exact N | discriminate].
Qed.

(** The literal with its closing boundary, read on the tokens. *)
Lemma lit_end_tmatch (p : text) :
  plain p = true -> p <> [] -> ends_word p = true ->
  forall (prev : option char) (s : text), aligned prev s ->
  lit_end p prev s = tmatch (tokenize p) (tokenize s).
Proof.
  induction p as [p IH] using list_length_ind. intros P N E prev s Al.
  destruct p as [| a p]; [congruence |].
  destruct (is_word a) eqn:Ha.
  - (* the pattern starts with a word *)
    set (w1 := take_word (a :: p)). set (p' := drop_word (a :: p)).
    assert (Ep : a :: p = w1 ++ p') by (symmetry; apply take_drop_word).
    assert (A1 : all_word w1 = true) by apply take_word_all.
    assert (N1 : w1 <> []) by (apply take_word_nonempty; cbn; exact Ha).
    assert (H1 : wordo (hd_error p') = false) by apply drop_word_hd.
    assert (L1 : length p' < length (a :: p))
      by (apply drop_word_length; cbn; exact Ha).
    clearbody w1 p'.
    rewrite Ep in P. pose proof P as P'. rewrite plain_app in P'.
    apply andb_prop in P'. destruct P' as [_ P'].
    rewrite Ep, (@tokenize_run _ _ A1 N1 H1).
    destruct (wordo (hd_error s)) eqn:Hs.
    + destruct Al as [Al | Al]; [| congruence].
      set (w := take_word s). set (rest := drop_word s).
      assert (Es : s = w ++ rest) by (symmetry; apply take_drop_word).
      assert (A : all_word w = true) by apply take_word_all.
      assert (Nw : w <> []) by (apply take_word_nonempty; exact Hs).
      assert (R : wordo (hd_error rest) = false) by apply drop_word_hd.
      clearbody w rest.
      rewrite Es, (@tokenize_run _ _ A Nw R).
      rewrite (@lit_end_run _ _ P A1 N1 H1 _ _ prev A Nw R).
      cbn [tmatch tok_ci]. f_equal.
      destruct p' as [| b p'']; [reflexivity |].
      apply IH.
      * exact L1.
      * exact P'.
      * discriminate.
      * rewrite Ep in E. rewrite ends_word_app in E; [exact E |].
        discriminate.
      * right. exact R.
    + rewrite lit_end_mismatch;
        [| exact P
         | intros X; apply app_eq_nil in X; destruct X as [X _]; exact (N1 X)
         | rewrite <- Ep; cbn [hd_error wordo negb]; now rewrite Ha, Hs].
      pose proof (hdW_tokenize s) as X. rewrite Hs in X.
      destruct (tokenize s) as [| [? | ?] ?]; cbn in *; congruence.
  - (* the pattern starts with a separator *)
    rewrite (@tokenize_nonword _ _ Ha).
    assert (Np : p <> []).
    { intros ->. cbn [ends_word] in E. congruence. }
    cbn [plain forallb] in P. apply andb_prop in P. destruct P as [Pa P].
    fold (plain p) in P.
    destruct s as [| c s]; [reflexivity |].
    rewrite lit_end_cons.
    destruct (is_word c) eqn:Hc.
    + destruct (ci_eq a c) eqn:X.
      * apply (@ci_eq_word a c Pa) in X. congruence.
      * cbn [andb].
        assert (Y : hdW (tokenize (c :: s)) = true)
          by (rewrite hdW_tokenize; cbn; exact Hc).
        destruct (tokenize (c :: s)) as [| [? | ?] ?]; cbn in *; congruence.
    + rewrite (@tokenize_nonword _ _ Hc). cbn [tmatch tok_ci].
      rewrite (@ci_eq_plain a c Pa). f_equal.
      apply IH; [cbn; lia | exact P | exact Np | | left; exact Hc].
      rewrite ends_word_cons in E; assumption.
Qed.

(** *** [re.search] on the tokens *)

Lemma good_nonempty (p : text) : good p = true -> p <> [].
Proof. intros H ->. discriminate H. Qed.

Lemma good_starts (p : text) : good p = true -> wordo (hd_error p) = true.
Proof. unfold good. rewrite !andb_true_iff. tauto. Qed.

Lemma good_ends (p : text) : good p = true -> ends_word p = true.
Proof. unfold good. rewrite !andb_true_iff. tauto. Qed.

Lemma good_plain (p : text) : good p = true -> plain p = true.
Proof. unfold good. rewrite !andb_true_iff. tauto. Qed.

Lemma word_at_tmatch (p : text) (prev : option char) (s : text) :
  good p = true -> wordo prev = false ->
  word_at p prev s = tmatch (tokenize p) (tokenize s).
Proof.
  intros G Hp. rewrite word_at_lit_end.
  rewrite <- (@lit_end_tmatch _ (@good_plain _ G) (@good_nonempty _ G)
                (@good_ends _ G) prev s) by (left; exact Hp).
  unfold bnd. rewrite Hp. cbn [xorb].
  destruct (wordo (hd_error s)) eqn:Hs; [reflexivity |].
  cbn [andb]. symmetry. apply lit_end_mismatch;
    [exact (@good_plain _ G) | exact (@good_nonempty _ G)
    | now rewrite (@good_starts _ G), Hs].
Qed.

Lemma word_at_nonword (p : text) (prev : option char) (s : text) :
  good p = true -> wordo (hd_error s) = false -> word_at p prev s = false.
Proof.
  intros G Hs. rewrite word_at_lit_end.
  rewrite lit_end_mismatch;
    [apply andb_false_r | exact (@good_plain _ G) | exact (@good_nonempty _ G)
    | now rewrite (@good_starts _ G), Hs].
Qed.

Lemma word_at_interior (p : text) (prev : option char) (s : text) :
  wordo prev = true -> wordo (hd_error s) = true -> word_at p prev s = false.
Proof. intros H1 H2. unfold word_at, bnd. now rewrite H1, H2. Qed.

Lemma tmatch_good_S (p : text) (ts : list token) :
  good p = true -> hdW ts = false -> tmatch (tokenize p) ts = false.
Proof.
  intros G H. pose proof (hdW_tokenize p) as X.
  rewrite (@good_starts _ G) in X.
  destruct (tokenize p) as [| [w | c] pt]; cbn in X; try discriminate.
  destruct ts as [| [w' | c'] ts]; cbn in *; congruence.
Qed.

Lemma search_run_interior (p : text) (w rest : text) :
  good p = true -> all_word w = true ->
  forall prev, wordo prev = true ->
  search_from p prev (w ++ rest) = search_from p (prev_after prev w) rest.
Proof.
  intros G. induction w as [| c w IH]; intros A prev Hp; [reflexivity |].
  cbn in A. apply andb_true_iff in A. destruct A as [Hc A].
  cbn [app search_from]. rewrite word_at_interior by (cbn; assumption).
  cbn [orb]. rewrite prev_after_cons. apply IH; assumption.
Qed.

Lemma search_from_tokens (p : text) :
  good p = true ->
  forall (s : text) (prev : option char), aligned prev s ->
  search_from p prev s = toccurs (tokenize p) (tokenize s).
Proof.
  intros G. induction s as [s IH] using list_length_ind. intros prev Al.
  destruct s as [| c s].
  - cbn [search_from tokenize toccurs].
    rewrite word_at_nonword by (cbn; auto).
    rewrite tmatch_good_S by (cbn; auto). reflexivity.
  - destruct (is_word c) eqn:Hc.
    + destruct Al as [Al | Al]; [| cbn in Al; congruence].
      set (w := take_word (c :: s)). set (rest := drop_word (c :: s)).
      assert (Es : c :: s = w ++ rest) by (symmetry; apply take_drop_word).
      assert (A : all_word w = true) by apply take_word_all.
      assert (Nw : w <> []) by (apply take_word_nonempty; cbn; exact Hc).
      assert (R : wordo (hd_error rest) = false) by apply drop_word_hd.
      assert (L : length rest < length (c :: s))
        by (apply drop_word_length; cbn; exact Hc).
      clearbody w rest.
      cbn [search_from]. rewrite (@word_at_tmatch _ _ _ G Al).
      rewrite Es at 1 2. rewrite (@tokenize_run _ _ A Nw R).
      cbn [toccurs]. f_equal.
      assert (Es' : s = tl w ++ rest).
      { destruct w as [| c0 w0]; [congruence |]. cbn in Es. now injection Es. }
      assert (A' : all_word (tl w) = true).
      { destruct w as [| c0 w0]; [congruence |]. cbn in A.
        now apply andb_true_iff in A. }
      rewrite Es'. rewrite (@search_run_interior _ _ _ G A') by (cbn; exact Hc).
      apply IH; [exact L | right; exact R].
    + cbn [search_from]. rewrite word_at_nonword by (cbn; auto).
      rewrite (@tokenize_nonword _ _ Hc). cbn [toccurs orb].
      rewrite (@tmatch_good_S p (Sep c :: tokenize s)) by (cbn; auto).
      cbn [orb]. apply IH; [cbn; lia | left; exact Hc].
Qed.

Lemma re_search_word_tokens (p s : text) :
  good p = true ->
  re_search_word p s = toccurs (tokenize p) (tokenize s).
Proof. intros G. apply search_from_tokens; [exact G | now left]. Qed.

(** *** [re.sub] on the characters: the scan unfolded *)

Lemma sub_go_skip (p r : text) (s : text) :
  forall (n : nat) (prev : option char),
  sub_go p r n prev s =
  sub_go p r 0 (prev_after prev (firstn n s)) (skipn n s).
Proof.
  induction s as [| c s IH]; intros n prev.
  - now rewrite firstn_nil, skipn_nil.
  - destruct n as [| n]; [reflexivity |].
    cbn [sub_go firstn skipn]. rewrite prev_after_cons. apply IH.
Qed.

Lemma word_at_nil (p : text) (prev : option char) :
  p <> [] -> word_at p prev [] = false.
Proof.
  intros N. destruct p; [congruence |]. unfold word_at. cbn.
  apply andb_false_r.
Qed.

Lemma sub_go_match (p r : text) (prev : option char) (s : text) :
  p <> [] -> word_at p prev s = true ->
  sub_go p r 0 prev s =
  r ++ sub_go p r 0 (prev_after prev (firstn (length p) s))
                    (skipn (length p) s).
Proof.
  intros N H. destruct s as [| c s].
  - rewrite word_at_nil in H by exact N. discriminate.
  - cbn [sub_go]. rewrite H, sub_go_skip.
    destruct p as [| a p]; [congruence |].
    replace (length (a :: p) - 1) with (length p) by (cbn [length]; lia).
    reflexivity.
Qed.

Lemma sub_go_nomatch (p r : text) (prev : option char) (c : char) (s : text) :
  word_at p prev (c :: s) = false ->
  sub_go p r 0 prev (c :: s) = c :: sub_go p r 0 (Some c) s.
Proof. intros H. cbn [sub_go]. now rewrite H. Qed.

Lemma sub_run_interior (p r : text) (w rest : text) :
  all_word w = true ->
  forall prev, wordo prev = true ->
  sub_go p r 0 prev (w ++ rest) = w ++ sub_go p r 0 (prev_after prev w) rest.
Proof.
  induction w as [| c w IH]; intros A prev Hp; [reflexivity |].
  cbn in A. apply andb_true_iff in A. destruct A as [Hc A].
  cbn [app]. rewrite sub_go_nomatch
    by (apply word_at_interior; cbn; assumption).
  rewrite prev_after_cons. f_equal. apply IH; assumption.
Qed.

(** *** The same scan on the tokens *)

Lemma tsub_go_skip (pt rt : list token) (ts : list token) :
  forall n, tsub_go pt rt n ts = tsub_go pt rt 0 (skipn n ts).
Proof.
  induction ts as [| t ts IH]; intros n.
  - now rewrite skipn_nil.
  - destruct n as [| n]; [reflexivity |]. cbn [tsub_go skipn]. apply IH.
Qed.

Lemma tmatch_nil (pt : list token) : pt <> [] -> tmatch pt [] = false.
Proof. destruct pt; [congruence | reflexivity]. Qed.

Lemma tsub_match (pt rt ts : list token) :
  pt <> [] -> tmatch pt ts = true ->
  tsub pt rt ts = rt ++ tsub pt rt (skipn (length pt) ts).
Proof.
  intros N H. unfold tsub. destruct ts as [| t ts].
  - rewrite tmatch_nil in H by exact N. discriminate.
  - cbn [tsub_go]. rewrite H, tsub_go_skip.
    destruct pt as [| a pt]; [congruence |].
    replace (length (a :: pt) - 1) with (length pt) by (cbn [length]; lia).
    reflexivity.
Qed.

Lemma tsub_nomatch (pt rt : list token) (t : token) (ts : list token) :
  tmatch pt (t :: ts) = false ->
  tsub pt rt (t :: ts) = t :: tsub pt rt ts.
Proof. intros H. unfold tsub. cbn [tsub_go]. now rewrite H. Qed.

Lemma tsub_nil (pt rt : list token) : tsub pt rt [] = [].
Proof. reflexivity. Qed.

Lemma untok_app (a b : list token) : untok (a ++ b) = untok a ++ untok b.
Proof. apply flat_map_app. Qed.

Lemma tmatch_length (pt ts : list token) :
  tmatch pt ts = true ->
  length pt <= length ts /\
  length (untok (firstn (length pt) ts)) = length (untok pt).
Proof.
  revert ts. induction pt as [| a pt IH]; intros ts H.
  - cbn. lia.
  - destruct ts as [| b ts]; [discriminate |].
    cbn [tmatch] in H. apply andb_true_iff in H. destruct H as [H1 H2].
    destruct (IH ts H2) as [L1 L2]. cbn [length firstn]. split; [lia |].
    change (untok (b :: firstn (length pt) ts))
      with (chars b ++ untok (firstn (length pt) ts)).
    change (untok (a :: pt)) with (chars a ++ untok pt).
    rewrite !length_app, L2, (@tok_ci_length _ _ H1). reflexivity.
Qed.

Lemma tmatch_hdW_after (pt ts : list token) :
  lastW pt = true -> no_WW ts = true -> tmatch pt ts = true ->
  hdW (skipn (length pt) ts) = false.
Proof.
  revert ts. induction pt as [| a pt IH]; intros ts L N H; [discriminate |].
  destruct ts as [| b ts]; [discriminate |].
  cbn [tmatch] in H. apply andb_true_iff in H. destruct H as [H1 H2].
  cbn [no_WW] in N. apply andb_true_iff in N. destruct N as [N1 N2].
  cbn [length skipn]. destruct pt as [| a' pt].
  - cbn [lastW] in L. cbn [length skipn].
    apply tok_ci_is_W in H1. rewrite L in H1. rewrite <- H1 in N1.
    now destruct (hdW ts).
  - apply IH; assumption.
Qed.

Lemma lastW_tokenize (s : text) : lastW (tokenize s) = ends_word s.
Proof.
  induction s as [| c s IH]; [reflexivity |].
  destruct s as [| d s].
  - cbn. destruct (is_word c); reflexivity.
  - rewrite ends_word_cons by discriminate. rewrite <- IH.
    cbn [tokenize]. destruct (is_word c).
    + destruct (is_word d);
        destruct (tokenize s) as [| [w | e] ts]; reflexivity.
    + destruct (is_word d);
        destruct (tokenize s) as [| [w | e] ts]; reflexivity.
Qed.

Lemma wf_skipn (n : nat) (ts : list token) :
  wf ts = true -> wf (skipn n ts) = true.
Proof.
  revert ts. induction n as [| n IH]; intros ts H; [exact H |].
  destruct ts as [| t ts]; [exact H |]. cbn [skipn]. apply IH.
  unfold wf in *. cbn [forallb no_WW] in H.
  rewrite !andb_true_iff in *. tauto.
Qed.

Lemma wf_no_WW (ts : list token) : wf ts = true -> no_WW ts = true.
Proof. unfold wf. now intros H%andb_true_iff. Qed.

Lemma hd_untok (ts : list token) :
  wf ts = true -> wordo (hd_error (untok ts)) = hdW ts.
Proof.
  intros H. rewrite <- hdW_tokenize, tokenize_untok by exact H. reflexivity.
Qed.

Lemma tokenize_nonempty (p : text) : p <> [] -> tokenize p <> [].
Proof.
  intros N E. apply N. rewrite <- (untok_tokenize p), E. reflexivity.
Qed.

(** [re.sub] read on the tokens. *)
Lemma sub_go_tokens (p r : text) :
  good p = true ->
  forall (s : text) (prev : option char), aligned prev s ->
  sub_go p r 0 prev s =
  untok (tsub (tokenize p) (tokenize r) (tokenize s)).
Proof.
  intros G.
  pose proof (@good_nonempty _ G) as Np.
  pose proof (tokenize_nonempty Np) as Npt.
  induction s as [s IH] using list_length_ind. intros prev Al.
  destruct s as [| c s]; [reflexivity |].
  destruct (is_word c) eqn:Hc.
  - destruct Al as [Al | Al]; [| cbn in Al; congruence].
    pose proof (@word_at_tmatch p prev (c :: s) G Al) as M.
    destruct (tmatch (tokenize p) (tokenize (c :: s))) eqn:T.
    + rewrite (@sub_go_match p r prev (c :: s) Np M).
      rewrite (@tsub_match _ (tokenize r) _ Npt T), untok_app, untok_tokenize. f_equal.
      set (ts := tokenize (c :: s)) in *.
      set (k := length (tokenize p)).
      destruct (@tmatch_length _ _ T) as [L1 L2]. fold k in L1, L2.
      rewrite untok_tokenize in L2.
      assert (Wts : wf ts = true) by apply tokenize_wf.
      assert (Es : c :: s = untok (firstn k ts) ++ untok (skipn k ts)).
      { rewrite <- untok_app, firstn_skipn. symmetry. apply untok_tokenize. }
      assert (E2 : skipn (length p) (c :: s) = untok (skipn k ts)).
      { rewrite Es at 1. rewrite <- L2.
        rewrite skipn_app, skipn_all, Nat.sub_diag. reflexivity. }
      rewrite E2.
      assert (H2 : hdW (skipn k ts) = false).
      { apply tmatch_hdW_after; [| apply wf_no_WW, Wts | exact T].
        rewrite lastW_tokenize. exact (@good_ends _ G). }
      rewrite IH.
      * rewrite tokenize_untok by (apply wf_skipn, Wts). reflexivity.
      * rewrite <- E2. rewrite length_skipn. cbn [length].
        destruct p; [congruence | cbn [length]; lia].
      * right. rewrite hd_untok by (apply wf_skipn, Wts). exact H2.
    + set (w := take_word (c :: s)). set (rest := drop_word (c :: s)).
      assert (Es : c :: s = w ++ rest) by (symmetry; apply take_drop_word).
      assert (A : all_word w = true) by apply take_word_all.
      assert (Nw : w <> []) by (apply take_word_nonempty; cbn; exact Hc).
      assert (R : wordo (hd_error rest) = false) by apply drop_word_hd.
      assert (L : length rest < length (c :: s))
        by (apply drop_word_length; cbn; exact Hc).
      clearbody w rest.
      rewrite (@sub_go_nomatch p r prev c s M).
      rewrite Es in T. rewrite (@tokenize_run _ _ A Nw R) in T.
      rewrite Es at 1. rewrite (@tokenize_run _ _ A Nw R).
      rewrite (@tsub_nomatch _ (tokenize r) _ _ T).
      change (untok (Word w :: ?x)) with (w ++ untok x).
      destruct w as [| c0 w0]; [congruence |].
      cbn [app] in Es. injection Es as -> ->.
      cbn in A. apply andb_true_iff in A. destruct A as [_ A].
      rewrite (@sub_run_interior p r w0 rest A (Some c0)) by (cbn; exact Hc).
      cbn [app]. do 2 f_equal. apply IH; [exact L | right; exact R].
  - rewrite sub_go_nomatch by (apply word_at_nonword; [exact G | cbn; auto]).
    rewrite (@tokenize_nonword _ _ Hc).
    rewrite tsub_nomatch by (apply tmatch_good_S; [exact G | reflexivity]).
    change (untok (Sep c :: ?x)) with (c :: untok x). f_equal.
    apply IH; [cbn; lia | left; exact Hc].
Qed.

(** *** Substitution keeps the token list well formed *)

Lemma hdW_tmatch (pt ts : list token) :
  hdW pt = true -> hdW ts = false -> tmatch pt ts = false.
Proof.
  destruct pt as [| [w | c] pt]; cbn; try discriminate.
  intros _. destruct ts as [| [w' | c'] ts]; cbn; congruence.
Qed.

Lemma hdW_tsub_false (pt rt ts : list token) :
  hdW pt = true -> hdW ts = false -> hdW (tsub pt rt ts) = false.
Proof.
  intros Hp H. destruct ts as [| t ts]; [reflexivity |].
  rewrite tsub_nomatch by (apply hdW_tmatch; assumption). exact H.
Qed.

Lemma no_WW_app (a b : list token) :
  no_WW a = true -> no_WW b = true -> hdW b = false -> no_WW (a ++ b) = true.
Proof.
  intros Ha Hb H. induction a as [| t a IH]; [exact Hb |].
  cbn [no_WW] in Ha. apply andb_true_iff in Ha. destruct Ha as [H1 H2].
  cbn [app no_WW]. rewrite (IH H2), andb_true_r.
  destruct a as [| t' a]; [cbn [app]; rewrite H; now rewrite andb_false_r |].
  exact H1.
Qed.

Lemma wf_tsub (pt rt : list token) :
  pt <> [] -> hdW pt = true -> lastW pt = true -> wf rt = true ->
  forall ts, wf ts = true -> wf (tsub pt rt ts) = true.
Proof.
  intros Np Hp Lp Wr.
  induction ts as [ts IH] using list_length_ind. intros Wt.
  destruct ts as [| t ts]; [reflexivity |].
  destruct (tmatch pt (t :: ts)) eqn:T.
  - rewrite (@tsub_match pt rt _ Np T).
    assert (L : length (skipn (length pt) (t :: ts)) < length (t :: ts)).
    { rewrite length_skipn. destruct pt; [congruence | cbn [length]; lia]. }
    specialize (IH _ L (@wf_skipn _ _ Wt)).
    unfold wf in *. rewrite forallb_app.
    apply andb_true_iff in Wr, IH. destruct Wr as [R1 R2], IH as [I1 I2].
    rewrite R1, I1. cbn [andb]. apply no_WW_app; try assumption.
    apply hdW_tsub_false; [exact Hp |].
    apply tmatch_hdW_after; [exact Lp | | exact T].
    now apply andb_true_iff in Wt.
  - rewrite (@tsub_nomatch pt rt _ _ T).
    assert (Wt' : wf ts = true) by (apply (@wf_skipn 1 _ Wt)).
    specialize (IH ts ltac:(cbn; lia) Wt').
    unfold wf in *. cbn [forallb no_WW].
    apply andb_true_iff in Wt, IH. destruct Wt as [W1 W2], IH as [I1 I2].
    cbn [forallb no_WW] in W1, W2.
    apply andb_true_iff in W1, W2. destruct W1 as [W1 _], W2 as [W2 _].
    rewrite W1, I1, I2, !andb_true_r. cbn [andb].
    destruct (is_W t) eqn:Ht; [| reflexivity].
    cbn [andb] in *. rewrite hdW_tsub_false; [reflexivity | exact Hp |].
    now destruct (hdW ts).
Qed.

Lemma hdW_tokenize_good (p : text) : good p = true -> hdW (tokenize p) = true.
Proof. intros G. rewrite hdW_tokenize. exact (@good_starts _ G). Qed.

(** The tokens of the text [re.sub] returns. *)
Lemma re_sub_word_tokens (p r s : text) :
  good p = true ->
  tokenize (re_sub_word p r s) = tsub (tokenize p) (tokenize r) (tokenize s).
Proof.
  intros G. unfold re_sub_word.
  rewrite (@sub_go_tokens p r G s None) by (now left).
  apply tokenize_untok, wf_tsub.
  - apply tokenize_nonempty, (@good_nonempty _ G).
  - apply hdW_tokenize_good, G.
  - rewrite lastW_tokenize. exact (@good_ends _ G).
  - apply tokenize_wf.
  - apply tokenize_wf.
Qed.

Lemma single_nonempty (p : text) : single p = true -> p <> [].
Proof.
  unfold single. rewrite !andb_true_iff. intros [[_ H] _] E.
  subst. discriminate H.
Qed.

Lemma single_plain (p : text) : single p = true -> plain p = true.
Proof. unfold single. rewrite !andb_true_iff. tauto. Qed.

Lemma single_tokenize (p : text) : single p = true -> tokenize p = [Word p].
Proof.
  intros H. pose proof (@single_nonempty _ H) as N.
  unfold single in H. rewrite !andb_true_iff in H. destruct H as [[A _] _].
  rewrite <- (app_nil_r p) at 1. now apply tokenize_run.
Qed.

Lemma single_good (p : text) : single p = true -> good p = true.
Proof.
  intros H. unfold good.
  rewrite <- hdW_tokenize, <- lastW_tokenize, (@single_tokenize _ H).
  exact (@single_plain _ H).
Qed.

Lemma toccurs_single (q : text) (ts : list token) :
  toccurs [Word q] ts = existsb (tok_ci (Word q)) ts.
Proof.
  induction ts as [| t ts IH]; [reflexivity |].
  cbn [toccurs tmatch existsb]. now rewrite andb_true_r, IH.
Qed.

Lemma tsub_single (p : text) (rt ts : list token) :
  tsub [Word p] rt ts =
  flat_map (fun t => if tok_ci (Word p) t then rt else [t]) ts.
Proof.
  induction ts as [| t ts IH]; [reflexivity |]. cbn [flat_map].
  destruct (tok_ci (Word p) t) eqn:E.
  - rewrite tsub_match; [| discriminate | cbn [tmatch]; now rewrite E].
    cbn [length skipn]. now rewrite IH.
  - rewrite tsub_nomatch by (cbn [tmatch]; now rewrite E).
    cbn [app]. now rewrite IH.
Qed.

Lemma existsb_flat_map (A B : Type) (f : B -> bool) (g : A -> list B)
    (l : list A) :
  existsb f (flat_map g l) = existsb (fun x => existsb f (g x)) l.
Proof.
  induction l as [| x l IH]; [reflexivity |].
  cbn. now rewrite existsb_app, IH.
Qed.

(** After [k] has been replaced by [c], a word [q] found in the text was
    there before and is not [k], or it is a word of [c]. *)
Lemma spell_sub_search (k c q s : text) :
  single k = true -> single q = true ->
  re_search_word q (re_sub_word k c s) = true ->
  (re_search_word q s = true /\ fold_text_eq k q = false) \/
  re_search_word q c = true.
Proof.
  intros Hk Hq.
  rewrite !(@re_search_word_tokens q _ (@single_good _ Hq)).
  rewrite (@re_sub_word_tokens k c s (@single_good _ Hk)).
  rewrite (@single_tokenize _ Hk), (@single_tokenize _ Hq).
  rewrite tsub_single, !toccurs_single, existsb_flat_map.
  intros H. apply existsb_exists in H. destruct H as (t & Ht & H).
  destruct (tok_ci (Word k) t) eqn:E; [now right | left].
  cbn [existsb] in H. rewrite orb_false_r in H. split.
  - apply existsb_exists. now exists t.
  - destruct (fold_text_eq k q) eqn:X; [| reflexivity].
    assert (tok_ci (Word k) t = true)
      by (apply (@tok_ci_trans _ (Word q)); assumption).
    congruence.
Qed.

(** *** Deleting the matches of a pattern *)

Lemma no_WW_tl (t : token) (ts : list token) :
  no_WW (t :: ts) = true -> no_WW ts = true.
Proof. cbn. now intros H%andb_true_iff. Qed.

Lemma no_WW_hd (t : token) (ts : list token) :
  no_WW (t :: ts) = true -> is_W t = true -> hdW ts = false.
Proof.
  cbn. intros H%andb_true_iff Ht. destruct H as [H _].
  rewrite Ht in H. now destruct (hdW ts).
Qed.

Lemma no_WW_skipn (n : nat) (ts : list token) :
  no_WW ts = true -> no_WW (skipn n ts) = true.
Proof.
  revert ts. induction n as [| n IH]; intros ts H; [exact H |].
  destruct ts as [| t ts]; [exact H |]. cbn [skipn].
  apply IH, (@no_WW_tl _ _ H).
Qed.

Lemma tdel_match (pt ts : list token) :
  pt <> [] -> tmatch pt ts = true ->
  tsub pt [] ts = tsub pt [] (skipn (length pt) ts).
Proof. intros N T. now rewrite (@tsub_match pt [] ts N T). Qed.

Lemma skipn_shorter (pt : list token) (t : token) (ts : list token) :
  pt <> [] -> length (skipn (length pt) (t :: ts)) < length (t :: ts).
Proof.
  intros N. rewrite length_skipn.
  destruct pt; [congruence | cbn [length]; lia].
Qed.

Lemma toccurs_nil (qt : list token) : qt <> [] -> toccurs qt [] = false.
Proof. intros N. cbn. now rewrite tmatch_nil. Qed.

Lemma toccurs_skipn (qt : list token) (n : nat) (ts : list token) :
  toccurs qt (skipn n ts) = true -> toccurs qt ts = true.
Proof.
  revert ts. induction n as [| n IH]; intros ts H; [exact H |].
  destruct ts as [| t ts]; [exact H |]. cbn [skipn] in H.
  cbn [toccurs]. rewrite (IH _ H). apply orb_true_r.
Qed.

Section Deletion.

Variable pt : list token.
Hypothesis pt_nonempty : pt <> [].
Hypothesis pt_hdW : hdW pt = true.
Hypothesis pt_lastW : lastW pt = true.

(** A word at the head of the result was at the head of the text, and
    was kept. *)
Lemma hdW_tdel (ts : list token) :
  no_WW ts = true -> hdW (tsub pt [] ts) = true -> tmatch pt ts = false.
Proof using pt_nonempty pt_hdW pt_lastW.
  intros N H. destruct (tmatch pt ts) eqn:T; [| reflexivity].
  rewrite (@tdel_match pt ts pt_nonempty T) in H.
  rewrite hdW_tsub_false in H; [discriminate | exact pt_hdW |].
  apply tmatch_hdW_after; assumption.
Qed.

(** No match is created: a match in the result is a match in the text. *)
Lemma tmatch_tdel_inv (qs : list token) :
  no_WW qs = true -> no_SS qs = true ->
  forall ts, no_WW ts = true ->
  (hdW qs = false -> hdW ts = false) ->
  tmatch qs (tsub pt [] ts) = true -> tmatch qs ts = true.
Proof using pt_nonempty pt_hdW pt_lastW.
  induction qs as [| q0 qs IH]; intros Nq Sq ts Nt C H; [reflexivity |].
  assert (Nq' : no_WW qs = true) by exact (@no_WW_tl _ _ Nq).
  assert (Sq' : no_SS qs = true)
    by (cbn in Sq; now apply andb_true_iff in Sq).
  destruct (is_W q0) eqn:W0.
  - assert (T : tmatch pt ts = false).
    { apply hdW_tdel; [exact Nt |].
      destruct (tsub pt [] ts) as [| b X]; [discriminate H |].
      cbn in H. apply andb_true_iff in H. destruct H as [H _].
      apply tok_ci_is_W in H. cbn. congruence. }
    destruct ts as [| t ts]; [discriminate H |].
    rewrite (@tsub_nomatch pt [] t ts T) in H.
    cbn [tmatch] in *. apply andb_true_iff in H. destruct H as [H1 H2].
    rewrite H1. cbn [andb].
    apply IH; [exact Nq' | exact Sq' | exact (@no_WW_tl _ _ Nt) | | exact H2].
    intros _. apply (@no_WW_hd _ _ Nt).
    apply tok_ci_is_W in H1. congruence.
  - specialize (C W0).
    destruct ts as [| t ts]; [discriminate H |].
    rewrite tsub_nomatch in H by (apply hdW_tmatch; assumption).
    cbn [tmatch] in *. apply andb_true_iff in H. destruct H as [H1 H2].
    rewrite H1. cbn [andb].
    destruct qs as [| q1 qs]; [reflexivity |].
    apply IH; [exact Nq' | exact Sq' | exact (@no_WW_tl _ _ Nt) | | exact H2].
    cbn [no_SS] in Sq. rewrite W0 in Sq. cbn in Sq.
    apply andb_true_iff in Sq. destruct Sq as [Sq _].
    rewrite orb_false_r in Sq. cbn. congruence.
Qed.

(** Every match of the pattern is gone. *)
Lemma toccurs_tdel_same :
  no_WW pt = true -> no_SS pt = true ->
  forall ts, no_WW ts = true -> toccurs pt (tsub pt [] ts) = false.
Proof using pt_nonempty pt_hdW pt_lastW.
  intros Np Sp. induction ts as [ts IH] using list_length_ind. intros Nt.
  destruct ts as [| t ts]; [now apply toccurs_nil |].
  destruct (tmatch pt (t :: ts)) eqn:T.
  - rewrite (@tdel_match pt _ pt_nonempty T).
    apply IH; [now apply skipn_shorter | apply no_WW_skipn, Nt].
  - rewrite (@tsub_nomatch pt [] t ts T). cbn [toccurs].
    rewrite (IH ts) by (cbn; lia || exact (@no_WW_tl _ _ Nt)).
    rewrite orb_false_r.
    destruct (tmatch pt (t :: tsub pt [] ts)) eqn:M; [| reflexivity].
    rewrite <- (@tsub_nomatch pt [] t ts T) in M.
    apply tmatch_tdel_inv in M; try assumption; [congruence |].
    rewrite pt_hdW. discriminate.
Qed.

Variable qt : list token.
Hypothesis qt_no_WW : no_WW qt = true.
Hypothesis qt_no_SS : no_SS qt = true.
Hypothesis qt_hdW : hdW qt = true.

(** No match of another pattern is created. *)
Lemma toccurs_tdel_inv :
  forall ts, no_WW ts = true ->
  toccurs qt (tsub pt [] ts) = true -> toccurs qt ts = true.
Proof using pt_nonempty pt_hdW pt_lastW qt_no_WW qt_no_SS qt_hdW.
  induction ts as [ts IH] using list_length_ind. intros Nt H.
  destruct ts as [| t ts]; [exact H |].
  destruct (tmatch pt (t :: ts)) eqn:T.
  - rewrite (@tdel_match pt _ pt_nonempty T) in H.
    apply (@toccurs_skipn qt (length pt)).
    apply IH; [now apply skipn_shorter | apply no_WW_skipn, Nt | exact H].
  - rewrite (@tsub_nomatch pt [] t ts T) in H. cbn [toccurs] in *.
    apply orb_true_iff in H. destruct H as [H | H].
    + rewrite <- (@tsub_nomatch pt [] t ts T) in H.
      apply tmatch_tdel_inv in H; try assumption.
      * now rewrite H.
      * rewrite qt_hdW. discriminate.
    + rewrite (IH ts) by (cbn; lia || exact (@no_WW_tl _ _ Nt) || exact H).
      apply orb_true_r.
Qed.

End Deletion.

Lemma tmatch_compat (a b ts : list token) :
  tmatch a ts = true -> tmatch b ts = true -> tcompat a b = true.
Proof.
  revert b ts. induction a as [| x a IH]; intros b ts Ha Hb; [reflexivity |].
  destruct b as [| y b]; [reflexivity |].
  destruct ts as [| t ts]; [discriminate |].
  cbn [tmatch tcompat] in *.
  apply andb_true_iff in Ha, Hb. destruct Ha as [A1 A2], Hb as [B1 B2].
  rewrite (IH _ _ A2 B2), andb_true_r.
  apply (@tok_ci_trans _ t); [exact A1 |]. now rewrite tok_ci_sym.
Qed.

Lemma tmatch_skipn (a ts : list token) (n : nat) :
  tmatch a ts = true -> tmatch (skipn n a) (skipn n ts) = true.
Proof.
  revert a ts. induction n as [| n IH]; intros a ts H; [exact H |].
  destruct a as [| x a]; [reflexivity |].
  destruct ts as [| t ts]; [discriminate |].
  cbn [tmatch skipn] in *. apply andb_true_iff in H. now apply IH.
Qed.

Lemma clash_free_spec (a b ts : list token) (j : nat) :
  clash_free a b = true -> j < length b ->
  tmatch b ts = true -> tmatch a (skipn j ts) = false.
Proof.
  intros C L Hb. destruct (tmatch a (skipn j ts)) eqn:Ha; [| reflexivity].
  unfold clash_free in C. rewrite forallb_forall in C.
  specialize (C j ltac:(apply in_seq; lia)).
  rewrite (@tmatch_compat (skipn j b) a (skipn j ts)) in C;
    [discriminate | now apply tmatch_skipn | exact Ha].
Qed.

Lemma tmatch_tdel_keep (pt qs : list token) :
  forall ts, tmatch qs ts = true ->
  (forall j, j < length qs -> tmatch pt (skipn j ts) = false) ->
  tmatch qs (tsub pt [] ts) = true.
Proof.
  induction qs as [| q0 qs IH]; intros ts H C; [reflexivity |].
  destruct ts as [| t ts]; [discriminate |].
  rewrite tsub_nomatch by (apply (C 0); cbn; lia).
  cbn [tmatch] in *. apply andb_true_iff in H. destruct H as [H1 H2].
  rewrite H1. cbn [andb]. apply IH; [exact H2 |].
  intros j Hj. apply (C (S j)). cbn [length]. lia.
Qed.

Lemma toccurs_after (qt : list token) (k : nat) :
  forall ts, toccurs qt ts = true ->
  (forall j, j < k -> tmatch qt (skipn j ts) = false) ->
  toccurs qt (skipn k ts) = true.
Proof.
  induction k as [| k IH]; intros ts H C; [exact H |].
  destruct ts as [| t ts]; [exact H |].
  cbn [skipn]. apply IH.
  - pose proof (C 0 ltac:(lia)) as C0. cbn [skipn] in C0.
    cbn [toccurs] in H. rewrite C0 in H. exact H.
  - intros j Hj. apply (C (S j)). lia.
Qed.

(** No match of a pattern is lost when the two cannot overlap. *)
Lemma toccurs_tdel_keep (pt qt : list token) :
  pt <> [] -> clash_free pt qt = true -> clash_free qt pt = true ->
  forall ts, toccurs qt ts = true -> toccurs qt (tsub pt [] ts) = true.
Proof.
  intros Np Fpq Fqp.
  induction ts as [ts IH] using list_length_ind. intros H.
  destruct ts as [| t ts]; [exact H |].
  destruct (tmatch pt (t :: ts)) eqn:T.
  - rewrite (@tdel_match pt _ Np T).
    apply IH; [now apply skipn_shorter |].
    apply toccurs_after; [exact H |].
    intros j Hj. now apply (@clash_free_spec qt pt).
  - rewrite (@tsub_nomatch pt [] t ts T). cbn [toccurs] in *.
    apply orb_true_iff in H. destruct H as [H | H].
    + rewrite <- (@tsub_nomatch pt [] t ts T).
      rewrite tmatch_tdel_keep; [reflexivity | exact H |].
      intros j Hj. now apply (@clash_free_spec pt qt).
    + rewrite (IH ts) by (cbn; lia || exact H). apply orb_true_r.
Qed.

(** ** Spelling corrector: a second pass finds nothing *)

Lemma COMMON_SPELLING_MISTAKES_ok : lexicon_ok COMMON_SPELLING_MISTAKES = true.
Proof. vm_compute. reflexivity. Qed.

Section Spelling.

Variable lexicon : list (text * text).
Hypothesis lexicon_good : lexicon_ok lexicon = true.

Lemma lexicon_single (e : text * text) :
  In e lexicon -> single (fst e) = true.
Proof using lexicon_good.
  intros H. unfold lexicon_ok in lexicon_good.
  rewrite forallb_forall in lexicon_good.
  specialize (lexicon_good e H).
  now apply andb_true_iff in lexicon_good.
Qed.

Lemma lexicon_clean (e e' : text * text) :
  In e lexicon -> In e' lexicon -> re_search_word (fst e') (snd e) = false.
Proof using lexicon_good.
  intros H H'. unfold lexicon_ok in lexicon_good.
  rewrite forallb_forall in lexicon_good.
  specialize (lexicon_good e H).
  apply andb_true_iff in lexicon_good. destruct lexicon_good as [_ C].
  rewrite forallb_forall in C. specialize (C e' H').
  now destruct (re_search_word (fst e') (snd e)).
Qed.

(** One step of the loop leaves no misspelling that was absent before,
    and none of the entry it handles. *)
Lemma spelling_step_clean (st : text * list Correction) (e e' : text * text) :
  In e lexicon -> In e' lexicon ->
  (re_search_word (fst e') (fst st) = false \/ fst e' = fst e) ->
  re_search_word (fst e') (fst (spelling_step st e)) = false.
Proof using lexicon_good.
  intros He He' H. destruct st as [txt cs], e as [k c], e' as [q c'].
  cbn [fst snd] in *. unfold spelling_step.
  destruct (re_search_word k txt) eqn:S; cbn [fst].
  - destruct (re_search_word q (re_sub_word k c txt)) eqn:X; [| reflexivity].
    apply spell_sub_search in X;
      [| exact (lexicon_single _ He) | exact (lexicon_single _ He')].
    destruct X as [[X1 X2] | X].
    + destruct H as [H | ->]; [congruence |].
      now rewrite fold_text_eq_refl in X2.
    + pose proof (lexicon_clean _ _ He He') as Y. cbn [fst snd] in Y.
      congruence.
  - destruct H as [H | ->]; assumption.
Qed.

Lemma spelling_fold_clean (entries : list (text * text)) :
  incl entries lexicon ->
  forall (st : text * list Correction) (e' : text * text),
  In e' lexicon ->
  (re_search_word (fst e') (fst st) = false \/ In (fst e') (map fst entries)) ->
  re_search_word (fst e') (fst (fold_left spelling_step entries st)) = false.
Proof using lexicon_good.
  induction entries as [| e entries IH]; intros I st e' He' H.
  - destruct H as [H | []]. exact H.
  - cbn [fold_left]. apply IH; [intros x Hx; apply I; now right | exact He' |].
    destruct H as [H | [H | H]].
    + left. apply spelling_step_clean; [apply I; now left | exact He' |].
      now left.
    + left. apply spelling_step_clean; [apply I; now left | exact He' |].
      now right.
    + now right.
Qed.

Lemma spelling_fold_noop (entries : list (text * text))
    (txt : text) (cs : list Correction) :
  (forall e, In e entries -> re_search_word (fst e) txt = false) ->
  fold_left spelling_step entries (txt, cs) = (txt, cs).
Proof.
  induction entries as [| [k c] entries IH]; intros H; [reflexivity |].
  cbn [fold_left spelling_step].
  pose proof (H (k, c) ltac:(now left)) as X. cbn [fst] in X.
  rewrite X. apply IH. intros e He. apply H. now right.
Qed.

End Spelling.

(** C2: applying [check_spelling] to the text a first call returned gives
    that text back, with an empty list of corrections. *)
Theorem C2_spelling_correction_idempotent (t : text) :
  check_spelling (fst (check_spelling t)) = (fst (check_spelling t), []).
Proof.
  unfold check_spelling at 1. apply spelling_fold_noop.
  intros e He. unfold check_spelling.
  apply (spelling_fold_clean COMMON_SPELLING_MISTAKES_ok);
    [apply incl_refl | exact He |].
  right. now apply in_map.
Qed.

(** ** Text enhancer: the weak-word pass *)

Lemma WEAK_WORDS_ok : weak_words_ok WEAK_WORDS = true.
Proof. vm_compute. reflexivity. Qed.

Lemma nodupb_NoDup (l : list text) : nodupb l = true -> NoDup l.
Proof.
  induction l as [| x l IH]; intros H; [constructor |].
  cbn in H. apply andb_true_iff in H. destruct H as [H1 H2].
  constructor; [| apply IH, H2].
  intros I. apply existsb_text_In in I. now rewrite I in H1.
Qed.

Lemma WEAK_WORDS_NoDup : NoDup WEAK_WORDS.
Proof. apply nodupb_NoDup. vm_compute. reflexivity. Qed.

Lemma tokenize_no_WW (s : text) : no_WW (tokenize s) = true.
Proof. apply wf_no_WW, tokenize_wf. Qed.

Lemma weak_ok_good (p : text) : weak_ok p = true -> good p = true.
Proof. unfold weak_ok. now intros H%andb_true_iff. Qed.

Lemma weak_ok_no_SS (p : text) :
  weak_ok p = true -> no_SS (tokenize p) = true.
Proof. unfold weak_ok. now intros H%andb_true_iff. Qed.

(** After the deletion of a weak word none of its occurrences is left. *)
Lemma del_search_same (p s : text) :
  weak_ok p = true -> re_search_word p (re_sub_word p [] s) = false.
Proof.
  intros H. pose proof (weak_ok_good _ H) as G.
  rewrite (@re_search_word_tokens p _ G), (@re_sub_word_tokens p [] s G).
  apply toccurs_tdel_same.
  - apply tokenize_nonempty, (@good_nonempty _ G).
  - apply hdW_tokenize_good, G.
  - rewrite lastW_tokenize. exact (@good_ends _ G).
  - apply tokenize_no_WW.
  - apply weak_ok_no_SS, H.
  - apply tokenize_no_WW.
Qed.

(** The deletion of a weak word neither creates nor destroys an occurrence
    of an independent one. *)
Lemma del_search_other (p q s : text) :
  weak_ok p = true -> weak_ok q = true -> independent p q = true ->
  re_search_word q (re_sub_word p [] s) = re_search_word q s.
Proof.
  intros Hp Hq I.
  pose proof (weak_ok_good _ Hp) as Gp. pose proof (weak_ok_good _ Hq) as Gq.
  apply andb_true_iff in I. destruct I as [I1 I2].
  rewrite !(@re_search_word_tokens q _ Gq), (@re_sub_word_tokens p [] s Gp).
  change (tokenize []) with (@nil token).
  assert (Np : tokenize p <> []) by apply tokenize_nonempty, (@good_nonempty _ Gp).
  destruct (toccurs (tokenize q) (tokenize s)) eqn:E.
  - apply toccurs_tdel_keep; assumption.
  - destruct (toccurs (tokenize q) (tsub (tokenize p) [] (tokenize s))) eqn:X;
      [| reflexivity].
    apply toccurs_tdel_inv in X; [congruence | exact Np | | | | | |].
    + apply hdW_tokenize_good, Gp.
    + rewrite lastW_tokenize. exact (@good_ends _ Gp).
    + apply tokenize_no_WW.
    + apply weak_ok_no_SS, Hq.
    + apply hdW_tokenize_good, Gq.
    + apply tokenize_no_WW.
Qed.

Section WeakPass.

Variable words : list text.
Hypothesis words_ok : forall p, In p words -> weak_ok p = true.
Hypothesis words_independent :
  forall p q, In p words -> In q words -> p <> q -> independent p q = true.

Lemma weak_fold (l : list text) :
  incl l words -> NoDup l ->
  forall (s0 : text) (e0 : list Enhancement),
  let r := fold_left weak_step l (s0, e0) in
  snd r = e0 ++ map removed (filter (fun w => re_search_word w s0) l) /\
  (forall q, In q l -> re_search_word q (fst r) = false) /\
  (forall q, In q words -> ~ In q l ->
             re_search_word q (fst r) = re_search_word q s0).
Proof using words_ok words_independent.
  induction l as [| p l IH]; intros I N s0 e0.
  - cbn. rewrite app_nil_r. repeat split; intros q []; reflexivity.
  - apply NoDup_cons_iff in N. destruct N as [Np N].
    assert (Ip : In p words) by (apply I; now left).
    assert (Il : incl l words) by (intros x Hx; apply I; now right).
    cbn [fold_left].
    set (st1 := weak_step (s0, e0) p).
    assert (S1 : re_search_word p (fst st1) = false).
    { unfold st1, weak_step.
      destruct (re_search_word p s0) eqn:E; cbn [fst]; [| exact E].
      apply del_search_same, words_ok, Ip. }
    assert (S2 : forall q, In q words -> q <> p ->
                 re_search_word q (fst st1) = re_search_word q s0).
    { intros q Hq Hne. unfold st1, weak_step.
      destruct (re_search_word p s0) eqn:E; cbn [fst]; [| reflexivity].
      apply del_search_other; auto. }
    assert (E1 : snd st1 =
                 e0 ++ map removed (filter (fun w => re_search_word w s0) [p])).
    { unfold st1, weak_step. cbn [filter].
      destruct (re_search_word p s0); cbn [snd map];
        [reflexivity | now rewrite app_nil_r]. }
    destruct (IH Il N (fst st1) (snd st1)) as (R1 & R2 & R3).
    rewrite <- surjective_pairing in R1, R2, R3.
    cbv zeta. split; [| split].
    + rewrite R1, E1, <- app_assoc, <- map_app. do 2 f_equal.
      change (p :: l) with ([p] ++ l). rewrite filter_app. f_equal.
      apply filter_ext_in. intros q Hq. apply S2; [apply Il, Hq |].
      intros ->. exact (Np Hq).
    + intros q [<- | Hq]; [| apply R2, Hq].
      rewrite R3; [exact S1 | exact Ip | exact Np].
    + intros q Hq Hn. rewrite R3; [| exact Hq | intros X; apply Hn; now right].
      apply S2; [exact Hq |]. intros ->. apply Hn. now left.
Qed.

End WeakPass.

Lemma weak_words_ok_spec (l : list text) :
  weak_words_ok l = true ->
  (forall p, In p l -> weak_ok p = true) /\
  (forall p q, In p l -> In q l -> p <> q -> independent p q = true).
Proof.
  unfold weak_words_ok. intros H. apply andb_true_iff in H.
  destruct H as [H1 H2]. rewrite forallb_forall in H1, H2. split; [exact H1 |].
  intros p q Hp Hq Hne. specialize (H2 p Hp). rewrite forallb_forall in H2.
  specialize (H2 q Hq). apply orb_true_iff in H2. destruct H2 as [E | E];
    [| exact E].
  apply text_eqb_eq in E. contradiction.
Qed.

(** The weak-word pass, spelled out on the original text. *)
Lemma weak_pass_spec (t : text) :
  snd (weak_pass t) =
    map removed (filter (fun w => re_search_word w t) WEAK_WORDS) /\
  (forall w, In w WEAK_WORDS -> re_search_word w (fst (weak_pass t)) = false).
Proof.
  destruct (weak_words_ok_spec _ WEAK_WORDS_ok) as [Ok Ind].
  destruct (@weak_fold WEAK_WORDS Ok Ind WEAK_WORDS (incl_refl _) WEAK_WORDS_NoDup t [])
    as (R1 & R2 & _).
  unfold weak_pass. cbv zeta in R1, R2. rewrite app_nil_l in R1.
  split; [exact R1 | exact R2].
Qed.

Lemma count_removed (l : list text) (w : text) :
  NoDup l ->
  count_occ Enhancement_eq_dec (map removed l) (w, removed_note) =
  if in_dec (list_eq_dec N.eq_dec) w l then 1 else 0.
Proof.
  induction l as [| x l IH]; intros N; [reflexivity |].
  apply NoDup_cons_iff in N. destruct N as [Nx N]. specialize (IH N).
  cbn [map count_occ]. unfold removed at 1.
  destruct (Enhancement_eq_dec (x, removed_note) (w, removed_note)) as [E | E].
  - injection E as ->. rewrite IH.
    destruct (in_dec (list_eq_dec N.eq_dec) w l) as [I | I]; [contradiction |].
    destruct (in_dec (list_eq_dec N.eq_dec) w (w :: l)) as [J | J];
      [reflexivity | exfalso; apply J; now left].
  - rewrite IH.
    destruct (in_dec (list_eq_dec N.eq_dec) w l) as [I | I],
             (in_dec (list_eq_dec N.eq_dec) w (x :: l)) as [J | J];
      try reflexivity.
    + exfalso. apply J. now right.
    + destruct J as [-> | J]; [now contradiction E | contradiction].
Qed.

Lemma count_other_notes (l : list Enhancement) (w : text) :
  Forall (fun e => snd e <> removed_note) l ->
  count_occ Enhancement_eq_dec l (w, removed_note) = 0.
Proof.
  intros F. apply count_occ_not_In. intros I.
  rewrite Forall_forall in F. now apply (F _ I).
Qed.

Lemma cliche_pass_notes (s : text) :
  Forall (fun e : Enhancement => snd e <> removed_note) (cliche_pass s).
Proof.
  unfold cliche_pass. apply Forall_forall. intros e He.
  apply in_map_iff in He. destruct He as (c & <- & _). cbn [snd].
  intros E. vm_compute in E. discriminate E.
Qed.

Lemma verb_note_not_removed (v : text) : verb_note v <> removed_note.
Proof. unfold verb_note. intros E. cbv in E. discriminate E. Qed.

Lemma bullet_step_notes (line : text) (l : list Enhancement) (g : rng) :
  exists tail,
    fst (bullet_step (l, g) line) = l ++ tail /\
    Forall (fun e : Enhancement => snd e <> removed_note) tail.
Proof.
  unfold bullet_step.
  destruct (is_bullet_line line);
    [| exists []; cbn; rewrite app_nil_r; now split].
  destruct (split_ws _); [exists []; cbn; rewrite app_nil_r; now split |].
  destruct (is_action_verb _); [exists []; cbn; rewrite app_nil_r; now split |].
  destruct (random_choice _ g) as [v g']. eexists. split; [reflexivity |].
  constructor; [| constructor]. apply verb_note_not_removed.
Qed.

Lemma bullet_fold_notes (lines : list text) :
  forall (l : list Enhancement) (g : rng),
  exists tail,
    fst (fold_left bullet_step lines (l, g)) = l ++ tail /\
    Forall (fun e : Enhancement => snd e <> removed_note) tail.
Proof.
  induction lines as [| line lines IH]; intros l g.
  - exists []. cbn. rewrite app_nil_r. now split.
  - cbn [fold_left]. destruct (bullet_step_notes line l g) as (t1 & E1 & F1).
    destruct (bullet_step (l, g) line) as [l' g']. cbn [fst] in E1. subst l'.
    destruct (IH (l ++ t1) g') as (t2 & E2 & F2).
    exists (t1 ++ t2). rewrite E2, app_assoc. split; [reflexivity |].
    apply Forall_app. now split.
Qed.

(** C4: for every weak word of the lexicon, the text [enhance_text] returns
    holds no whole-word occurrence of it, and the enhancement list holds
    the pair [(weak_word, "(removed)")] exactly once when the word occurs
    in the input text (however often) and not at all when it does not. *)
Theorem C4_weak_word_removed_and_reported_once
    (t : text) (g : rng) (w : text) :
  In w WEAK_WORDS ->
  let enhanced_text := fst (fst (enhance_text t g)) in
  let enhancements := snd (fst (enhance_text t g)) in
  re_search_word w enhanced_text = false /\
  count_occ Enhancement_eq_dec enhancements (w, removed_note) =
    (if re_search_word w t then 1 else 0).
Proof.
  intros Hw. destruct (weak_pass_spec t) as [E R].
  unfold enhance_text.
  destruct (weak_pass t) as [enhanced weak]. cbn [fst snd] in *.
  destruct (bullet_fold_notes (split_char newline enhanced)
              (weak ++ cliche_pass enhanced) g) as (tail & P & F).
  destruct (fold_left bullet_step _ _) as [e' g']. cbn [fst snd] in *.
  split; [apply R, Hw |].
  subst e'. rewrite <- app_assoc, !count_occ_app.
  rewrite (count_other_notes w (cliche_pass_notes enhanced)).
  rewrite (count_other_notes w F), !Nat.add_0_r.
  rewrite E, count_removed by (apply NoDup_filter, WEAK_WORDS_NoDup).
  destruct (in_dec (list_eq_dec N.eq_dec) w
              (filter (fun w0 => re_search_word w0 t) WEAK_WORDS)) as [I | I].
  - apply filter_In in I. destruct I as [_ ->]. reflexivity.
  - destruct (re_search_word w t) eqn:S; [| reflexivity].
    exfalso. apply I, filter_In. now split.
Qed.

Lemma C4_weak_word_removed_and_reported_once_witness :
  let t := T "I was really happy to just help. Really!" in
  let r := fst (enhance_text t (fun _ => 0)) in
  re_search_word (T "really") (fst r) = false /\
  count_occ Enhancement_eq_dec (snd r) (T "really", removed_note) =
    (if re_search_word (T "really") t then 1 else 0).
Proof.
  apply (@C4_weak_word_removed_and_reported_once
           (T "I was really happy to just help. Really!") (fun _ => 0)
           (T "really")).
  right. left. reflexivity.
Defined.

(** ** The templates, the suggestions and the generator on concrete inputs *)

Example str_format_braces :
  str_format (T "a{{b}}c{name}d") [(T "name", T "N")] = Formatted (T "a{b}cNd").
Proof. vm_compute. reflexivity. Qed.

Example str_format_missing_key :
  str_format (T "{name} {role}") [(T "name", T "N")] = FormatError.
Proof. vm_compute. reflexivity. Qed.

Example format_resume_minimalist :
  format_resume (T "Minimalist") false
    [ (T "name", T "Ann {x}"); (T "skills", T "a, b ,c"); (T "zzz", T "q");
      (T "email", T "a@b") ]
  = Formatted (T "
# Ann {x}
 | 

**About Me**


**Skills**
- a
- b
- c

**Experience**


**Education**


**Contact**
a@b | 

").
Proof. vm_compute. reflexivity. Qed.

(** The draws 1, 2 and 3 take the second of five, then the third of
    the four left (the fifth has moved to the second place), then the
    first of three. *)
Example random_sample_three :
  fst (random_sample (map T [ "a"; "b"; "c"; "d"; "e" ]%string) 3
                     (fun i => i + 1))
  = map T [ "b"; "c"; "a" ]%string.
Proof. vm_compute. reflexivity. Qed.

Example get_skill_suggestions_parsed :
  fst (get_skill_suggestions (fun _ => Answered 200 (T " Python , SQL,,"))
                             (T "Analyst") (fun _ => 0))
  = map T [ "Python"; "SQL" ]%string.
Proof. vm_compute. reflexivity. Qed.

Example fill_placeholders_ex :
  fst (fill_placeholders
         (T "Developed and maintained {technology} applications serving {number} users")
         (fun i => i))
  = T "Developed and maintained web applications serving 101 users".
Proof. vm_compute. reflexivity. Qed.

Example parse_bullets_ex :
  parse_bullets (split_char newline (T "Here:
1. Did x
 2) Did y
- Did z
10. ten
nothing"))
  = map T [ "Did x"; "Did y"; "Did z"; ". ten" ]%string.
Proof. vm_compute. reflexivity. Qed.

Example enhance_with_ai_lost :
  enhance_with_ai
    (fun n _ => match n with
                | O => Posted 200 (inr (Some (T "better")))
                | _ => PostRaised (T "timeout")
                end)
    (T "orig") (T "dev")
  = (T "orig", T "Error using AI enhancement: timeout").
Proof. vm_compute. reflexivity. Qed.

(** From March 2020 to the end of 2022 and from January 2022 to June
    2024: 34 and 30 months. *)
Example extract_years_of_experience_ex :
  extract_years_of_experience
    (fun s => if text_eqb s (T "2020") then Some 2020%Z
              else if text_eqb s (T "2022") then Some 2022%Z
              else if text_eqb s (T "03") then Some 3%Z
              else None)
    (2024, 6)%Z
    [ {| start_date := T "03/2020"; end_date := T "2022" |};
      {| start_date := T "2022"; end_date := T "Present" |};
      {| start_date := []; end_date := T "Present" |};
      {| start_date := T "soon"; end_date := T "2022" |} ]
  = 5%Z.
Proof. vm_compute. reflexivity. Qed.

(** ** ATS scorer: the range of the overall score, and the keyword match *)

(** X1: the overall score lies between 40 and 100, and between 60 and
    100 when no keyword list is given (or an empty one): the format and
    length scores are at least 60 each and the keyword match is at least
    0. *)
Theorem X1_ats_overall_bounds (t : text) (kws : option (list text)) :
  let r := calculate_ats_score t kws in
  match kws with
  | Some (_ :: _) => (40 <= Score.overall r <= 100)%Z
  | _ => (60 <= Score.overall r <= 100)%Z
  end.
Proof.
  intros r. destruct (calculate_ats_score_fields t kws) as (F & L & K & O).
  fold r in F, L, K, O.
  pose proof (format_part_range t). pose proof (length_part_range t).
  assert (D2 : forall s, (120 <= s <= 200 -> 60 <= int_div s 2 <= 100)%Z).
  { intros s Hs. rewrite int_div_2 by lia. split.
    - apply Z.div_le_lower_bound; lia.
    - apply Z.div_le_upper_bound; lia. }
  destruct kws as [[| kw kws] |].
  - cbn in K. rewrite K in O. rewrite O. apply D2. lia.
  - pose proof (keyword_part_range t (Some (kw :: kws))) as R.
    destruct (fst (keyword_part t (Some (kw :: kws)))) as [k |] eqn:E;
      [| discriminate E].
    specialize (R k eq_refl). rewrite K in O. rewrite O.
    rewrite int_div_3 by lia. split.
    + apply Z.div_le_lower_bound; lia.
    + apply Z.div_le_upper_bound; lia.
  - cbn in K. rewrite K in O. rewrite O. apply D2. lia.
Qed.

Lemma percent_full (n : Z) : (0 < n)%Z -> percent n n = 100%Z.
Proof.
  intros Hn. unfold percent, Float64.true_div, Float64.round_ratio.
  replace (n =? 0)%Z with false by (symmetry; apply Z.eqb_neq; lia).
  assert (E : Float64.ilog2_ratio n n = 0%Z).
  { unfold Float64.ilog2_ratio. rewrite Z.sub_diag. cbn [Z.leb Z.compare].
    change (2 ^ 0)%Z with 1%Z. rewrite Z.mul_1_r.
    now rewrite Z.leb_refl. }
  rewrite E. change (Z.max (0 - 52) (-1074)) with (-52)%Z.
  change (0 <=? -52)%Z with false. cbv iota.
  assert (R : Float64.round_half_even (n * 2 ^ (- -52)) n = (2 ^ 52)%Z).
  { unfold Float64.round_half_even. change (- -52)%Z with 52%Z.
    rewrite (Z.mul_comm n), Z.div_mul, Z.mod_mul by lia.
    replace (2 * 0 <? n)%Z with true by (symmetry; apply Z.ltb_lt; lia).
    reflexivity. }
  rewrite R. vm_compute. reflexivity.
Qed.

Lemma filter_all (A : Type) (f : A -> bool) (l : list A) :
  forallb f l = true -> filter f l = l.
Proof.
  induction l as [| a l IH]; cbn; [reflexivity |].
  intros H. apply andb_prop in H. destruct H as [-> H]. now rewrite IH.
Qed.

(** X2: when every keyword of a (non-empty) list occurs in the text, the
    keyword match is exactly 100, whatever the number of keywords: the
    binary64 quotient [n / n] is exact. *)
Theorem X2_ats_all_keywords_found (t kw : text) (kws : list text) :
  forallb (fun k => re_search_word k t) (kw :: kws) = true ->
  Score.keyword_match (calculate_ats_score t (Some (kw :: kws))) = Percent 100.
Proof.
  intros H. destruct (calculate_ats_score_fields t (Some (kw :: kws)))
    as (_ & _ & K & _).
  rewrite K. unfold keyword_part. cbn [fst]. f_equal.
  unfold matched_keywords. rewrite (filter_all _ _ H).
  apply percent_full. cbn [length]. lia.
Qed.

Lemma X2_ats_all_keywords_found_witness :
  Score.keyword_match
    (calculate_ats_score (T "Python and SQL") (Some [T "python"; T "sql"]))
  = Percent 100.
Proof.
  apply (@X2_ats_all_keywords_found (T "Python and SQL") (T "python") [T "sql"]).
  vm_compute. reflexivity.
Defined.

(** *** Keywords up to case *)

Lemma mem_char_same (l l' : text) (c : char) :
  forallb (mem_char l') l = true -> forallb (mem_char l) l' = true ->
  mem_char l c = mem_char l' c.
Proof.
  intros H H'. rewrite forallb_forall in H, H'.
  assert (X : forall a b : text,
              (forall x, In x a -> mem_char b x = true) ->
              mem_char a c = true -> mem_char b c = true).
  { intros a b I M. unfold mem_char in M. apply existsb_exists in M.
    destruct M as (x & Hx & E). apply N.eqb_eq in E. subst x. now apply I. }
  destruct (mem_char l c) eqn:A, (mem_char l' c) eqn:B; try reflexivity.
  - rewrite (X l l' H A) in B. discriminate B.
  - rewrite (X l' l H' B) in A. discriminate A.
Qed.

(** Two characters that make the same pattern match the same
    characters. *)
Lemma ci_eq_same_literal (a b c : char) :
  same_literal a b = true -> ci_eq a c = ci_eq b c.
Proof.
  unfold same_literal, ci_eq. fold (literals a). fold (literals b).
  destruct (re_iscased a) eqn:Ca.
  - rewrite !andb_true_iff. intros [[-> H] H'].
    now apply mem_char_same.
  - intros E. apply N.eqb_eq in E. subst b. now rewrite Ca.
Qed.

Lemma lit_ci_case (p p' : text) :
  same_pattern p p' = true ->
  forall prev s, lit_ci p prev s = lit_ci p' prev s.
Proof.
  revert p'. induction p as [| a p IH]; intros [| a' p'] H prev s;
    try discriminate H; [reflexivity |].
  cbn [same_pattern] in H. apply andb_prop in H. destruct H as [Ha Hp].
  cbn [lit_ci]. destruct s as [| c s]; [reflexivity |].
  rewrite (@ci_eq_same_literal a a' c Ha).
  destruct (ci_eq a' c); [apply IH, Hp | reflexivity].
Qed.

Lemma search_from_case (p p' : text) :
  same_pattern p p' = true ->
  forall s prev, search_from p prev s = search_from p' prev s.
Proof.
  intros H s. induction s as [| c s IH]; intros prev; cbn [search_from];
    unfold word_at; rewrite (@lit_ci_case _ _ H); [reflexivity |].
  now rewrite IH.
Qed.

Lemma matched_keywords_case (t : text) (kws kws' : list text) :
  Forall2 (fun a b => same_pattern a b = true) kws kws' ->
  matched_keywords t kws = matched_keywords t kws'.
Proof.
  unfold matched_keywords. induction 1 as [| a b l l' H _ IH]; [reflexivity |].
  cbn [filter].
  assert (E : re_search_word a t = re_search_word b t)
    by apply (@search_from_case _ _ H).
  rewrite E. destruct (re_search_word b t); cbn [length]; now rewrite IH.
Qed.

(** X3: the score does not depend on the case of the keywords: two lists
    of keywords that differ in the case of their characters only give
    the same report. *)
Theorem X3_ats_keywords_ignore_case (t : text) (kws kws' : list text) :
  Forall2 (fun a b => same_pattern a b = true) kws kws' ->
  calculate_ats_score t (Some kws) = calculate_ats_score t (Some kws').
Proof.
  intros H.
  assert (K : keyword_part t (Some kws) = keyword_part t (Some kws')).
  { unfold keyword_part. destruct H as [| a b l l' Hab Hl]; [reflexivity |].
    rewrite (@matched_keywords_case t _ _ (Forall2_cons _ _ Hab Hl)).
    cbn [length]. now rewrite (Forall2_length Hl). }
  unfold calculate_ats_score. now rewrite K.
Qed.

Example same_pattern_beyond_ascii :
  same_pattern [321; 211; 68; 377]%N [322; 243; 100; 378]%N = true /\
  same_pattern (T "s") [383]%N = true /\
  same_pattern (T "a-b") (T "a_b") = false.
Proof. vm_compute. repeat split. Qed.

Lemma X3_ats_keywords_ignore_case_witness :
  calculate_ats_score (T "Python and SQL") (Some [T "PYTHON"; T "Sql"]) =
  calculate_ats_score (T "Python and SQL") (Some [T "python"; T "sql"]).
Proof.
  apply (@X3_ats_keywords_ignore_case (T "Python and SQL")
           [T "PYTHON"; T "Sql"] [T "python"; T "sql"]).
  repeat constructor.
Defined.

(** ** Spelling corrector: corrections and changes go together *)

(** Where [re.search] finds a match, [re.finditer] yields one. *)
Lemma search_finditer (p : text) :
  p <> [] ->
  forall s prev, search_from p prev s = true -> finditer_go p 0 prev s <> [].
Proof.
  intros Hp s. induction s as [| c s IH]; intros prev H.
  - cbn [search_from] in H. rewrite (word_at_nil prev Hp) in H. discriminate H.
  - cbn [search_from] in H. cbn [finditer_go].
    destruct (word_at p prev (c :: s)); [discriminate |].
    apply IH. exact H.
Qed.

Lemma single_not_nil (p : text) : single p = true -> p <> [].
Proof.
  unfold single. intros H ->. rewrite text_eqb_refl in H.
  now rewrite andb_false_r in H.
Qed.

Lemma spelling_fold_grows (entries : list (text * text)) :
  (forall e, In e entries -> fst e <> []) ->
  forall (txt : text) (cs : list Correction),
  snd (fold_left spelling_step entries (txt, cs)) = [] ->
  fold_left spelling_step entries (txt, cs) = (txt, cs).
Proof.
  induction entries as [| [k c] entries IH]; intros Hne txt cs H;
    [reflexivity |].
  cbn [fold_left spelling_step] in *.
  assert (Hk : k <> []) by (apply (Hne (k, c)); now left).
  assert (Hne' : forall e, In e entries -> fst e <> [])
    by (intros e He; apply Hne; now right).
  destruct (re_search_word k txt) eqn:S.
  - exfalso. pose proof (IH Hne' _ _ H) as E. rewrite E in H. cbn [snd] in H.
    apply app_eq_nil in H. destruct H as [_ H]. apply map_eq_nil in H.
    exact (search_finditer Hk _ _ S H).
  - apply IH; assumption.
Qed.

Lemma spelling_fold_silent_iff (lexicon : list (text * text)) (t : text) :
  lexicon_ok lexicon = true ->
  snd (fold_left spelling_step lexicon (t, [])) = [] <->
  fst (fold_left spelling_step lexicon (t, [])) = t.
Proof.
  intros L. split; intros H.
  - rewrite spelling_fold_grows; [reflexivity | | exact H].
    intros e He. apply single_not_nil. exact (@lexicon_single _ L _ He).
  - assert (C : forall e, In e lexicon ->
                re_search_word (fst e)
                  (fst (fold_left spelling_step lexicon (t, []))) = false).
    { intros e He. apply (spelling_fold_clean L);
        [apply incl_refl | exact He |].
      right. apply in_map, He. }
    rewrite H in C. rewrite (@spelling_fold_noop _ _ [] C). reflexivity.
Qed.

(** X4: [check_spelling] reports no correction exactly when it returns the
    text unchanged. *)
Theorem X4_check_spelling_silent_iff_unchanged (t : text) :
  snd (check_spelling t) = [] <-> fst (check_spelling t) = t.
Proof.
  exact (@spelling_fold_silent_iff COMMON_SPELLING_MISTAKES t
           COMMON_SPELLING_MISTAKES_ok).
Qed.

(** ** Text enhancer: what it does to the text *)

Lemma enhance_text_text (t : text) (g : rng) :
  fst (fst (enhance_text t g)) = fst (weak_pass t).
Proof.
  unfold enhance_text. destruct (weak_pass t) as [e w].
  destruct (fold_left _ _ _). reflexivity.
Qed.

Lemma weak_fold_noop (l : list text) (t : text) (es : list Enhancement) :
  (forall w, In w l -> re_search_word w t = false) ->
  fold_left weak_step l (t, es) = (t, es).
Proof.
  induction l as [| w l IH]; intros H; [reflexivity |].
  cbn [fold_left weak_step]. rewrite (H w) by now left.
  apply IH. intros q Hq. apply H. now right.
Qed.

(** X5: the enhancer returns the text unchanged exactly when no weak word
    occurs in it as a whole word. *)
Theorem X5_enhance_text_unchanged_iff (t : text) (g : rng) :
  fst (fst (enhance_text t g)) = t <->
  forallb (fun w => negb (re_search_word w t)) WEAK_WORDS = true.
Proof.
  rewrite enhance_text_text, forallb_forall. split; intros H.
  - intros w Hw. destruct (weak_pass_spec t) as [_ C].
    specialize (C w Hw). rewrite H in C. rewrite C. reflexivity.
  - unfold weak_pass. rewrite weak_fold_noop; [reflexivity |].
    intros w Hw. specialize (H w Hw). now destruct (re_search_word w t).
Qed.

(** *** Only deletions *)

Lemma is_subsequence_nil (b : text) : is_subsequence [] b = true.
Proof. now destruct b. Qed.

Lemma is_subsequence_refl (a : text) : is_subsequence a a = true.
Proof. induction a as [| x a IH]; cbn; [| rewrite N.eqb_refl]; auto. Qed.

Lemma is_subsequence_tail (x : char) (a b : text) :
  is_subsequence (x :: a) b = true -> is_subsequence a b = true.
Proof.
  revert x a. induction b as [| c b IH]; intros x a H; [discriminate H |].
  cbn [is_subsequence] in *. destruct a as [| y a]; [reflexivity |].
  destruct (x =? c)%N.
  - destruct (y =? c)%N; [exact (IH _ _ H) | exact H].
  - destruct (y =? c)%N; [| exact (IH _ _ H)].
    apply (IH y). exact (IH _ _ H).
Qed.

Lemma is_subsequence_skip (c : char) (a b : text) :
  is_subsequence a b = true -> is_subsequence a (c :: b) = true.
Proof.
  intros H. cbn [is_subsequence]. destruct a as [| x a]; [reflexivity |].
  destruct (x =? c)%N; [exact (is_subsequence_tail _ _ _ H) | exact H].
Qed.

Lemma is_subsequence_cons (c : char) (a b : text) :
  is_subsequence a b = true -> is_subsequence (c :: a) (c :: b) = true.
Proof. intros H. cbn [is_subsequence]. now rewrite N.eqb_refl. Qed.

Lemma is_subsequence_trans (a b c : text) :
  is_subsequence a b = true -> is_subsequence b c = true ->
  is_subsequence a c = true.
Proof.
  revert a b. induction c as [| z c IH]; intros a b Hab Hbc.
  - destruct b; [| discriminate Hbc]. destruct a; [reflexivity | discriminate Hab].
  - destruct b as [| y b].
    + destruct a; [reflexivity | discriminate Hab].
    + cbn [is_subsequence] in Hbc. destruct (y =? z)%N eqn:E.
      * apply N.eqb_eq in E. subst y. destruct a as [| x a]; [reflexivity |].
        cbn [is_subsequence] in Hab |- *. destruct (x =? z)%N.
        -- exact (IH _ _ Hab Hbc).
        -- exact (IH _ _ Hab Hbc).
      * apply is_subsequence_skip. exact (IH _ _ Hab Hbc).
Qed.

(** Deleting the matches of a pattern only deletes. *)
Lemma sub_go_deletes (p : text) (s : text) :
  forall skip prev, is_subsequence (sub_go p [] skip prev s) s = true.
Proof.
  induction s as [| c s IH]; intros skip prev; [reflexivity |].
  cbn [sub_go]. destruct skip as [| k].
  - destruct (word_at p prev (c :: s)).
    + cbn [app]. apply is_subsequence_skip, IH.
    + apply is_subsequence_cons, IH.
  - apply is_subsequence_skip, IH.
Qed.

Lemma weak_fold_deletes (l : list text) :
  forall (t : text) (es : list Enhancement),
  is_subsequence (fst (fold_left weak_step l (t, es))) t = true.
Proof.
  induction l as [| w l IH]; intros t es; [apply is_subsequence_refl |].
  cbn [fold_left weak_step]. destruct (re_search_word w t).
  - eapply is_subsequence_trans; [apply IH |]. apply sub_go_deletes.
  - apply IH.
Qed.

(** X6: the enhancer only deletes: the text it returns is the input with
    some characters left out, in the same order. *)
Theorem X6_enhance_text_only_deletes (t : text) (g : rng) :
  is_subsequence (fst (fst (enhance_text t g))) t = true.
Proof. rewrite enhance_text_text. apply weak_fold_deletes. Qed.

(** ** Text enhancer: the notes it writes *)

Lemma max_item_In (items : list (text * nat)) :
  forall best, max_item best items = best \/ In (max_item best items) items.
Proof.
  induction items as [| it rest IH]; intros best; [now left |].
  cbn [max_item]. destruct (snd best <? snd it).
  - destruct (IH it) as [-> | H]; right; [now left | now right].
  - destruct (IH best) as [-> | H]; [now left | right; now right].
Qed.

Lemma max_category_key (content : text) (table : list (text * list text)) :
  table <> [] ->
  In match map (fun cat => (fst cat, category_score content (snd cat)))
               table with
     | [] => T "management"
     | it :: rest => fst (max_item it rest)
     end
     (map fst table).
Proof.
  intros H. destruct table as [| cat table]; [contradiction |]. cbn [map].
  set (it := (fst cat, category_score content (snd cat))).
  set (rest := map _ table).
  assert (K : map fst (it :: rest) = fst cat :: map fst table).
  { unfold it, rest. cbn [map fst]. now rewrite map_map. }
  rewrite <- K. apply in_map.
  destruct (max_item_In rest it) as [-> | I]; [now left | now right].
Qed.

Lemma suggested_category_key (content : text) :
  In (suggested_category content) (map fst ACTION_VERBS).
Proof. apply max_category_key. discriminate. Qed.

(** The verbs of a category of the table are verbs of the table, and there
    is at least one. *)
Lemma verbs_of_table :
  forallb (fun cat =>
             negb (length (verbs_of (fst cat)) =? 0)
             && forallb is_table_verb (verbs_of (fst cat)))
          ACTION_VERBS = true.
Proof. vm_compute. reflexivity. Qed.

Lemma random_choice_table (content : text) (g : rng) :
  is_table_verb (fst (random_choice (verbs_of (suggested_category content)) g))
  = true.
Proof.
  pose proof (suggested_category_key content) as K.
  apply in_map_iff in K. destruct K as (cat & E & Hc).
  pose proof verbs_of_table as V. rewrite forallb_forall in V.
  specialize (V cat Hc). rewrite E in V. apply andb_prop in V.
  destruct V as [Hn Hv]. rewrite forallb_forall in Hv.
  unfold random_choice, randbelow. cbn [fst]. apply Hv, nth_In.
  apply Nat.mod_upper_bound. intros Z. now rewrite Z in Hn.
Qed.

Lemma bullet_step_note_ok (line : text) (l : list Enhancement) (g : rng) :
  Forall note_ok l -> Forall note_ok (fst (bullet_step (l, g) line)).
Proof.
  intros H. unfold bullet_step.
  destruct (is_bullet_line line); [| exact H].
  destruct (split_ws _) as [| w0 ws]; [exact H |].
  destruct (is_action_verb _); [exact H |].
  pose proof (random_choice_table (strip (tl (strip line))) g) as V.
  destruct (random_choice _ g) as [verb g']. cbn [fst] in *.
  apply Forall_app. split; [exact H |]. constructor; [| constructor].
  right. right. exists verb. split; [exact V | reflexivity].
Qed.

Lemma bullet_fold_note_ok (lines : list text) :
  forall (l : list Enhancement) (g : rng),
  Forall note_ok l -> Forall note_ok (fst (fold_left bullet_step lines (l, g))).
Proof.
  induction lines as [| line lines IH]; intros l g H; [exact H |].
  cbn [fold_left]. pose proof (bullet_step_note_ok line g H) as S.
  destruct (bullet_step (l, g) line) as [l' g']. apply IH, S.
Qed.

Lemma weak_fold_note_ok (words : list text) :
  forall (t : text) (l : list Enhancement),
  Forall note_ok l -> Forall note_ok (snd (fold_left weak_step words (t, l))).
Proof.
  induction words as [| w words IH]; intros t l H; [exact H |].
  cbn [fold_left weak_step]. destruct (re_search_word w t); [| apply IH, H].
  apply IH, Forall_app. split; [exact H |]. constructor; [| constructor].
  now left.
Qed.

(** X7: every note of the enhancer is one of three: the removal of a weak
    word, the advice on a cliche, or the suggestion of a verb, and the verb
    suggested is always one of the action verbs of the table, whatever the
    state of the random generator. *)
Theorem X7_enhance_text_notes (t : text) (g : rng) :
  Forall note_ok (snd (fst (enhance_text t g))).
Proof.
  unfold enhance_text, weak_pass.
  pose proof (@weak_fold_note_ok WEAK_WORDS t [] (Forall_nil _)) as W.
  destruct (fold_left weak_step WEAK_WORDS (t, [])) as [enhanced weak].
  cbn [snd] in W.
  assert (C : Forall note_ok (weak ++ cliche_pass enhanced)).
  { apply Forall_app. split; [exact W |]. unfold cliche_pass.
    apply Forall_forall. intros e He. apply in_map_iff in He.
    destruct He as (c & <- & _). right. now left. }
  pose proof (@bullet_fold_note_ok (split_char newline enhanced) _ g C) as B.
  destruct (fold_left bullet_step _ _) as [es g']. exact B.
Qed.

(** ** Keyword extractor: the answer of the service *)

Lemma lstrip_by_head (f : char -> bool) (s : text) :
  match lstrip_by f s with c :: _ => f c = false | [] => True end.
Proof.
  induction s as [| c s IH]; cbn; [exact I |].
  destruct (f c) eqn:E; [exact IH | exact E].
Qed.

Lemma lstrip_by_id (f : char -> bool) (s : text) :
  match s with c :: _ => f c = false | [] => True end -> lstrip_by f s = s.
Proof. destruct s as [| c s]; cbn; [reflexivity |]. now intros ->. Qed.

Lemma lstrip_by_idem (f : char -> bool) (s : text) :
  lstrip_by f (lstrip_by f s) = lstrip_by f s.
Proof. apply lstrip_by_id, lstrip_by_head. Qed.

(** Stripping the right end keeps a first character that is not
    stripped. *)
Lemma lstrip_by_suffix (f : char -> bool) (s : text) :
  exists pre, s = pre ++ lstrip_by f s /\ forallb f pre = true.
Proof.
  induction s as [| c s (pre & E & F)]; [exists []; auto |].
  cbn [lstrip_by]. destruct (f c) eqn:Ec.
  - exists (c :: pre). cbn. rewrite Ec, F. split; [now f_equal | reflexivity].
  - exists []. auto.
Qed.

Lemma rstrip_by_prefix (f : char -> bool) (s : text) :
  exists post, s = rstrip_by f s ++ post /\ forallb f post = true.
Proof.
  unfold rstrip_by. destruct (lstrip_by_suffix f (rev s)) as (pre & E & F).
  exists (rev pre). split.
  - rewrite <- (rev_involutive s), E at 1. now rewrite rev_app_distr.
  - rewrite forallb_forall in *. intros x Hx. apply F, in_rev, Hx.
Qed.

Lemma rstrip_by_keeps_head (f : char -> bool) (c : char) (s : text) :
  f c = false ->
  match rstrip_by f (c :: s) with x :: _ => x = c | [] => False end.
Proof.
  intros Hc. destruct (rstrip_by_prefix f (c :: s)) as (post & E & F).
  destruct (rstrip_by f (c :: s)) as [| x r].
  - cbn in E. subst post. cbn in F. now rewrite Hc in F.
  - cbn in E. now injection E as -> _.
Qed.

Lemma rstrip_by_idem (f : char -> bool) (s : text) :
  rstrip_by f (rstrip_by f s) = rstrip_by f s.
Proof.
  unfold rstrip_by. rewrite rev_involutive. now rewrite lstrip_by_idem.
Qed.

Lemma strip_by_idem (f : char -> bool) (s : text) :
  strip_by f (strip_by f s) = strip_by f s.
Proof.
  unfold strip_by at 1. set (r := strip_by f s).
  assert (L : lstrip_by f r = r).
  { apply lstrip_by_id. unfold r, strip_by.
    pose proof (lstrip_by_head f s) as H.
    destruct (lstrip_by f s) as [| c l]; [exact I |].
    pose proof (@rstrip_by_keeps_head f c l H) as K.
    destruct (rstrip_by f (c :: l)); [exact I | now subst]. }
  rewrite L. unfold r, strip_by. apply rstrip_by_idem.
Qed.

Lemma firstn_Forall (A : Type) (P : A -> Prop) (n : nat) (l : list A) :
  Forall P l -> Forall P (firstn n l).
Proof.
  intros H. rewrite Forall_forall in *. intros x Hx. apply H.
  rewrite <- (firstn_skipn n l). apply in_or_app. now left.
Qed.

(** X8: when the service answers with status 200 the extractor returns at
    most 20 keywords, none of them empty and none with white space at
    either end; the fallback is not consulted. *)
Theorem X8_extract_keywords_answered
    (world : service) (job_description keywords_text : text) :
  world (keywords_prompt job_description) = Answered 200 keywords_text ->
  let r := extract_keywords_from_job_description world job_description in
  length r <= 20 /\ Forall clean_keyword r /\
  r = firstn 20 (filter (fun k => negb (text_eqb k []))
                        (map strip (split_char comma keywords_text))).
Proof.
  intros E r. unfold r, extract_keywords_from_job_description. rewrite E.
  split; [| split; [| reflexivity]].
  - rewrite length_firstn. lia.
  - apply firstn_Forall, Forall_forall. intros k Hk.
    apply filter_In in Hk. destruct Hk as [Hk Hn].
    apply in_map_iff in Hk. destruct Hk as (x & <- & _).
    split; [exact Hn | apply strip_by_idem].
Qed.

Lemma X8_extract_keywords_answered_witness :
  let world := fun _ => Answered 200 (T " Python, ,SQL ,") in
  let r := extract_keywords_from_job_description world (T "any") in
  length r <= 20 /\ Forall clean_keyword r /\
  r = firstn 20 (filter (fun k => negb (text_eqb k []))
                        (map strip (split_char comma (T " Python, ,SQL ,")))).
Proof.
  apply (@X8_extract_keywords_answered
           (fun _ => Answered 200 (T " Python, ,SQL ,")) (T "any")
           (T " Python, ,SQL ,")).
  reflexivity.
Defined.

(** ** Keyword extractor: the terms of the fallback *)

Lemma firstn_NoDup (A : Type) (n : nat) (l : list A) :
  NoDup l -> NoDup (firstn n l).
Proof.
  intros H. rewrite <- (firstn_skipn n l) in H.
  exact (NoDup_app_remove_r _ _ H).
Qed.

Lemma fold_bump_terms (w : nat) (P : text -> Prop) (l : list text) :
  forall d : counts,
  Forall P (map fst d) -> Forall P l ->
  Forall P (map fst (fold_left (fun d k => bump w k d) l d)).
Proof.
  induction l as [| k l IH]; intros d Hd Hl; [exact Hd |].
  cbn [fold_left]. apply Forall_cons_iff in Hl. destruct Hl as [Hk Hl].
  apply IH; [| exact Hl]. rewrite bump_keys.
  destruct (existsb _ _); [exact Hd |].
  apply Forall_app. split; [exact Hd | now constructor].
Qed.

(** No lower case is an ASCII capital letter, so [str.lower] leaves
    none. *)
Lemma lower_no_capital (c : char) : in_range 65 90 (lower c) = false.
Proof.
  destruct (in_range 65 90 (lower c)) eqn:R; [| reflexivity].
  assert (A : is_ascii (lower c) = true).
  { unfold in_range in R. apply andb_prop in R. destruct R as [_ R].
    apply N.leb_le in R. unfold is_ascii. apply N.ltb_lt. lia. }
  assert (F : forallb (fun x => negb (in_range 65 90 (lower x)))
                      (ascii_chars ++ [304; 8490]%N) = true)
    by (vm_compute; reflexivity).
  rewrite forallb_forall in F. specialize (F c).
  rewrite R in F. cbn [negb] in F. symmetry. apply F. apply in_or_app.
  destruct (@lower_to_ascii c A) as [H | [-> | ->]].
  - left. now apply in_ascii_chars.
  - right. now left.
  - right. right. now left.
Qed.

Lemma no_capital_app (a b : text) :
  no_capital (a ++ b) = no_capital a && no_capital b.
Proof. apply forallb_app. Qed.

Lemma lower_from_no_capital (s : text) :
  forall before, no_capital (lower_from before s) = true.
Proof.
  induction s as [| c s IH]; intros before; [reflexivity |].
  cbn [lower_from]. rewrite no_capital_app, IH, andb_true_r.
  unfold lower_at. destruct (c =? 931)%N.
  - destruct (final_sigma before s); reflexivity.
  - destruct (c =? 304)%N; [reflexivity |].
    cbn [no_capital forallb]. now rewrite lower_no_capital.
Qed.

Lemma no_capital_incl (m s : text) :
  incl m s -> no_capital s = true -> no_capital m = true.
Proof.
  unfold no_capital. rewrite !forallb_forall. intros I H x Hx.
  apply H, I, Hx.
Qed.

(** A token is a piece of the text. *)
Lemma token_rest_incl (s : text) :
  forall last m, token_rest last s = Some m -> incl m s.
Proof.
  induction s as [| c s IH]; intros last m H.
  - cbn in H. destruct (bnd _ _); [| discriminate H].
    injection H as <-. apply incl_refl.
  - cbn [token_rest] in H.
    assert (S : (if bnd (Some last) (Some c) then Some [] else None)
                = Some m -> incl m (c :: s)).
    { destruct (bnd _ _); [| discriminate]. intros [= <-]. intros x []. }
    destruct (tok_more c); [| exact (S H)].
    destruct (token_rest c s) as [m' |] eqn:E; [| exact (S H)].
    injection H as <-. intros x [<- | Hx]; [now left | right].
    exact (IH _ _ E x Hx).
Qed.

Lemma findall_go_incl (s : text) :
  forall skip prev, Forall (fun m => incl m s) (findall_go skip prev s).
Proof.
  induction s as [| c s IH]; intros skip prev; [constructor |].
  assert (W : forall l, Forall (fun m => incl m s) l ->
                        Forall (fun m => incl m (c :: s)) l).
  { intros l. apply Forall_impl. intros m I x Hx. right. now apply I. }
  cbn [findall_go]. destruct skip as [| k]; [| apply W, IH].
  destruct (token_at prev (c :: s)) as [m |] eqn:E; [| apply W, IH].
  constructor; [| apply W, IH].
  cbn [token_at] in E. destruct (_ && _); [| discriminate E].
  destruct (token_rest c s) as [m' |] eqn:R; [| discriminate E].
  injection E as <-. intros x [<- | Hx]; [now left | right].
  exact (@token_rest_incl _ _ _ R x Hx).
Qed.

(** So is a word of [str.split]. *)
Lemma split_ws_go_incl (s : text) :
  forall cur,
  Forall (fun w => forall x, In x w -> In x cur \/ In x s)
         (split_ws_go cur s).
Proof.
  induction s as [| c s IH]; intros cur.
  - cbn. destruct cur; constructor; [| constructor].
    intros x Hx. left. now apply in_rev.
  - assert (W : forall cur' l,
                (forall x, In x cur' -> In x cur \/ In x (c :: s)) ->
                Forall (fun w => forall x, In x w -> In x cur' \/ In x s) l ->
                Forall (fun w => forall x, In x w ->
                                           In x cur \/ In x (c :: s)) l).
    { intros cur' l C. apply Forall_impl. intros w H x Hx.
      destruct (H x Hx) as [X | X]; [now apply C | right; now right]. }
    cbn [split_ws_go]. destruct (is_space c).
    + destruct cur as [| c0 cur0].
      * apply (W []); [intros x [] | apply IH].
      * constructor.
        -- intros x Hx. left. now apply in_rev.
        -- apply (W []); [intros x [] | apply IH].
    + apply (W (c :: cur)); [| apply IH].
      intros x [<- | Hx]; [right; now left | now left].
Qed.

Lemma split_ws_no_capital (s : text) :
  no_capital s = true ->
  Forall (fun w => no_capital w = true) (split_ws s).
Proof.
  intros H. unfold split_ws.
  eapply Forall_impl; [| apply (split_ws_go_incl s [])].
  intros w I. apply (@no_capital_incl w s); [| exact H].
  intros x Hx. destruct (I x Hx) as [[] | X]. exact X.
Qed.

Lemma word_pairs_no_capital (words : list text) :
  Forall (fun w => no_capital w = true) words ->
  Forall (fun w => no_capital w = true) (word_pairs words).
Proof.
  induction words as [| w1 words IH]; intros F; [constructor |].
  apply Forall_cons_iff in F. destruct F as [F1 F].
  destruct words as [| w2 words]; [constructor |].
  cbn [word_pairs]. destruct (_ && _); [| apply IH, F].
  constructor; [| apply IH, F].
  apply Forall_cons_iff in F. destruct F as [F2 _].
  now rewrite !no_capital_app, F1, F2.
Qed.

(** X9: the fallback returns no term twice; every term it returns is of
    one of the two kinds it counts (a token of the lower-cased
    description that is not a common word and is longer than two
    characters, or a pair of neighbouring words neither of which is a
    common word); and no term holds an ASCII capital letter, whatever
    the description. *)
Theorem X9_fallback_keywords_terms (job_description : text) :
  NoDup (fallback_keywords job_description) /\
  Forall (fun k => is_single_term job_description k
                   || is_pair_term job_description k = true)
         (fallback_keywords job_description) /\
  Forall (fun k => no_capital k = true) (fallback_keywords job_description).
Proof.
  pose proof (word_counts_NoDup job_description) as ND.
  pose proof (sorted_desc_perm (word_counts job_description)) as P.
  assert (R : forall Q : text -> Prop,
              Forall Q (map fst (word_counts job_description)) ->
              Forall Q (fallback_keywords job_description)).
  { intros Q K. unfold fallback_keywords. rewrite <- firstn_map.
    apply firstn_Forall. rewrite Forall_forall in *. intros k Hk. apply K.
    apply (Permutation_in _ (Permutation_map fst P)), Hk. }
  split; [| split].
  - unfold fallback_keywords. rewrite <- firstn_map. apply firstn_NoDup.
    apply (Permutation_NoDup (Permutation_sym (Permutation_map fst P))), ND.
  - apply R. unfold word_counts.
    apply fold_bump_terms; [apply fold_bump_terms |].
    + constructor.
    + apply Forall_forall. intros k Hk. apply filter_In in Hk.
      destruct Hk as [Hk Hf]. apply orb_true_iff. left.
      unfold is_single_term. rewrite Hf. cbn [andb].
      apply existsb_exists. exists k. split; [exact Hk | apply text_eqb_refl].
    + apply Forall_forall. intros k Hk. apply orb_true_iff. right.
      unfold is_pair_term. apply existsb_exists. exists k.
      split; [exact Hk | apply text_eqb_refl].
  - apply R. unfold word_counts.
    pose proof (lower_from_no_capital job_description []) as L.
    fold (lower_text job_description) in L.
    apply fold_bump_terms; [apply fold_bump_terms |].
    + constructor.
    + apply Forall_forall. intros k Hk. apply filter_In in Hk.
      destruct Hk as [Hk _].
      pose proof (findall_go_incl (lower_text job_description) 0 None) as I.
      rewrite Forall_forall in I.
      exact (@no_capital_incl _ _ (I k Hk) L).
    + apply word_pairs_no_capital, split_ws_no_capital, L.
Qed.

(** ** Exporters: plain text *)

(** X10: [save_as_text] never lets an exception escape, and leaves every
    other file as it was.  When the text can be written it returns the
    absolute path and the file holds the text exactly.  When the file
    cannot be opened the error is returned as a string and the file
    system is untouched.  When the text holds a surrogate, or the device
    fails, the error is returned as a string too, but the file has been
    opened: it is left empty in the first case, and with what the device
    took in the second. *)
Theorem X10_save_as_text_outcome
    (abspath : text -> text) (resume_text filename : text) (w : filesystem) :
  let r := save_as_text abspath resume_text filename w in
  (exists s, fst r = Returns s) /\
  (forall other, text_eqb filename other = false ->
                 read_file other (snd r) = read_file other w) /\
  (can_write w filename resume_text ->
   fst r = Returns (abspath filename) /\
   read_file filename (snd r) = Some resume_text) /\
  (forall message, open_error w filename = Some message ->
   r = (Returns (T "Error saving text file: " ++ message), w)) /\
  (open_error w filename = None -> encodable resume_text = false ->
   exists message,
     encode_error resume_text = Some message /\
     fst r = Returns (T "Error saving text file: " ++ message) /\
     read_file filename (snd r) = Some []) /\
  (forall message held,
   open_error w filename = None -> encodable resume_text = true ->
   device_error w filename resume_text = Some (message, held) ->
   fst r = Returns (T "Error saving text file: " ++ message) /\
   read_file filename (snd r) = Some held).
Proof.
  intros r. unfold r, save_as_text.
  split; [| split; [| split; [| split; [| split]]]].
  - destruct (write_file filename resume_text w) as [[m |] w'];
      eexists; reflexivity.
  - intros other H.
    pose proof (@read_other_after_write filename resume_text other w H) as R.
    destruct (write_file filename resume_text w) as [[m |] w']; exact R.
  - intros W. rewrite (@write_file_ok _ _ _ W).
    split; [reflexivity | apply read_holding].
  - intros message O. unfold write_file. now rewrite O.
  - intros O E. unfold write_file. rewrite O.
    destruct (encode_error resume_text) as [m |] eqn:X.
    + exists m. repeat split. apply read_holding.
    + apply encode_error_encodable in X. congruence.
  - intros message held O E D. unfold write_file.
    apply encode_error_encodable in E. rewrite O, E, D.
    split; [reflexivity | apply read_holding].
Qed.

(** ** Exporters: where an exception can escape *)

(** X11: [save_as_html] lets an exception escape only on the path taken
    when the markdown package is missing, and only when the document
    could not be written.  Every other file is as before; nothing at all
    has changed when the file could not be opened, and the file is left
    empty when the text holds a surrogate. *)
Theorem X11_save_as_html_escapes_only_without_markdown
    (markdown : option (text -> text + text)) (abspath : text -> text)
    (resume_text filename : text) (dark_mode : bool) (w : filesystem)
    (message : text) :
  let r := save_as_html markdown abspath resume_text filename dark_mode w in
  let document :=
    html_document css_plain (T "<pre>" ++ resume_text ++ T "</pre>") in
  fst r = Escapes message ->
  markdown = None /\
  ~ can_write w filename document /\
  (forall other, text_eqb filename other = false ->
                 read_file other (snd r) = read_file other w) /\
  ((open_error w filename = Some message /\ snd r = w) \/
   (open_error w filename = None /\
    exists held,
      read_file filename (snd r) = Some held /\
      (encodable document = false -> held = []))).
Proof.
  intros r document. unfold r, save_as_html.
  destruct markdown as [convert |].
  - destruct (convert resume_text); [| discriminate].
    destruct (write_file _ _ _) as [[m |] w']; discriminate.
  - rewrite plain_document_shell. fold document.
    pose proof (fun other =>
                  @read_other_after_write filename document other w) as O.
    pose proof (@write_file_fails filename document w) as F.
    destruct (write_file filename document w) as [[m |] w'];
      [| discriminate].
    cbn [fst snd] in *. intros [= ->].
    destruct (F message eq_refl) as (N & C).
    split; [reflexivity |]. split; [exact N |]. split; [exact O |].
    destruct C as [C | (C & held & -> & E)]; [now left | right].
    split; [exact C |]. exists held. split; [apply read_holding | exact E].
Qed.

Lemma X11_save_as_html_escapes_only_without_markdown_witness :
  let r := save_as_html None (fun p => p) (T "Jane") (T "resume.html") true
                        locked_disk in
  let document :=
    html_document css_plain (T "<pre>" ++ T "Jane" ++ T "</pre>") in
  @None (text -> text + text) = None /\
  ~ can_write locked_disk (T "resume.html") document /\
  (forall other, text_eqb (T "resume.html") other = false ->
                 read_file other (snd r) = read_file other locked_disk) /\
  ((open_error locked_disk (T "resume.html") = Some (T "Permission denied")
    /\ snd r = locked_disk) \/
   (open_error locked_disk (T "resume.html") = None /\
    exists held,
      read_file (T "resume.html") (snd r) = Some held /\
      (encodable document = false -> held = []))).
Proof.
  apply (@X11_save_as_html_escapes_only_without_markdown
           None (fun p => p) (T "Jane") (T "resume.html") true locked_disk
           (T "Permission denied")).
  reflexivity.
Defined.

(** ** Exporters: the parts of a line with bold spans *)

Lemma startswith_app (p s : text) :
  startswith p s = true -> s = p ++ skipn (length p) s.
Proof.
  revert s. induction p as [| a p IH]; intros s H; [reflexivity |].
  destruct s as [| c s]; [discriminate H |]. cbn in H.
  apply andb_prop in H. destruct H as [E H]. apply N.eqb_eq in E. subst c.
  cbn. f_equal. apply IH, H.
Qed.

Lemma lazy_to_stars_prefix (s m : text) :
  lazy_to_stars s = Some m -> s = m ++ skipn (length m) s.
Proof.
  revert m. induction s as [| c s IH]; intros m H; [discriminate H |].
  cbn [lazy_to_stars] in H.
  destruct (startswith (T "**") (c :: s)) eqn:E.
  - injection H as <-. apply (startswith_app _ _ E).
  - destruct (c =? newline)%N; [discriminate H |].
    destruct (lazy_to_stars s) as [m' |]; [| discriminate H].
    cbn in H. injection H as <-. cbn. f_equal. apply IH. reflexivity.
Qed.

(** A bold span found at the head of a text is a non-empty prefix of it. *)
Lemma bold_at_prefix (s m : text) :
  bold_at s = Some m ->
  exists c m', m = c :: m' /\ s = m ++ skipn (length m) s.
Proof.
  unfold bold_at. destruct (startswith (T "**") s) eqn:E; [| discriminate].
  destruct (lazy_to_stars (skipn 2 s)) as [x |] eqn:L; [| discriminate].
  cbn [option_map]. intros [= <-].
  apply startswith_app in E. apply lazy_to_stars_prefix in L.
  exists star, (star :: x). split; [reflexivity |].
  change (length (T "**")) with 2 in E.
  cbn [length app]. rewrite skipn_skipn in L.
  replace (S (S (length x))) with (length x + 2) by lia.
  rewrite E at 1. cbn [T map list_ascii_of_string app]. rewrite L at 1.
  reflexivity.
Qed.

Lemma split_bold_go_concat (s : text) :
  forall skip cur,
  concat (split_bold_go skip cur s) = rev cur ++ skipn skip s.
Proof.
  induction s as [| c s IH]; intros skip cur.
  - cbn. rewrite skipn_nil. reflexivity.
  - cbn [split_bold_go]. destruct skip as [| k].
    + destruct (bold_at (c :: s)) as [m |] eqn:B.
      * apply bold_at_prefix in B. destruct B as (c' & m' & -> & E).
        cbn [concat]. rewrite IH.
        replace (length (c' :: m') - 1) with (length m') by (cbn; lia).
        cbn [rev app length skipn] in *. injection E as -> E.
        rewrite E at 2. reflexivity.
      * rewrite IH. cbn [rev skipn]. now rewrite <- app_assoc.
    + rewrite IH. reflexivity.
Qed.

(** X12: splitting a line on its bold spans loses nothing: the parts the
    DOCX writer turns into runs, put together again, are the line. *)
Theorem X12_split_bold_concat (line : text) : concat (split_bold line) = line.
Proof. unfold split_bold. now rewrite split_bold_go_concat. Qed.

(** ** Filling a template *)

(** *** The keys of the dict *)

Lemma set_key_keys (k v : text) (d : list (text * text)) :
  map fst (set_key k v d) = map fst d.
Proof.
  unfold set_key. rewrite map_map. apply map_ext.
  intros e. now destruct (text_eqb (fst e) k).
Qed.

Lemma update_defaults_keys (d : list (text * text)) (kv : text * text) :
  map fst (update_defaults d kv) = map fst d.
Proof.
  unfold update_defaults. destruct (has_key d (fst kv));
    [apply set_key_keys | reflexivity].
Qed.

Lemma fold_update_keys (kwargs d : list (text * text)) :
  map fst (fold_left update_defaults kwargs d) = map fst d.
Proof.
  revert d. induction kwargs as [| kv kwargs IH]; intros d; [reflexivity |].
  cbn [fold_left]. now rewrite IH, update_defaults_keys.
Qed.

Lemma lookup_keys (d d' : list (text * text)) (k : text) :
  map fst d = map fst d' ->
  (lookup d k = None <-> lookup d' k = None).
Proof.
  revert d'. induction d as [| e d IH]; intros [| e' d'] H;
    try discriminate H; [tauto |].
  cbn [map] in H. injection H as E H. unfold lookup in *. cbn [find].
  rewrite <- E. destruct (text_eqb (fst e) k); [cbn; split; discriminate |].
  apply IH, H.
Qed.

Lemma has_key_lookup (d : list (text * text)) (k : text) :
  has_key d k = true <-> lookup d k <> None.
Proof.
  unfold has_key, lookup. induction d as [| e d IH]; cbn [existsb find].
  - split; [discriminate | intros H; now contradiction H].
  - destruct (text_eqb (fst e) k); cbn [orb]; [| exact IH].
    split; [discriminate | reflexivity].
Qed.

Lemma lookup_set_key_same (k v : text) (d : list (text * text)) :
  has_key d k = true -> lookup (set_key k v d) k = Some v.
Proof.
  unfold has_key, lookup, set_key.
  induction d as [| e d IH]; cbn [existsb map find]; [discriminate |].
  destruct (text_eqb (fst e) k) eqn:E; cbn [orb fst].
  - now rewrite E.
  - rewrite E. exact IH.
Qed.

Lemma lookup_set_key_other (k k' v : text) (d : list (text * text)) :
  text_eqb k' k = false -> lookup (set_key k v d) k' = lookup d k'.
Proof.
  intros H. unfold lookup, set_key.
  induction d as [| e d IH]; cbn [map find]; [reflexivity |].
  destruct (text_eqb (fst e) k) eqn:E; cbn [fst].
  - apply text_eqb_eq in E. rewrite E, text_eqb_sym, H.
    cbn [fst snd] in *. exact IH.
  - destruct (text_eqb (fst e) k'); [reflexivity | exact IH].
Qed.

Lemma set_key_twice (k v v' : text) (d : list (text * text)) :
  set_key k v (set_key k v' d) = set_key k v d.
Proof.
  unfold set_key. rewrite map_map. apply map_ext. intros e.
  destruct (text_eqb (fst e) k) eqn:E; cbn [fst]; now rewrite E.
Qed.

(** *** The kind of the result depends on the keys alone *)

Lemma kind_prepend (s : text) (r : formatted) : kind (prepend s r) = kind r.
Proof. now destruct r. Qed.

Lemma field_value_kind (d d' : list (text * text)) (name : text) :
  map fst d = map fst d' ->
  kind (field_value d name) = kind (field_value d' name).
Proof.
  intros H. unfold field_value.
  destruct (forallb is_ascii_digit name); [reflexivity |].
  destruct (forallb is_name_char name); [| reflexivity].
  pose proof (@lookup_keys d d' name H) as L.
  destruct (lookup d name), (lookup d' name); try reflexivity.
  - destruct L as [_ L]. discriminate (L eq_refl).
  - destruct L as [L _]. discriminate (L eq_refl).
Qed.

Lemma format_go_kind (d d' : list (text * text)) :
  map fst d = map fst d' ->
  forall n s, length s <= n ->
  forall field, kind (format_go d field s) = kind (format_go d' field s).
Proof.
  intros H n. induction n as [| n IH]; intros s L field.
  - destruct s; [| cbn in L; lia]. reflexivity.
  - destruct s as [| c s]; [reflexivity |]. cbn [length] in L.
    assert (L1 : length s <= n) by lia.
    cbn [format_go]. destruct field as [name |].
    + destruct (c =? rbrace)%N.
      * pose proof (@field_value_kind d d' (rev name) H) as F.
        destruct (field_value d (rev name)), (field_value d' (rev name));
          try discriminate F; try reflexivity.
        rewrite !kind_prepend. apply IH, L1.
      * destruct (c =? lbrace)%N; [reflexivity | apply IH, L1].
    + destruct (c =? lbrace)%N.
      * destruct s as [| c2 s2]; [reflexivity |].
        destruct (c2 =? lbrace)%N; [| apply IH, L1].
        rewrite !kind_prepend. apply IH. cbn [length] in L1. lia.
      * destruct (c =? rbrace)%N.
        -- destruct s as [| c2 s2]; [reflexivity |].
           destruct (c2 =? rbrace)%N; [| reflexivity].
           rewrite !kind_prepend. apply IH. cbn [length] in L1. lia.
        -- rewrite !kind_prepend. apply IH, L1.
Qed.

(** Every template is a well-formed format string all of whose fields
    are keys of [defaults]. *)
Lemma templates_format :
  forallb (fun e =>
             match str_format (snd e) defaults with
             | Formatted _ => true
             | _ => false
             end)
          templates = true.
Proof. vm_compute. reflexivity. Qed.

Lemma get_template_cases (template_name : text) (dark_mode : bool) :
  In (get_template template_name dark_mode) (map snd templates).
Proof.
  unfold get_template.
  destruct (dark_mode && _); [cbn; tauto |].
  rewrite dict_get_templates.
  repeat (destruct (text_eqb _ _); [cbn; tauto |]). cbn; tauto.
Qed.

Lemma str_format_templates (template : text) (d : list (text * text)) :
  In template (map snd templates) ->
  map fst d = field_names ->
  exists out, str_format template d = Formatted out.
Proof.
  intros I K. apply in_map_iff in I. destruct I as (e & <- & I).
  pose proof templates_format as F. rewrite forallb_forall in F.
  specialize (F e I).
  pose proof (@format_go_kind d defaults K (length (snd e)) (snd e)
                (le_n _) None) as C.
  unfold str_format in *.
  destruct (format_go defaults None (snd e)); try discriminate F.
  destruct (format_go d None (snd e)) as [out | |]; try discriminate C.
  now exists out.
Qed.

(** X13: [format_resume] always returns a text: whatever the template
    name, the flag and the keyword arguments (unknown keys, missing keys,
    values with braces in them), filling the template raises neither a
    [KeyError] nor a [ValueError]. *)
Theorem X13_format_resume_total
    (template_name : text) (dark_mode : bool) (kwargs : list (text * text)) :
  exists out, format_resume template_name dark_mode kwargs = Formatted out.
Proof.
  unfold format_resume. apply str_format_templates.
  - apply get_template_cases.
  - destruct (contains _ _); [rewrite set_key_keys |];
      apply fold_update_keys.
Qed.

(** *** Where the values go *)

Lemma startswith_self_app (p s : text) : startswith p (p ++ s) = true.
Proof.
  induction p as [| a p IH]; [reflexivity |]. cbn. now rewrite N.eqb_refl.
Qed.

Lemma contains_cons (p : text) (c : char) (s : text) :
  contains p s = true -> contains p (c :: s) = true.
Proof. intros H. cbn [contains]. rewrite H. apply orb_true_r. Qed.

Lemma contains_app_r (p a s : text) :
  contains p s = true -> contains p (a ++ s) = true.
Proof.
  intros H. induction a as [| c a IH]; [exact H |].
  cbn [app]. apply contains_cons, IH.
Qed.

Lemma contains_app_l (p s : text) : contains p (p ++ s) = true.
Proof. apply contains_startswith, startswith_self_app. Qed.

Lemma field_value_lookup (d : list (text * text)) (name v : text) :
  field_value d name = Formatted v -> lookup d name = Some v.
Proof.
  unfold field_value. destruct (forallb is_ascii_digit name); [discriminate |].
  destruct (forallb is_name_char name); [| discriminate].
  destruct (lookup d name); [| discriminate]. now intros [= ->].
Qed.

Lemma prepend_Formatted (s : text) (r : formatted) (out : text) :
  prepend s r = Formatted out ->
  exists out', r = Formatted out' /\ out = s ++ out'.
Proof. destruct r; try discriminate. intros [= <-]. eauto. Qed.

(** The value of every field of the format string is part of the
    result. *)
Lemma format_go_fields (d : list (text * text)) :
  forall n s, length s <= n ->
  forall field out,
  format_go d field s = Formatted out ->
  Forall (fun k => exists v, lookup d k = Some v /\ contains v out = true)
         (fields_go field s).
Proof.
  intros n. induction n as [| n IH]; intros s L field out H.
  - destruct s; [constructor | cbn in L; lia].
  - destruct s as [| c s]; [constructor |]. cbn [length] in L.
    assert (L1 : length s <= n) by lia.
    assert (W : forall a out',
              Forall (fun k => exists v, lookup d k = Some v
                                         /\ contains v out' = true)
                     a ->
              forall pre,
              Forall (fun k => exists v, lookup d k = Some v
                                         /\ contains v (pre ++ out') = true)
                     a).
    { intros a out' F pre. eapply Forall_impl; [| exact F].
      intros k (v & Hv & C). exists v. split; [exact Hv |].
      apply contains_app_r, C. }
    cbn [format_go] in H. cbn [fields_go]. destruct field as [name |].
    + destruct (c =? rbrace)%N.
      * destruct (field_value d (rev name)) as [v | |] eqn:F;
          try discriminate H.
        apply prepend_Formatted in H. destruct H as (out' & H & ->).
        constructor.
        -- exists v. split; [apply field_value_lookup, F |].
           apply contains_app_l.
        -- apply W. exact (IH _ L1 _ _ H).
      * destruct (c =? lbrace)%N; [discriminate H |].
        exact (IH _ L1 _ _ H).
    + destruct (c =? lbrace)%N.
      * destruct s as [| c2 s2]; [constructor |].
        destruct (c2 =? lbrace)%N; [| exact (IH _ L1 _ _ H)].
        apply prepend_Formatted in H. destruct H as (out' & H & ->).
        apply W. cbn [length] in L1. apply (IH s2 ltac:(lia) _ _ H).
      * destruct (c =? rbrace)%N.
        -- destruct s as [| c2 s2]; [constructor |].
           destruct (c2 =? rbrace)%N; [| discriminate H].
           apply prepend_Formatted in H. destruct H as (out' & H & ->).
           apply W. cbn [length] in L1. apply (IH s2 ltac:(lia) _ _ H).
        -- apply prepend_Formatted in H. destruct H as (out' & H & ->).
           apply W. exact (IH _ L1 _ _ H).
Qed.

(** Every template has a field for every key of [defaults]. *)
Lemma templates_fields :
  forallb (fun e =>
             forallb (fun k => existsb (text_eqb k) (fields (snd e)))
                     field_names)
          templates = true.
Proof. vm_compute. reflexivity. Qed.

Lemma has_key_keys (d : list (text * text)) (k : text) :
  has_key d k = existsb (text_eqb k) (map fst d).
Proof.
  unfold has_key. induction d as [| e d IH]; [reflexivity |].
  cbn [existsb map]. now rewrite IH, text_eqb_sym.
Qed.

Lemma contains_comma (s : text) : contains (T ",") s = mem_char s comma.
Proof.
  induction s as [| c s IH]; [reflexivity |].
  cbn [contains]. rewrite IH. unfold mem_char. cbn [existsb].
  f_equal. cbn. now rewrite andb_true_r.
Qed.

(** The dict the template is filled from, when the last keyword argument
    is [(k, v)]. *)
Lemma final_lookup (kwargs : list (text * text)) (k v : text) :
  has_key defaults k = true ->
  text_eqb k (T "skills") && contains (T ",") v = false ->
  let d := fold_left update_defaults (kwargs ++ [(k, v)]) defaults in
  let skills := match lookup d (T "skills") with
                | Some s => s
                | None => []
                end in
  lookup (if contains (T ",") skills
          then set_key (T "skills") (formatted_skills skills) d
          else d) k = Some v.
Proof.
  intros K S d skills.
  assert (D : lookup d k = Some v).
  { unfold d. rewrite fold_left_app. cbn [fold_left].
    assert (E : has_key (fold_left update_defaults kwargs defaults) k = true).
    { rewrite has_key_keys, fold_update_keys, <- has_key_keys. exact K. }
    set (d0 := fold_left update_defaults kwargs defaults) in *.
    unfold update_defaults. cbn [fst snd].
    rewrite E. apply lookup_set_key_same, E. }
  destruct (text_eqb k (T "skills")) eqn:Ek.
  - apply text_eqb_eq in Ek. subst k. cbn [andb] in S.
    unfold skills. rewrite D, S. exact D.
  - destruct (contains (T ",") skills); [| exact D].
    rewrite lookup_set_key_other; [exact D | exact Ek].
Qed.

(** X14: the value given for a field is found verbatim in the formatted
    resume, for each of the ten fields and each of the four templates
    (for the skills: when they are not a comma-separated list). *)
Theorem X14_format_resume_shows_value
    (template_name : text) (dark_mode : bool) (kwargs : list (text * text))
    (k v : text) :
  has_key defaults k = true ->
  text_eqb k (T "skills") && contains (T ",") v = false ->
  exists out,
    format_resume template_name dark_mode (kwargs ++ [(k, v)]) = Formatted out
    /\ contains v out = true.
Proof.
  intros K S.
  assert (R : exists out,
            format_resume template_name dark_mode (kwargs ++ [(k, v)])
            = Formatted out).
  { clear K S. unfold format_resume. apply str_format_templates.
    - apply get_template_cases.
    - destruct (contains _ _); [rewrite set_key_keys |];
        apply fold_update_keys. }
  destruct R as (out & E).
  exists out. split; [exact E |].
  pose proof (@final_lookup kwargs k v K S) as L. cbv zeta in L.
  unfold format_resume, str_format in E. cbv zeta in E.
  pose proof (@format_go_fields _ _ _ (le_n _) _ _ E) as F.
  pose proof (get_template_cases template_name dark_mode) as I.
  apply in_map_iff in I. destruct I as (e & Ee & I).
  pose proof templates_fields as TF. rewrite forallb_forall in TF.
  specialize (TF e I). rewrite forallb_forall in TF.
  assert (Kf : In k field_names).
  { rewrite has_key_keys in K. apply existsb_text_In, K. }
  specialize (TF k Kf). apply existsb_text_In in TF.
  unfold fields in TF. rewrite Ee in TF.
  rewrite Forall_forall in F. destruct (F k TF) as (v' & Hv & C).
  rewrite L in Hv. injection Hv as <-. exact C.
Qed.

Lemma X14_format_resume_shows_value_witness :
  exists out,
    format_resume (T "classic") false
                  ([(T "email", T "a@b.c")] ++ [(T "name", T "Ann {Lee}")])
    = Formatted out
    /\ contains (T "Ann {Lee}") out = true.
Proof.
  apply (@X14_format_resume_shows_value (T "classic") false
           [(T "email", T "a@b.c")] (T "name") (T "Ann {Lee}"));
    vm_compute; reflexivity.
Defined.

(** *** Skills given as a comma-separated list *)

Lemma split_char_cons (sep : char) (s : text) :
  exists w ws, split_char sep s = w :: ws.
Proof.
  induction s as [| c s (w & ws & IH)]; cbn [split_char]; [eauto |].
  destruct (c =? sep)%N; [eauto |]. rewrite IH. eauto.
Qed.

Lemma split_char_app (sep : char) (p rest : text) :
  mem_char p sep = false ->
  split_char sep (p ++ sep :: rest) = p :: split_char sep rest.
Proof.
  unfold mem_char. induction p as [| c p IH]; intros H; cbn [app split_char].
  - now rewrite N.eqb_refl.
  - cbn [existsb] in H. apply orb_false_iff in H. destruct H as [Hc Hp].
    rewrite N.eqb_sym, Hc, (IH Hp). reflexivity.
Qed.

Lemma split_char_none (sep : char) (p : text) :
  mem_char p sep = false -> split_char sep p = [p].
Proof.
  unfold mem_char. induction p as [| c p IH]; intros H; cbn [split_char];
    [reflexivity |].
  cbn [existsb] in H. apply orb_false_iff in H. destruct H as [Hc Hp].
  rewrite N.eqb_sym, Hc, (IH Hp). reflexivity.
Qed.

(** Splitting what was joined gives the items back. *)
Lemma split_char_join (sep : char) (item : text) (items : list text) :
  forallb (fun s => negb (mem_char s sep)) (item :: items) = true ->
  split_char sep (join [sep] (item :: items)) = item :: items.
Proof.
  revert item. induction items as [| q items IH]; intros item H.
  - cbn [join]. apply split_char_none. cbn in H. rewrite andb_true_r in H.
    now apply negb_true_iff.
  - cbn [forallb] in H. apply andb_prop in H. destruct H as [Hi H].
    apply negb_true_iff in Hi.
    change (join [sep] (item :: q :: items))
      with (item ++ sep :: join [sep] (q :: items)).
    rewrite (@split_char_app sep item _ Hi). f_equal. apply IH, H.
Qed.

Lemma mem_char_app (a b : text) (c : char) :
  mem_char (a ++ b) c = mem_char a c || mem_char b c.
Proof. unfold mem_char. apply existsb_app. Qed.

Lemma mem_char_join (sep : text) (c : char) (items : list text) :
  mem_char sep c = false ->
  forallb (fun s => negb (mem_char s c)) items = true ->
  mem_char (join sep items) c = false.
Proof.
  intros Hs. induction items as [| p items IH]; intros H; [reflexivity |].
  cbn [forallb] in H. apply andb_prop in H. destruct H as [Hp H].
  apply negb_true_iff in Hp. destruct items as [| q items]; [exact Hp |].
  change (join sep (p :: q :: items)) with (p ++ sep ++ join sep (q :: items)).
  rewrite !mem_char_app, Hp, Hs, (IH H). reflexivity.
Qed.

Lemma mem_char_strip (s : text) (c : char) :
  mem_char s c = false -> mem_char (strip s) c = false.
Proof.
  unfold mem_char. intros H.
  destruct (existsb (N.eqb c) (strip s)) eqn:E; [| reflexivity].
  apply existsb_exists in E. destruct E as (x & Hx & E).
  apply (strip_by_incl is_space) in Hx.
  assert (existsb (N.eqb c) s = true)
    by (apply existsb_exists; now exists x).
  congruence.
Qed.

Lemma skill_items_comma_free (skills : list text) :
  forallb comma_free skills = true ->
  mem_char (join [newline] (map skill_item skills)) comma = false.
Proof.
  intros H. apply mem_char_join; [reflexivity |].
  rewrite forallb_forall in *. intros x Hx. apply in_map_iff in Hx.
  destruct Hx as (s & <- & Hs). specialize (H s Hs).
  unfold comma_free in H. apply negb_true_iff in H.
  apply negb_true_iff. unfold skill_item. rewrite mem_char_app.
  rewrite (@mem_char_strip s comma H). reflexivity.
Qed.

(** The dict the template is filled from, when the last keyword argument
    gives the skills. *)
Lemma final_dict_skills (kwargs : list (text * text)) (skills : text) :
  let d := fold_left update_defaults (kwargs ++ [(T "skills", skills)])
                     defaults in
  let given := match lookup d (T "skills") with
               | Some s => s
               | None => []
               end in
  (if contains (T ",") given
   then set_key (T "skills") (formatted_skills given) d
   else d)
  = set_key (T "skills")
            (if mem_char skills comma then formatted_skills skills
             else skills)
            (fold_left update_defaults kwargs defaults).
Proof.
  intros d given.
  assert (K : has_key (fold_left update_defaults kwargs defaults) (T "skills")
              = true).
  { rewrite has_key_keys, fold_update_keys. reflexivity. }
  assert (D : d = set_key (T "skills") skills
                          (fold_left update_defaults kwargs defaults)).
  { unfold d. rewrite fold_left_app. cbn [fold_left].
    set (d0 := fold_left update_defaults kwargs defaults) in *.
    unfold update_defaults. cbn [fst snd]. now rewrite K. }
  assert (G : given = skills).
  { unfold given. rewrite D, (@lookup_set_key_same _ skills _ K). reflexivity. }
  rewrite G, contains_comma. destruct (mem_char skills comma); [| exact D].
  rewrite D. apply set_key_twice.
Qed.

(** X15: skills given as a comma-separated list of two or more are laid
    out one per line, each trimmed and behind a dash: the result is the
    same as when the skills are given as that list of lines. *)
Theorem X15_format_resume_lists_skills
    (template_name : text) (dark_mode : bool) (kwargs : list (text * text))
    (skill1 skill2 : text) (skills : list text) :
  forallb comma_free (skill1 :: skill2 :: skills) = true ->
  format_resume template_name dark_mode
    (kwargs ++ [(T "skills", join [comma] (skill1 :: skill2 :: skills))])
  = format_resume template_name dark_mode
      (kwargs ++ [(T "skills",
                   join [newline]
                        (map skill_item (skill1 :: skill2 :: skills)))]).
Proof.
  intros H. unfold format_resume. cbv zeta. rewrite !final_dict_skills.
  rewrite (@skill_items_comma_free _ H).
  assert (C : mem_char (join [comma] (skill1 :: skill2 :: skills)) comma
              = true).
  { change (join [comma] (skill1 :: skill2 :: skills))
      with (skill1 ++ [comma] ++ join [comma] (skill2 :: skills)).
    rewrite !mem_char_app. cbn. apply orb_true_r. }
  rewrite C. unfold formatted_skills. rewrite split_char_join.
  - rewrite map_map. reflexivity.
  - exact H.
Qed.

Lemma X15_format_resume_lists_skills_witness :
  format_resume (T "modern") false
    ([(T "name", T "Ann")]
       ++ [(T "skills", join [comma] [T "Python"; T " SQL "; T "Go"])])
  = format_resume (T "modern") false
      ([(T "name", T "Ann")]
         ++ [(T "skills",
              join [newline] (map skill_item [T "Python"; T " SQL "; T "Go"]))]).
Proof.
  apply (@X15_format_resume_lists_skills (T "modern") false [(T "name", T "Ann")]
           (T "Python") (T " SQL ") [T "Go"]).
  reflexivity.
Defined.

(** ** Suggestions: drawing without replacement *)

Lemma list_set_length (j : nat) (x : text) (l : list text) :
  length (list_set j x l) = length l.
Proof.
  revert j. induction l as [| y l IH]; intros [| j]; cbn; auto.
Qed.

(** Putting [z] in the place of item [j] trades the one for the other. *)
Lemma list_set_perm (l : list text) :
  forall j z, j < length l ->
  Permutation (nth j l [] :: list_set j z l) (z :: l).
Proof.
  induction l as [| y l IH]; intros j z H; [cbn in H; lia |].
  destruct j as [| j]; cbn [nth list_set].
  - apply perm_swap.
  - cbn [length] in H. specialize (IH j z ltac:(lia)).
    eapply perm_trans; [apply perm_swap |].
    eapply perm_trans; [apply perm_skip, IH | apply perm_swap].
Qed.

Lemma firstn_list_set_lt (l : list text) :
  forall j m z, j < m ->
  firstn m (list_set j z l) = list_set j z (firstn m l).
Proof.
  induction l as [| y l IH]; intros j m z H.
  - destruct j; cbn [list_set]; now rewrite !firstn_nil.
  - destruct m as [| m]; [lia |]. destruct j as [| j]; cbn; [reflexivity |].
    f_equal. apply IH. lia.
Qed.

Lemma firstn_list_set_ge (l : list text) :
  forall j m z, m <= j -> firstn m (list_set j z l) = firstn m l.
Proof.
  induction l as [| y l IH]; intros j m z H; [reflexivity |].
  destruct m as [| m]; [reflexivity |]. destruct j as [| j]; [lia |].
  cbn. f_equal. apply IH. lia.
Qed.

Lemma firstn_snoc (l : list text) :
  forall m, m < length l -> firstn (S m) l = firstn m l ++ [nth m l []].
Proof.
  induction l as [| y l IH]; intros m H; [cbn in H; lia |].
  destruct m as [| m]; [reflexivity |]. cbn [length] in H.
  cbn [firstn nth app]. f_equal. apply IH. lia.
Qed.

Lemma nth_firstn_lt (l : list text) :
  forall j m, j < m -> nth j (firstn m l) [] = nth j l [].
Proof.
  induction l as [| y l IH]; intros j m H.
  - rewrite firstn_nil. reflexivity.
  - destruct m as [| m]; [lia |]. destruct j as [| j]; [reflexivity |].
    cbn. apply IH. lia.
Qed.

(** One draw: the item taken and the items left are the items there
    were. *)
Lemma draw_perm (pool : list text) (n j : nat) :
  j < n -> n <= length pool ->
  Permutation
    (nth j pool [] :: firstn (n - 1) (list_set j (nth (n - 1) pool []) pool))
    (firstn n pool).
Proof.
  intros Hj Hn. destruct n as [| m]; [lia |].
  replace (S m - 1) with m by lia.
  rewrite (@firstn_snoc pool m) by lia.
  set (z := nth m pool []).
  destruct (Nat.eq_dec j m) as [-> | Ne].
  - rewrite firstn_list_set_ge by lia. fold z.
    apply Permutation_cons_append.
  - rewrite firstn_list_set_lt by lia.
    rewrite <- (@nth_firstn_lt pool j m) by lia.
    rewrite list_set_perm by (rewrite length_firstn; lia).
    apply Permutation_cons_append.
Qed.

Lemma sample_go_perm (k : nat) :
  forall (pool : list text) (n : nat) (g : rng),
  k <= n -> n <= length pool ->
  length (fst (sample_go pool n k g)) = k /\
  exists rest,
    Permutation (fst (sample_go pool n k g) ++ rest) (firstn n pool).
Proof.
  induction k as [| k IH]; intros pool n g Hk Hn.
  - split; [reflexivity |]. exists (firstn n pool). reflexivity.
  - cbn [sample_go]. unfold randbelow.
    set (j := g 0 mod n). set (g1 := fun i => g (S i)).
    set (pool' := list_set j (nth (n - 1) pool []) pool).
    assert (Hj : j < n) by (apply Nat.mod_upper_bound; lia).
    destruct (IH pool' (n - 1) g1 ltac:(lia)
                ltac:(unfold pool'; rewrite list_set_length; lia))
      as (L & rest & P).
    destruct (sample_go pool' (n - 1) k g1) as [r g2]. cbn [fst] in *.
    split; [cbn; now rewrite L |].
    exists rest. cbn [app]. rewrite P. apply draw_perm; assumption.
Qed.

(** [random.sample] gives [k] items of the population, none of them
    twice when the population has none twice. *)
Lemma random_sample_spec (population : list text) (k : nat) (g : rng) :
  k <= length population -> NoDup population ->
  length (fst (random_sample population k g)) = k /\
  NoDup (fst (random_sample population k g)) /\
  incl (fst (random_sample population k g)) population.
Proof.
  intros Hk ND. unfold random_sample.
  destruct (@sample_go_perm k population (length population) g Hk (le_n _))
    as (L & rest & P).
  rewrite firstn_all in P. split; [exact L | split].
  - apply (Permutation_NoDup (Permutation_sym P)) in ND.
    exact (NoDup_app_remove_r _ _ ND).
  - intros x Hx. apply (Permutation_in _ P), in_or_app. now left.
Qed.

(** ** Suggestions: skills *)

(** Every list of [SKILL_SUGGESTIONS] names at least 12 skills, and none
    twice. *)
Lemma SKILL_SUGGESTIONS_lists :
  forallb (fun e => (12 <=? length (snd e)) && nodupb (snd e))
          SKILL_SUGGESTIONS = true.
Proof. vm_compute. reflexivity. Qed.

Lemma table_get_In (table : list (text * list text)) (k : text)
    (default : list text) :
  In (table_get table k default) (default :: map snd table).
Proof.
  unfold table_get. destruct (find _ table) as [e |] eqn:F; [| now left].
  right. apply in_map. exact (proj1 (find_some _ _ F)).
Qed.

(** The population the fallback draws from. *)
Lemma skills_population (role : text) :
  In (table_get SKILL_SUGGESTIONS role
                (table_get SKILL_SUGGESTIONS (T "software developer") []))
     (map snd SKILL_SUGGESTIONS).
Proof.
  destruct (table_get_In SKILL_SUGGESTIONS role
              (table_get SKILL_SUGGESTIONS (T "software developer") []))
    as [<- | H]; [| exact H].
  vm_compute. tauto.
Qed.

Lemma closest_role_key (job_role : text) :
  In (closest_role job_role) (map fst SKILL_SUGGESTIONS).
Proof.
  unfold closest_role.
  destruct (find _ (map fst SKILL_SUGGESTIONS)) as [role |] eqn:F.
  - exact (proj1 (find_some _ _ F)).
  - vm_compute. tauto.
Qed.

Lemma table_get_key (table : list (text * list text)) (k : text)
    (d1 d2 : list text) :
  In k (map fst table) -> table_get table k d1 = table_get table k d2.
Proof.
  unfold table_get. intros H.
  destruct (find _ table) as [e |] eqn:F; [reflexivity |].
  exfalso. apply in_map_iff in H. destruct H as (e & <- & He).
  pose proof (find_none _ _ F e He) as N. cbn in N.
  now rewrite text_eqb_refl in N.
Qed.

(** X16: when the service gives nothing to go by, [get_skill_suggestions]
    returns exactly 12 skills, all different, all from the list of the
    role closest to the job role, whatever the state of the random
    generator. *)
Theorem X16_get_skill_suggestions_fallback
    (world : service) (job_role : text) (g : rng) :
  no_answer (get_suggestions_from_ollama world
               (skills_prompt (lower_text job_role))) = true ->
  let r := fst (get_skill_suggestions world job_role g) in
  length r = 12 /\ NoDup r /\
  Forall (fun s => listed SKILL_SUGGESTIONS
                          (closest_role (lower_text job_role)) s = true) r.
Proof.
  intros H r. unfold r, get_skill_suggestions.
  set (population :=
         table_get SKILL_SUGGESTIONS (closest_role (lower_text job_role))
           (table_get SKILL_SUGGESTIONS (T "software developer") [])).
  assert (E : fst (match get_suggestions_from_ollama world
                           (skills_prompt (lower_text job_role)) with
                   | Some ((_ :: _) as ai_suggestions) =>
                       (firstn 15
                          (filter (fun s => negb (text_eqb s []))
                             (map strip (split_char comma ai_suggestions))),
                        g)
                   | _ => random_sample population
                            (Nat.min 12 (length population)) g
                   end)
              = fst (random_sample population
                       (Nat.min 12 (length population)) g)).
  { destruct (get_suggestions_from_ollama _ _) as [[| c s] |];
      try reflexivity. discriminate H. }
  cbv zeta. fold population. rewrite E. clear E.
  pose proof (skills_population (closest_role (lower_text job_role))) as I.
  fold population in I. apply in_map_iff in I. destruct I as (e & Ee & I).
  pose proof SKILL_SUGGESTIONS_lists as C. rewrite forallb_forall in C.
  specialize (C e I). rewrite Ee in C. apply andb_prop in C.
  destruct C as [C1 C2]. apply Nat.leb_le in C1. apply nodupb_NoDup in C2.
  replace (Nat.min 12 (length population)) with 12 by lia.
  destruct (@random_sample_spec population 12 g C1 C2) as (L & N & S).
  split; [exact L | split; [exact N |]].
  apply Forall_forall. intros s Hs. unfold listed.
  rewrite (@table_get_key SKILL_SUGGESTIONS _ []
             (table_get SKILL_SUGGESTIONS (T "software developer") [])
             (closest_role_key _)).
  fold population. apply existsb_text_In, S, Hs.
Qed.


Lemma X16_get_skill_suggestions_fallback_witness :
  let r := fst (get_skill_suggestions (fun _ => Raised) (T "UX Designer")
                                      (fun i => 5 * i + 3)) in
  length r = 12 /\ NoDup r /\
  Forall (fun s => listed SKILL_SUGGESTIONS
                          (closest_role (lower_text (T "UX Designer"))) s
                   = true) r.
Proof.
  apply (@X16_get_skill_suggestions_fallback (fun _ => Raised) (T "UX Designer")
           (fun i => 5 * i + 3)).
  reflexivity.
Defined.

(** X17: when the service answers with a text that is not empty,
    [get_skill_suggestions] returns its comma-separated items, trimmed,
    the empty ones left out, at most 15 of them; the random generator is
    not used, and neither is the table (also when no item is left). *)
Theorem X17_get_skill_suggestions_answered
    (world : service) (job_role : text) (g : rng) (c : char) (answer : text) :
  world (skills_prompt (lower_text job_role)) = Answered 200 (c :: answer) ->
  let r := get_skill_suggestions world job_role g in
  snd r = g /\ length (fst r) <= 15 /\ Forall clean_keyword (fst r) /\
  fst r = firstn 15 (filter (fun s => negb (text_eqb s []))
                            (map strip (split_char comma (c :: answer)))).
Proof.
  intros E r. unfold r, get_skill_suggestions, get_suggestions_from_ollama.
  rewrite E. cbn [fst snd].
  split; [reflexivity | split; [| split; [| reflexivity]]].
  - rewrite length_firstn. lia.
  - apply firstn_Forall, Forall_forall. intros k Hk.
    apply filter_In in Hk. destruct Hk as [Hk Hn].
    apply in_map_iff in Hk. destruct Hk as (x & <- & _).
    split; [exact Hn | apply strip_by_idem].
Qed.

Lemma X17_get_skill_suggestions_answered_witness :
  let r := get_skill_suggestions
             (fun _ => Answered 200 (T "Python , SQL,,"))
             (T "Analyst") (fun _ => 0) in
  snd r = (fun _ => 0) /\ length (fst r) <= 15 /\
  Forall clean_keyword (fst r) /\
  fst r = firstn 15 (filter (fun s => negb (text_eqb s []))
                            (map strip (split_char comma (T "Python , SQL,,")))).
Proof.
  apply (@X17_get_skill_suggestions_answered
           (fun _ => Answered 200 (T "Python , SQL,,")) (T "Analyst")
           (fun _ => 0) 80%N (T "ython , SQL,,")).
  reflexivity.
Defined.

(** ** Suggestions: the summary *)

(** Every role of [SUMMARY_SUGGESTIONS] has a summary, and no role is
    there twice. *)
Lemma SUMMARY_SUGGESTIONS_lists :
  forallb (fun e => negb (length (snd e) =? 0)) SUMMARY_SUGGESTIONS
  && nodupb (map fst SUMMARY_SUGGESTIONS) = true.
Proof. vm_compute. reflexivity. Qed.

Lemma random_choice_In (l : list text) (g : rng) :
  l <> [] -> In (fst (random_choice l g)) l.
Proof.
  intros H. unfold random_choice, randbelow. cbn [fst]. apply nth_In.
  apply Nat.mod_upper_bound. destruct l; [contradiction | discriminate].
Qed.

Lemma table_get_entry (table : list (text * list text))
    (e : text * list text) (default : list text) :
  NoDup (map fst table) -> In e table ->
  table_get table (fst e) default = snd e.
Proof.
  unfold table_get. induction table as [| x table IH]; intros N I;
    [destruct I |].
  cbn [map] in N. apply NoDup_cons_iff in N. destruct N as [Nx N].
  cbn [find]. destruct I as [-> | I].
  - now rewrite text_eqb_refl.
  - destruct (text_eqb (fst x) (fst e)) eqn:E; [| apply IH; assumption].
    apply text_eqb_eq in E. exfalso. apply Nx. rewrite E.
    apply in_map, I.
Qed.

Lemma summary_fallback (table : list (text * list text)) (job_role : text)
    (g : rng) :
  forallb (fun e => negb (length (snd e) =? 0)) table
  && nodupb (map fst table) = true ->
  table_get table (T "software developer") [] <> [] ->
  let e := find (fun e => contains (fst e) job_role) table in
  existsb
    (text_eqb
       (fst match e with
            | Some e => random_choice (snd e) g
            | None =>
                random_choice (table_get table (T "software developer") []) g
            end))
    (table_get table
               match e with
               | Some e => fst e
               | None => T "software developer"
               end [])
  = true.
Proof.
  intros C D e. apply andb_prop in C. destruct C as [C N].
  apply nodupb_NoDup in N. rewrite forallb_forall in C.
  unfold e. destruct (find _ table) as [x |] eqn:F.
  - pose proof (find_some _ _ F) as [I _]. specialize (C x I).
    rewrite (@table_get_entry table x [] N I).
    apply existsb_text_In, random_choice_In. intros Z. now rewrite Z in C.
  - apply existsb_text_In, random_choice_In, D.
Qed.

(** X18: when the service gives nothing to go by,
    [get_summary_suggestion] returns one of the summaries of the table:
    one of the first role of the table named in the job role, and one of
    the software developer when no role is. *)
Theorem X18_get_summary_suggestion_fallback
    (world : service) (job_role : text) (years_experience : option text)
    (g : rng) :
  no_answer (get_suggestions_from_ollama world
               (summary_prompt (lower_text job_role) years_experience))
  = true ->
  listed SUMMARY_SUGGESTIONS (summary_role (lower_text job_role))
         (fst (get_summary_suggestion world job_role years_experience g))
  = true.
Proof.
  intros H. unfold get_summary_suggestion, summary_role, listed.
  assert (D : table_get SUMMARY_SUGGESTIONS (T "software developer") [] <> [])
    by (vm_compute; discriminate).
  pose proof (@summary_fallback SUMMARY_SUGGESTIONS (lower_text job_role) g
                SUMMARY_SUGGESTIONS_lists D) as S.
  cbv zeta in S.
  destruct (get_suggestions_from_ollama _ _) as [[| c s] |];
    try discriminate H; exact S.
Qed.

Lemma X18_get_summary_suggestion_fallback_witness :
  listed SUMMARY_SUGGESTIONS (summary_role (lower_text (T "Lead Designer")))
         (fst (get_summary_suggestion (fun _ => Answered 503 (T "busy"))
                 (T "Lead Designer") (Some (T "5")) (fun _ => 7)))
  = true.
Proof.
  apply (@X18_get_summary_suggestion_fallback (fun _ => Answered 503 (T "busy"))
           (T "Lead Designer") (Some (T "5")) (fun _ => 7)).
  reflexivity.
Defined.

(** ** The generator: exporting *)

(** X19: with the export module at hand, a format that is none of
    ["html"], ["docx"] and ["pdf"] (["txt"], an unknown one, or one of the
    three in capitals) gives a text file: when that file can be written
    (it can be opened, the resume holds no surrogate and the device takes
    it), the resume is written, as it is, to the file name with [.txt]
    added. *)
Theorem X19_export_resume_text_by_default
    (markdown : option (text -> text + text)) (fpdf docx : option renderer)
    (abspath : text -> text) (timestamp resume_text format_type filename : text)
    (w : filesystem) :
  existsb (text_eqb format_type) [T "html"; T "docx"; T "pdf"] = false ->
  can_write w (filename ++ T ".txt") resume_text ->
  let r := export_resume markdown fpdf docx abspath true timestamp
                         resume_text format_type (Some filename) w in
  fst r = Returns (abspath (filename ++ T ".txt")) /\
  read_file (filename ++ T ".txt") (snd r) = Some resume_text.
Proof.
  intros F O r.
  assert (E : r = save_as_text abspath resume_text (filename ++ T ".txt") w).
  { unfold r, export_resume, save_resume_as_text. cbn [negb existsb] in *.
    apply orb_false_iff in F. destruct F as [F1 F].
    apply orb_false_iff in F. destruct F as [F2 F].
    apply orb_false_iff in F. destruct F as [F3 _].
    destruct (text_eqb format_type (T "txt")); [reflexivity |].
    now rewrite F1, F2, F3. }
  rewrite E. unfold save_as_text. rewrite (@write_file_ok _ _ _ O).
  split; [reflexivity | apply read_holding].
Qed.

Lemma X19_export_resume_text_by_default_witness :
  let r := export_resume None None None (fun p => p) true (T "20240101_120000")
                         (T "Jane Doe") (T "PDF") (Some (T "cv")) empty_disk in
  fst r = Returns (T "cv.txt") /\
  read_file (T "cv.txt") (snd r) = Some (T "Jane Doe").
Proof.
  apply (@X19_export_resume_text_by_default None None None (fun p => p)
           (T "20240101_120000") (T "Jane Doe") (T "PDF") (T "cv") empty_disk);
    [reflexivity |].
  split; [reflexivity | split; [vm_compute; reflexivity | reflexivity]].
Defined.

(** X20: with the export module at hand, [export_resume] lets an
    exception escape for one format only, ["html"], and only when the
    markdown package is missing; every other failure comes back as a
    string. *)
Theorem X20_export_resume_escapes_only_html
    (markdown : option (text -> text + text)) (fpdf docx : option renderer)
    (abspath : text -> text) (timestamp resume_text format_type : text)
    (filename : option text) (w : filesystem) (message : text) :
  fst (export_resume markdown fpdf docx abspath true timestamp
                     resume_text format_type filename w) = Escapes message ->
  format_type = T "html" /\ markdown = None.
Proof.
  unfold export_resume, save_resume_as_text. cbn [negb].
  set (f := match filename with Some f => f | None => _ end).
  destruct (text_eqb format_type (T "txt")).
  { unfold save_as_text. destruct (write_file _ _ _) as [[m |] w'];
      discriminate. }
  destruct (text_eqb format_type (T "html")) eqn:H.
  { apply text_eqb_eq in H. intros E. split; [exact H |].
    unfold save_as_html in E. destruct markdown as [convert |];
      [| reflexivity].
    destruct (convert resume_text); [| discriminate E].
    destruct (write_file _ _ _) as [[m |] w']; discriminate E. }
  destruct (text_eqb format_type (T "docx")).
  { unfold save_as_docx. destruct docx as [render |]; [| discriminate].
    destruct (render _ _ _) as [[m |] w']; discriminate. }
  destruct (text_eqb format_type (T "pdf")).
  { unfold save_as_pdf. destruct fpdf as [render |]; [| discriminate].
    destruct (render _ _ _) as [[m |] w']; discriminate. }
  unfold save_as_text. destruct (write_file _ _ _) as [[m |] w'];
    discriminate.
Qed.

Lemma X20_export_resume_escapes_only_html_witness :
  T "html" = T "html" /\ @None (text -> text + text) = None.
Proof.
  apply (@X20_export_resume_escapes_only_html None None None (fun p => p)
           (T "20240101_120000") (T "Jane Doe") (T "html") None locked_disk
           (T "Permission denied")).
  reflexivity.
Defined.

(** ** The generator: its own templates *)

Lemma basic_templates (k : text) :
  existsb (text_eqb k) [T "minimalist"; T "dark"] = false ->
  dict_get templates k MODERN_TEMPLATE =
  dict_get BASIC_TEMPLATES k (dict_get BASIC_TEMPLATES (T "modern") []).
Proof.
  intros H. cbn [existsb] in H.
  apply orb_false_iff in H. destruct H as [H1 H].
  apply orb_false_iff in H. destruct H as [H2 _].
  rewrite dict_get_templates.
  rewrite (text_eqb_sym (T "minimalist")), (text_eqb_sym (T "dark")), H1, H2.
  unfold dict_get, BASIC_TEMPLATES. cbn [find fst snd].
  destruct (text_eqb (T "modern") k); [vm_compute; reflexivity |].
  destruct (text_eqb (T "classic") k); vm_compute; reflexivity.
Qed.

Lemma fold_update_fields
    (name job_role summary skills experience education email phone location
       links : text) :
  fold_left update_defaults
    [ (T "name", name); (T "job_role", job_role); (T "summary", summary);
      (T "skills", skills); (T "experience", experience);
      (T "education", education); (T "email", email); (T "phone", phone);
      (T "location", location); (T "links", links) ] defaults
  = [ (T "name", name); (T "job_role", job_role); (T "summary", summary);
      (T "skills", skills); (T "experience", experience);
      (T "education", education); (T "email", email); (T "phone", phone);
      (T "location", location); (T "links", links) ].
Proof. vm_compute. reflexivity. Qed.

(** X21: the templates the generator carries itself are those of the
    templates module: for every template name but ["minimalist"] and
    ["dark"], and skills that are not a comma-separated list, the resume
    comes out the same whether the templates module could be imported or
    not. *)
Theorem X21_format_resume_from_template_basic
    (AI_SUGGESTIONS_AVAILABLE : bool) (world : service)
    (name job_role skills experience education email phone location links
       template_name : text) (g : rng) :
  existsb (text_eqb (lower_text template_name)) [T "minimalist"; T "dark"]
  = false ->
  mem_char skills comma = false ->
  format_resume_from_template true AI_SUGGESTIONS_AVAILABLE world
    name job_role skills experience education email phone location links
    template_name g
  = format_resume_from_template false AI_SUGGESTIONS_AVAILABLE world
      name job_role skills experience education email phone location links
      template_name g.
Proof.
  intros H S. unfold format_resume_from_template.
  destruct (get_summary AI_SUGGESTIONS_AVAILABLE world job_role g)
    as [summary g'].
  f_equal. unfold format_resume. cbv zeta. rewrite fold_update_fields.
  change (lookup _ (T "skills")) with (Some skills). cbv iota.
  rewrite contains_comma, S. f_equal.
  unfold get_template. cbn [andb]. apply basic_templates, H.
Qed.

Lemma X21_format_resume_from_template_basic_witness :
  format_resume_from_template true false (fun _ => Raised)
    (T "Ann") (T "Tester") (T "SQL") (T "QA at X") (T "BSc") (T "a@b.c")
    (T "1") (T "Oslo") [] (T "Classic") (fun _ => 0)
  = format_resume_from_template false false (fun _ => Raised)
      (T "Ann") (T "Tester") (T "SQL") (T "QA at X") (T "BSc") (T "a@b.c")
      (T "1") (T "Oslo") [] (T "Classic") (fun _ => 0).
Proof.
  apply (@X21_format_resume_from_template_basic false (fun _ => Raised)
           (T "Ann") (T "Tester") (T "SQL") (T "QA at X") (T "BSc")
           (T "a@b.c") (T "1") (T "Oslo") [] (T "Classic") (fun _ => 0));
    reflexivity.
Defined.

(** ** Suggestions: filling the placeholders *)

(** *** [replace] on the segments of a template *)

Lemma no_lbrace_cons (c : char) (s : text) :
  no_lbrace (c :: s) = true -> (lbrace =? c)%N = false /\ no_lbrace s = true.
Proof.
  unfold no_lbrace, mem_char. cbn [existsb]. intros H.
  apply negb_true_iff, orb_false_iff in H. destruct H as [H1 H2].
  split; [exact H1 | now apply negb_true_iff].
Qed.

(** A literal without an opening brace is passed over unchanged. *)
Lemma replace_go_lit (p v s rest : text) :
  no_lbrace s = true ->
  replace_go (lbrace :: p) v 0 (s ++ rest)
  = s ++ replace_go (lbrace :: p) v 0 rest.
Proof.
  induction s as [| c s IH]; intros H; [reflexivity |].
  apply no_lbrace_cons in H. destruct H as [Hc Hs].
  cbn [app replace_go startswith]. rewrite Hc. cbn [andb].
  now rewrite (IH Hs).
Qed.

Lemma replace_go_skip (old v x rest : text) :
  replace_go old v (length x) (x ++ rest) = replace_go old v 0 rest.
Proof. induction x as [| c x IH]; [reflexivity | exact IH]. Qed.

Lemma no_brace_cons (c : char) (s : text) :
  no_brace (c :: s) = true ->
  (lbrace =? c)%N = false /\ (rbrace =? c)%N = false /\ no_brace s = true.
Proof.
  unfold no_brace, mem_char. cbn [existsb]. intros H.
  apply andb_prop in H. destruct H as [H1 H2].
  apply negb_true_iff, orb_false_iff in H1.
  apply negb_true_iff, orb_false_iff in H2.
  destruct H1 as [A1 B1], H2 as [A2 B2]. rewrite B1, B2. auto.
Qed.

(** At a hole, the placeholder [{n}] is found exactly when the hole is
    named [n]. *)
Lemma startswith_hole (n : text) :
  forall m rest,
  no_brace n = true -> no_brace m = true ->
  startswith (n ++ [rbrace]) (m ++ rbrace :: rest) = text_eqb m n.
Proof.
  induction n as [| a n IH]; intros m rest Hn Hm.
  - destruct m as [| c m]; [reflexivity |].
    apply no_brace_cons in Hm. destruct Hm as (_ & Hc & _).
    cbn [app startswith]. rewrite Hc. cbn [andb]. symmetry.
    destruct (text_eqb (c :: m) []) eqn:E; [| reflexivity].
    apply text_eqb_eq in E. discriminate E.
  - apply no_brace_cons in Hn. destruct Hn as (_ & Ha & Hn).
    destruct m as [| c m].
    + cbn [app startswith]. rewrite N.eqb_sym, Ha. cbn [andb]. symmetry.
      destruct (text_eqb [] (a :: n)) eqn:E; [| reflexivity].
      apply text_eqb_eq in E. discriminate E.
    + apply no_brace_cons in Hm. destruct Hm as (_ & _ & Hm).
      cbn [app startswith]. rewrite (IH m rest Hn Hm).
      destruct (a =? c)%N eqn:Eac; cbn [andb].
      * apply N.eqb_eq in Eac. subst c.
        destruct (text_eqb m n) eqn:E.
        -- apply text_eqb_eq in E. subst m. symmetry. apply text_eqb_refl.
        -- symmetry. destruct (text_eqb (a :: m) (a :: n)) eqn:E';
             [| reflexivity].
           apply text_eqb_eq in E'. injection E' as ->.
           now rewrite text_eqb_refl in E.
      * symmetry. destruct (text_eqb (c :: m) (a :: n)) eqn:E';
          [| reflexivity].
        apply text_eqb_eq in E'. injection E' as -> _.
        now rewrite N.eqb_refl in Eac.
Qed.

Lemma no_brace_lbrace (s : text) :
  no_brace s = true -> no_lbrace (s ++ [rbrace]) = true.
Proof.
  unfold no_brace, no_lbrace. intros H. apply andb_prop in H.
  destruct H as [H _]. apply negb_true_iff in H. apply negb_true_iff.
  rewrite mem_char_app, H. reflexivity.
Qed.

(** Replacing the placeholder [{n}] fills the holes named [n]. *)
Lemma replace_render (names : list text) (n v : text)
    (template : list segment) :
  no_brace n = true ->
  forallb (segment_ok names) template = true ->
  replace (lbrace :: n ++ [rbrace]) v (render template)
  = render (map (fill_hole n v) template).
Proof.
  intros Hn. unfold replace, render.
  induction template as [| x template IH]; intros H; [reflexivity |].
  cbn [forallb] in H. apply andb_prop in H. destruct H as [Hx H].
  specialize (IH H). cbn [flat_map map]. destruct x as [s | m].
  - cbn [segment_ok] in Hx. cbn [fill_hole segment_text].
    rewrite (@replace_go_lit _ v s _ Hx). now rewrite IH.
  - cbn [segment_ok] in Hx. apply andb_prop in Hx. destruct Hx as [Hm _].
    cbn [fill_hole segment_text app replace_go startswith].
    rewrite N.eqb_refl. cbn [andb]. rewrite <- app_assoc. cbn [app].
    rewrite (@startswith_hole n m (flat_map segment_text template) Hn Hm).
    destruct (text_eqb m n) eqn:E.
    + apply text_eqb_eq in E. subst m. cbn [segment_text length].
      replace (S (length (n ++ [rbrace])) - 1) with (length (n ++ [rbrace]))
        by lia.
      change (n ++ rbrace :: flat_map segment_text template)
        with (n ++ [rbrace] ++ flat_map segment_text template).
      rewrite app_assoc, replace_go_skip. now rewrite IH.
    + cbn [segment_text app]. f_equal.
      change (m ++ rbrace :: flat_map segment_text template)
        with (m ++ [rbrace] ++ flat_map segment_text template).
      rewrite app_assoc,
        (@replace_go_lit _ v (m ++ [rbrace]) _ (@no_brace_lbrace m Hm)).
      now rewrite IH, <- app_assoc.
Qed.

Lemma fill_hole_ok (n v : text) (names : list text) (x : segment) :
  no_lbrace v = true ->
  segment_ok (n :: names) x = true ->
  segment_ok names (fill_hole n v x) = true.
Proof.
  intros Hv. destruct x as [s | m]; cbn [segment_ok fill_hole existsb];
    [auto |].
  intros H. apply andb_prop in H. destruct H as [Hm H].
  destruct (text_eqb m n); [exact Hv |].
  cbn [orb segment_ok] in *. now rewrite Hm, H.
Qed.

Lemma fill_holes_ok (n v : text) (names : list text)
    (template : list segment) :
  no_lbrace v = true ->
  forallb (segment_ok (n :: names)) template = true ->
  forallb (segment_ok names) (map (fill_hole n v) template) = true.
Proof.
  intros Hv H. rewrite forallb_forall in *. intros x Hx.
  apply in_map_iff in Hx. destruct Hx as (y & <- & Hy).
  apply fill_hole_ok; auto.
Qed.

(** With nothing left to fill, no opening brace is left. *)
Lemma render_filled (template : list segment) :
  forallb (segment_ok []) template = true ->
  no_lbrace (render template) = true.
Proof.
  unfold render, no_lbrace. induction template as [| x template IH];
    intros H; [reflexivity |].
  cbn [forallb] in H. apply andb_prop in H. destruct H as [Hx H].
  cbn [flat_map]. rewrite mem_char_app. apply negb_true_iff, orb_false_iff.
  split; [| apply negb_true_iff, IH, H].
  destruct x as [s | m]; cbn [segment_ok existsb] in Hx.
  - now apply negb_true_iff.
  - now rewrite andb_false_r in Hx.
Qed.

(** The four replacements, one after the other, on a template whose
    holes are all placeholders. *)
Lemma replace_all_placeholders (template technology number percentage metric
    : text) :
  text_eqb (render (segments template)) template
  && forallb (segment_ok placeholders) (segments template) = true ->
  no_lbrace technology = true -> no_lbrace number = true ->
  no_lbrace percentage = true -> no_lbrace metric = true ->
  no_lbrace
    (replace (T "{metric}") metric
       (replace (T "{percentage}") percentage
          (replace (T "{number}") number
             (replace (T "{technology}") technology template)))) = true.
Proof.
  intros H H1 H2 H3 H4. apply andb_prop in H. destruct H as [E S].
  apply text_eqb_eq in E. rewrite <- E. clear E.
  set (t0 := segments template) in *. clearbody t0.
  change (T "{technology}") with (lbrace :: T "technology" ++ [rbrace]).
  change (T "{number}") with (lbrace :: T "number" ++ [rbrace]).
  change (T "{percentage}") with (lbrace :: T "percentage" ++ [rbrace]).
  change (T "{metric}") with (lbrace :: T "metric" ++ [rbrace]).
  unfold placeholders in S. cbn [map] in S.
  rewrite (@replace_render _ (T "technology") technology t0 eq_refl S).
  pose proof (@fill_holes_ok _ _ _ _ H1 S) as S1.
  rewrite (@replace_render _ (T "number") number _ eq_refl S1).
  pose proof (@fill_holes_ok _ _ _ _ H2 S1) as S2.
  rewrite (@replace_render _ (T "percentage") percentage _ eq_refl S2).
  pose proof (@fill_holes_ok _ _ _ _ H3 S2) as S3.
  rewrite (@replace_render _ (T "metric") metric _ eq_refl S3).
  pose proof (@fill_holes_ok _ _ _ _ H4 S3) as S4.
  apply render_filled, S4.
Qed.

(** *** The values filled in *)

Lemma string_of_uint_digits (u : Decimal.uint) :
  no_lbrace (T (NilEmpty.string_of_uint u)) = true.
Proof. induction u; cbn; auto. Qed.

Lemma str_of_Z_digits (n : Z) : no_lbrace (str_of_Z n) = true.
Proof. apply string_of_uint_digits. Qed.

Lemma random_choice_Forall (P : text -> Prop) (l : list text) (g : rng) :
  l <> [] -> Forall P l -> P (fst (random_choice l g)).
Proof.
  intros N F. rewrite Forall_forall in F. apply F, random_choice_In, N.
Qed.

(** Every template of the table is made of literals without an opening
    brace and of the four placeholders. *)
Lemma experience_templates_segments :
  forallb (fun template =>
             text_eqb (render (segments template)) template
             && forallb (segment_ok placeholders) (segments template))
          experience_templates = true.
Proof. vm_compute. reflexivity. Qed.

Lemma fill_placeholders_filled (template : text) (g : rng) :
  In template experience_templates ->
  no_lbrace (fst (fill_placeholders template g)) = true.
Proof.
  intros I. pose proof experience_templates_segments as S.
  rewrite forallb_forall in S. specialize (S template I).
  unfold fill_placeholders.
  set (technologies := map T [ "web"; "mobile"; "cloud"; "desktop" ]%string).
  set (metrics :=
         map T [ "accuracy"; "efficiency"; "sales"; "retention" ]%string).
  assert (T1 : no_lbrace (fst (random_choice technologies g)) = true).
  { apply random_choice_Forall; [discriminate |].
    repeat constructor. }
  destruct (random_choice technologies g) as [technology g1].
  unfold randint.
  destruct (randbelow _ g1) as [i g2].
  destruct (randbelow _ g2) as [j g3].
  assert (T4 : no_lbrace (fst (random_choice metrics g3)) = true).
  { apply random_choice_Forall; [discriminate |].
    repeat constructor. }
  destruct (random_choice metrics g3) as [metric g4].
  cbn [fst] in *.
  apply replace_all_placeholders; auto using str_of_Z_digits.
Qed.

(** *** The number of bullet points *)

Lemma fill_all_spec (templates : list text) :
  forall g,
  Forall (fun t => In t experience_templates) templates ->
  length (fst (fill_all templates g)) = length templates /\
  Forall (fun b => no_lbrace b = true) (fst (fill_all templates g)).
Proof.
  induction templates as [| t templates IH]; intros g F;
    [split; [reflexivity | constructor] |].
  apply Forall_cons_iff in F. destruct F as [Ft F].
  cbn [fill_all]. pose proof (fill_placeholders_filled g Ft) as B.
  destruct (fill_placeholders t g) as [bullet g1].
  destruct (IH g1 F) as [L N].
  destruct (fill_all templates g1) as [bullets g2]. cbn [fst] in *.
  split; [cbn; now rewrite L | now constructor].
Qed.

Lemma software_developer_templates :
  table_get EXPERIENCE_SUGGESTIONS (T "software developer") [] <> [] /\
  Forall (fun t => In t experience_templates)
         (table_get EXPERIENCE_SUGGESTIONS (T "software developer") []).
Proof.
  split; [vm_compute; discriminate |].
  apply Forall_forall. intros t Ht. unfold experience_templates.
  apply in_flat_map.
  exists (T "software developer",
          table_get EXPERIENCE_SUGGESTIONS (T "software developer") []).
  split; [vm_compute; tauto | exact Ht].
Qed.

Lemma fill_up_spec (missing : nat) :
  forall g,
  length (fst (fill_up missing g)) = missing /\
  Forall (fun b => no_lbrace b = true) (fst (fill_up missing g)).
Proof.
  induction missing as [| missing IH]; intros g;
    [split; [reflexivity | constructor] |].
  cbn [fill_up]. destruct software_developer_templates as [N F].
  pose proof (@random_choice_Forall _ _ g N F) as I.
  destruct (random_choice _ g) as [template g1]. cbn [fst] in I.
  pose proof (fill_placeholders_filled g1 I) as B.
  destruct (fill_placeholders template g1) as [bullet g2].
  destruct (IH g2) as [L A].
  destruct (fill_up missing g2) as [bullets g3]. cbn [fst] in *.
  split; [cbn; now rewrite L | now constructor].
Qed.

Lemma sample_incl (population : list text) (k : nat) (g : rng) :
  k <= length population ->
  length (fst (random_sample population k g)) = k /\
  incl (fst (random_sample population k g)) population.
Proof.
  intros Hk. unfold random_sample.
  destruct (@sample_go_perm k population (length population) g Hk (le_n _))
    as (L & rest & P).
  rewrite firstn_all in P. split; [exact L |].
  intros x Hx. apply (Permutation_in _ P), in_or_app. now left.
Qed.

(** The templates the fallback samples from. *)
Lemma bullet_templates (job_role : text) :
  let found := match find (fun e => contains (fst e) job_role)
                          EXPERIENCE_SUGGESTIONS with
               | Some e => snd e
               | None => []
               end in
  Forall (fun t => In t experience_templates)
         match found with
         | [] => table_get EXPERIENCE_SUGGESTIONS (T "software developer") []
         | _ => found
         end.
Proof.
  intros found. unfold found.
  destruct (find _ EXPERIENCE_SUGGESTIONS) as [e |] eqn:F.
  - destruct (snd e) as [| t ts] eqn:E;
      [apply software_developer_templates |].
    rewrite <- E. apply Forall_forall. intros x Hx.
    unfold experience_templates. apply in_flat_map. exists e.
    split; [exact (proj1 (find_some _ _ F)) | exact Hx].
  - apply software_developer_templates.
Qed.

(** X22: when the service gives nothing to go by,
    [get_experience_bullet_points] returns exactly [count] bullet
    points, and none of them has a placeholder left to fill: no opening
    brace is found in them, whatever the state of the random
    generator. *)
Theorem X22_get_experience_bullet_points_fallback
    (world : service) (job_role : text) (company : option text)
    (count : nat) (g : rng) :
  no_answer (get_suggestions_from_ollama world
               (bullets_prompt (lower_text job_role) company count)) = true ->
  let r := fst (get_experience_bullet_points world job_role company count g) in
  length r = count /\ Forall (fun b => no_lbrace b = true) r.
Proof.
  intros H r. unfold r, get_experience_bullet_points. cbv zeta.
  destruct (get_suggestions_from_ollama _ _) as [[| c s] |];
    try discriminate H.
  all: pose proof (bullet_templates (lower_text job_role)) as BT;
    cbv zeta in BT;
    set (templates := match match find _ EXPERIENCE_SUGGESTIONS with
                            | Some e => snd e
                            | None => []
                            end with
                      | [] => _
                      | _ => _
                      end) in *;
    destruct (@sample_incl templates (Nat.min count (length templates)) g
                (Nat.le_min_r _ _)) as [SL SI];
    destruct (random_sample templates _ g) as [sampled g1]; cbn [fst] in *;
    assert (SF : Forall (fun t => In t experience_templates) sampled)
      by (rewrite Forall_forall in *; intros x Hx; apply BT, SI, Hx);
    destruct (fill_all_spec g1 SF) as [FL FN];
    destruct (fill_all sampled g1) as [bullet_points g2]; cbn [fst] in *;
    destruct (fill_up_spec (count - length bullet_points) g2) as [UL UN];
    destruct (fill_up _ g2) as [more g3]; cbn [fst] in *;
    (split; [rewrite length_app; lia | apply Forall_app; now split]).
Qed.

Lemma X22_get_experience_bullet_points_fallback_witness :
  let r := fst (get_experience_bullet_points (fun _ => Raised)
                  (T "Data Scientist") (Some (T "Acme")) 8
                  (fun i => 7 * i + 2)) in
  length r = 8 /\ Forall (fun b => no_lbrace b = true) r.
Proof.
  apply (@X22_get_experience_bullet_points_fallback (fun _ => Raised)
           (T "Data Scientist") (Some (T "Acme")) 8 (fun i => 7 * i + 2)).
  reflexivity.
Defined.

(** ** Enhancing with the service *)

(** X23: [enhance_with_ai] returns the text it was given unless both of
    its requests came back: whenever the text returned is another, the
    first request was answered with status 200 and a body that decodes,
    the text is the ["response"] of that body (the empty text when the
    body has no such key), and the second request did not raise.  So a
    failure of the request for the explanation also discards the improved
    text. *)
Theorem X23_enhance_with_ai_keeps_text_on_failure
    (world : ollama) (t job_role : text) :
  let r := enhance_with_ai world t job_role in
  fst r = t \/
  exists data,
    world 0 (improve_prompt t job_role) = Posted 200 (inr data) /\
    fst r = match data with Some response => response | None => [] end /\
    match world 1 (explanation_prompt t (fst r)) with
    | PostRaised _ => False
    | Posted _ _ => True
    end.
Proof.
  intros r. unfold r, enhance_with_ai.
  destruct (world 0 (improve_prompt t job_role)) as [m | code [m | data]];
    [now left | |].
  - destruct code as [| p | p]; try (now left).
    repeat (destruct p as [p | p |]; try (now left)).
  - assert (E : code = 200%Z \/ code <> 200%Z) by lia.
    destruct E as [-> | Ne].
    + set (enhanced := match data with Some r => r | None => [] end).
      destruct (world 1 (explanation_prompt t enhanced))
        as [m | code2 [m | data2]] eqn:W; [now left | |].
      * destruct code2 as [| p | p]; cbn [fst];
          try (right; exists data; rewrite W; now auto).
        repeat (destruct p as [p | p |]; cbn [fst];
                try (right; exists data; rewrite W; now auto));
          now left.
      * right. exists data.
        assert (F : fst match code2 with
                        | 200%Z =>
                            (enhanced,
                             match data2 with
                             | Some explanation => explanation
                             | None => default_explanation
                             end)
                        | _ => (enhanced, default_explanation)
                        end = enhanced).
        { destruct code2 as [| p | p]; try reflexivity.
          repeat (destruct p as [p | p |]; try reflexivity). }
        rewrite F, W. auto.
    + left. destruct code as [| p | p]; try reflexivity.
      repeat (destruct p as [p | p |]; try reflexivity). contradiction.
Qed.

(** ** Years of experience *)

Section YearsFacts.

Variable int_of_str : text -> option Z.
Variable now : Z * Z.

Lemma duration_months_nonneg (exp : experience) :
  (0 <= duration_months int_of_str now exp)%Z.
Proof.
  unfold duration_months. destruct (start_date exp); [lia |].
  destruct (year_month _ _ _) as [[sy sm] |]; [| lia].
  destruct (if text_eqb _ _ then _ else _) as [[ey em] |]; lia.
Qed.

Lemma fold_months (experiences : list experience) :
  forall total,
  fold_left (fun total exp =>
               (total + duration_months int_of_str now exp)%Z)
            experiences total
  = (total + total_months int_of_str now experiences)%Z.
Proof.
  unfold total_months.
  induction experiences as [| e es IH]; intros total; cbn [fold_left];
    [lia |].
  rewrite IH, (IH (0 + _)%Z). lia.
Qed.

Lemma total_months_cons (exp : experience) (experiences : list experience) :
  total_months int_of_str now (exp :: experiences)
  = (duration_months int_of_str now exp
     + total_months int_of_str now experiences)%Z.
Proof. unfold total_months at 1. cbn [fold_left]. now rewrite fold_months. Qed.

Lemma total_months_nonneg (experiences : list experience) :
  (0 <= total_months int_of_str now experiences)%Z.
Proof.
  induction experiences as [| e es IH]; [reflexivity |].
  rewrite total_months_cons. pose proof (duration_months_nonneg e). lia.
Qed.

Lemma total_months_app (l1 l2 : list experience) :
  total_months int_of_str now (l1 ++ l2)
  = (total_months int_of_str now l1 + total_months int_of_str now l2)%Z.
Proof.
  induction l1 as [| e l1 IH]; [reflexivity |].
  cbn [app]. rewrite !total_months_cons, IH. lia.
Qed.

Lemma total_months_perm (l1 l2 : list experience) :
  Permutation l1 l2 ->
  total_months int_of_str now l1 = total_months int_of_str now l2.
Proof.
  induction 1 as [| e l l' _ IH | e e' l | l l' l'' _ IH1 _ IH2];
    rewrite ?total_months_cons; lia.
Qed.

End YearsFacts.

(** X24: the years of experience do not depend on the order of the
    entries. *)
Theorem X24_extract_years_of_experience_order
    (int_of_str : text -> option Z) (now : Z * Z)
    (l1 l2 : list experience) :
  Permutation l1 l2 ->
  extract_years_of_experience int_of_str now l1
  = extract_years_of_experience int_of_str now l2.
Proof.
  intros P. unfold extract_years_of_experience.
  now rewrite (total_months_perm int_of_str now P).
Qed.

Lemma X24_extract_years_of_experience_order_witness :
  extract_years_of_experience (fun _ => Some 2020%Z) (2024, 6)%Z
    [ {| start_date := T "2020"; end_date := T "Present" |};
      {| start_date := []; end_date := T "2021" |} ]
  = extract_years_of_experience (fun _ => Some 2020%Z) (2024, 6)%Z
      [ {| start_date := []; end_date := T "2021" |};
        {| start_date := T "2020"; end_date := T "Present" |} ].
Proof.
  apply (@X24_extract_years_of_experience_order (fun _ => Some 2020%Z)
           (2024, 6)%Z).
  apply perm_swap.
Defined.

(** X25: the years of experience are never negative, and the months of
    all entries are added up before the division by 12, also when the
    entries overlap in time: the years of two lists together are the sum
    of the years of each, or one more. *)
Theorem X25_extract_years_of_experience_adds
    (int_of_str : text -> option Z) (now : Z * Z)
    (l1 l2 : list experience) :
  let years := extract_years_of_experience int_of_str now in
  (0 <= years l1 /\
   years l1 + years l2 <= years (l1 ++ l2) <= years l1 + years l2 + 1)%Z.
Proof.
  intros years. unfold years, extract_years_of_experience.
  rewrite total_months_app.
  pose proof (total_months_nonneg int_of_str now l1) as N1.
  pose proof (total_months_nonneg int_of_str now l2) as N2.
  set (a := total_months int_of_str now l1) in *.
  set (b := total_months int_of_str now l2) in *.
  pose proof (Z.div_mod a 12 ltac:(lia)). pose proof (Z.mod_pos_bound a 12 ltac:(lia)).
  pose proof (Z.div_mod b 12 ltac:(lia)). pose proof (Z.mod_pos_bound b 12 ltac:(lia)).
  pose proof (Z.div_mod (a + b) 12 ltac:(lia)).
  pose proof (Z.mod_pos_bound (a + b) 12 ltac:(lia)).
  lia.
Qed.

(** ** Spelling corrector: where the corrections come from *)

Lemma lit_ci_firstn (p : text) :
  forall prev s l r,
  lit_ci p prev s = Some (l, r) ->
  ci_text_eq p (firstn (length p) s) = true.
Proof.
  induction p as [| a p IH]; intros prev s l r H; [reflexivity |].
  destruct s as [| c s]; [discriminate H |]. cbn [lit_ci] in H.
  cbn [length firstn ci_text_eq]. destruct (ci_eq a c); [| discriminate H].
  exact (IH _ _ _ _ H).
Qed.

(** Every match [re.finditer] yields is the pattern up to case. *)
Lemma finditer_go_ci (p : text) (s : text) :
  forall skip prev,
  Forall (fun m => ci_text_eq p m = true) (finditer_go p skip prev s).
Proof.
  induction s as [| c s IH]; intros skip prev; [constructor |].
  cbn [finditer_go]. destruct skip as [| k]; [| apply IH].
  destruct (word_at p prev (c :: s)) eqn:W; [| apply IH].
  constructor; [| apply IH].
  unfold word_at in W. apply andb_prop in W. destruct W as [_ W].
  destruct (lit_ci p prev (c :: s)) as [[l r] |] eqn:L; [| discriminate W].
  exact (lit_ci_firstn _ _ _ L).
Qed.

Lemma spelling_step_from_lexicon (lexicon : list (text * text))
    (st : text * list Correction) (e : text * text) :
  In e lexicon -> plain (fst e) = true ->
  Forall (from_lexicon lexicon) (snd st) ->
  Forall (from_lexicon lexicon) (snd (spelling_step st e)).
Proof.
  intros I P F. destruct st as [txt cs], e as [mistake correction].
  cbn [spelling_step]. destruct (re_search_word mistake txt); [| exact F].
  cbn [fst snd] in *. apply Forall_app. split; [exact F |].
  pose proof (finditer_go_ci mistake txt 0 None) as M.
  unfold re_finditer_word. induction M as [| m ms Hm _ IH]; [constructor |].
  cbn [map]. constructor; [| exact IH].
  exists (mistake, correction). cbn [fst snd].
  rewrite (@ci_text_eq_spelled mistake m P) in Hm. auto.
Qed.

Lemma spelling_fold_from_lexicon (lexicon entries : list (text * text)) :
  lexicon_ok lexicon = true -> incl entries lexicon ->
  forall st,
  Forall (from_lexicon lexicon) (snd st) ->
  Forall (from_lexicon lexicon) (snd (fold_left spelling_step entries st)).
Proof.
  intros L. induction entries as [| e entries IH]; intros I st F; [exact F |].
  cbn [fold_left]. apply IH; [intros x Hx; apply I; now right |].
  assert (He : In e lexicon) by (apply I; now left).
  apply spelling_step_from_lexicon; [exact He | | exact F].
  apply single_plain. exact (@lexicon_single _ L _ He).
Qed.

(** X26: every correction [check_spelling] reports pairs a text that is a
    misspelling of the lexicon, letter by letter, each letter in lower
    or in upper case (or, for [i], [s] and [k], one of the four
    characters [re.IGNORECASE] takes for them: U+0130, U+0131, U+017F,
    U+212A), with the correction the lexicon gives for it, capitalized
    when the matched text starts with a capital. *)
Theorem X26_check_spelling_reports_lexicon (t : text) :
  Forall (from_lexicon COMMON_SPELLING_MISTAKES) (snd (check_spelling t)).
Proof.
  exact (@spelling_fold_from_lexicon COMMON_SPELLING_MISTAKES
           COMMON_SPELLING_MISTAKES COMMON_SPELLING_MISTAKES_ok
           (incl_refl _) (t, []) (Forall_nil _)).
Qed.

(** ** The generator: a resume in every case *)

Lemma basic_modern : dict_get BASIC_TEMPLATES (T "modern") [] = MODERN_TEMPLATE.
Proof. vm_compute. reflexivity. Qed.

Lemma format_resume_from_template_modern
    (TEMPLATES_AVAILABLE AI_SUGGESTIONS_AVAILABLE : bool) (world : service)
    (name job_role skills experience education email phone location links
       : text) (g : rng) :
  exists out,
    fst (format_resume_from_template TEMPLATES_AVAILABLE
           AI_SUGGESTIONS_AVAILABLE world name job_role skills experience
           education email phone location links (T "modern") g)
    = Formatted out.
Proof.
  unfold format_resume_from_template.
  destruct (get_summary AI_SUGGESTIONS_AVAILABLE world job_role g)
    as [summary g'].
  destruct TEMPLATES_AVAILABLE; cbn [fst].
  - unfold format_resume. apply str_format_templates.
    + apply get_template_cases.
    + destruct (contains _ _); [rewrite set_key_keys |];
        apply fold_update_keys.
  - change (lower_text (T "modern")) with (T "modern").
    change (dict_get BASIC_TEMPLATES (T "modern")
              (dict_get BASIC_TEMPLATES (T "modern") []))
      with (dict_get BASIC_TEMPLATES (T "modern") []).
    rewrite basic_modern. apply str_format_templates; [| reflexivity].
    cbn. tauto.
Qed.

(** X27: when the [requests] package can be imported,
    [generate_resume_with_ai] always returns a resume: the text the
    service wrote, when the connection test succeeds and the service
    answers with status 200 and a text that is not empty, and otherwise
    the modern template filled in, which never fails. *)
Theorem X27_generate_resume_with_ai_returns
    (TEMPLATES_AVAILABLE AI_SUGGESTIONS_AVAILABLE connected : bool)
    (world : service)
    (name job_role skills experience education email phone location links
       : text) (g : rng) :
  let r := fst (generate_resume_with_ai TEMPLATES_AVAILABLE
                  AI_SUGGESTIONS_AVAILABLE true connected world name job_role
                  skills experience education email phone location links g) in
  (exists c s,
     r = Generated (c :: s) /\ connected = true /\
     world (resume_prompt name job_role skills experience education email
                          phone location links) = Answered 200 (c :: s)) \/
  (exists out, r = FromTemplate (Formatted out)).
Proof.
  intros r.
  destruct (format_resume_from_template_modern TEMPLATES_AVAILABLE
              AI_SUGGESTIONS_AVAILABLE world name job_role skills experience
              education email phone location links g) as (out & E).
  unfold r, generate_resume_with_ai. cbn [negb].
  destruct (format_resume_from_template _ _ _ _ _ _ _ _ _ _ _ _ _ _)
    as [resume g'].
  cbn [fst] in E. subst resume.
  destruct connected; cbn [negb]; [| right; now exists out].
  destruct (world _) as [| code response] eqn:W; [right; now exists out |].
  assert (C : code = 200%Z \/ code <> 200%Z) by lia.
  destruct C as [-> | Ne].
  - destruct response as [| c s]; [right; now exists out |].
    left. exists c, s. auto.
  - right. exists out. destruct code as [| p | p]; try reflexivity.
    repeat (destruct p as [p | p |]; try reflexivity). contradiction.
Qed.
